(** * hepconduit: a shallow embedding of the conversion core

    The development follows the layout of the Python package, one Rocq
    module per source module: [models], [fingerprint], [validation],
    [filtering] (with [ast]), [hepmc3], [parquet], [lhe], [audit] and
    [convert].  They are preceded by the pieces of the Python runtime
    the code relies on ([Py]: strings and integers, [dict]: dictionaries,
    [hashlib]: SHA-256, [json]: the deterministic encoder, [PySort]:
    sorting of integer tuples) and followed by the theorems.

    Conventions.
    - A Python [int] is a [Z]; a Python [str] is a Rocq [string] holding
      its UTF-8 encoding, so [s.encode("utf-8")] is the identity.
    - A Python [float] is an element of a type [F] equipped with the
      operations of [FloatModel]; the definitions and the general
      theorems are parametric in that model.  Concrete evaluations use
      the exact-rational instance [QFloatModel]; the numerical ones are
      repeated in IEEE double precision ([Binary64Model]).
    - A raised exception is a value of type [exn] in the [result] type.
    - A dictionary is an association list in insertion order.
    - A function that mutates its argument returns the new value; where
      two names refer to one mutable object ([convert]) the sharing is
      kept explicit. *)

From Stdlib Require Import ZArith QArith Qround Qabs Lqa Lia List String Ascii Bool.
From Stdlib Require Import Permutation Sorted DecimalString DecimalPos DecimalZ.
From Stdlib Require Import Floats Uint63.
Import ListNotations.

Set Warnings "-register-all".

Local Open Scope string_scope.
Local Open Scope Z_scope.

(** ** Exceptions and results *)

Inductive exn : Type :=
| ValueError (msg : string)
| IndexError (msg : string)
| OverflowError (msg : string)
| RecursionError (msg : string)
| MemoryError (msg : string)
| UnsafeFilterExpression (msg : string).

Inductive result (A : Type) : Type :=
| Ok (a : A)
| Raise (e : exn).
Arguments Ok {A} a.
Arguments Raise {A} e.

Definition bind {A B : Type} (m : result A) (k : A -> result B) : result B :=
  match m with
  | Ok a => k a
  | Raise e => Raise e
  end.

Notation "x <- m ;; k" := (bind m (fun x => k))
  (at level 61, m at next level, right associativity).

Definition raises {A : Type} (m : result A) : Prop :=
  exists e, m = Raise e.

(** ** The Python runtime pieces used by the package *)

Module Py.

(** [str.isspace] restricted to ASCII: TAB..CR, FS..US and the blank. *)
Definition is_space (c : ascii) : bool :=
  let n := Z.of_nat (nat_of_ascii c) in
  ((9 <=? n) && (n <=? 13)) || ((28 <=? n) && (n <=? 32)).

Definition is_digit (c : ascii) : bool :=
  let n := Z.of_nat (nat_of_ascii c) in
  (48 <=? n) && (n <=? 57).

Definition digit_val (c : ascii) : Z := Z.of_nat (nat_of_ascii c) - 48.

Fixpoint lstrip (s : string) : string :=
  match s with
  | String c s' => if is_space c then lstrip s' else s
  | EmptyString => EmptyString
  end.

Fixpoint rev_string (s acc : string) : string :=
  match s with
  | EmptyString => acc
  | String c s' => rev_string s' (String c acc)
  end.

Definition rstrip (s : string) : string :=
  rev_string (lstrip (rev_string s EmptyString)) EmptyString.

(** [s.strip()] *)
Definition strip (s : string) : string := rstrip (lstrip s).

(** [s.split()] on ASCII text: maximal runs of non-blank characters,
    the blanks being those of [is_space] (the blanks of Unicode outside
    ASCII are ordinary characters here).  [cur] is the token being read,
    reversed. *)
Fixpoint split_aux (s : string) (cur : string) : list string :=
  match s with
  | EmptyString =>
      match cur with
      | EmptyString => []
      | _ => [rev_string cur EmptyString]
      end
  | String c s' =>
      if is_space c then
        match cur with
        | EmptyString => split_aux s' EmptyString
        | _ => rev_string cur EmptyString :: split_aux s' EmptyString
        end
      else split_aux s' (String c cur)
  end.

Definition split (s : string) : list string := split_aux s EmptyString.

(** [s.startswith(p)] *)
Definition startswith (s p : string) : bool := String.prefix p s.

(** [not s] for a string. *)
Definition is_empty (s : string) : bool :=
  match s with EmptyString => true | _ => false end.

(** [str(n)] for an integer. *)
Definition str_of_int (n : Z) : string := NilZero.string_of_int (Z.to_int n).

(** Digits of an integer literal as [int()] accepts them: groups of
    decimal digits separated by single underscores.  [acc] is the value
    read so far, [prev_digit] tells whether the previous character was a
    digit. *)
Fixpoint int_digits (s : string) (acc : Z) (prev_digit : bool) : option Z :=
  match s with
  | EmptyString => if prev_digit then Some acc else None
  | String c s' =>
      if is_digit c then int_digits s' (10 * acc + digit_val c) true
      else if Ascii.eqb c "_"%char then
        if prev_digit then int_digits s' acc false else None
      else None
  end.

(** [int(s)] on a string, base 10: surrounding blanks are ignored, one
    optional sign, then the digits.  Only ASCII digits are read, the
    interpreter's limit on the length of the literal is left out, and
    the message quotes the text between single quotes as it is. *)
Definition int_of_str (s : string) : result Z :=
  let bad :=
    Raise (ValueError ("invalid literal for int() with base 10: '" ++ s ++ "'")) in
  match strip s with
  | String "-"%char d =>
      match int_digits d 0 false with Some n => Ok (- n) | None => bad end
  | String "+"%char d =>
      match int_digits d 0 false with Some n => Ok n | None => bad end
  | d =>
      match int_digits d 0 false with Some n => Ok n | None => bad end
  end.

(** [xs[i]] for [0 <= i]: out of range raises [IndexError]. *)
Definition getitem {A : Type} (xs : list A) (i : nat) : result A :=
  match nth_error xs i with
  | Some x => Ok x
  | None => Raise (IndexError "list index out of range")
  end.

(** [sep.join(xs)] *)
Definition join (sep : string) (xs : list string) : string := String.concat sep xs.

End Py.

(** Python dictionaries as association lists in insertion order. *)

Module dict.
Section WithKey.
Context {K V : Type} (eqb : K -> K -> bool).

Fixpoint get (d : list (K * V)) (k : K) : option V :=
  match d with
  | [] => None
  | (k', v) :: d' => if eqb k' k then Some v else get d' k
  end.

(** [d[k] = v] *)
Fixpoint set (d : list (K * V)) (k : K) (v : V) : list (K * V) :=
  match d with
  | [] => [(k, v)]
  | (k', v') :: d' =>
      if eqb k' k then (k', v) :: d' else (k', v') :: set d' k v
  end.

(** [d[k] = f(d[k])] for a key that is present. *)
Fixpoint update (d : list (K * V)) (k : K) (f : V -> V) : list (K * V) :=
  match d with
  | [] => []
  | (k', v') :: d' =>
      if eqb k' k then (k', f v') :: d' else (k', v') :: update d' k f
  end.

End WithKey.

Definition pair_eqb (a b : Z * Z) : bool :=
  (fst a =? fst b) && (snd a =? snd b).

(** [sorted(xs)] on integers, and [sorted(set(xs))]. *)
Fixpoint insert_Z (x : Z) (l : list Z) : list Z :=
  match l with
  | [] => [x]
  | y :: l' => if x <=? y then x :: l else y :: insert_Z x l'
  end.

Definition sorted_Z (l : list Z) : list Z := fold_right insert_Z [] l.

Fixpoint insert_new_Z (x : Z) (l : list Z) : list Z :=
  match l with
  | [] => [x]
  | y :: l' =>
      if x <? y then x :: l
      else if x =? y then l
      else y :: insert_new_Z x l'
  end.

Definition sorted_set_Z (l : list Z) : list Z := fold_right insert_new_Z [] l.

(** [x in xs] *)
Definition mem_Z (x : Z) (l : list Z) : bool := existsb (Z.eqb x) l.

End dict.

(** ** hashlib.sha256 (FIPS 180-4) on byte strings *)

Module hashlib.

Definition w32 : Z := 4294967296.

Definition add32 (a b : Z) : Z := (a + b) mod w32.

Definition rotr (n x : Z) : Z :=
  Z.lor (Z.shiftr x n) (Z.land (Z.shiftl x (32 - n)) (w32 - 1)).

Definition not32 (x : Z) : Z := Z.lxor x (w32 - 1).

Definition Ch (x y z : Z) : Z := Z.lxor (Z.land x y) (Z.land (not32 x) z).
Definition Maj (x y z : Z) : Z :=
  Z.lxor (Z.lxor (Z.land x y) (Z.land x z)) (Z.land y z).
Definition Sigma0 (x : Z) : Z := Z.lxor (Z.lxor (rotr 2 x) (rotr 13 x)) (rotr 22 x).
Definition Sigma1 (x : Z) : Z := Z.lxor (Z.lxor (rotr 6 x) (rotr 11 x)) (rotr 25 x).
Definition sigma0 (x : Z) : Z := Z.lxor (Z.lxor (rotr 7 x) (rotr 18 x)) (Z.shiftr x 3).
Definition sigma1 (x : Z) : Z := Z.lxor (Z.lxor (rotr 17 x) (rotr 19 x)) (Z.shiftr x 10).

Definition hex_val (c : ascii) : Z :=
  let n := Z.of_nat (nat_of_ascii c) in
  if n <? 58 then n - 48 else n - 87.

(** The 32-bit words written in a string of hexadecimal digits, eight
    digits per word; [n] digits of the current word are still to come
    after the next one. *)
Fixpoint hex_words (s : string) (acc : Z) (n : nat) : list Z :=
  match s with
  | EmptyString => []
  | String c s' =>
      let acc' := 16 * acc + hex_val c in
      match n with
      | O => acc' :: hex_words s' 0 7
      | S n' => hex_words s' acc' n'
      end
  end.

(** The round constants: the fractional parts of the cube roots of the
    first sixty-four primes. *)
Definition K256 : list Z :=
  hex_words
    ("428a2f9871374491b5c0fbcfe9b5dba53956c25b59f111f1923f82a4ab1c5ed5"
     ++ "d807aa9812835b01243185be550c7dc372be5d7480deb1fe9bdc06a7c19bf174"
     ++ "e49b69c1efbe47860fc19dc6240ca1cc2de92c6f4a7484aa5cb0a9dc76f988da"
     ++ "983e5152a831c66db00327c8bf597fc7c6e00bf3d5a7914706ca635114292967"
     ++ "27b70a852e1b21384d2c6dfc53380d13650a7354766a0abb81c2c92e92722c85"
     ++ "a2bfe8a1a81a664bc24b8b70c76c51a3d192e819d6990624f40e3585106aa070"
     ++ "19a4c1161e376c082748774c34b0bcb5391c0cb34ed8aa4a5b9cca4f682e6ff3"
     ++ "748f82ee78a5636f84c878148cc7020890befffaa4506cebbef9a3f7c67178f2")
    0 7.

(** The initial hash value: the fractional parts of the square roots of
    the first eight primes. *)
Definition H0 : list Z :=
  hex_words "6a09e667bb67ae853c6ef372a54ff53a510e527f9b05688c1f83d9ab5be0cd19" 0 7.

(** Big-endian bytes of a [n]-byte unsigned number. *)
Fixpoint be_bytes (n : nat) (x : Z) : list Z :=
  match n with
  | O => []
  | S n' => Z.land (Z.shiftr x (8 * Z.of_nat n')) 255 :: be_bytes n' x
  end.

(** Message padding: 0x80, zeros up to 56 mod 64, then the bit length
    on eight bytes. *)
Definition pad (msg : list Z) : list Z :=
  let len := Z.of_nat (List.length msg) in
  let zeros := Z.to_nat ((55 - len) mod 64) in
  (msg ++ [128] ++ repeat 0 zeros ++ be_bytes 8 (8 * len))%list.

Fixpoint words_of_bytes (bs : list Z) : list Z :=
  match bs with
  | a :: b :: c :: d :: rest =>
      (Z.shiftl a 24 + Z.shiftl b 16 + Z.shiftl c 8 + d) :: words_of_bytes rest
  | _ => []
  end.

(** The message schedule, most recent word first: [rw] holds
    W[t-1], W[t-2], ... *)
Fixpoint extend (n : nat) (rw : list Z) : list Z :=
  match n with
  | O => rw
  | S n' =>
      let w :=
        add32 (add32 (sigma1 (nth 1 rw 0)) (nth 6 rw 0))
              (add32 (sigma0 (nth 14 rw 0)) (nth 15 rw 0)) in
      extend n' (w :: rw)
  end.

Definition schedule (block : list Z) : list Z := rev (extend 48 (rev block)).

Definition state : Type := (Z * Z * Z * Z * Z * Z * Z * Z)%type.

Definition round (st : state) (kw : Z * Z) : state :=
  let '(a, b, c, d, e, f, g, h) := st in
  let '(k, w) := kw in
  let t1 := add32 (add32 (add32 h (Sigma1 e)) (add32 (Ch e f g) k)) w in
  let t2 := add32 (Sigma0 a) (Maj a b c) in
  (add32 t1 t2, a, b, c, add32 d t1, e, f, g).

Definition compress (st : state) (block : list Z) : state :=
  let '(a, b, c, d, e, f, g, h) := st in
  let '(a', b', c', d', e', f', g', h') :=
    fold_left round (combine K256 (schedule block)) st in
  (add32 a a', add32 b b', add32 c c', add32 d d',
   add32 e e', add32 f f', add32 g g', add32 h h').

(** Process the padded message sixteen words at a time. *)
Fixpoint blocks (n : nat) (ws : list Z) (st : state) : state :=
  match n with
  | O => st
  | S n' =>
      match ws with
      | [] => st
      | _ => blocks n' (skipn 16 ws) (compress st (firstn 16 ws))
      end
  end.

Definition init_state : state :=
  match H0 with
  | [a; b; c; d; e; f; g; h] => (a, b, c, d, e, f, g, h)
  | _ => (0, 0, 0, 0, 0, 0, 0, 0)
  end.

Definition hex_digit (n : Z) : ascii :=
  if n <? 10 then ascii_of_nat (Z.to_nat (48 + n))
  else ascii_of_nat (Z.to_nat (87 + n)).

Fixpoint hex_of_bytes (bs : list Z) : string :=
  match bs with
  | [] => EmptyString
  | b :: rest =>
      String (hex_digit (Z.shiftr b 4)) (String (hex_digit (Z.land b 15)) (hex_of_bytes rest))
  end.

Definition bytes_of_string (s : string) : list Z :=
  map (fun c => Z.of_nat (nat_of_ascii c)) (list_ascii_of_string s).

(** [hashlib.sha256(data).hexdigest()] *)
Definition sha256_hex (data : string) : string :=
  let ws := words_of_bytes (pad (bytes_of_string data)) in
  let '(a, b, c, d, e, f, g, h) := blocks (List.length ws) ws init_state in
  hex_of_bytes (flat_map (be_bytes 4) [a; b; c; d; e; f; g; h]).

End hashlib.

(** ** json.dumps(obj, sort_keys=True, separators=(",", ":"), ensure_ascii=False) *)

Module json.

(** The values that reach the encoder in this package.  A dictionary is
    an association list in insertion order, as a Python [dict] is. *)
Inductive value : Type :=
| JNull
| JBool (b : bool)
| JInt (n : Z)
| JStr (s : string)
| JList (xs : list value)
| JDict (items : list (string * value)).

(** Dictionary operations on association lists. *)
Fixpoint dict_get {V : Type} (d : list (string * V)) (k : string) : option V :=
  match d with
  | [] => None
  | (k', v) :: d' => if String.eqb k' k then Some v else dict_get d' k
  end.

(** [d[k] = v]: replace in place when the key is present, else append. *)
Fixpoint dict_set {V : Type} (d : list (string * V)) (k : string) (v : V)
  : list (string * V) :=
  match d with
  | [] => [(k, v)]
  | (k', v') :: d' =>
      if String.eqb k' k then (k', v) :: d' else (k', v') :: dict_set d' k v
  end.

Definition dict_mem {V : Type} (d : list (string * V)) (k : string) : bool :=
  match dict_get d k with Some _ => true | None => false end.

Definition hex4 (n : Z) : string :=
  hashlib.hex_of_bytes [0; n].

(** Escaping of one character of a string ([ensure_ascii=False]): the
    quote, the backslash and the control characters. *)
Definition escape_char (c : ascii) : string :=
  let n := Z.of_nat (nat_of_ascii c) in
  if n =? 34 then "\" ++ String c EmptyString
  else if n =? 92 then "\\"
  else if n =? 10 then "\n"
  else if n =? 13 then "\r"
  else if n =? 9 then "\t"
  else if n =? 8 then "\b"
  else if n =? 12 then "\f"
  else if n <? 32 then "\u" ++ hex4 n
  else String c EmptyString.

Fixpoint escape (s : string) : string :=
  match s with
  | EmptyString => EmptyString
  | String c s' => escape_char c ++ escape s'
  end.

Definition quote (s : string) : string :=
  String (ascii_of_nat 34) (escape s ++ String (ascii_of_nat 34) EmptyString).

(** [sort_keys=True]: items ordered by key (insertion sort; keys of a
    dictionary are distinct, so the order of equal keys is immaterial). *)
Fixpoint insert_item (kv : string * string) (l : list (string * string))
  : list (string * string) :=
  match l with
  | [] => [kv]
  | kv' :: l' =>
      if String.leb (fst kv) (fst kv') then kv :: l else kv' :: insert_item kv l'
  end.

Definition sort_items (l : list (string * string)) : list (string * string) :=
  fold_right insert_item [] l.

(** The encoder.  Each item of a dictionary is encoded first and the
    encoded items are then put in key order. *)
Fixpoint dumps (j : value) : string :=
  match j with
  | JNull => "null"
  | JBool true => "true"
  | JBool false => "false"
  | JInt n => Py.str_of_int n
  | JStr s => quote s
  | JList xs => "[" ++ Py.join "," (map dumps xs) ++ "]"
  | JDict items =>
      "{" ++ Py.join ","
               (map (fun kv => quote (fst kv) ++ ":" ++ snd kv)
                    (sort_items (map (fun kv => (fst kv, dumps (snd kv))) items)))
          ++ "}"
  end.

End json.

(** [provenance.stable_json_dumps] *)
Definition stable_json_dumps (obj : json.value) : string := json.dumps obj.

(** ** Python floats

    The operations on [float] the package uses.  [flit q] is the float
    denoted by the decimal literal [q]; [fdiv] is only ever applied to a
    divisor the code has made non-zero; [fsum] is the builtin [sum] on
    a sequence of floats (how it accumulates is the interpreter's
    business); [fround] is the one-argument [round], which raises on a
    non-finite argument; [float_of_str] is [float(s)]. *)

Class FloatModel (F : Type) : Type := {
  flit : Q -> F;
  fadd : F -> F -> F;
  fsub : F -> F -> F;
  fdiv : F -> F -> F;
  fabs : F -> F;
  fsum : list F -> F;
  fltb : F -> F -> bool;
  fleb : F -> F -> bool;
  feqb : F -> F -> bool;
  fround : F -> result Z;
  float_of_str : string -> result F
}.

(** [a > b] *)
Definition fgtb {F : Type} `{FloatModel F} (a b : F) : bool := fltb b a.

(** The builtin [max]: the first maximal argument. *)
Definition fmax2 {F : Type} `{FloatModel F} (a b : F) : F :=
  if fgtb b a then b else a.


Definition fmax3 {F : Type} `{FloatModel F} (a b c : F) : F :=
  fmax2 (fmax2 a b) c.

(** *** The exact-rational model *)

Module QFloat.

(** [round(x)]: to the nearest integer, ties to the even one. *)
Definition round_half_even (x : Q) : Z :=
  let f := Qfloor x in
  match Qcompare (x - inject_Z f)%Q (1 # 2)%Q with
  | Lt => f
  | Gt => f + 1
  | Eq => if Z.even f then f else f + 1
  end.

(** Decimal digits: value and count. *)
Fixpoint digits (s : string) (acc : Z) (n : Z) : Z * Z * string :=
  match s with
  | String c s' =>
      if Py.is_digit c then digits s' (10 * acc + Py.digit_val c) (n + 1)
      else (acc, n, s)
  | EmptyString => (acc, n, s)
  end.

Definition pow10 (e : Z) : Q :=
  if 0 <=? e then inject_Z (10 ^ e) else (1 / inject_Z (10 ^ (- e)))%Q.

(** The exponent part: empty, or [e]/[E], an optional sign and digits. *)
Definition exponent (s : string) : option Z :=
  match s with
  | EmptyString => Some 0
  | String c s' =>
      if Ascii.eqb c "e"%char || Ascii.eqb c "E"%char then
        let '(neg, d) :=
          match s' with
          | String "-"%char d => (true, d)
          | String "+"%char d => (false, d)
          | d => (false, d)
          end in
        match digits d 0 0 with
        | (v, n, EmptyString) =>
            if 0 <? n then Some (if neg then - v else v) else None
        | _ => None
        end
      else None
  end.

(** An unsigned decimal literal: digits, optional fraction, optional
    exponent, with at least one digit in the mantissa.  The value is
    returned in lowest terms. *)
Definition unsigned_decimal (s : string) : option Q :=
  let '(ip, ni, r1) := digits s 0 0 in
  let '(fp, nf, r2) :=
    match r1 with
    | String "."%char r => digits r 0 0
    | _ => (0, 0, r1)
    end in
  if (ni + nf) =? 0 then None
  else
    match exponent r2 with
    | Some e => Some (Qred (inject_Z (ip * 10 ^ nf + fp) * pow10 (e - nf)))
    | None => None
    end.

(** [float(s)] on finite decimal literals in ASCII digits.  The
    spellings of infinity and not-a-number have no rational value and
    are not literals of this model, and neither are digits grouped by
    underscores. *)
Definition of_str (s : string) : result Q :=
  let bad :=
    Raise (ValueError ("could not convert string to float: '" ++ s ++ "'")) in
  match Py.strip s with
  | String "-"%char d =>
      match unsigned_decimal d with Some q => Ok (- q)%Q | None => bad end
  | String "+"%char d =>
      match unsigned_decimal d with Some q => Ok q | None => bad end
  | d =>
      match unsigned_decimal d with Some q => Ok q | None => bad end
  end.

Definition Qltb (a b : Q) : bool :=
  match Qcompare a b with Lt => true | _ => false end.

End QFloat.

#[export] Instance QFloatModel : FloatModel Q := {
  flit := fun q => q;
  fadd := Qplus;
  fsub := Qminus;
  fdiv := Qdiv;
  fabs := Qabs;
  fsum := fun xs => fold_left Qplus xs 0%Q;
  fltb := QFloat.Qltb;
  fleb := Qle_bool;
  feqb := Qeq_bool;
  fround := fun x => Ok (QFloat.round_half_even x);
  float_of_str := QFloat.of_str
}.

(** *** The binary64 model

    IEEE 754 double precision, on the primitive floats.  A literal is
    the quotient of its numerator and denominator, which is the nearest
    double when both are below 2^53; [float(s)] goes through the same
    quotient, so it is the interpreter's value under that bound only;
    the sum is the plain left-to-right accumulation. *)

Module Binary64.

Definition of_Z (z : Z) : float :=
  match z with
  | Z0 => PrimFloat.of_uint63 0%uint63
  | Zpos _ => PrimFloat.of_uint63 (Uint63.of_Z z)
  | Zneg p => PrimFloat.opp (PrimFloat.of_uint63 (Uint63.of_Z (Zpos p)))
  end.

Definition lit (q : Q) : float :=
  PrimFloat.div (of_Z (Qnum q)) (of_Z (Zpos (Qden q))).

(** [round(x)]: the value [m * 2^e] of a finite float, rounded to the
    nearest integer, ties to even. *)
Definition round (x : float) : result Z :=
  match Prim2SF x with
  | S754_zero _ => Ok 0
  | S754_infinity _ =>
      Raise (OverflowError "cannot convert float infinity to integer")
  | S754_nan => Raise (ValueError "cannot convert float NaN to integer")
  | S754_finite s m e =>
      let n :=
        if 0 <=? e then Zpos m * 2 ^ e
        else
          let d := 2 ^ (- e) in
          let q := Zpos m / d in
          let r := Zpos m mod d in
          match Z.compare (2 * r) d with
          | Lt => q
          | Gt => q + 1
          | Eq => if Z.even q then q else q + 1
          end in
      Ok (if s then - n else n)
  end.

Definition of_str (s : string) : result float :=
  q <- QFloat.of_str s ;; Ok (lit q).

End Binary64.

#[export] Instance Binary64Model : FloatModel float := {
  flit := Binary64.lit;
  fadd := PrimFloat.add;
  fsub := PrimFloat.sub;
  fdiv := PrimFloat.div;
  fabs := PrimFloat.abs;
  fsum := fun xs => fold_left PrimFloat.add xs (Binary64.lit 0);
  fltb := PrimFloat.ltb;
  fleb := PrimFloat.leb;
  feqb := PrimFloat.eqb;
  fround := Binary64.round;
  float_of_str := Binary64.of_str
}.

(** Python tuples of integers, compared as Python compares sequences,
    and [list.sort()] on them. *)

Module PySort.

Definition tuple : Type := list Z.

Fixpoint tuple_leb (a b : tuple) : bool :=
  match a, b with
  | [], _ => true
  | _ :: _, [] => false
  | x :: a', y :: b' =>
      if x <? y then true
      else if y <? x then false
      else tuple_leb a' b'
  end.

Fixpoint insert (t : tuple) (l : list tuple) : list tuple :=
  match l with
  | [] => [t]
  | u :: l' => if tuple_leb t u then t :: l else u :: insert t l'
  end.

(** The sorted list.  Tuples that compare equal are the same value, so
    every sorting algorithm returns this list. *)
Definition sort (l : list tuple) : list tuple := fold_right insert [] l.

End PySort.

(** ** models.py *)

Module models.
Section WithFloat.
Context {F : Type} {FM : FloatModel F}.

Record Particle : Type := mkParticle {
  pdg_id : Z;
  status : Z;
  px : F;
  py : F;
  pz : F;
  energy : F;
  mass : F;
  mother1 : Z;
  mother2 : Z;
  color1 : Z;
  color2 : Z;
  spin : F;
  barcode : Z;
  vertex_barcode : Z;
  end_vertex_barcode : Z;
  attributes : list (string * json.value)
}.

(** [Particle(pdg_id=.., status=.., px=.., py=.., pz=.., energy=..)]
    with the dataclass defaults for the other fields. *)
Definition default_particle (pdg st : Z) (x y z e : F) : Particle :=
  {| pdg_id := pdg; status := st; px := x; py := y; pz := z; energy := e;
     mass := flit 0; mother1 := 0; mother2 := 0; color1 := 0; color2 := 0;
     spin := flit 9; barcode := 0; vertex_barcode := 0;
     end_vertex_barcode := 0; attributes := [] |}.

Definition is_incoming (p : Particle) : bool := status p =? -1.
Definition is_final (p : Particle) : bool := status p =? 1.
Definition is_intermediate (p : Particle) : bool := status p =? 2.

Record Vertex : Type := mkVertex {
  v_barcode : Z;
  v_x : F;
  v_y : F;
  v_z : F;
  v_t : F;
  v_incoming : list Z;
  v_outgoing : list Z
}.

(** [Vertex(barcode=b)] *)
Definition new_vertex (b : Z) : Vertex :=
  {| v_barcode := b; v_x := flit 0; v_y := flit 0; v_z := flit 0;
     v_t := flit 0; v_incoming := []; v_outgoing := [] |}.

Record Event : Type := mkEvent {
  event_number : Z;
  particles : list Particle;
  vertices : list Vertex;
  weights : list F;
  process_id : Z;
  scale : F;
  alpha_qed : F;
  alpha_qcd : F;
  n_particles : Z;
  extra : list (string * json.value)
}.

(** [Event(event_number=n)] *)
Definition default_event (n : Z) : Event :=
  {| event_number := n; particles := []; vertices := [];
     weights := [flit 1]; process_id := 0; scale := flit 0;
     alpha_qed := flit 0; alpha_qcd := flit 0; n_particles := 0;
     extra := [] |}.

(** The truth value of a list. *)
Definition truthy {A : Type} (l : list A) : bool :=
  match l with [] => false | _ => true end.

(** [Event.weight]: [self.weights[0] if self.weights else 1.0] *)
Definition weight (ev : Event) : result F :=
  if truthy (weights ev) then Py.getitem (weights ev) 0 else Ok (flit 1).

Definition incoming_particles (ev : Event) : list Particle :=
  filter is_incoming (particles ev).

Definition final_particles (ev : Event) : list Particle :=
  filter is_final (particles ev).

Definition set_barcode (b : Z) (p : Particle) : Particle :=
  {| pdg_id := pdg_id p; status := status p; px := px p; py := py p;
     pz := pz p; energy := energy p; mass := mass p; mother1 := mother1 p;
     mother2 := mother2 p; color1 := color1 p; color2 := color2 p;
     spin := spin p; barcode := b; vertex_barcode := vertex_barcode p;
     end_vertex_barcode := end_vertex_barcode p;
     attributes := attributes p |}.

Definition set_vertex_barcode (v : Z) (p : Particle) : Particle :=
  {| pdg_id := pdg_id p; status := status p; px := px p; py := py p;
     pz := pz p; energy := energy p; mass := mass p; mother1 := mother1 p;
     mother2 := mother2 p; color1 := color1 p; color2 := color2 p;
     spin := spin p; barcode := barcode p; vertex_barcode := v;
     end_vertex_barcode := end_vertex_barcode p;
     attributes := attributes p |}.

Definition set_end_vertex_barcode (v : Z) (p : Particle) : Particle :=
  {| pdg_id := pdg_id p; status := status p; px := px p; py := py p;
     pz := pz p; energy := energy p; mass := mass p; mother1 := mother1 p;
     mother2 := mother2 p; color1 := color1 p; color2 := color2 p;
     spin := spin p; barcode := barcode p;
     vertex_barcode := vertex_barcode p; end_vertex_barcode := v;
     attributes := attributes p |}.

Definition set_attributes (a : list (string * json.value)) (p : Particle)
  : Particle :=
  {| pdg_id := pdg_id p; status := status p; px := px p; py := py p;
     pz := pz p; energy := energy p; mass := mass p; mother1 := mother1 p;
     mother2 := mother2 p; color1 := color1 p; color2 := color2 p;
     spin := spin p; barcode := barcode p;
     vertex_barcode := vertex_barcode p;
     end_vertex_barcode := end_vertex_barcode p; attributes := a |}.

Definition set_incoming (l : list Z) (v : Vertex) : Vertex :=
  {| v_barcode := v_barcode v; v_x := v_x v; v_y := v_y v; v_z := v_z v;
     v_t := v_t v; v_incoming := l; v_outgoing := v_outgoing v |}.

Definition set_outgoing (l : list Z) (v : Vertex) : Vertex :=
  {| v_barcode := v_barcode v; v_x := v_x v; v_y := v_y v; v_z := v_z v;
     v_t := v_t v; v_incoming := v_incoming v; v_outgoing := l |}.

(** The event with other particles and vertices. *)
Definition with_graph (ev : Event) (ps : list Particle) (vs : list Vertex)
  : Event :=
  {| event_number := event_number ev; particles := ps; vertices := vs;
     weights := weights ev; process_id := process_id ev; scale := scale ev;
     alpha_qed := alpha_qed ev; alpha_qcd := alpha_qcd ev;
     n_particles := n_particles ev; extra := extra ev |}.

(** An incoming particle has no production vertex. *)
Definition incoming_void (p : Particle) : Prop :=
  status p = -1 -> vertex_barcode p = 0.

(** The event with another list of particles (every other field kept). *)
Definition with_particles (ev : Event) (ps : list Particle) : Event :=
  {| event_number := event_number ev; particles := ps;
     vertices := vertices ev; weights := weights ev;
     process_id := process_id ev; scale := scale ev;
     alpha_qed := alpha_qed ev; alpha_qcd := alpha_qcd ev;
     n_particles := n_particles ev; extra := extra ev |}.

(** The four momentum components of a particle, and a particle with one
    of them shifted by [d]. *)
Inductive component : Type := Px | Py | Pz | En.

Definition get_component (c : component) (p : Particle) : F :=
  match c with
  | Px => px p
  | Py => py p
  | Pz => pz p
  | En => energy p
  end.

Definition set_component (c : component) (x : F) (p : Particle) : Particle :=
  {| pdg_id := pdg_id p; status := status p;
     px := match c with Px => x | _ => px p end;
     py := match c with Py => x | _ => py p end;
     pz := match c with Pz => x | _ => pz p end;
     energy := match c with En => x | _ => energy p end;
     mass := mass p; mother1 := mother1 p; mother2 := mother2 p;
     color1 := color1 p; color2 := color2 p; spin := spin p;
     barcode := barcode p; vertex_barcode := vertex_barcode p;
     end_vertex_barcode := end_vertex_barcode p;
     attributes := attributes p |}.

Definition shift_component (c : component) (d : F) (p : Particle) : Particle :=
  set_component c (fadd (get_component c p) d) p.

Fixpoint update_nth {A : Type} (i : nat) (f : A -> A) (l : list A) : list A :=
  match l, i with
  | [], _ => []
  | x :: l', O => f x :: l'
  | x :: l', S i' => x :: update_nth i' f l'
  end.

(** The event [ev] with component [c] of its [i]-th particle shifted by
    [d]. *)
Definition perturb (ev : Event) (i : nat) (c : component) (d : F) : Event :=
  with_particles ev (update_nth i (shift_component c d) (particles ev)).

End WithFloat.
Arguments Particle F : clear implicits.
Arguments Vertex F : clear implicits.
Arguments Event F : clear implicits.
End models.

(** ** fingerprint.py *)

Module fingerprint.
Import models.
Section WithFloat.
Context {F : Type} {FM : FloatModel F}.

Definition _quantize (x : F) (abs_tol : F) : result Z :=
  if fleb abs_tol (flit 0) then Raise (ValueError "abs_tol must be > 0")
  else fround (fdiv x abs_tol).

Definition _particle_graph_key (p : Particle F) : PySort.tuple :=
  [barcode p; vertex_barcode p; end_vertex_barcode p].

Definition _particle_key (p : Particle F) (abs_tol : F) : result PySort.tuple :=
  qx <- _quantize (px p) abs_tol ;;
  qy <- _quantize (py p) abs_tol ;;
  qz <- _quantize (pz p) abs_tol ;;
  qe <- _quantize (energy p) abs_tol ;;
  Ok [status p; pdg_id p; qx; qy; qz; qe].

Record FingerprintConfig : Type := mkConfig {
  version : string;
  abs_tol : F;
  include_intermediate : bool;
  include_incoming : bool;
  include_weights : bool;
  include_graph : bool;
  include_process_id : bool
}.

(** [FingerprintConfig()] *)
Definition default_config : FingerprintConfig :=
  {| version := "event_fingerprint_v1"; abs_tol := flit (1 # 10000);
     include_intermediate := true; include_incoming := true;
     include_weights := false; include_graph := false;
     include_process_id := false |}.

(** The first loop: the keys of the surviving particles, in order. *)
Fixpoint collect_parts (cfg : FingerprintConfig) (ps : list (Particle F))
  : result (list PySort.tuple) :=
  match ps with
  | [] => Ok []
  | p :: ps' =>
      if status p =? 3 then collect_parts cfg ps'
      else if is_incoming p && negb (include_incoming cfg) then collect_parts cfg ps'
      else if is_intermediate p && negb (include_intermediate cfg) then
        collect_parts cfg ps'
      else
        k <- _particle_key p (abs_tol cfg) ;;
        rest <- collect_parts cfg ps' ;;
        Ok (k :: rest)
  end.

Definition NUL : string := String (ascii_of_nat 0) EmptyString.

(** [",".join(str(x) for x in t)] followed by [";"], absorbed for every
    tuple of [ts]. *)
Definition absorb_tuples (h : string) (ts : list PySort.tuple) : string :=
  fold_left (fun h t => h ++ Py.join "," (map Py.str_of_int t) ++ ";") ts h.

(** The weights loop. *)
Fixpoint absorb_weights (h : string) (ws : list F) (abs_tol : F) : result string :=
  match ws with
  | [] => Ok h
  | w :: ws' =>
      q <- _quantize w abs_tol ;;
      absorb_weights (h ++ Py.str_of_int q ++ ",") ws' abs_tol
  end.

(** The bytes absorbed by the hash object, in order. *)
Definition fingerprint_payload (ev : Event F) (cfg : FingerprintConfig)
  : result string :=
  parts <- collect_parts cfg (particles ev) ;;
  let parts := PySort.sort parts in
  let h := version cfg ++ NUL in
  let h :=
    if include_process_id cfg then h ++ Py.str_of_int (process_id ev) ++ NUL
    else h in
  let h := absorb_tuples h parts in
  let h :=
    if include_graph cfg then
      let gk :=
        map _particle_graph_key
            (filter (fun p => negb (status p =? 3)) (particles ev)) in
      absorb_tuples (h ++ "|g|") (PySort.sort gk)
    else h in
  if include_weights cfg && truthy (weights ev) then
    absorb_weights (h ++ "|w|") (weights ev) (abs_tol cfg)
  else Ok h.

Definition fingerprint_event (ev : Event F) (cfg : FingerprintConfig)
  : result string :=
  h <- fingerprint_payload ev cfg ;;
  Ok (hashlib.sha256_hex h).

End WithFloat.
Arguments FingerprintConfig F : clear implicits.
End fingerprint.

(** ** validation.py *)

Module validation.
Import models.
Section WithFloat.
Context {F : Type} {FM : FloatModel F}.

(** [pdg.is_valid_pdg_id] defers to an optional external package, of
    which it catches every exception; it is a parameter.  So is
    [Particle.computed_mass], which squares the components of the
    momentum ([self.energy**2]) and takes a square root: the power
    raises [OverflowError] when a square is out of range, so the
    property may raise. *)
Variable is_valid_pdg_id : Z -> bool.
Variable computed_mass : Particle F -> result F.

(** The text of an issue, before the numbers are formatted into it. *)
Inductive message : Type :=
| NoParticles
| InvalidPdg (pdg : Z)
| NegativeEnergy (e : F)
| MassInconsistency (stored computed rel_diff : F)
| MomentumNonConservation (label : string) (s_in s_out diff rel : F).

Record ValidationIssue : Type := mkIssue {
  level : string;
  issue_event_number : Z;
  particle_index : option Z;
  issue_message : message
}.

(** [enumerate(xs)] *)
Fixpoint enumerate_from {A : Type} (i : Z) (xs : list A) : list (Z * A) :=
  match xs with
  | [] => []
  | x :: xs' => (i, x) :: enumerate_from (i + 1) xs'
  end.

Definition enumerate {A : Type} (xs : list A) : list (Z * A) := enumerate_from 0 xs.

Definition pdg_issues (evt : Z) (ps : list (Particle F)) : list ValidationIssue :=
  flat_map
    (fun ip : Z * Particle F =>
       let (i, p) := ip in
       if negb (is_valid_pdg_id (pdg_id p)) then
         [mkIssue "warning" evt (Some i) (InvalidPdg (pdg_id p))]
       else [])
    (enumerate ps).

Definition energy_issues (evt : Z) (ps : list (Particle F)) : list ValidationIssue :=
  flat_map
    (fun ip : Z * Particle F =>
       let (i, p) := ip in
       if fltb (energy p) (flit 0) then
         [mkIssue "error" evt (Some i) (NegativeEnergy (energy p))]
       else [])
    (enumerate ps).

(** The particle enters the mass computation: neither of the two
    [continue] is taken. *)
Definition has_mass (p : Particle F) : bool :=
  negb (feqb (mass p) (flit 0))
  && negb (fltb (fabs (mass p)) (flit (1 # 1000))).

(** The mass loop over what is left of the enumeration; an exception of
    [computed_mass] ends it. *)
Fixpoint mass_loop (evt : Z) (mass_tolerance : F) (ips : list (Z * Particle F))
  : result (list ValidationIssue) :=
  match ips with
  | [] => Ok []
  | (i, p) :: rest =>
      if feqb (mass p) (flit 0) then mass_loop evt mass_tolerance rest
      else if fltb (fabs (mass p)) (flit (1 # 1000)) then
        mass_loop evt mass_tolerance rest
      else
        computed <- computed_mass p ;;
        let rel_diff :=
          fdiv (fabs (fsub computed (mass p)))
               (fmax2 (fabs (mass p)) (flit (1 # 1000000000000))) in
        more <- mass_loop evt mass_tolerance rest ;;
        Ok ((if fgtb rel_diff mass_tolerance then
               [mkIssue "warning" evt (Some i)
                        (MassInconsistency (mass p) computed rel_diff)]
             else []) ++ more)%list
  end.

Definition mass_issues (evt : Z) (mass_tolerance : F) (ps : list (Particle F))
  : result (list ValidationIssue) :=
  mass_loop evt mass_tolerance (enumerate ps).

(** [labels[j]] *)
Definition label (c : component) : string :=
  match c with Px => "px" | Py => "py" | Pz => "pz" | En => "E" end.

(** [sum(p.<c> for p in ps)] *)
Definition sum_component (c : component) (ps : list (Particle F)) : F :=
  fsum (map (get_component c) ps).

Definition momentum_issues (evt : Z) (momentum_tolerance : F)
           (ps : list (Particle F)) : list ValidationIssue :=
  let incoming := filter (fun p => status p =? -1) ps in
  let outgoing := filter (fun p => status p =? 1) ps in
  if truthy incoming && truthy outgoing then
    let sum_in := fun c => sum_component c incoming in
    let sum_out := fun c => sum_component c outgoing in
    let total_energy :=
      fmax3 (fabs (sum_in En)) (fabs (sum_out En)) (flit (1 # 10000000000)) in
    flat_map
      (fun j =>
         let diff := fabs (fsub (sum_in j) (sum_out j)) in
         if fgtb (fdiv diff total_energy) momentum_tolerance then
           [mkIssue "error" evt None
                    (MomentumNonConservation (label j) (sum_in j) (sum_out j)
                                             diff (fdiv diff total_energy))]
         else [])
      [Px; Py; Pz; En]
  else [].

(** The issues are appended in the order of the four blocks; the mass
    block is the only one that can raise, and then nothing is
    returned. *)
Definition validate_event (event : Event F)
           (check_momentum check_pdg check_energy check_mass : bool)
           (momentum_tolerance mass_tolerance : F)
  : result (list ValidationIssue) :=
  let evt := event_number event in
  if negb (truthy (particles event)) then
    Ok [mkIssue "warning" evt None NoParticles]
  else
    from_mass <- (if check_mass
                  then mass_issues evt mass_tolerance (particles event)
                  else Ok []) ;;
    Ok ((if check_pdg then pdg_issues evt (particles event) else [])
        ++ (if check_energy then energy_issues evt (particles event) else [])
        ++ from_mass
        ++ (if check_momentum
            then momentum_issues evt momentum_tolerance (particles event)
            else []))%list.

(** The mass check cannot go through: it is enabled and [computed_mass]
    raises [e] on a particle that enters the mass computation. *)
Definition mass_check_raises (event : Event F) (check_mass : bool) (e : exn)
  : Prop :=
  check_mass = true /\
  exists p, In p (particles event) /\ has_mass p = true /\
            computed_mass p = Raise e.

(** An issue is a momentum-conservation error for component [c]. *)
Definition is_momentum_error (c : component) (i : ValidationIssue) : Prop :=
  level i = "error" /\ particle_index i = None /\
  exists a b d r, issue_message i = MomentumNonConservation (label c) a b d r.

Definition momentum_error_for (c : component) (issues : list ValidationIssue)
  : Prop :=
  exists i, In i issues /\ is_momentum_error c i.

(** The criterion in the words of the specification: with the sums taken
    over the status -1 particles (in) and the status 1 particles (out),
    [|in_k - out_k| / max(|in_E|, |out_E|, 1e-10) > momentum_tolerance]. *)
Definition spec_momentum_violated (event : Event F) (k : component)
           (momentum_tolerance : F) : bool :=
  let s_in := fun c =>
    fsum (map (get_component c) (filter is_incoming (particles event))) in
  let s_out := fun c =>
    fsum (map (get_component c) (filter is_final (particles event))) in
  fgtb (fdiv (fabs (fsub (s_in k) (s_out k)))
             (fmax3 (fabs (s_in En)) (fabs (s_out En))
                    (flit (1 # 10000000000))))
       momentum_tolerance.

End WithFloat.
End validation.

(** ** Concrete events used to evaluate the definitions *)

Module fixtures.
Import models.

Definition event_of (n : Z) (ps : list (Particle Q)) : Event Q :=
  {| event_number := n; particles := ps; vertices := []; weights := [1%Q];
     process_id := 0; scale := 0%Q; alpha_qed := 0%Q; alpha_qcd := 0%Q;
     n_particles := Z.of_nat (List.length ps); extra := [] |}.

(** A photon with [px = 4e-5]; at the default [abs_tol = 1e-4] its
    bucket is 0, and [px + 2e-5] falls in bucket 1. *)
Definition tolerance_event : Event Q :=
  event_of 1 [ default_particle 22 1 (4 # 100000)%Q 0%Q 0%Q 0%Q ].

(** Two final-state photons, in both orders. *)
Definition photon_a : Particle Q := default_particle 22 1 0%Q 0%Q 10%Q 10%Q.
Definition photon_b : Particle Q := default_particle 22 1 0%Q 0%Q (-10)%Q 10%Q.
Definition two_photons : Event Q := event_of 1 [photon_a; photon_b].

(** One final-state particle and nothing incoming. *)
Definition lone_final_event : Event Q :=
  event_of 1 [ default_particle 22 1 1%Q 0%Q 0%Q 1%Q ].

(** An incoming photon of energy 10 and an outgoing one of energy 9. *)
Definition unbalanced_event : Event Q :=
  event_of 1 [ default_particle 22 (-1) 0%Q 0%Q 10%Q 10%Q;
               default_particle 22 1 0%Q 0%Q 9%Q 9%Q ].

(** The same two events in binary64. *)
Definition event64_of (n : Z) (ps : list (Particle float)) : Event float :=
  {| event_number := n; particles := ps; vertices := [];
     weights := [flit 1]; process_id := 0; scale := flit 0;
     alpha_qed := flit 0; alpha_qcd := flit 0;
     n_particles := Z.of_nat (List.length ps); extra := [] |}.

Definition tolerance_event64 : Event float :=
  event64_of 1
    [ default_particle 22 1 (flit (4 # 100000)) (flit 0) (flit 0) (flit 0) ].

Definition lone_final_event64 : Event float :=
  event64_of 1 [ default_particle 22 1 (flit 1) (flit 0) (flit 0) (flit 1) ].

(** An incoming and an outgoing photon of the same momentum. *)
Definition balanced_event64 : Event float :=
  event64_of 1
    [ default_particle 22 (-1) (flit 0) (flit 0) (flit 10) (flit 10);
      default_particle 22 1 (flit 0) (flit 0) (flit 10) (flit 10) ].

(** The default configuration with the tolerance 0. *)
Definition zero_tolerance_config : fingerprint.FingerprintConfig Q :=
  fingerprint.mkConfig "event_fingerprint_v1" 0%Q true true false false false.

(** [pdg.is_valid_pdg_id] without the optional package. *)
Definition pdg_always_valid (pdg : Z) : bool := true.

(** A stand-in for [computed_mass]; the particles above have mass 0, for
    which the mass check is skipped. *)
Definition no_computed_mass (p : Particle Q) : result Q := Ok 0%Q.

(** [computed_mass] on components whose square is out of range. *)
Definition overflowing_mass {F : Type} (p : Particle F) : result F :=
  Raise (OverflowError "(34, 'Numerical result out of range')").

End fixtures.

(** ** The [ast] module: expression trees as [ast.parse(_, mode="eval")]
    returns them *)

Module ast.

Inductive boolop : Type := And | Or.

Inductive operator : Type :=
| Add | Sub | Mult | MatMult | Div | Mod | Pow
| LShift | RShift | BitOr | BitXor | BitAnd | FloorDiv.

Inductive unaryop : Type := Invert | Not | UAdd | USub.

Inductive cmpop : Type :=
| Eq | NotEq | Lt | LtE | Gt | GtE | Is | IsNot | In | NotIn.

Inductive expr_context : Type := Load | Store | Del.

Inductive constant : Type :=
| CNone
| CBool (b : bool)
| CInt (n : Z)
| CFloat (q : Q)
| CStr (s : string)
| CEllipsis.

(** The expression classes.  [Other cls children] stands for a node of
    any remaining class (a lambda, a comprehension, a formatted string
    and their helper nodes) with its child nodes. *)
Inductive expr : Type :=
| BoolOp (op : boolop) (values : list expr)
| NamedExpr (target value : expr)
| BinOp (left : expr) (op : operator) (right : expr)
| UnaryOp (op : unaryop) (operand : expr)
| IfExp (test body orelse : expr)
| Dict (keys : list (option expr)) (values : list expr)
| Set_ (elts : list expr)
| Compare (left : expr) (ops : list cmpop) (comparators : list expr)
| Call (func : expr) (args : list expr) (keywords : list (option string * expr))
| Constant (value : constant)
| Attribute (value : expr) (attr : string) (ctx : expr_context)
| Subscript (value : expr) (slice : expr) (ctx : expr_context)
| Starred (value : expr) (ctx : expr_context)
| Name (id : string) (ctx : expr_context)
| List_ (elts : list expr) (ctx : expr_context)
| Tuple (elts : list expr) (ctx : expr_context)
| Slice (lower upper step : option expr)
| Other (cls : string) (children : list expr).

(** The nodes [ast.walk] yields: the root, expressions, and the nodes
    of operators, contexts and keyword arguments. *)
Inductive node : Type :=
| NExpression (body : expr)
| NExpr (e : expr)
| NBoolop (op : boolop)
| NOperator (op : operator)
| NUnaryop (op : unaryop)
| NCmpop (op : cmpop)
| NContext (ctx : expr_context)
| NKeyword (arg : option string) (value : expr).

Definition opt_nodes (o : option expr) : list node :=
  match o with Some e => [NExpr e] | None => [] end.

(** [ast.iter_child_nodes]: the fields in declaration order. *)
Definition iter_child_nodes (n : node) : list node :=
  match n with
  | NExpression body => [NExpr body]
  | NKeyword _ value => [NExpr value]
  | NExpr e =>
      match e with
      | BoolOp op values => NBoolop op :: map NExpr values
      | NamedExpr target value => [NExpr target; NExpr value]
      | BinOp lhs op rhs => [NExpr lhs; NOperator op; NExpr rhs]
      | UnaryOp op operand => [NUnaryop op; NExpr operand]
      | IfExp test body orelse => [NExpr test; NExpr body; NExpr orelse]
      | Dict keys values => flat_map opt_nodes keys ++ map NExpr values
      | Set_ elts => map NExpr elts
      | Compare lhs ops comparators =>
          NExpr lhs :: map NCmpop ops ++ map NExpr comparators
      | Call func args keywords =>
          NExpr func :: map NExpr args
            ++ map (fun kw => NKeyword (fst kw) (snd kw)) keywords
      | Constant _ => []
      | Attribute value _ ctx => [NExpr value; NContext ctx]
      | Subscript value slice ctx => [NExpr value; NExpr slice; NContext ctx]
      | Starred value ctx => [NExpr value; NContext ctx]
      | Name _ ctx => [NContext ctx]
      | List_ elts ctx => map NExpr elts ++ [NContext ctx]
      | Tuple elts ctx => map NExpr elts ++ [NContext ctx]
      | Slice lower upper step =>
          opt_nodes lower ++ opt_nodes upper ++ opt_nodes step
      | Other _ children => map NExpr children
      end
  | _ => []
  end%list.

Definition opt_size (f : expr -> nat) (o : option expr) : nat :=
  match o with Some e => f e | None => O end.

(** The number of nodes of an expression. *)
Fixpoint expr_size (e : expr) : nat :=
  match e with
  | BoolOp _ values => 2 + list_sum (map expr_size values)
  | NamedExpr target value => 1 + expr_size target + expr_size value
  | BinOp lhs _ rhs => 2 + expr_size lhs + expr_size rhs
  | UnaryOp _ operand => 2 + expr_size operand
  | IfExp test body orelse =>
      1 + expr_size test + expr_size body + expr_size orelse
  | Dict keys values =>
      1 + list_sum (map (opt_size expr_size) keys)
        + list_sum (map expr_size values)
  | Set_ elts => 1 + list_sum (map expr_size elts)
  | Compare lhs ops comparators =>
      1 + expr_size lhs + List.length ops
        + list_sum (map expr_size comparators)
  | Call func args keywords =>
      1 + expr_size func + list_sum (map expr_size args)
        + list_sum (map (fun kw => S (expr_size (snd kw))) keywords)
  | Constant _ => 1
  | Attribute value _ _ => 2 + expr_size value
  | Subscript value slice _ => 2 + expr_size value + expr_size slice
  | Starred value _ => 2 + expr_size value
  | Name _ _ => 2
  | List_ elts _ => 2 + list_sum (map expr_size elts)
  | Tuple elts _ => 2 + list_sum (map expr_size elts)
  | Slice lower upper step =>
      1 + opt_size expr_size lower + opt_size expr_size upper
        + opt_size expr_size step
  | Other _ children => 1 + list_sum (map expr_size children)
  end%nat.

Definition node_size (n : node) : nat :=
  match n with
  | NExpression body => S (expr_size body)
  | NExpr e => expr_size e
  | NKeyword _ value => S (expr_size value)
  | _ => 1%nat
  end.

Definition total_size (l : list node) : nat := list_sum (map node_size l).

(** [ast.walk]: the queue is popped on the left and the children of the
    popped node are appended on the right.  [fuel] bounds the number of
    nodes still to be yielded. *)
Fixpoint walk_queue (fuel : nat) (todo : list node) : list node :=
  match fuel with
  | O => []
  | S fuel' =>
      match todo with
      | [] => []
      | n :: rest => n :: walk_queue fuel' (rest ++ iter_child_nodes n)
      end
  end.

Definition walk (tree : node) : list node :=
  walk_queue (node_size tree) [tree].

(** [type(node).__name__] *)
Definition class_name (n : node) : string :=
  match n with
  | NExpression _ => "Expression"
  | NKeyword _ _ => "keyword"
  | NBoolop And => "And" | NBoolop Or => "Or"
  | NOperator op =>
      match op with
      | Add => "Add" | Sub => "Sub" | Mult => "Mult" | MatMult => "MatMult"
      | Div => "Div" | Mod => "Mod" | Pow => "Pow" | LShift => "LShift"
      | RShift => "RShift" | BitOr => "BitOr" | BitXor => "BitXor"
      | BitAnd => "BitAnd" | FloorDiv => "FloorDiv"
      end
  | NUnaryop op =>
      match op with
      | Invert => "Invert" | Not => "Not" | UAdd => "UAdd" | USub => "USub"
      end
  | NCmpop op =>
      match op with
      | Eq => "Eq" | NotEq => "NotEq" | Lt => "Lt" | LtE => "LtE"
      | Gt => "Gt" | GtE => "GtE" | Is => "Is" | IsNot => "IsNot"
      | In => "In" | NotIn => "NotIn"
      end
  | NContext Load => "Load" | NContext Store => "Store" | NContext Del => "Del"
  | NExpr e =>
      match e with
      | BoolOp _ _ => "BoolOp" | NamedExpr _ _ => "NamedExpr"
      | BinOp _ _ _ => "BinOp" | UnaryOp _ _ => "UnaryOp"
      | IfExp _ _ _ => "IfExp" | Dict _ _ => "Dict" | Set_ _ => "Set"
      | Compare _ _ _ => "Compare" | Call _ _ _ => "Call"
      | Constant _ => "Constant" | Attribute _ _ _ => "Attribute"
      | Subscript _ _ _ => "Subscript" | Starred _ _ => "Starred"
      | Name _ _ => "Name" | List_ _ _ => "List" | Tuple _ _ => "Tuple"
      | Slice _ _ _ => "Slice" | Other cls _ => cls
      end
  end.

(** The outcome of [ast.parse(expr, mode="eval")]: the tree of an
    expression, a [SyntaxError], or another exception of the parser
    ([ValueError] for a text with a null byte, [RecursionError] or
    [MemoryError] for a text nested too deeply). *)
Inductive parse_outcome : Type :=
| SyntaxError (msg : string)
| Tree (body : expr)
| Uncaught (e : exn).

End ast.

(** ** filtering.py *)

Module filtering.
Import ast.

Definition ALLOWED_FUNCS : list string :=
  ["abs"; "min"; "max"; "round"; "sqrt"; "log"; "exp"].

(** [isinstance(node, ALLOWED_NODES)] *)
Definition allowed_node (n : node) : bool :=
  match n with
  | NExpression _ => true
  | NExpr (BoolOp _ _) | NExpr (BinOp _ _ _) | NExpr (UnaryOp _ _)
  | NExpr (Compare _ _ _) | NExpr (Call _ _ _) | NExpr (Name _ _)
  | NExpr (Constant _) => true
  | NContext Load => true
  | NBoolop And | NBoolop Or => true
  | NUnaryop Not | NUnaryop USub | NUnaryop UAdd => true
  | NOperator Add | NOperator Sub | NOperator Mult | NOperator Div
  | NOperator FloorDiv | NOperator Mod | NOperator Pow => true
  | NCmpop Eq | NCmpop NotEq | NCmpop Lt | NCmpop LtE | NCmpop Gt
  | NCmpop GtE => true
  | _ => false
  end.

Definition mem_string (s : string) (l : list string) : bool :=
  existsb (String.eqb s) l.

(** The body of the loop of [_validate_ast] for one node. *)
Definition check_node (n : node) : result unit :=
  if negb (allowed_node n) then
    Raise (UnsafeFilterExpression ("Disallowed syntax: " ++ class_name n))
  else
    match n with
    | NExpr (Name id _) =>
        if Py.startswith id "__" then
          Raise (UnsafeFilterExpression "Dunder names are not allowed")
        else Ok tt
    | NExpr (Call func _ _) =>
        match func with
        | Name id _ =>
            if mem_string id ALLOWED_FUNCS then Ok tt
            else Raise (UnsafeFilterExpression ("Function not allowed: " ++ id))
        | _ =>
            Raise (UnsafeFilterExpression "Only simple function calls are allowed")
        end
    | _ => Ok tt
    end.

Fixpoint check_nodes (ns : list node) : result unit :=
  match ns with
  | [] => Ok tt
  | n :: rest => _ <- check_node n ;; check_nodes rest
  end.

Definition _validate_ast (tree : node) : result unit :=
  check_nodes (walk tree).

Record CompiledFilter : Type := mkCompiledFilter {
  expr : string;
  tree : ast.expr
}.

(** [compile_filter(expr)]; the parser is a parameter.  The [try]
    catches [SyntaxError] only: any other exception of the parser leaves
    the function as it is. *)
Definition compile_filter (parse : string -> parse_outcome) (expr : string)
  : result CompiledFilter :=
  match parse expr with
  | SyntaxError msg => Raise (UnsafeFilterExpression msg)
  | Uncaught e => Raise e
  | Tree body =>
      _ <- _validate_ast (NExpression body) ;;
      Ok (mkCompiledFilter expr body)
  end.

(** [m] is [n] or a node below [n]. *)
Inductive descendant : node -> node -> Prop :=
| desc_self (n : node) : descendant n n
| desc_child (n c m : node) :
    List.In c (iter_child_nodes n) -> descendant c m -> descendant n m.

(** The expression [e] occurs in the tree of [body]. *)
Definition contains (body e : ast.expr) : Prop :=
  descendant (NExpression body) (NExpr e).

Definition is_attribute_access (e : ast.expr) : Prop :=
  exists value attr ctx, e = Attribute value attr ctx.

Definition is_indexing (e : ast.expr) : Prop :=
  exists value slice ctx, e = Subscript value slice ctx.

(** An identifier beginning with [prefix]. *)
Definition is_name_with_prefix (prefix : string) (e : ast.expr) : Prop :=
  exists id ctx, e = Name id ctx /\ Py.startswith id prefix = true.

(** An import inside an expression: a call of [__import__].  (An
    import statement is no expression; the parser refuses it.) *)
Definition is_import (e : ast.expr) : Prop :=
  exists ctx args keywords, e = Call (Name "__import__" ctx) args keywords.

(** A node the validator refuses: attribute access, indexing, an
    import, or a name beginning with two underscores. *)
Definition forbidden (e : ast.expr) : Prop :=
  is_attribute_access e \/ is_indexing e \/ is_import e \/
  is_name_with_prefix "__" e.

End filtering.

(** ** Parse trees of three filter texts *)

Module filter_fixtures.
Import ast.

(** [_x > 0] *)
Definition underscore_text : string := "_x > 0".
Definition underscore_tree : expr :=
  Compare (Name "_x" Load) [Gt] [Constant (CInt 0)].

(** [__import__('os').system('x')] *)
Definition import_text : string := "__import__('os').system('x')".
Definition import_tree : expr :=
  Call (Attribute (Call (Name "__import__" Load) [Constant (CStr "os")] [])
                  "system" Load)
       [Constant (CStr "x")] [].

(** [n_leptons >= 1 and ht > 0] *)
Definition leptons_text : string := "n_leptons >= 1 and ht > 0".
Definition leptons_tree : expr :=
  BoolOp And
    [ Compare (Name "n_leptons" Load) [GtE] [Constant (CInt 1)];
      Compare (Name "ht" Load) [Gt] [Constant (CInt 0)] ].

(** [ht > 0] followed by a null byte, on which the parser of
    Python 3.11 raises [ValueError]. *)
Definition null_text : string :=
  "ht > 0" ++ String (ascii_of_nat 0) EmptyString.

(** The parser on these texts; anything else is left unparsed. *)
Definition parse (src : string) : parse_outcome :=
  if String.eqb src underscore_text then Tree underscore_tree
  else if String.eqb src import_text then Tree import_tree
  else if String.eqb src leptons_text then Tree leptons_tree
  else if String.eqb src null_text then
    Uncaught (ValueError "source code string cannot contain null bytes")
  else SyntaxError "invalid syntax".

End filter_fixtures.

(** ** io/hepmc3.py *)

Module hepmc3.
Import models.
Section WithFloat.
Context {F : Type} {FM : FloatModel F}.

(** [try: ... except Exception: <default>] *)
Definition try_or {A : Type} (m : result A) (d : A) : A :=
  match m with Ok a => a | Raise _ => d end.

(** The status mapping of the reader. *)
Definition mapped_status (st : Z) : Z :=
  if st =? 4 then -1
  else if st =? 1 then 1
  else if (st =? 2) || (st =? 3) then 2
  else st.

Definition int_at (parts : list string) (i : nat) : result Z :=
  tok <- Py.getitem parts i ;; Py.int_of_str tok.

Definition float_at (parts : list string) (i : nat) : result F :=
  tok <- Py.getitem parts i ;; float_of_str tok.

(** The [P] branch of the loop of [iter_hepmc3_with_runinfo], on a line
    whose tag is [P]: the particle appended to the current event, or
    [None] when the record is skipped ([continue]). *)
Definition P_branch (line : string) : option (Particle F) :=
  let parts := Py.split line in
  if (List.length parts <? 9)%nat then None
  else
    let fields :=
      bc <- int_at parts 1 ;;
      pdg <- int_at parts 2 ;;
      st <- int_at parts 3 ;;
      x <- float_at parts 4 ;;
      y <- float_at parts 5 ;;
      z <- float_at parts 6 ;;
      e <- float_at parts 7 ;;
      m <- float_at parts 8 ;;
      Ok (bc, pdg, st, (x, y, z, e, m)) in
    match fields with
    | Raise _ => None
    | Ok (bc, pdg, st, (x, y, z, e, m)) =>
        let '(pv, ev) :=
          if (11 <=? List.length parts)%nat then
            try_or (pv <- int_at parts 9 ;;
                    ev <- int_at parts 10 ;;
                    Ok (pv, ev))
                   (0, 0)
          else (0, 0) in
        let p :=
          {| pdg_id := pdg; status := mapped_status st;
             px := x; py := y; pz := z; energy := e; mass := m;
             mother1 := 0; mother2 := 0; color1 := 0; color2 := 0;
             spin := flit 9; barcode := bc; vertex_barcode := pv;
             end_vertex_barcode := ev; attributes := [] |} in
        if negb (mapped_status st =? st) then
          Some (set_attributes
                  (json.dict_set (attributes p) "hepmc_status_raw" (json.JInt st))
                  p)
        else Some p
    end.

(** The raw status code of a [P] line. *)
Definition raw_status (line : string) : result Z :=
  int_at (Py.split line) 3.

(** *** Vertex reconstruction *)

(** [enumerate(xs, start=1)] *)
Fixpoint enumerate1 {A : Type} (i : Z) (xs : list A) : list (Z * A) :=
  match xs with
  | [] => []
  | x :: xs' => (i, x) :: enumerate1 (i + 1) xs'
  end.

(** The first loop: missing barcodes become 1..N. *)
Definition assign_barcodes (ps : list (Particle F)) : list (Particle F) :=
  map (fun ip : Z * Particle F =>
         let (i, p) := ip in
         if barcode p =? 0 then set_barcode i p else p)
      (enumerate1 1 ps).

(** The local state of the reconstruction: the map from mother pairs to
    vertex ids, the vertices by id, the next free id and the production
    vertex of each particle index. *)
Record builder : Type := mkBuilder {
  vtx_map : list ((Z * Z) * Z);
  vertices_by_id : list (Z * Vertex F);
  next_vtx : Z;
  prod_vtx : list (Z * Z)
}.

Definition empty_builder : builder :=
  {| vtx_map := []; vertices_by_id := []; next_vtx := -1; prod_vtx := [] |}.

(** [_vtx_for(m1, m2)] *)
Definition _vtx_for (b : builder) (m1 m2 : Z) : builder * Z :=
  let key := if m1 <=? m2 then (m1, m2) else (m2, m1) in
  match dict.get dict.pair_eqb (vtx_map b) key with
  | Some v => (b, v)
  | None =>
      ({| vtx_map := dict.set dict.pair_eqb (vtx_map b) key (next_vtx b);
          vertices_by_id :=
            dict.set Z.eqb (vertices_by_id b) (next_vtx b)
                     (new_vertex (next_vtx b));
          next_vtx := next_vtx b - 1;
          prod_vtx := prod_vtx b |},
       next_vtx b)
  end.

Definition set_prod_vtx (b : builder) (idx v : Z) : builder :=
  {| vtx_map := vtx_map b; vertices_by_id := vertices_by_id b;
     next_vtx := next_vtx b;
     prod_vtx := dict.set Z.eqb (prod_vtx b) idx v |}.

Definition set_vertices_by_id (b : builder) (vs : list (Z * Vertex F)) : builder :=
  {| vtx_map := vtx_map b; vertices_by_id := vs; next_vtx := next_vtx b;
     prod_vtx := prod_vtx b |}.

(** The second loop: incoming particles have no production vertex. *)
Fixpoint mark_incoming (b : builder) (ips : list (Z * Particle F))
  : builder * list (Particle F) :=
  match ips with
  | [] => (b, [])
  | (idx, p) :: rest =>
      if status p =? -1 then
        let (b', ps) := mark_incoming (set_prod_vtx b idx 0) rest in
        (b', set_vertex_barcode 0 p :: ps)
      else
        let (b', ps) := mark_incoming b rest in
        (b', p :: ps)
  end.

(** The third loop: a vertex for each produced particle. *)
Fixpoint create_vertices (b : builder) (ips : list (Z * Particle F))
  : builder * list (Particle F) :=
  match ips with
  | [] => (b, [])
  | (idx, p) :: rest =>
      if status p =? -1 then
        let (b', ps) := create_vertices b rest in
        (b', p :: ps)
      else
        let (m1, m2) := (mother1 p, mother2 p) in
        let (b1, v_id) :=
          if (m1 =? 0) && (m2 =? 0) then _vtx_for b 0 0 else _vtx_for b m1 m2 in
        let (b', ps) := create_vertices (set_prod_vtx b1 idx v_id) rest in
        (b', set_vertex_barcode v_id p :: ps)
  end.

(** [{m1, m2} - {0}], listed in increasing order.  (The iteration order
    of a set is not specified by the language; only the order of the
    [incoming] list of a vertex depends on it.) *)
Definition mothers_set (m1 m2 : Z) : list Z :=
  filter (fun m => negb (m =? 0)) (dict.sorted_set_Z [m1; m2]).

Definition append_new (x : Z) (l : list Z) : list Z :=
  if dict.mem_Z x l then l else (l ++ [x])%list.

(** The fourth loop: incoming and outgoing barcodes of each vertex.
    [all] is the particle list, [ips] what is left of its enumeration. *)
Fixpoint fill_vertices (all : list (Particle F)) (b : builder)
         (ips : list (Z * Particle F)) : builder :=
  match ips with
  | [] => b
  | (child_idx, p) :: rest =>
      let v_id :=
        match dict.get Z.eqb (prod_vtx b) child_idx with
        | Some v => v
        | None => 0
        end in
      if v_id =? 0 then fill_vertices all b rest
      else
        let add_mother := fun (vs : list (Z * Vertex F)) (midx : Z) =>
          if (1 <=? midx) && (midx <=? Z.of_nat (List.length all)) then
            match nth_error all (Z.to_nat (midx - 1)) with
            | Some mother =>
                dict.update Z.eqb vs v_id
                  (fun v => set_incoming (append_new (barcode mother) (v_incoming v)) v)
            | None => vs
            end
          else vs in
        let vs := fold_left add_mother (mothers_set (mother1 p) (mother2 p))
                            (vertices_by_id b) in
        let vs := dict.update Z.eqb vs v_id
                    (fun v => set_outgoing (append_new (barcode p) (v_outgoing v)) v) in
        fill_vertices all (set_vertices_by_id b vs) rest
  end.

(** The fifth loop: the vertex in which each barcode is incoming. *)
Definition incoming_to_vtx (vs : list (Z * Vertex F)) : list (Z * Z) :=
  fold_left
    (fun (acc : list (Z * Z)) (kv : Z * Vertex F) =>
       fold_left (fun acc inc => dict.set Z.eqb acc inc (fst kv))
                 (v_incoming (snd kv)) acc)
    vs [].

(** [[vertices[k] for k in sorted(vertices.keys())]] *)
Definition vertices_sorted (vs : list (Z * Vertex F)) : list (Vertex F) :=
  flat_map
    (fun k => match dict.get Z.eqb vs k with Some v => [v] | None => [] end)
    (dict.sorted_Z (map fst vs)).

Definition _build_vertices_from_mothers (ev : Event F) : Event F :=
  if truthy (vertices ev) then ev
  else
    let ps1 := assign_barcodes (particles ev) in
    let (b2, ps2) := mark_incoming empty_builder (enumerate1 1 ps1) in
    let (b3, ps3) := create_vertices b2 (enumerate1 1 ps2) in
    let b4 := fill_vertices ps3 b3 (enumerate1 1 ps3) in
    let i2v := incoming_to_vtx (vertices_by_id b4) in
    let ps6 :=
      map (fun p =>
             set_end_vertex_barcode
               (match dict.get Z.eqb i2v (barcode p) with
                | Some v => v
                | None => 0
                end) p)
          ps3 in
    with_graph ev ps6 (vertices_sorted (vertices_by_id b4)).

End WithFloat.
End hepmc3.

(** ** io/parquet.py *)

Module parquet.
Import models.
Section WithFloat.
Context {F : Type} {FM : FloatModel F}.

Record builder : Type := mkBuilder {
  vtx_map : list ((Z * Z) * Z);
  vertices_by_id : list (Z * Vertex F);
  next_vtx : Z
}.

Definition empty_builder : builder :=
  {| vtx_map := []; vertices_by_id := []; next_vtx := -1 |}.

(** [_vtx_for(m1, m2)] *)
Definition _vtx_for (b : builder) (m1 m2 : Z) : builder * Z :=
  let key :=
    if (m1 =? 0) && (m2 =? 0) then (0, 0)
    else if m1 <=? m2 then (m1, m2) else (m2, m1) in
  match dict.get dict.pair_eqb (vtx_map b) key with
  | Some v => (b, v)
  | None =>
      ({| vtx_map := dict.set dict.pair_eqb (vtx_map b) key (next_vtx b);
          vertices_by_id :=
            dict.set Z.eqb (vertices_by_id b) (next_vtx b)
                     (new_vertex (next_vtx b));
          next_vtx := next_vtx b - 1 |},
       next_vtx b)
  end.

Definition set_vertices_by_id (b : builder) (vs : list (Z * Vertex F)) : builder :=
  {| vtx_map := vtx_map b; vertices_by_id := vs; next_vtx := next_vtx b |}.

(** Every vertex id handed out so far is negative, and so is the next. *)
Definition negative_ids (b : builder) : Prop :=
  next_vtx b < 0 /\ Forall (fun kv => snd kv < 0) (vtx_map b).

(** The second loop: every particle gets the vertex of its mother pair
    and is appended to its outgoing list. *)
Fixpoint assign_vertices (b : builder) (ps : list (Particle F))
  : builder * list (Particle F) :=
  match ps with
  | [] => (b, [])
  | p :: rest =>
      let (b1, vtx) := _vtx_for b (mother1 p) (mother2 p) in
      let vs := dict.update Z.eqb (vertices_by_id b1) vtx
                  (fun v => set_outgoing (v_outgoing v ++ [barcode p]) v) in
      let (b', ps') := assign_vertices (set_vertices_by_id b1 vs) rest in
      (b', set_vertex_barcode vtx p :: ps')
  end.

(** One mother index of the third loop: the mother's barcode joins the
    incoming list of [vtx] and the mother, a particle of the same list,
    gets [vtx] as its end vertex. *)
Definition link_mother (vtx : Z) (st : list (Z * Vertex F) * list (Particle F))
           (midx : Z) : list (Z * Vertex F) * list (Particle F) :=
  let (vs, all) := st in
  if negb (midx =? 0) && (1 <=? midx) && (midx <=? Z.of_nat (List.length all)) then
    match nth_error all (Z.to_nat (midx - 1)) with
    | Some mother =>
        (dict.update Z.eqb vs vtx
           (fun v => set_incoming (v_incoming v ++ [barcode mother]) v),
         update_nth (Z.to_nat (midx - 1)) (set_end_vertex_barcode vtx) all)
    | None => st
    end
  else st.

(** The third loop, over the positions [i, i+1, ...] of the list. *)
Fixpoint link_mothers (n : nat) (i : nat)
         (st : list (Z * Vertex F) * list (Particle F))
  : list (Z * Vertex F) * list (Particle F) :=
  match n with
  | O => st
  | S n' =>
      match nth_error (snd st) i with
      | None => st
      | Some p =>
          let vtx := vertex_barcode p in
          if vtx =? 0 then link_mothers n' (S i) st
          else
            link_mothers n' (S i)
              (fold_left (link_mother vtx) [mother1 p; mother2 p] st)
      end
  end.

Definition normalise (v : Vertex F) : Vertex F :=
  set_outgoing (dict.sorted_set_Z (v_outgoing v))
               (set_incoming (dict.sorted_set_Z (v_incoming v)) v).

Definition vertices_sorted (vs : list (Z * Vertex F)) : list (Vertex F) :=
  flat_map
    (fun k => match dict.get Z.eqb vs k with Some v => [v] | None => [] end)
    (dict.sorted_Z (map fst vs)).

Definition _build_vertices_from_mothers (ev : Event F) : Event F :=
  if truthy (vertices ev) then ev
  else
    let ps1 := hepmc3.assign_barcodes (particles ev) in
    let (b2, ps2) := assign_vertices empty_builder ps1 in
    let (vs3, ps3) :=
      link_mothers (List.length ps2) 0 (vertices_by_id b2, ps2) in
    let vs4 := map (fun kv => (fst kv, normalise (snd kv))) vs3 in
    with_graph ev ps3 (vertices_sorted vs4).

End WithFloat.
End parquet.

(** ** Records and events for the readers and the vertex reconstruction *)

Module reader_fixtures.
Import models.

(** A [P] record with the raw status 11. *)
Definition status_11_line : string := "P 1 21 11 0.0 0.0 0.0 0.0 0.0".

Definition status_11_particle : Particle Q :=
  {| pdg_id := 21; status := 11; px := 0%Q; py := 0%Q; pz := 0%Q;
     energy := 0%Q; mass := 0%Q; mother1 := 0; mother2 := 0; color1 := 0;
     color2 := 0; spin := 9%Q; barcode := 1; vertex_barcode := 0;
     end_vertex_barcode := 0; attributes := [] |}.

(** u dbar -> W+ -> e+ nu_e, as an LHE reader delivers it: mother
    indices, no barcodes, no vertices. *)
Definition lhe_particle (pdg st m1 m2 : Z) (z e m : Q) : Particle Q :=
  {| pdg_id := pdg; status := st; px := 0%Q; py := 0%Q; pz := z;
     energy := e; mass := m; mother1 := m1; mother2 := m2; color1 := 0;
     color2 := 0; spin := 9%Q; barcode := 0; vertex_barcode := 0;
     end_vertex_barcode := 0; attributes := [] |}.

Definition w_event : Event Q :=
  {| event_number := 1;
     particles :=
       [ lhe_particle 2 (-1) 0 0 50%Q 50%Q 0%Q;
         lhe_particle (-1) (-1) 0 0 (-50)%Q 50%Q 0%Q;
         lhe_particle 24 2 1 2 0%Q 100%Q 100%Q;
         lhe_particle (-11) 1 3 3 50%Q 50%Q 0%Q;
         lhe_particle 12 1 3 3 (-50)%Q 50%Q 0%Q ];
     vertices := []; weights := [1%Q]; process_id := 1; scale := 100%Q;
     alpha_qed := 0%Q; alpha_qcd := 0%Q; n_particles := 5; extra := [] |}.

End reader_fixtures.

(** ** io/lhe.py *)

Module lhe.
Import models.
Section WithFloat.
Context {F : Type} {FM : FloatModel F}.

(** [\w] on ASCII. *)
Definition is_word_char (c : ascii) : bool :=
  let n := Z.of_nat (nat_of_ascii c) in
  ((48 <=? n) && (n <=? 57)) || ((65 <=? n) && (n <=? 90))
  || ((97 <=? n) && (n <=? 122)) || (n =? 95).

(** What is left of [s] after the prefix [p], if [p] is a prefix. *)
Fixpoint after_prefix (p s : string) : option string :=
  match p, s with
  | EmptyString, _ => Some s
  | String a p', String b s' =>
      if Ascii.eqb a b then after_prefix p' s' else None
  | _, EmptyString => None
  end.

(** [re.compile(tag + r"\b").search(line)] for a tag ending in a word
    character, and [re.compile(tag).search(line)]. *)
Fixpoint search_word (tag : string) (line : string) : bool :=
  (match after_prefix tag line with
   | Some EmptyString => true
   | Some (String c _) => negb (is_word_char c)
   | None => false
   end)
  || match line with
     | EmptyString => false
     | String _ line' => search_word tag line'
     end.

Fixpoint search (tag : string) (line : string) : bool :=
  (match after_prefix tag line with Some _ => true | None => false end)
  || match line with
     | EmptyString => false
     | String _ line' => search tag line'
     end.

Definition _TAG_EVENT_OPEN (line : string) : bool := search_word "<event" line.
Definition _TAG_EVENT_CLOSE (line : string) : bool := search "</event>" line.

(** A blank line or a comment. *)
Definition skipped (s : string) : bool :=
  Py.is_empty s || Py.startswith s "#".

(** The header loop: the first line that is neither blank nor a
    comment, stripped, with the lines after it. *)
Fixpoint find_header (lines : list string) : option (string * list string) :=
  match lines with
  | [] => None
  | l :: rest =>
      let s := Py.strip l in
      if skipped s then find_header rest else Some (s, rest)
  end.

Definition int_col (cols : list string) (i : nat) : result Z :=
  tok <- Py.getitem cols i ;; Py.int_of_str tok.

Definition float_col (cols : list string) (i : nat) : result F :=
  tok <- Py.getitem cols i ;; float_of_str tok.

(** One particle row. *)
Definition parse_row (s : string) : result (Particle F) :=
  let cols := Py.split s in
  pdg <- int_col cols 0 ;;
  st <- int_col cols 1 ;;
  m1 <- int_col cols 2 ;;
  m2 <- int_col cols 3 ;;
  c1 <- int_col cols 4 ;;
  c2 <- int_col cols 5 ;;
  x <- float_col cols 6 ;;
  y <- float_col cols 7 ;;
  z <- float_col cols 8 ;;
  e <- float_col cols 9 ;;
  m <- float_col cols 10 ;;
  sp <- (if (12 <? List.length cols)%nat then float_col cols 12
         else Ok (flit 9)) ;;
  Ok {| pdg_id := pdg; status := st; px := x; py := y; pz := z; energy := e;
        mass := m; mother1 := m1; mother2 := m2; color1 := c1; color2 := c2;
        spin := sp; barcode := 0; vertex_barcode := 0;
        end_vertex_barcode := 0; attributes := [] |}.

(** The particle loop, [for i in range(nup)]: each round takes one line;
    a blank line or a comment uses up its round (the assignment to the
    loop variable has no effect on the iteration). *)
Fixpoint parse_particles (rounds : nat) (lines : list string)
  : result (list (Particle F)) :=
  match rounds with
  | O => Ok []
  | S rounds' =>
      match lines with
      | [] => Ok []
      | l :: rest =>
          let s := Py.strip l in
          if skipped s then parse_particles rounds' rest
          else
            p <- parse_row s ;;
            ps <- parse_particles rounds' rest ;;
            Ok (p :: ps)
      end
  end.

Definition _parse_event_block (lines : list string) (event_number : Z)
  : result (Event F) :=
  match find_header lines with
  | None => Ok (default_event event_number)
  | Some (header, rest) =>
      let hp := Py.split header in
      nup <- int_col hp 0 ;;
      process_id <- (if (1 <? List.length hp)%nat then int_col hp 1 else Ok 0) ;;
      weight <- (if (2 <? List.length hp)%nat then float_col hp 2
                 else Ok (flit 1)) ;;
      scale <- (if (3 <? List.length hp)%nat then float_col hp 3
                else Ok (flit 0)) ;;
      aqed <- (if (4 <? List.length hp)%nat then float_col hp 4
               else Ok (flit 0)) ;;
      aqcd <- (if (5 <? List.length hp)%nat then float_col hp 5
               else Ok (flit 0)) ;;
      particles <- parse_particles (Z.to_nat nup) rest ;;
      Ok {| event_number := event_number; particles := particles;
            vertices := []; weights := [weight]; process_id := process_id;
            scale := scale; alpha_qed := aqed; alpha_qcd := aqcd;
            n_particles := nup; extra := [] |}
  end.

(** [list(iter_lhe(path))] on the lines of the file: [buf] holds the
    lines of the open event in reverse, [event_no] counts the events. *)
Fixpoint iter_lhe_from (lines : list string) (in_event : bool)
         (buf : list string) (event_no : Z) : result (list (Event F)) :=
  match lines with
  | [] => Ok []
  | line :: rest =>
      if negb in_event then
        if _TAG_EVENT_OPEN line then iter_lhe_from rest true [] event_no
        else iter_lhe_from rest false buf event_no
      else if _TAG_EVENT_CLOSE line then
        ev <- _parse_event_block (rev buf) (event_no + 1) ;;
        evs <- iter_lhe_from rest false [] (event_no + 1) ;;
        Ok (ev :: evs)
      else iter_lhe_from rest true (line :: buf) event_no
  end.

Definition iter_lhe (lines : list string) : result (list (Event F)) :=
  iter_lhe_from lines false [] 0.

(** In the words of the specification: the entries of the weight blocks
    of an event block, that is, the lines that open a [<weight ...>] or
    a [<wgt ...>] element. *)
Definition spec_weight_entries (lines : list string) : list string :=
  filter (fun l => search_word "<weight" l || search_word "<wgt" l) lines.

End WithFloat.
End lhe.

Module lhe_fixtures.

(** The double quote. *)
Definition dq : string := String (ascii_of_nat 34) EmptyString.

(** The file [tests/fixtures/edge_cases.lhe] written by the test suite. *)
Definition edge_cases : list string :=
  [ "<LesHouchesEvents version=" ++ dq ++ "3.0" ++ dq ++ ">";
    "<init>";
    "# Comment lines inside init are common";
    "2212 2212 6500 6500 0 0 0 0 0 0";
    "</init>";
    "<event>";
    "# Header with fewer cols is seen in the wild";
    "2 42 1.0";
    "# Particle lines with Fortran D exponents and extra spaces";
    "  22 1 0 0 0 0  0.0 0.0 1.0D+01 1.0D+01 0.0 0 9";
    "  22 1 0 0 0 0  0.0 0.0 -1.0D+01 1.0D+01 0.0 0 9";
    "# Generator-specific per-event trailer line(s) sometimes appear here";
    "some_generator_token 123 4.5D+00";
    "<weights>";
    "  <weight id='nominal'> 1.0 </weight>";
    "  <weight id='pdf_alt'> 0.8 </weight>";
    "</weights>";
    "<rwgt>";
    "  <wgt id=" ++ dq ++ "mur=0.5_muf=0.5" ++ dq ++ "> 0.9 </wgt>";
    "  <wgt id=" ++ dq ++ "mur=2.0_muf=2.0" ++ dq ++ "> 1.1 </wgt>";
    "</rwgt>";
    "</event>";
    "</LesHouchesEvents>" ].

(** An event block with one malformed energy column. *)
Definition malformed_block : list string :=
  [ "1 1 1.0 91.0 0.007 0.118";
    "22 1 0 0 0 0 0.0 0.0 10.0 n/a 0.0 0 9" ].

(** An event block with well-formed rows followed by weight blocks. *)
Definition weights_block : list string :=
  [ "2 42 1.0";
    "  22 1 0 0 0 0  0.0 0.0 1.0E+01 1.0E+01 0.0 0 9";
    "  22 1 0 0 0 0  0.0 0.0 -1.0E+01 1.0E+01 0.0 0 9";
    "<weights>";
    "  <weight id='nominal'> 1.0 </weight>";
    "  <weight id='pdf_alt'> 0.8 </weight>";
    "</weights>";
    "<rwgt>";
    "  <wgt id=" ++ dq ++ "mur=0.5_muf=0.5" ++ dq ++ "> 0.9 </wgt>";
    "  <wgt id=" ++ dq ++ "mur=2.0_muf=2.0" ++ dq ++ "> 1.1 </wgt>";
    "</rwgt>" ].

End lhe_fixtures.

(** ** audit.py *)

Module audit.
Import models.
Section WithFloat.
Context {F : Type} {FM : FloatModel F}.

(** The state of a [LossCounter] object.  The three dictionaries are
    mutable objects of their own; [dropped_weights] is an integer
    attribute, rebound by [+=]. *)
Record LossCounter : Type := mkLossCounter {
  dropped_fields : list (string * Z);
  dropped_weights : Z;
  dropped_runinfo_keys : list (string * Z);
  loss_examples : list (string * list json.value)
}.

(** [LossCounter()] *)
Definition new_counter : LossCounter :=
  {| dropped_fields := []; dropped_weights := 0;
     dropped_runinfo_keys := []; loss_examples := [] |}.

Record capabilities : Type := mkCapabilities {
  particle_fields : list string;
  event_fields : list string;
  run_fields : list string
}.

Definition _CAPABILITIES : list (string * capabilities) :=
  [ ("lhe",
     {| particle_fields :=
          ["pdg_id"; "status"; "mother1"; "mother2"; "color1"; "color2";
           "px"; "py"; "pz"; "energy"; "mass"; "spin"];
        event_fields :=
          ["event_number"; "weights"; "process_id"; "scale"; "alpha_qed";
           "alpha_qcd"];
        run_fields :=
          ["beam_pdg_id"; "beam_energy"; "weight_names"; "processes";
           "generator_name"; "generator_version"; "extra"] |});
    ("hepmc3",
     {| particle_fields :=
          ["pdg_id"; "status"; "px"; "py"; "pz"; "energy"; "mass"; "barcode";
           "vertex_barcode"; "end_vertex_barcode"; "attributes"];
        event_fields := ["event_number"; "weights"; "extra"];
        run_fields :=
          ["beam_pdg_id"; "beam_energy"; "weight_names"; "generator_name";
           "generator_version"; "extra"] |});
    ("csv",
     {| particle_fields :=
          ["pdg_id"; "status"; "mother1"; "mother2"; "color1"; "color2";
           "px"; "py"; "pz"; "energy"; "mass"; "spin"; "barcode";
           "vertex_barcode"; "end_vertex_barcode"];
        event_fields := ["event_number"];
        run_fields := [] |});
    ("tsv",
     {| particle_fields :=
          ["pdg_id"; "status"; "mother1"; "mother2"; "color1"; "color2";
           "px"; "py"; "pz"; "energy"; "mass"; "spin"; "barcode";
           "vertex_barcode"; "end_vertex_barcode"];
        event_fields := ["event_number"];
        run_fields := [] |});
    ("parquet",
     {| particle_fields :=
          ["pdg_id"; "status"; "mother1"; "mother2"; "color1"; "color2";
           "px"; "py"; "pz"; "energy"; "mass"; "spin"; "barcode";
           "vertex_barcode"; "end_vertex_barcode"; "attributes"];
        event_fields :=
          ["event_number"; "weights"; "process_id"; "scale"; "alpha_qed";
           "alpha_qcd"; "extra"];
        run_fields :=
          ["beam_pdg_id"; "beam_energy"; "weight_names"; "processes";
           "generator_name"; "generator_version"; "extra"] |}) ].

Definition format_capabilities (fmt : string) : capabilities :=
  match dict.get String.eqb _CAPABILITIES fmt with
  | Some c => c
  | None => {| particle_fields := []; event_fields := []; run_fields := [] |}
  end.

Definition mem_string (s : string) (l : list string) : bool :=
  existsb (String.eqb s) l.

Fixpoint insert_string (s : string) (l : list string) : list string :=
  match l with
  | [] => [s]
  | t :: l' =>
      if String.ltb s t then s :: l
      else if String.eqb s t then l
      else t :: insert_string s l'
  end.

(** [s < t] on strings. *)
Definition string_lt (s t : string) : Prop := String.ltb s t = true.

(** [sorted(set(a) - set(b))] *)
Definition sorted_difference (a b : list string) : list string :=
  fold_right insert_string [] (filter (fun s => negb (mem_string s b)) a).

Record plan : Type := mkPlan {
  input_format : string;
  output_format : string;
  dropped_particle_fields : list string;
  dropped_event_fields : list string;
  dropped_run_fields : list string
}.

Definition loss_plan (input_format output_format : string) : plan :=
  let ic := format_capabilities input_format in
  let oc := format_capabilities output_format in
  {| input_format := input_format;
     output_format := output_format;
     dropped_particle_fields :=
       sorted_difference (particle_fields ic) (particle_fields oc);
     dropped_event_fields :=
       sorted_difference (event_fields ic) (event_fields oc);
     dropped_run_fields := sorted_difference (run_fields ic) (run_fields oc) |}.

(** The plan as the dictionary it is. *)
Definition plan_value (p : plan) : json.value :=
  json.JDict
    [ ("input_format", json.JStr (input_format p));
      ("output_format", json.JStr (output_format p));
      ("dropped_particle_fields",
       json.JList (map json.JStr (dropped_particle_fields p)));
      ("dropped_event_fields",
       json.JList (map json.JStr (dropped_event_fields p)));
      ("dropped_run_fields", json.JList (map json.JStr (dropped_run_fields p))) ].

(** The value of an attribute, as far as [_non_default] looks at it. *)
Inductive attr_value : Type :=
| AInt (n : Z)
| AFloat (x : F)
| ASized (len : nat).

(** [getattr(ev, field)] on the fields of the dataclass; [None] when
    [hasattr] is false. *)
Definition event_getattr (ev : Event F) (field : string) : option attr_value :=
  if String.eqb field "event_number" then Some (AInt (event_number ev))
  else if String.eqb field "particles" then Some (ASized (List.length (particles ev)))
  else if String.eqb field "vertices" then Some (ASized (List.length (vertices ev)))
  else if String.eqb field "weights" then Some (ASized (List.length (weights ev)))
  else if String.eqb field "process_id" then Some (AInt (process_id ev))
  else if String.eqb field "scale" then Some (AFloat (scale ev))
  else if String.eqb field "alpha_qed" then Some (AFloat (alpha_qed ev))
  else if String.eqb field "alpha_qcd" then Some (AFloat (alpha_qcd ev))
  else if String.eqb field "n_particles" then Some (AInt (n_particles ev))
  else if String.eqb field "extra" then Some (ASized (List.length (extra ev)))
  else None.

Definition particle_getattr (p : Particle F) (field : string) : option attr_value :=
  if String.eqb field "pdg_id" then Some (AInt (pdg_id p))
  else if String.eqb field "status" then Some (AInt (status p))
  else if String.eqb field "px" then Some (AFloat (px p))
  else if String.eqb field "py" then Some (AFloat (py p))
  else if String.eqb field "pz" then Some (AFloat (pz p))
  else if String.eqb field "energy" then Some (AFloat (energy p))
  else if String.eqb field "mass" then Some (AFloat (mass p))
  else if String.eqb field "mother1" then Some (AInt (mother1 p))
  else if String.eqb field "mother2" then Some (AInt (mother2 p))
  else if String.eqb field "color1" then Some (AInt (color1 p))
  else if String.eqb field "color2" then Some (AInt (color2 p))
  else if String.eqb field "spin" then Some (AFloat (spin p))
  else if String.eqb field "barcode" then Some (AInt (barcode p))
  else if String.eqb field "vertex_barcode" then Some (AInt (vertex_barcode p))
  else if String.eqb field "end_vertex_barcode" then
    Some (AInt (end_vertex_barcode p))
  else if String.eqb field "attributes" then
    Some (ASized (List.length (attributes p)))
  else None.

(** [_non_default(val)]: a number other than 0 and 9, a non-empty
    container. *)
Definition _non_default (val : attr_value) : bool :=
  match val with
  | AInt n => negb (n =? 0) && negb (n =? 9)
  | AFloat x => negb (feqb x (flit 0)) && negb (feqb x (flit 9))
  | ASized len => negb (len =? 0)%nat
  end.

(** [hasattr(o, field) and _non_default(getattr(o, field))] *)
Definition has_non_default (v : option attr_value) : bool :=
  match v with Some a => _non_default a | None => false end.

(** [_record_example(key, ex)] *)
Definition _record_example (c : LossCounter) (key : string) (ex : json.value)
  : LossCounter :=
  let lst :=
    match dict.get String.eqb (loss_examples c) key with
    | Some l => l
    | None => []
    end in
  let lst' := if (List.length lst <? 5)%nat then (lst ++ [ex])%list else lst in
  {| dropped_fields := dropped_fields c;
     dropped_weights := dropped_weights c;
     dropped_runinfo_keys := dropped_runinfo_keys c;
     loss_examples := dict.set String.eqb (loss_examples c) key lst' |}.

(** [counter.dropped_fields[k] = counter.dropped_fields.get(k, 0) + 1] *)
Definition count_field (c : LossCounter) (k : string) : LossCounter :=
  let n :=
    match dict.get String.eqb (dropped_fields c) k with
    | Some n => n
    | None => 0
    end in
  {| dropped_fields := dict.set String.eqb (dropped_fields c) k (n + 1);
     dropped_weights := dropped_weights c;
     dropped_runinfo_keys := dropped_runinfo_keys c;
     loss_examples := loss_examples c |}.

Definition count_weights (c : LossCounter) : LossCounter :=
  {| dropped_fields := dropped_fields c;
     dropped_weights := dropped_weights c + 1;
     dropped_runinfo_keys := dropped_runinfo_keys c;
     loss_examples := loss_examples c |}.

(** The body of the loop of [_wrapped] for one event.  The dropped
    fields are visited in the order of the plan; the order in which a
    set is iterated only changes the insertion order of the keys, which
    the sorted encoding does not show. *)
Definition observe_event (p : plan) (c : LossCounter) (ev : Event F)
  : LossCounter :=
  let c :=
    if mem_string "weights" (dropped_event_fields p)
       && _non_default (ASized (List.length (weights ev)))
       && (1 <? List.length (weights ev))%nat
    then count_weights c else c in
  let c :=
    fold_left
      (fun c field =>
         if String.eqb field "weights" then c
         else if has_non_default (event_getattr ev field) then
           _record_example (count_field c ("event." ++ field))
             ("event." ++ field)
             (json.JDict [("event", json.JInt (event_number ev))])
         else c)
      (dropped_event_fields p) c in
  fold_left
    (fun c pt =>
       fold_left
         (fun c pf =>
            if has_non_default (particle_getattr pt pf) then
              _record_example (count_field c ("particle." ++ pf))
                ("particle." ++ pf)
                (json.JDict [("event", json.JInt (event_number ev));
                             ("particle_barcode", json.JInt (barcode pt))])
            else c)
         (dropped_particle_fields p) c)
    (particles ev) c.

(** The counter once the wrapped stream has been consumed. *)
Definition observe_all (p : plan) (c : LossCounter) (evs : list (Event F))
  : LossCounter :=
  fold_left (observe_event p) evs c.

Definition counts_value (d : list (string * Z)) : json.value :=
  json.JDict (map (fun kv => (fst kv, json.JInt (snd kv))) d).

Definition examples_value (d : list (string * list json.value)) : json.value :=
  json.JDict (map (fun kv => (fst kv, json.JList (snd kv))) d).

(** The payload of [loss_hash]. *)
Definition loss_payload (p : json.value) (fields : json.value)
           (weights : json.value) (runinfo : json.value)
           (examples : json.value) : json.value :=
  json.JDict
    [ ("plan", p);
      ("observed",
       json.JDict
         [ ("dropped_fields", fields);
           ("dropped_weights", weights);
           ("dropped_runinfo_keys", runinfo);
           ("loss_examples", examples) ]) ].

Definition loss_hash (p : plan) (counter : LossCounter) : string :=
  let payload :=
    loss_payload (plan_value p)
      (counts_value (dropped_fields counter))
      (json.JInt (dropped_weights counter))
      (counts_value (dropped_runinfo_keys counter))
      (examples_value (loss_examples counter)) in
  hashlib.sha256_hex (stable_json_dumps payload).

End WithFloat.
End audit.

(** ** convert.py *)

Module convert.
Import models audit.
Section WithFloat.
Context {F : Type} {FM : FloatModel F}.

(** A slot of the report either holds a value copied when the report
    was built or refers to one of the dictionaries of the counter. *)
Inductive counter_dict : Type :=
| DroppedFields | DroppedRuninfoKeys | LossExamples.

Inductive slot : Type :=
| ByValue (v : json.value)
| ByRef (d : counter_dict).

Record audit_report : Type := mkReport {
  kind : string;
  report_loss_plan : plan;
  observed : list (string * slot);
  report_loss_hash : string;
  provenance : json.value
}.

(** The dictionary a reference points to, in the state [c] of the
    counter. *)
Definition deref (c : LossCounter) (d : counter_dict) : json.value :=
  match d with
  | DroppedFields => counts_value (dropped_fields c)
  | DroppedRuninfoKeys => counts_value (dropped_runinfo_keys c)
  | LossExamples => examples_value (loss_examples c)
  end.

Definition slot_value (c : LossCounter) (s : slot) : json.value :=
  match s with
  | ByValue v => v
  | ByRef d => deref c d
  end.

(** What [convert] leaves behind: the report it returns and writes, the
    state of the counter the report refers to, and the event count. *)
Record conversion : Type := mkConversion {
  report : audit_report;
  counter : LossCounter;
  n_output : Z
}.

(** [convert(input_path, output_path)] without filter and validation.
    [events] are the events the reader yields; [build_provenance] gives
    the provenance record for a loss hash.  The statements run in the
    order of the source: plan, wrapped stream (nothing is consumed
    yet), hash, report, and only then the writer, which consumes the
    stream. *)
Definition convert (input_format output_format : string)
           (events : list (Event F))
           (build_provenance : string -> json.value) : conversion :=
  let plan := loss_plan input_format output_format in
  let loss_counter := new_counter in
  let lhash := loss_hash plan loss_counter in
  let prov := build_provenance lhash in
  let rep :=
    {| kind := "hepconduit.conversion_report.v1";
       report_loss_plan := plan;
       observed :=
         [ ("dropped_fields", ByRef DroppedFields);
           ("dropped_weights_events", ByValue (json.JInt (dropped_weights loss_counter)));
           ("dropped_runinfo_keys", ByRef DroppedRuninfoKeys);
           ("loss_examples", ByRef LossExamples) ];
       report_loss_hash := lhash;
       provenance := prov |} in
  let loss_counter := observe_all plan loss_counter events in
  {| report := rep; counter := loss_counter;
     n_output := Z.of_nat (List.length events) |}.

(** An entry of the [observed] dictionary of the report, as it stands
    when the report is emitted. *)
Definition observed_entry (c : conversion) (key : string) : json.value :=
  match dict.get String.eqb (observed (report c)) key with
  | Some s => slot_value (counter c) s
  | None => json.JNull
  end.

(** The report as [stable_json_dumps] sees it after the conversion. *)
Definition emitted_report (c : conversion) : json.value :=
  json.JDict
    [ ("kind", json.JStr (kind (report c)));
      ("loss_plan", plan_value (report_loss_plan (report c)));
      ("observed",
       json.JDict
         (map (fun ks => (fst ks, slot_value (counter c) (snd ks)))
              (observed (report c))));
      ("loss_hash", json.JStr (report_loss_hash (report c)));
      ("provenance", provenance (report c)) ].

(** The hash the specification asks for: SHA-256 of the canonical JSON
    of the plan of the report with the observed counts of the same
    report. *)
Definition spec_loss_hash (c : conversion) : string :=
  hashlib.sha256_hex
    (stable_json_dumps
       (loss_payload (plan_value (report_loss_plan (report c)))
          (observed_entry c "dropped_fields")
          (observed_entry c "dropped_weights_events")
          (observed_entry c "dropped_runinfo_keys")
          (observed_entry c "loss_examples"))).

End WithFloat.
End convert.

Module convert_fixtures.

(** A provenance record; its content plays no part in the loss hash. *)
Definition provenance_of (lhash : string) : json.value :=
  json.JDict [("tool", json.JStr "hepconduit"); ("loss_hash", json.JStr lhash)].

End convert_fixtures.

(** ** Notions used to state properties of the fingerprint *)

Module fingerprint_notions.
Import models fingerprint.
Section WithFloat.
Context {F : Type} {FM : FloatModel F}.

(** The particle passes the three status tests of the first loop of
    [fingerprint_event]. *)
Definition survives (cfg : FingerprintConfig F) (p : Particle F) : bool :=
  negb (status p =? 3)
  && negb (is_incoming p && negb (include_incoming cfg))
  && negb (is_intermediate p && negb (include_intermediate cfg)).

(** Two particles agree on the fields [_particle_key] reads. *)
Definition same_key_fields (p q : Particle F) : Prop :=
  status p = status q /\ pdg_id p = pdg_id q /\ px p = px q /\
  py p = py q /\ pz p = pz q /\ energy p = energy q.

(** Two events agree on what the fingerprint reads apart from the
    particles. *)
Definition same_event_fields (a b : Event F) : Prop :=
  weights a = weights b /\ process_id a = process_id b.

End WithFloat.
End fingerprint_notions.

(** ** Notions used to state properties of the loss counter *)

Module audit_notions.
Import audit.

(** The count and the stored examples of one key agree: both absent,
    or a count of at least one with [min(count, 5)] examples. *)
Definition examples_agree (n : option Z) (l : option (list json.value)) : Prop :=
  match n, l with
  | None, None => True
  | Some n, Some l => 1 <= n /\ Z.of_nat (List.length l) = Z.min n 5
  | _, _ => False
  end.

Definition counter_agrees (c : LossCounter) : Prop :=
  forall k,
    examples_agree (dict.get String.eqb (dropped_fields c) k)
                   (dict.get String.eqb (loss_examples c) k).

End audit_notions.

(** ** validation.py: the report and the streaming validator *)

Module validation_file.
Import models validation.
Section WithFloat.
Context {F : Type} {FM : FloatModel F}.

Local Abbreviation ValidationIssue := (@validation.ValidationIssue F).

Variable is_valid_pdg_id : Z -> bool.
Variable computed_mass : Particle F -> result F.

(** [ValidationIssue.__str__]; it formats the numbers of the message. *)
Variable render : ValidationIssue -> string.

Record ValidationReport : Type := mkValidationReport {
  issues : list (ValidationIssue)
}.

Definition n_errors (r : ValidationReport) : nat :=
  List.length (filter (fun i => String.eqb (level i) "error") (issues r)).

Definition n_warnings (r : ValidationReport) : nat :=
  List.length (filter (fun i => String.eqb (level i) "warning") (issues r)).

Definition is_valid (r : ValidationReport) : bool := (n_errors r =? 0)%nat.

(** The issue list reports a negative energy [e] at particle [i]. *)
Definition reports_negative_energy (found : list (ValidationIssue))
           (evt i : Z) (e : F) : Prop :=
  In (mkIssue "error" evt (Some i) (NegativeEnergy e)) found.

(** [max_events >= 0 and i >= max_events] *)
Definition past_limit (max_events i : Z) : bool :=
  (0 <=? max_events) && (max_events <=? i).

Section WithOptions.
Variables check_momentum check_pdg check_energy check_mass : bool.
Variables momentum_tolerance mass_tolerance : F.
Variable max_events : Z.

Definition check (event : Event F) : result (list ValidationIssue) :=
  validate_event is_valid_pdg_id computed_mass event check_momentum check_pdg
                 check_energy check_mass momentum_tolerance mass_tolerance.

(** The loop of [validate], from the event of index [i] on: the issues
    [report.issues] is extended with.  An exception of [validate_event]
    ends the loop and no report is returned. *)
Fixpoint validate_from (i : Z) (events : list (Event F))
  : result (list ValidationIssue) :=
  match events with
  | [] => Ok []
  | event :: rest =>
      if past_limit max_events i then Ok []
      else
        found <- check event ;;
        more <- validate_from (i + 1) rest ;;
        Ok (found ++ more)%list
  end.

Definition validate (events : list (Event F)) : result ValidationReport :=
  found <- validate_from 0 events ;;
  Ok {| issues := found |}.

Definition set_extra (x : list (string * json.value)) (ev : Event F) : Event F :=
  {| event_number := event_number ev; particles := particles ev;
     vertices := vertices ev; weights := weights ev;
     process_id := process_id ev; scale := scale ev;
     alpha_qed := alpha_qed ev; alpha_qcd := alpha_qcd ev;
     n_particles := n_particles ev; extra := x |}.

(** The event as [validate_stream] yields it. *)
Definition annotate (event : Event F) (found : list ValidationIssue) : Event F :=
  if truthy found then
    set_extra
      (json.dict_set (extra event) "validation_issues"
         (json.JList (map (fun x => json.JStr (render x)) found)))
      event
  else event.

Definition errors_of (found : list ValidationIssue) : list ValidationIssue :=
  filter (fun i => String.eqb (level i) "error") found.

(** The generator [validate_stream], run to its end: the events it
    yields and the exception that ends it, if one does.  An exception of
    [validate_event] is not caught and ends the generator. *)
Fixpoint validate_stream_from (strict : bool) (i : Z) (events : list (Event F))
  : list (Event F) * option exn :=
  match events with
  | [] => ([], None)
  | event :: rest =>
      if past_limit max_events i then ([], None)
      else
        match check event with
        | Raise e => ([], Some e)
        | Ok found =>
            match errors_of found with
            | first :: _ =>
                if strict then ([], Some (ValueError (render first)))
                else
                  let (ys, e) := validate_stream_from strict (i + 1) rest in
                  (annotate event found :: ys, e)
            | [] =>
                let (ys, e) := validate_stream_from strict (i + 1) rest in
                (annotate event found :: ys, e)
            end
        end
  end.

Definition validate_stream (strict : bool) (events : list (Event F))
  : list (Event F) * option exn :=
  validate_stream_from strict 0 events.

(** The events the limit lets through. *)
Definition within_limit (events : list (Event F)) : list (Event F) :=
  if max_events <? 0 then events else firstn (Z.to_nat max_events) events.

End WithOptions.
End WithFloat.
End validation_file.

(** ** Notions used to state properties of the filter validator *)

Module filtering_notions.
Import ast filtering.

(** The expression nodes an accepted filter is made of: boolean,
    arithmetic and comparison operations over names and constants, and
    calls of the listed functions by their bare name with positional
    arguments. *)
Definition plain (e : ast.expr) : Prop :=
  match e with
  | BoolOp _ _ | Constant _ => True
  | BinOp _ op _ => List.In op [Add; Sub; Mult; Div; FloorDiv; Mod; Pow]
  | UnaryOp op _ => List.In op [Not; USub; UAdd]
  | Compare _ ops _ =>
      Forall (fun o => List.In o [Eq; NotEq; Lt; LtE; Gt; GtE]) ops
  | Name id ctx => ctx = Load /\ Py.startswith id "__" = false
  | Call func _ keywords =>
      keywords = [] /\
      exists id, func = Name id Load /\ List.In id ALLOWED_FUNCS
  | _ => False
  end.

End filtering_notions.

(** ** Text files and tokens *)

Module textio.

Definition LF : ascii := "010"%char.
Definition CR : ascii := "013"%char.

(** The line feed the writers end each record with. *)
Definition nl : string := String LF EmptyString.

(** Iterating over a file opened for reading in text mode: a line ends
    after a line feed, a carriage return or the pair of them, each
    delivered as one line feed; what follows the last of them is the
    last line.  [cur] is the line being read, reversed; [after_cr]
    tells that the previous character was a carriage return. *)
Fixpoint lines_from (s cur : string) (after_cr : bool) : list string :=
  match s with
  | EmptyString =>
      match cur with
      | EmptyString => []
      | _ => [Py.rev_string cur EmptyString]
      end
  | String c s' =>
      if Ascii.eqb c LF then
        if after_cr then lines_from s' cur false
        else Py.rev_string (String LF cur) EmptyString
               :: lines_from s' EmptyString false
      else if Ascii.eqb c CR then
        Py.rev_string (String LF cur) EmptyString
          :: lines_from s' EmptyString true
      else lines_from s' (String c cur) false
  end.

(** [list(f)] for the text [text] of the file. *)
Definition readlines (text : string) : list string :=
  lines_from text EmptyString false.

(** Every character of [s] satisfies [f]. *)
Fixpoint all_chars (f : ascii -> bool) (s : string) : bool :=
  match s with
  | EmptyString => true
  | String c s' => f c && all_chars f s'
  end.

(** A token: not empty and free of blanks. *)
Definition is_token (s : string) : bool :=
  negb (Py.is_empty s) && all_chars (fun c => negb (Py.is_space c)) s.

(** No [<] occurs in [s]. *)
Definition no_angle (s : string) : bool :=
  all_chars (fun c => negb (Ascii.eqb c "<"%char)) s.

(** [s] ends with a character that is not a blank. *)
Definition ends_solid (s : string) : Prop :=
  exists s' c, s = s' ++ String c EmptyString /\ Py.is_space c = false.

(** Neither a line feed nor a carriage return. *)
Definition line_char (c : ascii) : bool :=
  negb (Ascii.eqb c LF) && negb (Ascii.eqb c CR).

End textio.

(** ** Decimal digits *)

Module decimal.

(** The value of the digits [d] read after the value [acc]. *)
Fixpoint uint_value (d : Decimal.uint) (acc : Z) : Z :=
  match d with
  | Decimal.Nil => acc
  | Decimal.D0 d' => uint_value d' (10 * acc + 0)
  | Decimal.D1 d' => uint_value d' (10 * acc + 1)
  | Decimal.D2 d' => uint_value d' (10 * acc + 2)
  | Decimal.D3 d' => uint_value d' (10 * acc + 3)
  | Decimal.D4 d' => uint_value d' (10 * acc + 4)
  | Decimal.D5 d' => uint_value d' (10 * acc + 5)
  | Decimal.D6 d' => uint_value d' (10 * acc + 6)
  | Decimal.D7 d' => uint_value d' (10 * acc + 7)
  | Decimal.D8 d' => uint_value d' (10 * acc + 8)
  | Decimal.D9 d' => uint_value d' (10 * acc + 9)
  end.

(** A digit or the minus sign. *)
Definition int_char (c : ascii) : bool :=
  Py.is_digit c || Ascii.eqb c "-"%char.

End decimal.

(** ** models.py: run information *)

Module runinfo.
Section WithFloat.
Context {F : Type} {FM : FloatModel F}.

Record ProcessInfo : Type := mkProcessInfo {
  process_id : Z;
  cross_section : F;
  cross_section_error : F;
  max_weight : F
}.

Record RunInfo : Type := mkRunInfo {
  beam_pdg_id : Z * Z;
  beam_energy : F * F;
  weight_names : list string;
  processes : list ProcessInfo;
  generator_name : string;
  generator_version : string;
  extra : list (string * json.value)
}.

(** [RunInfo()] *)
Definition default_run_info : RunInfo :=
  {| beam_pdg_id := (0, 0); beam_energy := (flit 0, flit 0);
     weight_names := []; processes := []; generator_name := EmptyString;
     generator_version := EmptyString; extra := [] |}.

End WithFloat.
Arguments ProcessInfo F : clear implicits.
Arguments RunInfo F : clear implicits.
End runinfo.

(** ** io/lhe.py: the writer *)

Module lhe_writer.
Import models textio.
Section WithFloat.
Context {F : Type} {FM : FloatModel F}.

(** [format(x, ".<digits>g")] *)
Variable format_g : nat -> F -> string.

(** What a sequence of [out.write] calls leaves in the file. *)
Fixpoint written (chunks : list string) : string :=
  match chunks with
  | [] => EmptyString
  | c :: rest => c ++ written rest
  end.

Definition process_line (proc : runinfo.ProcessInfo F) : string :=
  format_g 8 (runinfo.cross_section proc) ++ " "
  ++ format_g 8 (runinfo.cross_section_error proc) ++ " "
  ++ format_g 8 (runinfo.max_weight proc) ++ " "
  ++ Py.str_of_int (runinfo.process_id proc) ++ nl.

Definition beam_line (run : runinfo.RunInfo F) : string :=
  Py.str_of_int (fst (runinfo.beam_pdg_id run)) ++ " "
  ++ Py.str_of_int (snd (runinfo.beam_pdg_id run)) ++ " "
  ++ format_g 8 (fst (runinfo.beam_energy run)) ++ " "
  ++ format_g 8 (snd (runinfo.beam_energy run)) ++ " 0 0 0 0 0 0" ++ nl.

Definition init_block (run : runinfo.RunInfo F) : string :=
  "<init>" ++ nl
  ++ beam_line run
  ++ written (map process_line (runinfo.processes run))
  ++ "</init>" ++ nl.

Definition generator_line (run : runinfo.RunInfo F) : string :=
  if negb (Py.is_empty (runinfo.generator_name run)) then
    let gen :=
      if negb (Py.is_empty (runinfo.generator_version run)) then
        runinfo.generator_name run ++ " v" ++ runinfo.generator_version run
      else runinfo.generator_name run in
    "<generator>" ++ gen ++ "</generator>" ++ nl
  else EmptyString.

(** What is written before the first event. *)
Definition preamble (run : runinfo.RunInfo F) : string :=
  "<LesHouchesEvents version=" ++ lhe_fixtures.dq ++ "3.0" ++ lhe_fixtures.dq
  ++ ">" ++ nl
  ++ init_block run ++ generator_line run.

Definition header_line (ev : Event F) (w : F) : string :=
  Py.str_of_int (Z.of_nat (List.length (particles ev))) ++ " "
  ++ Py.str_of_int (process_id ev) ++ " "
  ++ format_g 16 w ++ " "
  ++ format_g 16 (scale ev) ++ " "
  ++ format_g 16 (alpha_qed ev) ++ " "
  ++ format_g 16 (alpha_qcd ev) ++ nl.

Definition particle_line (p : Particle F) : string :=
  Py.str_of_int (pdg_id p) ++ " "
  ++ Py.str_of_int (status p) ++ " "
  ++ Py.str_of_int (mother1 p) ++ " "
  ++ Py.str_of_int (mother2 p) ++ " "
  ++ Py.str_of_int (color1 p) ++ " "
  ++ Py.str_of_int (color2 p) ++ " "
  ++ format_g 16 (px p) ++ " "
  ++ format_g 16 (py p) ++ " "
  ++ format_g 16 (pz p) ++ " "
  ++ format_g 16 (energy p) ++ " "
  ++ format_g 16 (mass p) ++ " 0 "
  ++ format_g 16 (spin p) ++ nl.

(** The body of the loop over the events. *)
Definition event_block (ev : Event F) : result string :=
  w <- weight ev ;;
  Ok ("<event>" ++ nl
      ++ header_line ev w
      ++ written (map particle_line (particles ev))
      ++ "</event>" ++ nl).

Fixpoint event_blocks (events : list (Event F)) : result string :=
  match events with
  | [] => Ok EmptyString
  | ev :: rest =>
      b <- event_block ev ;;
      bs <- event_blocks rest ;;
      Ok (b ++ bs)
  end.

(** [LHEWriter.write(path, events, run_info)]: the text of the file. *)
Definition write (events : list (Event F))
           (run_info : option (runinfo.RunInfo F)) : result string :=
  let run :=
    match run_info with
    | Some r => r
    | None => runinfo.default_run_info
    end in
  body <- event_blocks events ;;
  Ok (preamble run ++ body ++ "</LesHouchesEvents>" ++ nl).

End WithFloat.
End lhe_writer.

(** ** io/lhe.py: the run information *)

Module lhe_run.
Import textio.
Section WithFloat.
Context {F : Type} {FM : FloatModel F}.

Definition _TAG_INIT_OPEN (line : string) : bool := lhe.search_word "<init" line.
Definition _TAG_INIT_CLOSE (line : string) : bool := lhe.search "</init>" line.

(** The first loop of [_parse_init]: the beams are read from the first
    line with four columns or more; when an energy does not parse the
    identifiers read before it stay. *)
Fixpoint find_beams (lines : list string) : (Z * Z) * (F * F) :=
  match lines with
  | [] => ((0, 0), (flit 0, flit 0))
  | ln :: rest =>
      let s := Py.strip ln in
      if lhe.skipped s then find_beams rest
      else
        let parts := Py.split s in
        if (4 <=? List.length parts)%nat then
          match (a <- lhe.int_col parts 0 ;;
                 b <- lhe.int_col parts 1 ;;
                 Ok (a, b)) with
          | Raise _ => ((0, 0), (flit 0, flit 0))
          | Ok pdg =>
              match (a <- lhe.float_col parts 2 ;;
                     b <- lhe.float_col parts 3 ;;
                     Ok (a, b)) with
              | Raise _ => (pdg, (flit 0, flit 0))
              | Ok e => (pdg, e)
              end
          end
        else find_beams rest
  end.

(** The second loop: a process for every line of exactly four columns
    that parses and whose last column is not a beam identifier. *)
Fixpoint find_processes (beam_pdg : Z * Z) (lines : list string)
  : list (runinfo.ProcessInfo F) :=
  match lines with
  | [] => []
  | ln :: rest =>
      let s := Py.strip ln in
      if lhe.skipped s then find_processes beam_pdg rest
      else
        let parts := Py.split s in
        if (List.length parts =? 4)%nat then
          match (xsec <- lhe.float_col parts 0 ;;
                 xerr <- lhe.float_col parts 1 ;;
                 xmax <- lhe.float_col parts 2 ;;
                 lprup <- lhe.int_col parts 3 ;;
                 Ok (xsec, xerr, xmax, lprup)) with
          | Raise _ => find_processes beam_pdg rest
          | Ok (xsec, xerr, xmax, lprup) =>
              if negb ((lprup =? fst beam_pdg) || (lprup =? snd beam_pdg)) then
                {| runinfo.process_id := lprup;
                   runinfo.cross_section := xsec;
                   runinfo.cross_section_error := xerr;
                   runinfo.max_weight := xmax |}
                  :: find_processes beam_pdg rest
              else find_processes beam_pdg rest
          end
        else find_processes beam_pdg rest
  end.

Definition _parse_init (lines : list string) : runinfo.RunInfo F :=
  let (beam_pdg, beam_e) := find_beams lines in
  {| runinfo.beam_pdg_id := beam_pdg; runinfo.beam_energy := beam_e;
     runinfo.weight_names := [];
     runinfo.processes := find_processes beam_pdg lines;
     runinfo.generator_name := EmptyString;
     runinfo.generator_version := EmptyString; runinfo.extra := [] |}.

(** The loop of [read_run_info] that collects the lines of the init
    block: those after the first line that opens it, up to the line
    that closes it.  [init_lines] is kept in reverse. *)
Fixpoint collect_init_lines (lines : list string) (in_init : bool)
         (init_lines : list string) : list string :=
  match lines with
  | [] => rev init_lines
  | line :: rest =>
      if negb in_init then
        if _TAG_INIT_OPEN line then collect_init_lines rest true []
        else collect_init_lines rest false init_lines
      else if _TAG_INIT_CLOSE line then rev init_lines
      else collect_init_lines rest true (line :: init_lines)
  end.

End WithFloat.
End lhe_run.

(** ** Notions used to state what survives an LHE file *)

Module lhe_notions.
Import models textio.
Section WithFloat.
Context {F : Type} {FM : FloatModel F}.
Variable format_g : nat -> F -> string.

(** The text written for [x] is one token without [<], and reading it
    gives [x] back. *)
Definition survives (x : F) : Prop :=
  is_token (format_g 16 x) = true /\
  no_angle (format_g 16 x) = true /\
  float_of_str (format_g 16 x) = Ok x.

Definition particle_survives (p : Particle F) : Prop :=
  survives (px p) /\ survives (py p) /\ survives (pz p) /\
  survives (energy p) /\ survives (mass p) /\ survives (spin p).

(** The first weight, or 1.0. *)
Definition main_weight (ev : Event F) : F :=
  match weights ev with
  | w :: _ => w
  | [] => flit 1
  end.

Definition event_survives (ev : Event F) : Prop :=
  survives (main_weight ev) /\ survives (scale ev) /\
  survives (alpha_qed ev) /\ survives (alpha_qcd ev) /\
  Forall particle_survives (particles ev).

(** The columns of a particle line and of a header line. *)
Definition particle_columns (p : Particle F) : list string :=
  [ Py.str_of_int (pdg_id p); Py.str_of_int (status p);
    Py.str_of_int (mother1 p); Py.str_of_int (mother2 p);
    Py.str_of_int (color1 p); Py.str_of_int (color2 p);
    format_g 16 (px p); format_g 16 (py p); format_g 16 (pz p);
    format_g 16 (energy p); format_g 16 (mass p); "0";
    format_g 16 (spin p) ].

Definition header_columns (ev : Event F) (w : F) : list string :=
  [ Py.str_of_int (Z.of_nat (List.length (particles ev)));
    Py.str_of_int (process_id ev); format_g 16 w; format_g 16 (scale ev);
    format_g 16 (alpha_qed ev); format_g 16 (alpha_qcd ev) ].

(** What an LHE file keeps of a particle: no barcodes, no attributes. *)
Definition kept_particle (p : Particle F) : Particle F :=
  {| pdg_id := pdg_id p; status := status p; px := px p; py := py p;
     pz := pz p; energy := energy p; mass := mass p; mother1 := mother1 p;
     mother2 := mother2 p; color1 := color1 p; color2 := color2 p;
     spin := spin p; barcode := 0; vertex_barcode := 0;
     end_vertex_barcode := 0; attributes := [] |}.

(** What it keeps of an event read as number [n]: the first weight, the
    number of particles written, no vertices, no extras. *)
Definition kept_event (n : Z) (ev : Event F) : Event F :=
  {| event_number := n; particles := map kept_particle (particles ev);
     vertices := []; weights := [main_weight ev];
     process_id := process_id ev; scale := scale ev;
     alpha_qed := alpha_qed ev; alpha_qcd := alpha_qcd ev;
     n_particles := Z.of_nat (List.length (particles ev)); extra := [] |}.

Fixpoint kept_events (n : Z) (evs : list (Event F)) : list (Event F) :=
  match evs with
  | [] => []
  | ev :: rest => kept_event n ev :: kept_events (n + 1) rest
  end.

(** The same for the eight digits of the init block. *)
Definition survives_init (x : F) : Prop :=
  is_token (format_g 8 x) = true /\
  no_angle (format_g 8 x) = true /\
  float_of_str (format_g 8 x) = Ok x.

(** A process line is not taken for a comment. *)
Definition process_survives (proc : runinfo.ProcessInfo F) : Prop :=
  survives_init (runinfo.cross_section proc) /\
  survives_init (runinfo.cross_section_error proc) /\
  survives_init (runinfo.max_weight proc) /\
  Py.startswith (format_g 8 (runinfo.cross_section proc)) "#" = false.

Definition run_survives (run : runinfo.RunInfo F) : Prop :=
  survives_init (fst (runinfo.beam_energy run)) /\
  survives_init (snd (runinfo.beam_energy run)) /\
  Forall process_survives (runinfo.processes run).

(** The process carries the identifier of a beam. *)
Definition named_as_beam (run : runinfo.RunInfo F)
           (proc : runinfo.ProcessInfo F) : bool :=
  (runinfo.process_id proc =? fst (runinfo.beam_pdg_id run))
  || (runinfo.process_id proc =? snd (runinfo.beam_pdg_id run)).

(** What the init block keeps of the run information. *)
Definition kept_run (run : runinfo.RunInfo F) : runinfo.RunInfo F :=
  {| runinfo.beam_pdg_id := runinfo.beam_pdg_id run;
     runinfo.beam_energy := runinfo.beam_energy run;
     runinfo.weight_names := [];
     runinfo.processes :=
       filter (fun proc => negb (named_as_beam run proc))
              (runinfo.processes run);
     runinfo.generator_name := EmptyString;
     runinfo.generator_version := EmptyString; runinfo.extra := [] |}.

Definition beam_columns (run : runinfo.RunInfo F) : list string :=
  [ Py.str_of_int (fst (runinfo.beam_pdg_id run));
    Py.str_of_int (snd (runinfo.beam_pdg_id run));
    format_g 8 (fst (runinfo.beam_energy run));
    format_g 8 (snd (runinfo.beam_energy run));
    "0"; "0"; "0"; "0"; "0"; "0" ].

Definition process_columns (proc : runinfo.ProcessInfo F) : list string :=
  [ format_g 8 (runinfo.cross_section proc);
    format_g 8 (runinfo.cross_section_error proc);
    format_g 8 (runinfo.max_weight proc);
    Py.str_of_int (runinfo.process_id proc) ].

(** No line of [text] opens an event. *)
Definition opens_no_event (text : string) : Prop :=
  Forall (fun l => lhe._TAG_EVENT_OPEN l = false) (readlines text).

End WithFloat.
End lhe_notions.

(** ** Number formatting on the examples *)

Module format_fixtures.

(** [format(x, ".<digits>g")] on the numbers of the examples, which are
    integers of fewer than [digits] digits: the digits of the integer,
    without a decimal point. *)
Definition format_integral (digits : nat) (x : Q) : string :=
  Py.str_of_int (Qnum x).

End format_fixtures.

(** ** Run information of the examples *)

Module run_fixtures.

(** Two proton beams and two processes, the second of which carries the
    identifier of the beams. *)
Definition lhc_run : runinfo.RunInfo Q :=
  {| runinfo.beam_pdg_id := (2212, 2212);
     runinfo.beam_energy := (6500%Q, 6500%Q);
     runinfo.weight_names := [];
     runinfo.processes :=
       [ {| runinfo.process_id := 1; runinfo.cross_section := 10%Q;
            runinfo.cross_section_error := 1%Q; runinfo.max_weight := 5%Q |};
         {| runinfo.process_id := 2212; runinfo.cross_section := 3%Q;
            runinfo.cross_section_error := 1%Q; runinfo.max_weight := 2%Q |} ];
     runinfo.generator_name := EmptyString;
     runinfo.generator_version := EmptyString;
     runinfo.extra := [] |}.

End run_fixtures.

(** ** io/hepmc3.py: the events of a file *)

Module hepmc3_reader.
Import models.
Section WithFloat.
Context {F : Type} {FM : FloatModel F}.

(** [for _ in range(n)] over the columns that are left: each round
    takes one column while there is one; a column that is not an
    integer is passed over. *)
Fixpoint read_ints (n : nat) (cols : list string) : list Z * list string :=
  match n with
  | O => ([], cols)
  | S n' =>
      match cols with
      | [] => ([], [])
      | tok :: rest =>
          let (l, r) := read_ints n' rest in
          match Py.int_of_str tok with
          | Ok v => (v :: l, r)
          | Raise _ => (l, r)
          end
      end
  end.

(** The [V] branch: the vertex stored under its identifier, or [None]
    when the record is skipped. *)
Definition V_branch (line : string) : option (Vertex F) :=
  let parts := Py.split line in
  if (List.length parts <? 6)%nat then None
  else
    let fields :=
      vtxid <- hepmc3.int_at parts 1 ;;
      x <- hepmc3.float_at parts 2 ;;
      y <- hepmc3.float_at parts 3 ;;
      z <- hepmc3.float_at parts 4 ;;
      t <- hepmc3.float_at parts 5 ;;
      Ok (vtxid, (x, y, z, t)) in
    match fields with
    | Raise _ => None
    | Ok (vtxid, (x, y, z, t)) =>
        let v :=
          {| v_barcode := vtxid; v_x := x; v_y := y; v_z := z; v_t := t;
             v_incoming := []; v_outgoing := [] |} in
        if (8 <=? List.length parts)%nat then
          match (nin <- hepmc3.int_at parts 6 ;;
                 nout <- hepmc3.int_at parts 7 ;;
                 Ok (nin, nout)) with
          | Raise _ => Some v
          | Ok (nin, nout) =>
              let (incoming, rest) :=
                read_ints (Z.to_nat nin) (skipn 8 parts) in
              let (outgoing, _) := read_ints (Z.to_nat nout) rest in
              Some (set_outgoing outgoing (set_incoming incoming v))
          end
        else Some v
    end.

(** The [W] branch: the columns after the tag that are numbers. *)
Definition W_branch (line : string) : list F :=
  flat_map
    (fun tok =>
       match float_of_str tok with
       | Ok x => [x]
       | Raise _ => []
       end)
    (tl (Py.split line)).

Definition set_weights (ws : list F) (ev : Event F) : Event F :=
  {| event_number := event_number ev; particles := particles ev;
     vertices := vertices ev; weights := ws; process_id := process_id ev;
     scale := scale ev; alpha_qed := alpha_qed ev; alpha_qcd := alpha_qcd ev;
     n_particles := n_particles ev; extra := extra ev |}.

Definition set_vertices (vs : list (Vertex F)) (ev : Event F) : Event F :=
  {| event_number := event_number ev; particles := particles ev;
     vertices := vs; weights := weights ev; process_id := process_id ev;
     scale := scale ev; alpha_qed := alpha_qed ev; alpha_qcd := alpha_qcd ev;
     n_particles := n_particles ev; extra := extra ev |}.

Definition set_extra (x : list (string * json.value)) (ev : Event F)
  : Event F :=
  {| event_number := event_number ev; particles := particles ev;
     vertices := vertices ev; weights := weights ev;
     process_id := process_id ev; scale := scale ev;
     alpha_qed := alpha_qed ev; alpha_qcd := alpha_qcd ev;
     n_particles := n_particles ev; extra := x |}.

(** The [E] branch: the new current event. *)
Definition E_branch (line : string) : Event F :=
  let parts := Py.split line in
  let evtno :=
    if (2 <=? List.length parts)%nat then
      hepmc3.try_or (hepmc3.int_at parts 1) 0
    else 0 in
  set_extra [("hepmc3", json.JDict [("E_raw", json.JStr line)])]
            (default_event evtno).

(** [current.extra.setdefault("hepmc3", {})
      .setdefault("unknown_records", []).append(line)] *)
Definition keep_unknown (line : string) (ev : Event F) : Event F :=
  let h :=
    match json.dict_get (extra ev) "hepmc3" with
    | Some (json.JDict d) => d
    | _ => []
    end in
  let records :=
    match json.dict_get h "unknown_records" with
    | Some (json.JList l) => l
    | _ => []
    end in
  set_extra
    (json.dict_set (extra ev) "hepmc3"
       (json.JDict
          (json.dict_set h "unknown_records"
             (json.JList (records ++ [json.JStr line])%list))))
    ev.

(** The event that is yielded: the vertices collected for it are
    attached in the order of their identifiers. *)
Definition finished (current : option (Event F))
           (vertices : list (Z * Vertex F)) : list (Event F) :=
  match current with
  | Some ev => [set_vertices (hepmc3.vertices_sorted vertices) ev]
  | None => []
  end.

Definition run_tag (tag : string) : bool :=
  String.eqb tag "U" || String.eqb tag "N" || String.eqb tag "F"
  || String.eqb tag "C".

(** The loop of [_events] over the lines of the file, with the current
    event and the vertices collected for it.  The records that describe
    the run ([HepMC::], [U], [N], [F], [C]) change the run information
    only, which [iter_hepmc3] drops; the particles by barcode are
    collected and never looked at.  A stripped line that is not empty
    has a first column. *)
Fixpoint events_from (lines : list string) (current : option (Event F))
         (vertices : list (Z * Vertex F)) : list (Event F) :=
  match lines with
  | [] => finished current vertices
  | raw :: rest =>
      let line := Py.strip raw in
      if Py.is_empty line || Py.startswith line "#" then
        events_from rest current vertices
      else if Py.startswith line "HepMC::" then
        events_from rest current vertices
      else
        match Py.split line with
        | [] => events_from rest current vertices
        | tag :: _ =>
            if run_tag tag then events_from rest current vertices
            else if String.eqb tag "E" then
              (finished current vertices
               ++ events_from rest (Some (E_branch line)) [])%list
            else
              match current with
              | None => events_from rest current vertices
              | Some ev =>
                  if String.eqb tag "W" then
                    match W_branch line with
                    | [] => events_from rest current vertices
                    | ws =>
                        events_from rest (Some (set_weights ws ev)) vertices
                    end
                  else if String.eqb tag "V" then
                    match V_branch line with
                    | None => events_from rest current vertices
                    | Some v =>
                        events_from rest current
                          (dict.set Z.eqb vertices (v_barcode v) v)
                    end
                  else if String.eqb tag "P" then
                    match hepmc3.P_branch line with
                    | None => events_from rest current vertices
                    | Some p =>
                        events_from rest
                          (Some (with_particles ev (particles ev ++ [p])%list))
                          vertices
                    end
                  else
                    events_from rest (Some (keep_unknown line ev)) vertices
              end
        end
  end.

(** [list(iter_hepmc3(path))] on the lines of the file. *)
Definition iter_hepmc3 (lines : list string) : list (Event F) :=
  events_from lines None [].

End WithFloat.
End hepmc3_reader.

(** ** io/hepmc3.py: the writer *)

Module hepmc3_writer.
Import models textio.
Section WithFloat.
Context {F : Type} {FM : FloatModel F}.

(** [format(x, ".<digits>g")] *)
Variable format_g : nat -> F -> string.

(** The status written for a particle: the raw status kept by the
    reader when it is an integer (a boolean is one), else the status
    mapped back. *)
Definition out_status (part : Particle F) : json.value :=
  let mapped :=
    if status part =? -1 then 4
    else if status part =? 1 then 1
    else if status part =? 2 then 2
    else status part in
  match json.dict_get (attributes part) "hepmc_status_raw" with
  | Some (json.JInt n) => json.JInt n
  | Some (json.JBool b) => json.JBool b
  | _ => json.JInt mapped
  end.

(** [str] of such a value. *)
Definition status_text (v : json.value) : string :=
  match v with
  | json.JInt n => Py.str_of_int n
  | json.JBool true => "True"
  | json.JBool false => "False"
  | _ => EmptyString
  end.

Definition P_line (i : Z) (part : Particle F) : string :=
  "P " ++ Py.str_of_int (if barcode part =? 0 then i else barcode part) ++ " "
  ++ Py.str_of_int (pdg_id part) ++ " "
  ++ status_text (out_status part) ++ " "
  ++ format_g 17 (px part) ++ " "
  ++ format_g 17 (py part) ++ " "
  ++ format_g 17 (pz part) ++ " "
  ++ format_g 17 (energy part) ++ " "
  ++ format_g 17 (mass part) ++ " "
  ++ Py.str_of_int (vertex_barcode part) ++ " "
  ++ Py.str_of_int (end_vertex_barcode part) ++ nl.

Definition V_line (v : Vertex F) : string :=
  "V " ++ Py.str_of_int (v_barcode v) ++ " "
  ++ format_g 17 (v_x v) ++ " "
  ++ format_g 17 (v_y v) ++ " "
  ++ format_g 17 (v_z v) ++ " "
  ++ format_g 17 (v_t v) ++ " "
  ++ Py.str_of_int (Z.of_nat (List.length (v_incoming v))) ++ " "
  ++ Py.str_of_int (Z.of_nat (List.length (v_outgoing v))) ++ " "
  ++ Py.join " " (map Py.str_of_int (v_incoming v)) ++ " "
  ++ Py.join " " (map Py.str_of_int (v_outgoing v)) ++ nl.

(** The weights are written unless they are the default. *)
Definition writes_weights (ev : Event F) : bool :=
  match weights ev with
  | [] => false
  | [w] => negb (feqb w (flit 1))
  | _ => true
  end.

Definition W_line (ev : Event F) : string :=
  "W " ++ Py.join " " (map (format_g 17) (weights ev)) ++ nl.

(** [{v.barcode: v for v in ev.vertices}] *)
Definition vtx_by_id (vs : list (Vertex F)) : list (Z * Vertex F) :=
  fold_left (fun d v => dict.set Z.eqb d (v_barcode v) v) vs [].

(** The body of the loop over the events. *)
Definition event_text (ev0 : Event F) : string :=
  let ev := hepmc3._build_vertices_from_mothers ev0 in
  "E " ++ Py.str_of_int (event_number ev) ++ nl
  ++ (if writes_weights ev then W_line ev else EmptyString)
  ++ lhe_writer.written
       (map V_line (hepmc3.vertices_sorted (vtx_by_id (vertices ev))))
  ++ lhe_writer.written
       (map (fun ip => P_line (fst ip) (snd ip))
            (hepmc3.enumerate1 1 (particles ev))).

(** [HepMC3Writer.write(path, events, None)]: the text of the file.
    Without run information the units are the default ones and no
    weight names and no preserved records are written. *)
Definition write (events : list (Event F)) : string :=
  "HepMC::Version 3.0.0" ++ nl
  ++ "HepMC::Asciiv3" ++ nl
  ++ "U GEV MM" ++ nl
  ++ lhe_writer.written (map event_text events).

End WithFloat.
End hepmc3_writer.

(** ** Notions used to state what survives a HepMC3 file *)

Module hepmc3_notions.
Import models textio.
Section WithFloat.
Context {F : Type} {FM : FloatModel F}.
Variable format_g : nat -> F -> string.

(** The text written for [x] is one token, and reading it gives [x]
    back. *)
Definition survives (x : F) : Prop :=
  is_token (format_g 17 x) = true /\ float_of_str (format_g 17 x) = Ok x.

(** The integer written in the status column, when it is one. *)
Definition status_code (p : Particle F) : option Z :=
  match hepmc3_writer.out_status p with
  | json.JInt st => Some st
  | _ => None
  end.

Definition particle_survives (p : Particle F) : Prop :=
  survives (px p) /\ survives (py p) /\ survives (pz p) /\
  survives (energy p) /\ survives (mass p) /\ status_code p <> None.

Definition vertex_survives (v : Vertex F) : Prop :=
  survives (v_x v) /\ survives (v_y v) /\ survives (v_z v) /\
  survives (v_t v).

Definition event_survives (ev : Event F) : Prop :=
  Forall survives (weights ev) /\
  Forall particle_survives (particles ev) /\
  Forall vertex_survives (vertices ev).

(** What a [P] record keeps of the [i]-th particle: the barcode (the
    position when there is none), the identifier, the momentum, the
    mass and the vertices; the status goes through the writer's and the
    reader's mapping, and the raw status is the only attribute. *)
Definition kept_particle (i : Z) (p : Particle F) : Particle F :=
  let st := match status_code p with Some st => st | None => 0 end in
  {| pdg_id := pdg_id p; status := hepmc3.mapped_status st;
     px := px p; py := py p; pz := pz p; energy := energy p; mass := mass p;
     mother1 := 0; mother2 := 0; color1 := 0; color2 := 0; spin := flit 9;
     barcode := (if barcode p =? 0 then i else barcode p);
     vertex_barcode := vertex_barcode p;
     end_vertex_barcode := end_vertex_barcode p;
     attributes :=
       if negb (hepmc3.mapped_status st =? st) then
         [("hepmc_status_raw", json.JInt st)]
       else [] |}.

(** What the file keeps of an event that has its vertex graph. *)
Definition kept_event (ev : Event F) : Event F :=
  {| event_number := event_number ev;
     particles :=
       map (fun ip => kept_particle (fst ip) (snd ip))
           (hepmc3.enumerate1 1 (particles ev));
     vertices :=
       hepmc3.vertices_sorted (hepmc3_writer.vtx_by_id (vertices ev));
     weights :=
       if hepmc3_writer.writes_weights ev then weights ev else [flit 1];
     process_id := 0; scale := flit 0; alpha_qed := flit 0;
     alpha_qcd := flit 0; n_particles := 0;
     extra :=
       [("hepmc3",
         json.JDict
           [("E_raw", json.JStr ("E " ++ Py.str_of_int (event_number ev)))])] |}.

(** Tokens, each followed by a blank, before [last]. *)
Definition spaced (toks : list string) (last : string) : string :=
  fold_right (fun t acc => t ++ String " "%char acc) last toks.

End WithFloat.
End hepmc3_notions.

(** ** Notions used to state what the vertex reconstruction leaves alone *)

Module build_notions.
Import models.
Section WithFloat.
Context {F : Type} {FM : FloatModel F}.

(** [q] is [p] but for its barcode and the barcodes of its vertices. *)
Definition same_but_graph (p q : Particle F) : Prop :=
  q = set_barcode (barcode q)
        (set_vertex_barcode (vertex_barcode q)
           (set_end_vertex_barcode (end_vertex_barcode q) p)).

(** [b] is [a] but for its particles and vertices. *)
Definition same_but_graph_event (a b : Event F) : Prop :=
  b = with_graph a (particles b) (vertices b).

(** A status that the HepMC3 status column gives back, on a particle
    without a preserved raw status. *)
Definition status_plain (p : Particle F) : Prop :=
  status p <> 3 /\ status p <> 4 /\
  json.dict_get (attributes p) "hepmc_status_raw" = None.

End WithFloat.
End build_notions.

(** ** diff.py: the summary by fingerprint *)

Module diff.
Import models fingerprint.
Section WithFloat.
Context {F : Type} {FM : FloatModel F}.

(** [c[k] = c.get(k, 0) + 1], and [Counter(xs)]. *)
Definition count_one (c : list (string * Z)) (k : string) : list (string * Z) :=
  dict.set String.eqb c k
    (match dict.get String.eqb c k with
     | Some n => n + 1
     | None => 1
     end).

Definition Counter (xs : list string) : list (string * Z) :=
  fold_left count_one xs [].

(** [c.get(k, 0)] *)
Definition get0 (c : list (string * Z)) (k : string) : Z :=
  match dict.get String.eqb c k with
  | Some n => n
  | None => 0
  end.

Definition mem_key (k : string) (c : list (string * Z)) : bool :=
  match dict.get String.eqb c k with
  | Some _ => true
  | None => false
  end.

(** [set(ca) | set(cb)], each key once.  (The sums over it do not
    depend on the order in which a set is iterated.) *)
Definition union_keys (ca cb : list (string * Z)) : list string :=
  (map fst ca ++ filter (fun k => negb (mem_key k ca)) (map fst cb))%list.

(** The builtin [sum] on integers. *)
Definition sum_Z (l : list Z) : Z := fold_left Z.add l 0.

Record summary : Type := mkSummary {
  mode : string;
  n_a : Z;
  n_b : Z;
  common : Z;
  added : Z;
  removed : Z;
  example_added : list string;
  example_removed : list string
}.

(** The fingerprints of the events, in order; the first event whose
    fingerprint raises ends the computation. *)
Fixpoint fingerprints (cfg : FingerprintConfig F) (evs : list (Event F))
  : result (list string) :=
  match evs with
  | [] => Ok []
  | ev :: rest =>
      h <- fingerprint_event ev cfg ;;
      hs <- fingerprints cfg rest ;;
      Ok (h :: hs)
  end.

(** [cfg = FingerprintConfig(abs_tol=abs_tol)]: the defaults of the
    class with the tolerance of the call. *)
Definition config (abs_tol : F) : FingerprintConfig F :=
  {| version := "event_fingerprint_v1"; fingerprint.abs_tol := abs_tol;
     include_intermediate := true; include_incoming := true;
     include_weights := false; include_graph := false;
     include_process_id := false |}.

(** [diff_files(.., by="fingerprint", abs_tol=abs_tol)] on the events
    read from the two files. *)
Definition diff_by_fingerprint (events_a events_b : list (Event F))
           (abs_tol : F) : result summary :=
  let cfg := config abs_tol in
  fa <- fingerprints cfg events_a ;;
  fb <- fingerprints cfg events_b ;;
  let ca := Counter fa in
  let cb := Counter fb in
  let keys := union_keys ca cb in
  Ok {| mode := "fingerprint";
        n_a := Z.of_nat (List.length events_a);
        n_b := Z.of_nat (List.length events_b);
        common := sum_Z (map (fun k => Z.min (get0 ca k) (get0 cb k)) keys);
        added := sum_Z (map (fun k => Z.max 0 (get0 cb k - get0 ca k)) keys);
        removed := sum_Z (map (fun k => Z.max 0 (get0 ca k - get0 cb k)) keys);
        example_added :=
          firstn 5 (filter (fun k => get0 ca k <? get0 cb k) (map fst cb));
        example_removed :=
          firstn 5 (filter (fun k => get0 cb k <? get0 ca k) (map fst ca)) |}.

End WithFloat.
End diff.

(** * Theorems *)

Example sha256_abc :
  hashlib.sha256_hex "abc"
  = "ba7816bf8f01cfea414140de5dae2223b00361a396177a9cb410ff61f20015ad".
Proof. vm_compute. reflexivity. Qed.

Example sha256_empty :
  hashlib.sha256_hex EmptyString
  = "e3b0c44298fc1c149afbf4c8996fb92427ae41e4649b934ca495991b7852b855".
Proof. vm_compute. reflexivity. Qed.

(** ** Sorting tuples *)

Section TupleOrder.
Import PySort.

Lemma tuple_leb_total (a b : tuple) :
  tuple_leb a b = false -> tuple_leb b a = true.
Proof.
  revert b; induction a as [|x a IH]; intros [|y b]; simpl; try easy.
  destruct (x <? y) eqn:Hxy; [discriminate|].
  destruct (y <? x) eqn:Hyx; [reflexivity|].
  apply IH.
Qed.

Lemma tuple_leb_antisym (a b : tuple) :
  tuple_leb a b = true -> tuple_leb b a = true -> a = b.
Proof.
  revert b; induction a as [|x a IH]; intros [|y b]; simpl; try easy.
  destruct (x <? y) eqn:Hxy; destruct (y <? x) eqn:Hyx;
    try discriminate; try (apply Z.ltb_lt in Hxy; apply Z.ltb_lt in Hyx; lia).
  intros H1 H2.
  apply Z.ltb_ge in Hxy; apply Z.ltb_ge in Hyx.
  assert (x = y) by lia; subst; f_equal; auto.
Qed.

Lemma tuple_leb_trans (a b c : tuple) :
  tuple_leb a b = true -> tuple_leb b c = true -> tuple_leb a c = true.
Proof.
  revert b c; induction a as [|x a IH]; intros [|y b] [|z c]; simpl; try easy.
  destruct (x <? y) eqn:Hxy; destruct (y <? z) eqn:Hyz;
    destruct (x <? z) eqn:Hxz; destruct (z <? x) eqn:Hzx;
    destruct (y <? x) eqn:Hyx; destruct (z <? y) eqn:Hzy;
    try reflexivity; try discriminate;
    rewrite ?Z.ltb_lt, ?Z.ltb_ge in *; try lia.
  apply IH.
Qed.

Lemma insert_insert (a b : tuple) (l : list tuple) :
  insert a (insert b l) = insert b (insert a l).
Proof.
  induction l as [|u l IH]; simpl.
  - destruct (tuple_leb a b) eqn:Hab; destruct (tuple_leb b a) eqn:Hba;
      try reflexivity.
    + rewrite (tuple_leb_antisym a b Hab Hba); reflexivity.
    + apply tuple_leb_total in Hab; congruence.
  - destruct (tuple_leb b u) eqn:Hbu; destruct (tuple_leb a u) eqn:Hau; simpl.
    + destruct (tuple_leb a b) eqn:Hab; destruct (tuple_leb b a) eqn:Hba;
        rewrite ?Hau, ?Hbu; try reflexivity.
      * rewrite (tuple_leb_antisym a b Hab Hba); reflexivity.
      * apply tuple_leb_total in Hab; congruence.
    + destruct (tuple_leb a b) eqn:Hab.
      * rewrite (tuple_leb_trans a b u Hab Hbu) in Hau; discriminate.
      * rewrite Hau, Hbu; reflexivity.
    + rewrite Hbu. destruct (tuple_leb b a) eqn:Hba.
      * rewrite (tuple_leb_trans b a u Hba Hau) in Hbu; discriminate.
      * rewrite Hau; reflexivity.
    + rewrite Hau, Hbu, IH; reflexivity.
Qed.

Lemma sort_permutation (l l' : list tuple) :
  Permutation l l' -> sort l = sort l'.
Proof.
  unfold sort; induction 1; simpl.
  - reflexivity.
  - now f_equal.
  - apply insert_insert.
  - congruence.
Qed.

End TupleOrder.

(** ** The event model *)

Section ModelFacts.
Context {F : Type} {FM : FloatModel F}.
Import models.

(** C10. [Event.weight] never raises: it returns [weights[0]] when the
    list of weights is non-empty and [1.0] when it is empty. *)
Theorem weight_total (ev : Event F) :
  weight ev = Ok (match weights ev with w :: _ => w | [] => flit 1 end).
Proof.
  unfold weight, Py.getitem.
  destruct (weights ev); reflexivity.
Qed.

End ModelFacts.

(** ** The fingerprint *)

Section FingerprintFacts.
Context {F : Type} {FM : FloatModel F}.
Import models fingerprint.

Lemma collect_parts_permutation (cfg : FingerprintConfig F)
      (ps ps' : list (Particle F)) :
  Permutation ps ps' ->
  forall l, collect_parts cfg ps = Ok l ->
  exists l', collect_parts cfg ps' = Ok l' /\ Permutation l l'.
Proof.
  induction 1 as [|p ps ps' Hp IH|p q ps|ps ps' ps'' H1 IH1 H2 IH2]; intros l Hl.
  - exists l; split; [exact Hl|apply Permutation_refl].
  - simpl in *.
    destruct (status p =? 3); [now apply IH|].
    destruct (is_incoming p && negb (include_incoming cfg)); [now apply IH|].
    destruct (is_intermediate p && negb (include_intermediate cfg));
      [now apply IH|].
    destruct (_particle_key p (abs_tol cfg)) as [k|e]; simpl in *; [|discriminate].
    destruct (collect_parts cfg ps) as [r|e] eqn:Hr; simpl in *; [|discriminate].
    injection Hl as <-.
    destruct (IH r eq_refl) as [r' [-> Hperm]].
    exists (k :: r'); split; [reflexivity|now constructor].
  - simpl in *.
    destruct (status q =? 3), (status p =? 3);
      destruct (is_incoming q && negb (include_incoming cfg));
      destruct (is_incoming p && negb (include_incoming cfg));
      destruct (is_intermediate q && negb (include_intermediate cfg));
      destruct (is_intermediate p && negb (include_intermediate cfg));
      try (exists l; split; [exact Hl|apply Permutation_refl]);
      destruct (_particle_key q (abs_tol cfg)) as [kq|eq]; simpl in *;
      try discriminate;
      destruct (_particle_key p (abs_tol cfg)) as [kp|ep]; simpl in *;
      try discriminate;
      destruct (collect_parts cfg ps) as [r|e]; simpl in *;
      try discriminate;
      injection Hl as <-;
      eexists; (split; [reflexivity|]);
      try apply Permutation_refl; apply perm_swap.
  - destruct (IH1 l Hl) as [l1 [Hl1 P1]].
    destruct (IH2 l1 Hl1) as [l2 [Hl2 P2]].
    exists l2; split; [exact Hl2|eapply Permutation_trans; eauto].
Qed.

Lemma filter_permutation {A : Type} (f : A -> bool) (l l' : list A) :
  Permutation l l' -> Permutation (filter f l) (filter f l').
Proof.
  induction 1; simpl.
  - constructor.
  - destruct (f x); [now constructor|assumption].
  - destruct (f x), (f y); try apply Permutation_refl; apply perm_swap.
  - eapply Permutation_trans; eauto.
Qed.

Lemma fingerprint_payload_permutation (ev : Event F) (cfg : FingerprintConfig F)
      (ps' : list (Particle F)) (h : string) :
  Permutation (particles ev) ps' ->
  fingerprint_payload ev cfg = Ok h ->
  fingerprint_payload (with_particles ev ps') cfg = Ok h.
Proof.
  intros Hperm. unfold fingerprint_payload; simpl.
  destruct (collect_parts cfg (particles ev)) as [l|e] eqn:Hl; simpl;
    [|discriminate].
  destruct (collect_parts_permutation cfg _ _ Hperm l Hl) as [l' [-> Pl]].
  simpl.
  rewrite (sort_permutation l l' Pl).
  rewrite (sort_permutation
             (map _particle_graph_key
                  (filter (fun p => negb (status p =? 3)) (particles ev)))
             (map _particle_graph_key
                  (filter (fun p => negb (status p =? 3)) ps'))).
  - trivial.
  - apply Permutation_map, filter_permutation, Hperm.
Qed.

(** C8. The fingerprint does not depend on the order of the particles:
    for every permutation [ps'] of the particle list and every
    configuration, [fingerprint_event] returns the digest [d] on the
    event exactly when it returns [d] on the event with the particles
    in the order [ps']. *)
Theorem fingerprint_event_permutation (ev : Event F) (cfg : FingerprintConfig F)
        (ps' : list (Particle F)) (d : string) :
  Permutation (particles ev) ps' ->
  fingerprint_event ev cfg = Ok d <->
  fingerprint_event (with_particles ev ps') cfg = Ok d.
Proof.
  intros Hperm. unfold fingerprint_event. split.
  - destruct (fingerprint_payload ev cfg) as [h|e] eqn:Hh; simpl; [|discriminate].
    now rewrite (fingerprint_payload_permutation ev cfg ps' h Hperm Hh).
  - destruct (fingerprint_payload (with_particles ev ps') cfg) as [h|e] eqn:Hh;
      simpl; [|discriminate].
    assert (Hback : fingerprint_payload
                      (with_particles (with_particles ev ps') (particles ev)) cfg
                    = Ok h).
    { apply fingerprint_payload_permutation; [|exact Hh].
      simpl. now apply Permutation_sym. }
    assert (Heq : with_particles (with_particles ev ps') (particles ev) = ev)
      by (destruct ev; reflexivity).
    rewrite Heq in Hback. now rewrite Hback.
Qed.

End FingerprintFacts.

(** ** The fingerprint under a shift of one component *)

Section FingerprintTolerance.
Context {F : Type} {FM : FloatModel F}.
Import models fingerprint.

Lemma particle_key_same_bucket (c : component) (p : Particle F) (d tol : F) :
  _quantize (fadd (get_component c p) d) tol
  = _quantize (get_component c p) tol ->
  _particle_key (shift_component c d p) tol = _particle_key p tol.
Proof.
  intros H. unfold _particle_key, shift_component.
  destruct c; simpl in *; rewrite H; reflexivity.
Qed.

Lemma collect_parts_perturbed (cfg : FingerprintConfig F) (c : component)
      (d : F) (ps : list (Particle F)) (i : nat) (p : Particle F) :
  nth_error ps i = Some p ->
  _particle_key (shift_component c d p) (abs_tol cfg)
  = _particle_key p (abs_tol cfg) ->
  collect_parts cfg (update_nth i (shift_component c d) ps)
  = collect_parts cfg ps.
Proof.
  intros Hnth Hkey. revert i Hnth.
  induction ps as [|q ps IH]; intros [|i] Hnth; simpl in *; try discriminate.
  - injection Hnth as ->.
    unfold is_incoming, is_intermediate.
    replace (status (shift_component c d p)) with (status p)
      by (destruct c; reflexivity).
    rewrite Hkey. reflexivity.
  - rewrite (IH i Hnth). reflexivity.
Qed.

Lemma graph_keys_perturbed (c : component) (d : F) (ps : list (Particle F))
      (i : nat) :
  map _particle_graph_key
      (filter (fun p => negb (status p =? 3)%Z)
              (update_nth i (shift_component c d) ps))
  = map _particle_graph_key (filter (fun p => negb (status p =? 3)%Z) ps).
Proof.
  revert i; induction ps as [|q ps IH]; intros [|i];
    cbn [update_nth filter]; try reflexivity.
  - replace (status (shift_component c d q)) with (status q)
      by (destruct c; reflexivity).
    destruct (negb (status q =? 3)%Z); destruct c; reflexivity.
  - destruct (negb (status q =? 3)%Z); cbn [map]; rewrite IH; reflexivity.
Qed.

(** C7 (amended). Shifting one momentum component [x] of one particle
    by [d] leaves the result of [fingerprint_event] unchanged whenever
    [_quantize] gives the shifted value the bucket of [x], that is,
    whenever [round((x + d) / abs_tol)] and [round(x / abs_tol)], as the
    code computes them, are the same integer. *)
Theorem fingerprint_event_same_bucket (ev : Event F) (cfg : FingerprintConfig F)
        (i : nat) (c : component) (d : F) (p : Particle F) :
  nth_error (particles ev) i = Some p ->
  _quantize (fadd (get_component c p) d) (abs_tol cfg)
  = _quantize (get_component c p) (abs_tol cfg) ->
  fingerprint_event (perturb ev i c d) cfg = fingerprint_event ev cfg.
Proof.
  intros Hnth Hb.
  unfold fingerprint_event, fingerprint_payload, perturb; simpl.
  rewrite (collect_parts_perturbed cfg c d _ i p Hnth
             (particle_key_same_bucket c p d _ Hb)).
  rewrite graph_keys_perturbed. reflexivity.
Qed.

End FingerprintTolerance.

(** ** Buckets in exact arithmetic *)

Section ExactBuckets.
Import models fingerprint.
Local Open Scope Q_scope.

Lemma floor_unique (y : Q) (k : Z) :
  inject_Z k <= y -> y < inject_Z (k + 1) -> Qfloor y = k.
Proof.
  intros H1 H2.
  assert (A : (k <= Qfloor y)%Z).
  { rewrite <- (Qfloor_Z k). apply Qfloor_resp_le. exact H1. }
  assert (B : (Qfloor y < k + 1)%Z).
  { rewrite Zlt_Qlt. eapply Qle_lt_trans; [apply Qfloor_le|exact H2]. }
  lia.
Qed.

Lemma round_half_even_near (y : Q) (k : Z) :
  Qabs (y - inject_Z k) < 1 # 2 -> QFloat.round_half_even y = k.
Proof.
  intros H. apply Qabs_Qlt_condition in H. destruct H as [Hlo Hhi].
  unfold QFloat.round_half_even.
  destruct (Qlt_le_dec y (inject_Z k)) as [Hlt|Hge].
  - assert (Hf : Qfloor y = (k - 1)%Z).
    { apply floor_unique.
      - unfold Z.sub. rewrite inject_Z_plus, inject_Z_opp.
        change (inject_Z 1) with 1. lra.
      - replace (k - 1 + 1)%Z with k by lia. exact Hlt. }
    rewrite Hf.
    assert (Hc : (y - inject_Z (k - 1) ?= 1 # 2) = Gt).
    { rewrite <- Qgt_alt. unfold Z.sub. rewrite inject_Z_plus, inject_Z_opp.
      change (inject_Z 1) with 1. lra. }
    rewrite Hc. lia.
  - assert (Hf : Qfloor y = k).
    { apply floor_unique; [exact Hge|].
      rewrite inject_Z_plus. change (inject_Z 1) with 1. lra. }
    rewrite Hf.
    assert (Hc : (y - inject_Z k ?= 1 # 2) = Lt).
    { rewrite <- Qlt_alt. lra. }
    rewrite Hc. reflexivity.
Qed.

(** Were the quotient exact, the bucket of [x] would be the open
    interval of width [abs_tol] around [k * abs_tol], for
    [k = round(x / abs_tol)].  Double precision rounds the quotient, and
    the edges of the bucket move with it. *)
Lemma quantize_same_bucket (x d tol : Q) :
  0 < tol ->
  Qabs (x + d - inject_Z (QFloat.round_half_even (x / tol)) * tol) < tol / 2 ->
  _quantize (x + d) tol = _quantize x tol.
Proof.
  intros Htol H.
  unfold _quantize; simpl.
  destruct (Qle_bool tol 0) eqn:Hle.
  - apply Qle_bool_iff in Hle. lra.
  - f_equal. apply round_half_even_near.
    set (k := inject_Z (QFloat.round_half_even (x / tol))) in *.
    apply Qabs_Qlt_condition in H. destruct H as [Hlo Hhi].
    apply Qabs_Qlt_condition.
    assert (Hne : ~ tol == 0) by lra.
    assert (E : (x + d) / tol - k == (x + d - k * tol) / tol) by (field; exact Hne).
    assert (Hhalf : tol / 2 == (1 # 2) * tol) by field.
    rewrite Hhalf in Hlo, Hhi.
    rewrite E. split.
    + apply Qlt_shift_div_l; [exact Htol|]. lra.
    + apply Qlt_shift_div_r; [exact Htol|]. lra.
Qed.

End ExactBuckets.

(** C7 (as stated) fails: a shift of [2e-5 < abs_tol/2] changes the
    digest. *)
Lemma fingerprint_tolerance_counterexample :
  (Qabs (2 # 100000) < (1 # 10000) / 2)%Q /\
  fingerprint.fingerprint_event
    (models.perturb fixtures.tolerance_event 0 models.Px (2 # 100000)%Q)
    fingerprint.default_config
  <> fingerprint.fingerprint_event fixtures.tolerance_event fingerprint.default_config.
Proof.
  split; [reflexivity|].
  vm_compute. intros H. discriminate H.
Qed.

(** The amended statement in double precision: a shift of [5e-6] keeps
    [px = 4e-5] in bucket 0. *)
Lemma fingerprint_event_same_bucket_witness :
  fingerprint.fingerprint_event
    (models.perturb fixtures.tolerance_event64 0 models.Px
                    (flit (5 # 1000000)))
    fingerprint.default_config
  = fingerprint.fingerprint_event fixtures.tolerance_event64
      fingerprint.default_config.
Proof.
  apply (fingerprint_event_same_bucket fixtures.tolerance_event64
           fingerprint.default_config 0 models.Px (flit (5 # 1000000))
           (models.default_particle 22 1 (flit (4 # 100000)) (flit 0) (flit 0)
                                    (flit 0))).
  - reflexivity.
  - vm_compute. reflexivity.
Defined.

(** ** The validator *)

Section ValidationFacts.
Context {F : Type} {FM : FloatModel F}.
Import models validation.
Variable is_valid_pdg_id : Z -> bool.
Variable computed_mass : Particle F -> result F.

Lemma label_injective (c c' : component) : label c = label c' -> c = c'.
Proof. destruct c, c'; simpl; intros H; try reflexivity; discriminate H. Qed.

Lemma pdg_issues_no_momentum (c : component) (evt : Z) (ps : list (Particle F))
      (i : ValidationIssue) :
  In i (pdg_issues is_valid_pdg_id evt ps) -> ~ is_momentum_error c i.
Proof.
  unfold pdg_issues. intros Hin [_ [_ [a [b [d [r Hm]]]]]].
  apply in_flat_map in Hin. destruct Hin as [[k p] [_ Hin]].
  destruct (negb (is_valid_pdg_id (pdg_id p))); simpl in Hin;
    [destruct Hin as [<-|[]]; discriminate Hm|contradiction].
Qed.

Lemma energy_issues_no_momentum (c : component) (evt : Z) (ps : list (Particle F))
      (i : ValidationIssue) :
  In i (energy_issues evt ps) -> ~ is_momentum_error c i.
Proof.
  unfold energy_issues. intros Hin [_ [_ [a [b [d [r Hm]]]]]].
  apply in_flat_map in Hin. destruct Hin as [[k p] [_ Hin]].
  destruct (fltb (energy p) (flit 0)); simpl in Hin;
    [destruct Hin as [<-|[]]; discriminate Hm|contradiction].
Qed.

(** What the mass loop returns are warnings about the mass. *)
Lemma mass_loop_found (evt : Z) (tol : F) (ips : list (Z * Particle F))
      (found : list ValidationIssue) (i : ValidationIssue) :
  mass_loop computed_mass evt tol ips = Ok found -> In i found ->
  exists k s c r, i = mkIssue "warning" evt (Some k) (MassInconsistency s c r).
Proof.
  revert found; induction ips as [|[k p] ips IH]; intros found;
    cbn [mass_loop].
  - intros [= <-] [].
  - destruct (feqb (mass p) (flit 0)); [now apply IH|].
    destruct (fltb (fabs (mass p)) (flit (1 # 1000))); [now apply IH|].
    destruct (computed_mass p) as [c|]; [|discriminate]. cbn [bind].
    destruct (mass_loop computed_mass evt tol ips) as [more|];
      [|discriminate].
    cbn [bind]. intros [= <-] Hin. apply in_app_or in Hin.
    destruct Hin as [Hin|Hin]; [|now apply (IH more)].
    match type of Hin with
    | In _ (if ?b then _ else _) => destruct b
    end; [|contradiction].
    destruct Hin as [<-|[]]. eauto.
Qed.

(** The mass loop raises only what [computed_mass] raised on a particle
    that entered the computation. *)
Lemma mass_loop_raises (evt : Z) (tol : F) (ips : list (Z * Particle F))
      (e : exn) :
  mass_loop computed_mass evt tol ips = Raise e ->
  exists k p, In (k, p) ips /\ has_mass p = true /\
              computed_mass p = Raise e.
Proof.
  induction ips as [|[k p] ips IH]; cbn [mass_loop]; [discriminate|].
  assert (Hrest : mass_loop computed_mass evt tol ips = Raise e ->
                  exists k' p', In (k', p') ((k, p) :: ips) /\
                                has_mass p' = true /\
                                computed_mass p' = Raise e).
  { intros H. destruct (IH H) as (k' & p' & Hin & Hm & Hr).
    exists k', p'. split; [now right|now split]. }
  unfold has_mass at 1.
  destruct (feqb (mass p) (flit 0)) eqn:E0; [exact Hrest|].
  destruct (fltb (fabs (mass p)) (flit (1 # 1000))) eqn:E1; [exact Hrest|].
  destruct (computed_mass p) as [c|x] eqn:Ec; cbn [bind].
  - destruct (mass_loop computed_mass evt tol ips) as [more|x] eqn:Em;
      cbn [bind]; [discriminate|].
    intros [= <-]. now apply Hrest.
  - intros [= <-]. exists k, p. split; [now left|].
    unfold has_mass. rewrite E0, E1. now split.
Qed.

Lemma enumerate_from_snd {A : Type} (k i : Z) (x : A) (xs : list A) :
  In (i, x) (enumerate_from k xs) -> In x xs.
Proof.
  revert k; induction xs as [|y xs IH]; intros k; cbn [enumerate_from];
    [contradiction|].
  intros [[= _ ->]|H]; [now left|right; eauto].
Qed.

Lemma mass_issues_no_momentum (c : component) (evt : Z) (tol : F)
      (ps : list (Particle F)) (found : list ValidationIssue)
      (i : ValidationIssue) :
  mass_issues computed_mass evt tol ps = Ok found ->
  In i found -> ~ is_momentum_error c i.
Proof.
  intros Hm Hin [_ [_ [a [b [d [r Hmsg]]]]]].
  destruct (mass_loop_found _ _ _ _ _ Hm Hin) as (k & s0 & c0 & r0 & ->).
  discriminate Hmsg.
Qed.

(** An event without particles gets the one warning. *)
Lemma validate_event_empty (ev : Event F) (cm cp ce cs : bool) (mt st : F) :
  particles ev = [] ->
  validate_event is_valid_pdg_id computed_mass ev cm cp ce cs mt st
  = Ok [mkIssue "warning" (event_number ev) None NoParticles].
Proof. intros H. unfold validate_event. now rewrite H. Qed.

(** What [validate_event] returns on an event with particles: the
    issues of the four blocks, in order. *)
Lemma validate_event_returned (ev : Event F) (cm cp ce cs : bool) (mt st : F)
      (found : list ValidationIssue) :
  particles ev <> [] ->
  validate_event is_valid_pdg_id computed_mass ev cm cp ce cs mt st = Ok found ->
  exists from_mass,
    (if cs then mass_issues computed_mass (event_number ev) st (particles ev)
     else Ok []) = Ok from_mass /\
    found
    = ((if cp then pdg_issues is_valid_pdg_id (event_number ev) (particles ev)
        else [])
       ++ (if ce then energy_issues (event_number ev) (particles ev) else [])
       ++ from_mass
       ++ (if cm then momentum_issues (event_number ev) mt (particles ev)
           else []))%list.
Proof.
  intros Hne. unfold validate_event.
  destruct (particles ev) as [|p0 ps] eqn:Hps; [contradiction|].
  cbn [truthy negb].
  destruct (if cs then _ else _) as [fm|] eqn:Hm; cbn [bind]; [|discriminate].
  intros [= <-]. exists fm. now split.
Qed.

(** [validate_event] raises only when the mass check is enabled and
    [computed_mass] raised. *)
Lemma validate_event_raised (ev : Event F) (cm cp ce cs : bool) (mt st : F)
      (e : exn) :
  validate_event is_valid_pdg_id computed_mass ev cm cp ce cs mt st = Raise e ->
  mass_check_raises computed_mass ev cs e.
Proof.
  unfold validate_event, mass_check_raises.
  destruct (negb (truthy (particles ev))); [discriminate|].
  destruct cs; cbn [bind]; [|discriminate].
  destruct (mass_issues computed_mass (event_number ev) st (particles ev))
    as [fm|x] eqn:Hm; cbn [bind]; [discriminate|].
  intros [= <-]. split; [reflexivity|].
  destruct (mass_loop_raises _ _ _ _ Hm) as (k & p & Hin & Hp & Hr).
  exists p. split; [|now split].
  eapply enumerate_from_snd. exact Hin.
Qed.

(** When both lists are non-empty the momentum loop reports component
    [c] exactly when the specification's criterion holds for it. *)
Lemma momentum_issues_spec (ev : Event F) (c : component) (tol : F) :
  filter is_incoming (particles ev) <> [] ->
  filter is_final (particles ev) <> [] ->
  momentum_error_for c (momentum_issues (event_number ev) tol (particles ev))
  <-> spec_momentum_violated ev c tol = true.
Proof.
  intros Hin Hout.
  unfold momentum_issues, spec_momentum_violated, sum_component.
  change (fun p : Particle F => status p =? -1) with (@is_incoming F).
  change (fun p : Particle F => status p =? 1) with (@is_final F).
  destruct (filter is_incoming (particles ev)) as [|pi ins] eqn:Ei;
    [contradiction|].
  destruct (filter is_final (particles ev)) as [|po outs] eqn:Eo;
    [contradiction|].
  cbn [truthy andb].
  split.
  - intros [i [Hi [_ [_ [a [b [d [r Hm]]]]]]]].
    apply in_flat_map in Hi. destruct Hi as [j [_ Hi]].
    match type of Hi with
    | In _ (if ?t then _ else _) => destruct t eqn:Hj
    end; [|contradiction].
    destruct Hi as [<-|[]]. simpl in Hm.
    injection Hm as Hl _ _ _ _. apply label_injective in Hl. subst j.
    exact Hj.
  - intros Hc.
    eexists; split.
    + apply in_flat_map. exists c. split; [destruct c; simpl; tauto|].
      cbv beta zeta. rewrite Hc. left; reflexivity.
    + repeat split. repeat eexists.
Qed.

(** C6 (amended). On an event with at least one status -1 particle
    and at least one status 1 particle, [validate_event] with the
    momentum check enabled either raises, which it does only when the
    mass check is enabled and [computed_mass] raised on a particle, or
    returns issues that hold a momentum-conservation error for component
    [k] exactly when [|in_k - out_k| / max(|in_E|, |out_E|, 1e-10)]
    exceeds [momentum_tolerance]. *)
Theorem validate_event_momentum (ev : Event F) (k : component)
        (check_pdg check_energy check_mass : bool)
        (momentum_tolerance mass_tolerance : F) :
  incoming_particles ev <> [] ->
  final_particles ev <> [] ->
  match validate_event is_valid_pdg_id computed_mass ev true check_pdg
                       check_energy check_mass momentum_tolerance
                       mass_tolerance with
  | Ok found =>
      momentum_error_for k found
      <-> spec_momentum_violated ev k momentum_tolerance = true
  | Raise e => mass_check_raises computed_mass ev check_mass e
  end.
Proof.
  intros Hin Hout.
  destruct (validate_event _ _ ev true _ _ _ _ _) as [found|e] eqn:Hv;
    [|now apply validate_event_raised in Hv].
  rewrite <- (momentum_issues_spec ev k momentum_tolerance Hin Hout).
  assert (Hne : particles ev <> []).
  { unfold incoming_particles in Hin. intros E. apply Hin. now rewrite E. }
  destruct (validate_event_returned _ _ _ _ _ _ _ _ Hne Hv) as [fm [Hm ->]].
  unfold momentum_error_for. split.
  - intros [i [Hi Hmom]].
    repeat (apply in_app_or in Hi; destruct Hi as [Hi|Hi]).
    + destruct check_pdg; [|contradiction].
      exfalso; eapply pdg_issues_no_momentum; eauto.
    + destruct check_energy; [|contradiction].
      exfalso; eapply energy_issues_no_momentum; eauto.
    + destruct check_mass; [|injection Hm as <-; contradiction].
      exfalso; eapply mass_issues_no_momentum; eauto.
    + exists i; split; assumption.
  - intros [i [Hi Hmom]]. exists i; split; [|assumption].
    repeat (apply in_or_app; right). exact Hi.
Qed.

End ValidationFacts.

(** C6 (as stated) fails without incoming particles: the criterion
    holds for [px] on an event made of one final-state particle, and
    [validate_event] reports nothing. *)
Lemma validate_event_momentum_counterexample :
  validation.spec_momentum_violated fixtures.lone_final_event models.Px
    (1 # 10000)%Q = true /\
  validation.validate_event fixtures.pdg_always_valid fixtures.no_computed_mass
    fixtures.lone_final_event true true true true (1 # 10000)%Q (1 # 100)%Q
  = Ok [].
Proof. split; vm_compute; reflexivity. Qed.

(** The amended statement at an event with both kinds of particles. *)
Lemma validate_event_momentum_witness :
  match validation.validate_event fixtures.pdg_always_valid
          fixtures.no_computed_mass fixtures.unbalanced_event true true true
          true (1 # 10000)%Q (1 # 100)%Q with
  | Ok found =>
      validation.momentum_error_for models.Pz found
      <-> validation.spec_momentum_violated fixtures.unbalanced_event
            models.Pz (1 # 10000)%Q = true
  | Raise e =>
      validation.mass_check_raises fixtures.no_computed_mass
        fixtures.unbalanced_event true e
  end.
Proof.
  apply (validate_event_momentum fixtures.pdg_always_valid
           fixtures.no_computed_mass fixtures.unbalanced_event models.Pz
           true true true (1 # 10000)%Q (1 # 100)%Q).
  - vm_compute. discriminate.
  - vm_compute. discriminate.
Defined.

(** There the validator returns, with the one error about [pz] and the
    one about the energy. *)
Example unbalanced_event_issues :
  map (fun i => (validation.level i, validation.particle_index i))
      (match validation.validate_event fixtures.pdg_always_valid
               fixtures.no_computed_mass fixtures.unbalanced_event true true
               true true (1 # 10000)%Q (1 # 100)%Q with
       | Ok found => found
       | Raise _ => []
       end)
  = [("error", None); ("error", None)].
Proof. vm_compute. reflexivity. Qed.

(** The criterion does hold on that event, so an error is reported. *)
Example unbalanced_event_reported :
  validation.spec_momentum_violated fixtures.unbalanced_event models.Pz
    (1 # 10000)%Q = true.
Proof. vm_compute. reflexivity. Qed.

(** The permutation theorem at the two-photon event. *)
Lemma fingerprint_event_permutation_witness :
  fingerprint.fingerprint_event fixtures.two_photons fingerprint.default_config
  = Ok "b2cb25b550c2b1b7b519945983957e96be5ba694750d7d22ed3fb07a61607997"
  <-> fingerprint.fingerprint_event
        (models.with_particles fixtures.two_photons
           [fixtures.photon_b; fixtures.photon_a])
        fingerprint.default_config
      = Ok "b2cb25b550c2b1b7b519945983957e96be5ba694750d7d22ed3fb07a61607997".
Proof.
  apply (fingerprint_event_permutation fixtures.two_photons
           fingerprint.default_config [fixtures.photon_b; fixtures.photon_a]).
  apply perm_swap.
Defined.

(** Both orders do return that digest. *)
Example two_photons_fingerprint :
  fingerprint.fingerprint_event fixtures.two_photons fingerprint.default_config
  = Ok "b2cb25b550c2b1b7b519945983957e96be5ba694750d7d22ed3fb07a61607997".
Proof. vm_compute. reflexivity. Qed.

(** ** The filter validator *)

Section FilteringFacts.
Import ast filtering.

Lemma total_size_app (l l' : list node) :
  total_size (l ++ l') = (total_size l + total_size l')%nat.
Proof. unfold total_size. now rewrite map_app, list_sum_app. Qed.

Lemma total_size_exprs (l : list ast.expr) :
  total_size (map NExpr l) = list_sum (map expr_size l).
Proof. unfold total_size. now rewrite map_map. Qed.

Lemma total_size_cmpops (ops : list cmpop) :
  total_size (map NCmpop ops) = List.length ops.
Proof. induction ops; simpl; [reflexivity|]. unfold total_size in *. simpl. lia. Qed.

Lemma total_size_keys (keys : list (option ast.expr)) :
  total_size (flat_map opt_nodes keys) = list_sum (map (opt_size expr_size) keys).
Proof.
  induction keys as [|[k|] keys IH]; simpl; [reflexivity| |exact IH].
  unfold total_size in *. simpl. now rewrite IH.
Qed.

Lemma total_size_keywords (kws : list (option string * ast.expr)) :
  total_size (map (fun kw => NKeyword (fst kw) (snd kw)) kws)
  = list_sum (map (fun kw => S (expr_size (snd kw))) kws).
Proof. unfold total_size. now rewrite map_map. Qed.

Lemma total_size_opt (o : option ast.expr) :
  total_size (opt_nodes o) = opt_size expr_size o.
Proof. destruct o; unfold total_size; simpl; lia. Qed.

Lemma total_size_cons (x : node) (l : list node) :
  total_size (x :: l) = (node_size x + total_size l)%nat.
Proof. reflexivity. Qed.

Lemma total_size_nil : total_size [] = O.
Proof. reflexivity. Qed.

Create Rewrite HintDb tsize.
Hint Rewrite total_size_cons total_size_nil total_size_app total_size_exprs
  total_size_cmpops total_size_keys total_size_keywords total_size_opt
  : tsize.

Lemma node_size_children (n : node) :
  node_size n = S (total_size (iter_child_nodes n)).
Proof.
  destruct n as [body|e| | | | | |arg value]; try reflexivity;
    try (unfold total_size; simpl; lia).
  destruct e; cbn [node_size iter_child_nodes expr_size];
    autorewrite with tsize; cbn [node_size]; lia.
Qed.

(** The walk reaches every node of the tree. *)
Lemma walk_queue_complete (fuel : nat) :
  forall todo : list node,
    (total_size todo <= fuel)%nat ->
    forall n m, List.In n todo -> descendant n m ->
                List.In m (walk_queue fuel todo).
Proof.
  induction fuel as [|fuel IH]; intros todo Hsz n m Hn Hd.
  - destruct todo as [|x rest]; [contradiction|].
    unfold total_size in Hsz; simpl in Hsz.
    pose proof (node_size_children x). lia.
  - destruct todo as [|x rest]; [contradiction|].
    simpl.
    assert (Hfuel : (total_size (rest ++ iter_child_nodes x) <= fuel)%nat).
    { rewrite total_size_app.
      unfold total_size in Hsz |- *; simpl in Hsz.
      pose proof (node_size_children x) as Hx. unfold total_size in Hx. lia. }
    destruct Hn as [->|Hn].
    + inversion Hd as [|? c ? Hc Hcm]; subst.
      * now left.
      * right. apply (IH _ Hfuel c m); [|exact Hcm].
        apply in_or_app; now right.
    + right. apply (IH _ Hfuel n m); [|exact Hd].
      apply in_or_app; now left.
Qed.

Lemma walk_complete (tree m : node) :
  descendant tree m -> List.In m (walk tree).
Proof.
  intros Hd. unfold walk.
  apply (walk_queue_complete _ [tree]) with (n := tree);
    [unfold total_size; simpl; lia|now left|exact Hd].
Qed.

Lemma check_node_unsafe (n : node) (e : exn) :
  check_node n = Raise e -> exists msg, e = UnsafeFilterExpression msg.
Proof.
  unfold check_node.
  destruct (negb (allowed_node n)); [intros [= <-]; eauto|].
  destruct n as [|x| | | | | |]; try discriminate.
  destruct x; try discriminate.
  - destruct x; try (intros [= <-]; eauto).
    destruct (mem_string id ALLOWED_FUNCS); [discriminate|intros [= <-]; eauto].
  - destruct (Py.startswith id "__"); [intros [= <-]; eauto|discriminate].
Qed.

Lemma check_nodes_unsafe (ns : list node) (e : exn) :
  check_nodes ns = Raise e -> exists msg, e = UnsafeFilterExpression msg.
Proof.
  induction ns as [|n ns IH]; simpl; [discriminate|].
  destruct (check_node n) as [[]|e'] eqn:Hn; simpl.
  - exact IH.
  - intros [= <-]. eapply check_node_unsafe; eauto.
Qed.

Lemma check_nodes_raises (ns : list node) (m : node) :
  List.In m ns -> raises (check_node m) -> raises (check_nodes ns).
Proof.
  induction ns as [|n ns IH]; intros Hin Hm; [contradiction|].
  simpl. destruct (check_node n) as [[]|e'] eqn:Hn; simpl.
  - destruct Hin as [->|Hin]; [|now apply IH].
    destruct Hm as [e He]. congruence.
  - now exists e'.
Qed.

Lemma forbidden_raises (e : ast.expr) :
  forbidden e -> raises (check_node (NExpr e)).
Proof.
  intros [[v [a [c ->]]]|[[v [s [c ->]]]|[[c [a [k ->]]]|[id [c [-> Hp]]]]]];
    unfold check_node; simpl.
  - eexists; reflexivity.
  - eexists; reflexivity.
  - eexists; reflexivity.
  - rewrite Hp. eexists; reflexivity.
Qed.

(** An exception of the parser that is not a [SyntaxError] is not
    turned into [UnsafeFilterExpression]: it leaves [compile_filter] as
    it is. *)
Lemma compile_filter_parser_exception (parse : string -> parse_outcome)
      (src : string) (e : exn) :
  parse src = Uncaught e -> compile_filter parse src = Raise e.
Proof. unfold compile_filter. now intros ->. Qed.

(** C9 (amended). [compile_filter] raises [UnsafeFilterExpression] for
    every expression whose tree contains an attribute access, an
    indexing, an import or an identifier beginning with two underscores,
    and for every text that the parser refuses with [SyntaxError], as it
    does an import statement.  A text on which the parser raises
    another exception is left aside: that exception is not caught. *)
Theorem compile_filter_rejects (parse : string -> parse_outcome) (src : string) :
  match parse src with
  | SyntaxError _ => True
  | Tree body => exists e, contains body e /\ forbidden e
  | Uncaught _ => False
  end ->
  exists msg, compile_filter parse src = Raise (UnsafeFilterExpression msg).
Proof.
  unfold compile_filter.
  destruct (parse src) as [msg|body|ex];
    [intros _; now exists msg| |contradiction].
  intros [e [Hc Hf]].
  assert (Hr : raises (_validate_ast (NExpression body))).
  { unfold _validate_ast.
    apply (check_nodes_raises _ (NExpr e)).
    - apply walk_complete. exact Hc.
    - apply forbidden_raises. exact Hf. }
  destruct Hr as [ex Hex]. rewrite Hex. simpl.
  destruct (check_nodes_unsafe _ _ Hex) as [msg ->]. now exists msg.
Qed.

End FilteringFacts.

(** C9 (as stated) fails for a single leading underscore: [_x > 0]
    contains the identifier [_x] and [compile_filter] accepts it. *)
Lemma compile_filter_underscore_counterexample :
  filtering.contains filter_fixtures.underscore_tree (ast.Name "_x" ast.Load) /\
  Py.startswith "_x" "_" = true /\
  filtering.compile_filter filter_fixtures.parse filter_fixtures.underscore_text
  = Ok (filtering.mkCompiledFilter filter_fixtures.underscore_text
          filter_fixtures.underscore_tree).
Proof.
  split; [|split; reflexivity].
  unfold filtering.contains.
  eapply filtering.desc_child; [left; reflexivity|].
  eapply filtering.desc_child; [left; reflexivity|].
  apply filtering.desc_self.
Qed.

(** The amended statement at [__import__('os').system('x')], which
    contains an attribute access. *)
Lemma compile_filter_rejects_witness :
  exists msg,
    filtering.compile_filter filter_fixtures.parse filter_fixtures.import_text
    = Raise (UnsafeFilterExpression msg).
Proof.
  apply (compile_filter_rejects filter_fixtures.parse filter_fixtures.import_text).
  simpl.
  exists (ast.Attribute
            (ast.Call (ast.Name "__import__" ast.Load)
                      [ast.Constant (ast.CStr "os")] [])
            "system" ast.Load).
  split.
  - unfold filtering.contains.
    eapply filtering.desc_child; [left; reflexivity|].
    eapply filtering.desc_child; [left; reflexivity|].
    apply filtering.desc_self.
  - left. unfold filtering.is_attribute_access. eauto.
Defined.

(** The error it raises there, and an accepted filter. *)
Example compile_filter_import :
  filtering.compile_filter filter_fixtures.parse filter_fixtures.import_text
  = Raise (UnsafeFilterExpression "Only simple function calls are allowed").
Proof. vm_compute. reflexivity. Qed.

(** A text with a null byte: the [ValueError] of the parser comes out of
    [compile_filter] unchanged. *)
Example compile_filter_null_byte :
  filtering.compile_filter filter_fixtures.parse filter_fixtures.null_text
  = Raise (ValueError "source code string cannot contain null bytes").
Proof. reflexivity. Qed.

Example compile_filter_leptons :
  filtering.compile_filter filter_fixtures.parse filter_fixtures.leptons_text
  = Ok (filtering.mkCompiledFilter filter_fixtures.leptons_text
          filter_fixtures.leptons_tree).
Proof. reflexivity. Qed.

Example walk_leptons :
  map ast.class_name (ast.walk (ast.NExpression filter_fixtures.leptons_tree))
  = ["Expression"; "BoolOp"; "And"; "Compare"; "Compare"; "Name"; "GtE";
     "Constant"; "Name"; "Gt"; "Constant"; "Load"; "Load"].
Proof. reflexivity. Qed.

(** ** The HepMC3 reader: status of a particle record *)

Section HepMC3ReaderFacts.
Context {F : Type} {FM : FloatModel F}.
Import models hepmc3.

Lemma mapped_status_unmapped (st : Z) :
  st <> 1 -> st <> 2 -> st <> 3 -> st <> 4 -> mapped_status st = st.
Proof.
  intros H1 H2 H3 H4. unfold mapped_status.
  destruct (Z.eqb_spec st 4); [contradiction|].
  destruct (Z.eqb_spec st 1); [contradiction|].
  destruct (Z.eqb_spec st 2); [contradiction|].
  destruct (Z.eqb_spec st 3); [contradiction|].
  reflexivity.
Qed.

(** What the [P] branch stores for the raw status [st]. *)
Lemma P_branch_status (line : string) (p : Particle F) (st : Z) :
  P_branch line = Some p ->
  raw_status line = Ok st ->
  status p = mapped_status st /\
  attributes p =
    (if mapped_status st =? st then []
     else [("hepmc_status_raw", json.JInt st)]).
Proof.
  unfold P_branch, raw_status.
  set (parts := Py.split line).
  destruct (List.length parts <? 9)%nat; [discriminate|].
  destruct (int_at parts 1) as [bc|]; simpl; [|discriminate].
  destruct (int_at parts 2) as [pdg|]; simpl; [|discriminate].
  destruct (int_at parts 3) as [st'|]; simpl; [|discriminate].
  destruct (float_at parts 4) as [x|]; simpl; [|discriminate].
  destruct (float_at parts 5) as [y|]; simpl; [|discriminate].
  destruct (float_at parts 6) as [z|]; simpl; [|discriminate].
  destruct (float_at parts 7) as [e|]; simpl; [|discriminate].
  destruct (float_at parts 8) as [m|]; simpl; [|discriminate].
  intros Hp Hst. injection Hst as ->.
  match type of Hp with
  | (let '(_, _) := ?c in _) = _ => destruct c as [pv ev]
  end.
  destruct (mapped_status st =? st); simpl in Hp; injection Hp as <-;
    split; reflexivity.
Qed.

(** C5 (amended). For a [P] record whose raw status code is outside
    {1,2,3,4}, the reader keeps the raw code unchanged as the status of
    the particle and sets no ["hepmc_status_raw"] attribute. *)
Theorem P_branch_unmapped_status (line : string) (p : Particle F) (st : Z) :
  P_branch line = Some p ->
  raw_status line = Ok st ->
  st <> 1 -> st <> 2 -> st <> 3 -> st <> 4 ->
  status p = st /\
  json.dict_get (attributes p) "hepmc_status_raw" = None.
Proof.
  intros Hp Hst H1 H2 H3 H4.
  destruct (P_branch_status line p st Hp Hst) as [Hs Ha].
  rewrite (mapped_status_unmapped st H1 H2 H3 H4) in Hs, Ha.
  rewrite Z.eqb_refl in Ha. rewrite Ha. split; [exact Hs|reflexivity].
Qed.

(** The attribute is set exactly for the raw codes 3 and 4. *)
Lemma P_branch_remapped_status (line : string) (p : Particle F) (st : Z) :
  P_branch line = Some p ->
  raw_status line = Ok st ->
  st = 3 \/ st = 4 ->
  json.dict_get (attributes p) "hepmc_status_raw" = Some (json.JInt st).
Proof.
  intros Hp Hst H34.
  destruct (P_branch_status line p st Hp Hst) as [_ Ha].
  rewrite Ha. destruct H34 as [-> | ->]; reflexivity.
Qed.

End HepMC3ReaderFacts.

(** C5 (as stated) fails: the raw status 11 is outside {1,2,3,4} and
    the particle read from the record has no ["hepmc_status_raw"]. *)
Lemma P_branch_unmapped_counterexample :
  hepmc3.raw_status reader_fixtures.status_11_line = Ok 11 /\
  exists p : models.Particle Q,
    hepmc3.P_branch reader_fixtures.status_11_line = Some p /\
    models.status p = 11 /\
    models.attributes p = [] /\
    json.dict_get (models.attributes p) "hepmc_status_raw" = None.
Proof.
  split; [reflexivity|].
  eexists. split; [vm_compute; reflexivity|].
  repeat split.
Qed.

(** The amended statement at that record. *)
Lemma P_branch_unmapped_status_witness :
  models.status reader_fixtures.status_11_particle = 11 /\
  json.dict_get (models.attributes reader_fixtures.status_11_particle)
                "hepmc_status_raw" = None.
Proof.
  apply (P_branch_unmapped_status reader_fixtures.status_11_line
           reader_fixtures.status_11_particle 11).
  - vm_compute. reflexivity.
  - reflexivity.
  - discriminate.
  - discriminate.
  - discriminate.
  - discriminate.
Defined.

(** A beam particle (raw status 4) keeps its raw code in the attribute. *)
Example P_branch_beam :
  exists p : models.Particle Q,
    hepmc3.P_branch "P 1 2212 4 0 0 6500 6500 0.938 0 -1" = Some p /\
    models.status p = -1 /\
    models.attributes p = [("hepmc_status_raw", json.JInt 4)].
Proof. eexists. split; [vm_compute; reflexivity|]. split; reflexivity. Qed.

(** ** Vertex reconstruction *)

Section VertexFacts.
Context {F : Type} {FM : FloatModel F}.
Import models.

Lemma map_snd_enumerate1 {A : Type} (i : Z) (xs : list A) :
  map snd (hepmc3.enumerate1 i xs) = xs.
Proof. revert i; induction xs; intros i; simpl; [reflexivity|now rewrite IHxs]. Qed.

Lemma mark_incoming_void (b : hepmc3.builder) (ips : list (Z * Particle F)) :
  Forall incoming_void (snd (hepmc3.mark_incoming b ips)).
Proof.
  revert b; induction ips as [|[idx p] ips IH]; intros b; simpl.
  - constructor.
  - destruct (status p =? -1) eqn:Hs.
    + specialize (IH (hepmc3.set_prod_vtx b idx 0)).
      destruct (hepmc3.mark_incoming (hepmc3.set_prod_vtx b idx 0) ips).
      simpl in *. constructor; [intros _; reflexivity|exact IH].
    + specialize (IH b).
      destruct (hepmc3.mark_incoming b ips).
      simpl in *. constructor; [|exact IH].
      intros H. apply Z.eqb_neq in Hs. contradiction.
Qed.

Lemma create_vertices_void (b : hepmc3.builder) (ips : list (Z * Particle F)) :
  Forall incoming_void (map snd ips) ->
  Forall incoming_void (snd (hepmc3.create_vertices b ips)).
Proof.
  revert b; induction ips as [|[idx p] ips IH]; intros b Hall; simpl.
  - constructor.
  - inversion Hall as [|? ? Hp Hrest]; subst.
    destruct (status p =? -1) eqn:Hs.
    + specialize (IH b Hrest).
      destruct (hepmc3.create_vertices b ips).
      simpl in *. constructor; assumption.
    + destruct (if (mother1 p =? 0) && (mother2 p =? 0)
                then hepmc3._vtx_for b 0 0
                else hepmc3._vtx_for b (mother1 p) (mother2 p)) as [b1 v_id].
      specialize (IH (hepmc3.set_prod_vtx b1 idx v_id) Hrest).
      destruct (hepmc3.create_vertices (hepmc3.set_prod_vtx b1 idx v_id) ips).
      simpl in *. constructor; [|exact IH].
      intros H. simpl in H. apply Z.eqb_neq in Hs. contradiction.
Qed.

(** The HepMC3 writer's reconstruction does what the specification
    says of incoming particles. *)
Lemma hepmc3_incoming_void (ev : Event F) (p : Particle F) :
  vertices ev = [] ->
  In p (particles (hepmc3._build_vertices_from_mothers ev)) ->
  status p = -1 -> vertex_barcode p = 0.
Proof.
  intros Hv. unfold hepmc3._build_vertices_from_mothers. rewrite Hv. simpl.
  pose proof (mark_incoming_void hepmc3.empty_builder
                (hepmc3.enumerate1 1 (hepmc3.assign_barcodes (particles ev))))
    as H2.
  destruct (hepmc3.mark_incoming hepmc3.empty_builder
              (hepmc3.enumerate1 1 (hepmc3.assign_barcodes (particles ev))))
    as [b2 ps2].
  simpl in H2.
  pose proof (create_vertices_void b2 (hepmc3.enumerate1 1 ps2)) as H3.
  rewrite map_snd_enumerate1 in H3. specialize (H3 H2).
  destruct (hepmc3.create_vertices b2 (hepmc3.enumerate1 1 ps2)) as [b3 ps3].
  simpl in *.
  intros Hin. apply in_map_iff in Hin. destruct Hin as [q [<- Hq]].
  simpl. rewrite Forall_forall in H3. exact (H3 q Hq).
Qed.

End VertexFacts.

Section ParquetVertexFacts.
Context {F : Type} {FM : FloatModel F}.
Import models.

Lemma dict_get_Forall {K V : Type} (eqb : K -> K -> bool) (P : V -> Prop)
      (d : list (K * V)) (k : K) (v : V) :
  Forall (fun kv => P (snd kv)) d -> dict.get eqb d k = Some v -> P v.
Proof.
  induction 1 as [|[k' v'] d Hv Hd IH]; simpl; [discriminate|].
  destruct (eqb k' k); [intros [= <-]; exact Hv|exact IH].
Qed.

Lemma dict_set_Forall {K V : Type} (eqb : K -> K -> bool) (P : V -> Prop)
      (d : list (K * V)) (k : K) (v : V) :
  Forall (fun kv => P (snd kv)) d -> P v ->
  Forall (fun kv => P (snd kv)) (dict.set eqb d k v).
Proof.
  intros Hd Hv. induction Hd as [|[k' v'] d Hv' Hd IH]; simpl.
  - constructor; [exact Hv|constructor].
  - destruct (eqb k' k); constructor; assumption.
Qed.

Lemma vtx_for_negative (b : parquet.builder) (m1 m2 : Z) :
  parquet.negative_ids b ->
  parquet.negative_ids (fst (parquet._vtx_for b m1 m2)) /\
  snd (parquet._vtx_for b m1 m2) < 0.
Proof.
  intros [Hn Hm]. unfold parquet._vtx_for.
  set (key := if (m1 =? 0) && (m2 =? 0) then (0, 0)
              else if m1 <=? m2 then (m1, m2) else (m2, m1)).
  destruct (dict.get dict.pair_eqb (parquet.vtx_map b) key) as [v|] eqn:Hg.
  - simpl. split; [split; assumption|].
    exact (dict_get_Forall dict.pair_eqb (fun v => v < 0) _ _ _ Hm Hg).
  - simpl. split; [|exact Hn]. split; simpl; [lia|].
    apply (dict_set_Forall dict.pair_eqb (fun v => v < 0)); assumption.
Qed.

Lemma assign_vertices_negative (b : parquet.builder) (ps : list (Particle F)) :
  parquet.negative_ids b ->
  Forall (fun p => vertex_barcode p < 0) (snd (parquet.assign_vertices b ps)).
Proof.
  revert b; induction ps as [|p ps IH]; intros b Hb; simpl; [constructor|].
  destruct (vtx_for_negative b (mother1 p) (mother2 p) Hb) as [Hb1 Hv].
  destruct (parquet._vtx_for b (mother1 p) (mother2 p)) as [b1 vtx].
  simpl in Hb1, Hv.
  match goal with
  | |- context [parquet.assign_vertices ?b' ps] =>
      specialize (IH b' Hb1); destruct (parquet.assign_vertices b' ps)
  end.
  simpl in *. constructor; [exact Hv|exact IH].
Qed.

Lemma update_nth_Forall {A : Type} (P : A -> Prop) (f : A -> A) (i : nat)
      (l : list A) :
  (forall x, P x -> P (f x)) -> Forall P l -> Forall P (update_nth i f l).
Proof.
  intros Hf Hl. revert i; induction Hl as [|x l Hx Hl IH]; intros [|i]; simpl;
    constructor; auto.
Qed.

Lemma link_mother_negative (vtx midx : Z)
      (st : list (Z * Vertex F) * list (Particle F)) :
  Forall (fun p => vertex_barcode p < 0) (snd st) ->
  Forall (fun p => vertex_barcode p < 0) (snd (parquet.link_mother vtx st midx)).
Proof.
  destruct st as [vs all]. unfold parquet.link_mother.
  destruct (negb (midx =? 0) && (1 <=? midx)
            && (midx <=? Z.of_nat (List.length all))); [|trivial].
  destruct (nth_error all (Z.to_nat (midx - 1))); [|trivial].
  simpl. intros H. apply update_nth_Forall; [|exact H].
  intros x Hx. exact Hx.
Qed.

Lemma link_mothers_negative (n i : nat)
      (st : list (Z * Vertex F) * list (Particle F)) :
  Forall (fun p => vertex_barcode p < 0) (snd st) ->
  Forall (fun p => vertex_barcode p < 0) (snd (parquet.link_mothers n i st)).
Proof.
  revert i st; induction n as [|n IH]; intros i st H; simpl; [exact H|].
  destruct (nth_error (snd st) i) as [p|]; [|exact H].
  destruct (vertex_barcode p =? 0); apply IH; [exact H|].
  simpl. apply link_mother_negative, link_mother_negative, H.
Qed.

(** The Parquet reader's reconstruction gives every particle, incoming
    or not, a negative production vertex. *)
Lemma parquet_vertex_barcode_negative (ev : Event F) (p : Particle F) :
  vertices ev = [] ->
  In p (particles (parquet._build_vertices_from_mothers ev)) ->
  vertex_barcode p < 0.
Proof.
  intros Hv. unfold parquet._build_vertices_from_mothers. rewrite Hv. simpl.
  assert (H0 : parquet.negative_ids (parquet.empty_builder (F := F))).
  { split; simpl; [lia|constructor]. }
  pose proof (assign_vertices_negative parquet.empty_builder
                (hepmc3.assign_barcodes (particles ev)) H0) as H2.
  destruct (parquet.assign_vertices parquet.empty_builder
              (hepmc3.assign_barcodes (particles ev))) as [b2 ps2].
  simpl in H2.
  pose proof (link_mothers_negative (List.length ps2) 0
                (parquet.vertices_by_id b2, ps2) H2) as H3.
  destruct (parquet.link_mothers (List.length ps2) 0
              (parquet.vertices_by_id b2, ps2)) as [vs3 ps3].
  simpl in *. intros Hin. rewrite Forall_forall in H3. exact (H3 p Hin).
Qed.

End ParquetVertexFacts.

(** C4. On an event without vertices whose first two particles are
    incoming, the Parquet reader's reconstruction gives the incoming
    particles the production vertex -1, where the HepMC3 writer's gives
    them 0. *)
Theorem parquet_incoming_vertex_barcode :
  models.vertices reader_fixtures.w_event = [] /\
  map models.status
      (models.particles
         (parquet._build_vertices_from_mothers reader_fixtures.w_event))
  = [-1; -1; 2; 1; 1] /\
  map models.vertex_barcode
      (models.particles
         (parquet._build_vertices_from_mothers reader_fixtures.w_event))
  = [-1; -1; -2; -3; -3] /\
  map models.vertex_barcode
      (models.particles
         (hepmc3._build_vertices_from_mothers reader_fixtures.w_event))
  = [0; 0; -1; -2; -2].
Proof. repeat split. Qed.

(** ** The LHE reader *)

Section LHEFacts.
Context {F : Type} {FM : FloatModel F}.
Import models lhe.

(** Whatever the block holds, an event the parser returns has the
    header weight as its only weight and an empty [extra]. *)
Lemma parse_event_block_single_weight (lines : list string) (n : Z)
      (ev : Event F) :
  _parse_event_block lines n = Ok ev ->
  List.length (weights ev) = 1%nat /\ extra ev = [].
Proof.
  unfold _parse_event_block.
  destruct (find_header lines) as [[header rest]|].
  - repeat match goal with
      | |- (bind ?m _ = Ok _) -> _ =>
          destruct m; cbn [bind]; [|discriminate]
      end.
    intros [= <-]. split; reflexivity.
  - intros [= <-]. split; reflexivity.
Qed.

End LHEFacts.

(** C2. A malformed numeric column makes the LHE reader raise
    [ValueError]: in a block whose particle row has the energy [n/a],
    and on the messy file of the test suite, whose rows use Fortran
    exponents. *)
Theorem parse_event_block_malformed_raises :
  lhe._parse_event_block (F := Q) lhe_fixtures.malformed_block 1
  = Raise (ValueError "could not convert string to float: 'n/a'") /\
  lhe.iter_lhe (F := Q) lhe_fixtures.edge_cases
  = Raise (ValueError "could not convert string to float: '1.0D+01'").
Proof. split; vm_compute; reflexivity. Qed.

(** C3. The event parsed from a block with two [<weight>] and two
    [<wgt>] entries has the header weight as its only weight and
    nothing under [extra]. *)
Theorem parse_event_block_ignores_weight_blocks :
  List.length (lhe.spec_weight_entries lhe_fixtures.weights_block) = 4%nat /\
  exists ev : models.Event Q,
    lhe._parse_event_block lhe_fixtures.weights_block 1 = Ok ev /\
    models.weights ev = [1%Q] /\
    models.extra ev = [] /\
    List.length (models.particles ev) = 2%nat.
Proof.
  split; [reflexivity|].
  eexists. split; [vm_compute; reflexivity|].
  repeat split.
Qed.

(** ** The loss hash of a conversion *)

Section ConvertFacts.
Context {F : Type} {FM : FloatModel F}.
Import models audit convert.

(** The hash in the report is taken before any event is observed: it is
    the hash of the plan with an empty counter, whatever the events. *)
Lemma convert_loss_hash_before_observation (input_format output_format : string)
      (events : list (Event F)) (build_provenance : string -> json.value) :
  report_loss_hash
    (report (convert input_format output_format events build_provenance))
  = loss_hash (loss_plan input_format output_format) new_counter.
Proof. unfold convert. cbn [report report_loss_hash]. reflexivity. Qed.

(** When the stream leaves the counter empty, the hash in the report is
    the hash of the report's own plan and observed counts. *)
Lemma convert_loss_hash_nothing_observed (input_format output_format : string)
      (events : list (Event F)) (build_provenance : string -> json.value) :
  observe_all (loss_plan input_format output_format) new_counter events
  = new_counter ->
  report_loss_hash
    (report (convert input_format output_format events build_provenance))
  = spec_loss_hash (convert input_format output_format events build_provenance).
Proof.
  intros H. unfold spec_loss_hash, loss_hash.
  f_equal. f_equal.
  unfold observed_entry, convert.
  cbn [report counter observed report_loss_plan].
  rewrite H. reflexivity.
Qed.

End ConvertFacts.

(** C1. For the conversion LHE -> HepMC3 of one event with mother
    indices, a process id and a scale, the report counts the dropped
    fields, and its [loss_hash] is the hash taken over the empty counter,
    not the hash of the plan and the observed counts it carries. *)
Theorem convert_loss_hash_stale :
  let c := convert.convert (F := Q) "lhe" "hepmc3" [reader_fixtures.w_event]
             convert_fixtures.provenance_of in
  convert.observed_entry c "dropped_fields"
  = json.JDict [ ("event.process_id", json.JInt 1);
                 ("event.scale", json.JInt 1);
                 ("particle.mother1", json.JInt 3);
                 ("particle.mother2", json.JInt 3) ] /\
  convert.report_loss_hash (convert.report c)
  = "b57f89e1010336695b22c35a5359baafb0bdb82b4e5f8a936d1d4653e69fbfa6" /\
  convert.spec_loss_hash c
  = "a50800cd4df02443c48d5e9a9c75e914c5bbb1118e988c731d34a41480182da7" /\
  convert.report_loss_hash (convert.report c) <> convert.spec_loss_hash c.
Proof.
  split; [vm_compute; reflexivity|].
  split; [vm_compute; reflexivity|].
  split; [vm_compute; reflexivity|].
  vm_compute. discriminate.
Qed.

(** ** The two numerical counterexamples in binary64 *)

(** In double precision the edge of a bucket is where the rounded
    quotient says: [x + d] below lies within [abs_tol/2] of [3 * abs_tol]
    when the numbers are taken exactly, and one unit in the last place
    of [x] moves it from bucket 3 to bucket 4. *)
Example quantize_binary64_edge :
  let x := 0x1.6f0068db8bac6p-12%float in
  let d := 0x1p-64%float in
  let tol : float := flit (1 # 10000) in
  Prim2SF (PrimFloat.add x d) = S754_finite false 6456360425798343 (-64) /\
  Prim2SF tol = S754_finite false 7378697629483821 (-66) /\
  (Qabs ((6456360425798343 # 2 ^ 64) - 3 * (7378697629483821 # 2 ^ 66))
   < (7378697629483821 # 2 ^ 66) / 2)%Q /\
  fingerprint._quantize x tol = Ok 3 /\
  fingerprint._quantize (PrimFloat.add x d) tol = Ok 4.
Proof. repeat split; vm_compute; reflexivity. Qed.

(** In double precision too, [4e-5 + 2e-5] leaves bucket 0 of [4e-5]. *)
Example fingerprint_tolerance_binary64 :
  PrimFloat.ltb (PrimFloat.abs (flit (2 # 100000)))
                (PrimFloat.div (flit (1 # 10000)) (flit 2)) = true /\
  fingerprint.fingerprint_event
    (models.perturb fixtures.tolerance_event64 0 models.Px (flit (2 # 100000)))
    fingerprint.default_config
  = Ok "3aa11aaae65eed3bd3d2e091857793a4dcd439e9a4014431e4bc17d4b498db04" /\
  fingerprint.fingerprint_event fixtures.tolerance_event64
    fingerprint.default_config
  = Ok "d1bd2f4fc8408f5abd3ee2d40cad7bd23728ee86c7bb3871b3c3f3792277fd7c".
Proof. repeat split; vm_compute; reflexivity. Qed.

(** In double precision too, the lone final-state particle violates the
    criterion and nothing is reported. *)
Example validate_event_momentum_binary64 :
  validation.spec_momentum_violated fixtures.lone_final_event64 models.Px
    (flit (1 # 10000)) = true /\
  validation.validate_event fixtures.pdg_always_valid
    (fun _ => Ok (flit 0)) fixtures.lone_final_event64 true true true true
    (flit (1 # 10000)) (flit (1 # 100))
  = Ok [].
Proof. split; vm_compute; reflexivity. Qed.

(** ** More on the fingerprint *)

Section FingerprintMore.
Context {F : Type} {FM : FloatModel F}.
Import models fingerprint fingerprint_notions.

Lemma collect_parts_without_documentation (cfg : FingerprintConfig F)
      (ps : list (Particle F)) :
  collect_parts cfg (filter (fun p => negb (status p =? 3)) ps)
  = collect_parts cfg ps.
Proof.
  induction ps as [|p ps IH]; simpl; [reflexivity|].
  destruct (status p =? 3) eqn:Hs; simpl; [exact IH|].
  rewrite Hs, IH. reflexivity.
Qed.

Lemma filter_filter_same {A : Type} (f : A -> bool) (l : list A) :
  filter f (filter f l) = filter f l.
Proof.
  induction l as [|x l IH]; simpl; [reflexivity|].
  destruct (f x) eqn:Hx; simpl; [rewrite Hx, IH; reflexivity|exact IH].
Qed.

(** Documentation lines (status 3) play no part in the fingerprint,
    under any configuration: removing them from the event leaves the
    result of [fingerprint_event] unchanged. *)
Theorem fingerprint_event_ignores_documentation (ev : Event F)
        (cfg : FingerprintConfig F) :
  fingerprint_event
    (with_particles ev (filter (fun p => negb (status p =? 3)) (particles ev)))
    cfg
  = fingerprint_event ev cfg.
Proof.
  unfold fingerprint_event, fingerprint_payload; simpl.
  rewrite collect_parts_without_documentation, filter_filter_same.
  reflexivity.
Qed.

Lemma particle_key_same_fields (p q : Particle F) (tol : F) :
  same_key_fields p q -> _particle_key p tol = _particle_key q tol.
Proof.
  intros (Hs & Hi & Hx & Hy & Hz & He). unfold _particle_key.
  rewrite Hs, Hi, Hx, Hy, Hz, He. reflexivity.
Qed.

Lemma collect_parts_same_fields (cfg : FingerprintConfig F)
      (ps qs : list (Particle F)) :
  Forall2 same_key_fields ps qs ->
  collect_parts cfg ps = collect_parts cfg qs.
Proof.
  induction 1 as [|p q ps qs Hpq Hrest IH]; simpl; [reflexivity|].
  rewrite (particle_key_same_fields p q _ Hpq), IH.
  destruct Hpq as (Hs & _). unfold is_incoming, is_intermediate.
  rewrite Hs. reflexivity.
Qed.

(** Without the graph, the fingerprint reads six fields of each
    particle, the weights and the process id, and nothing else. *)
Lemma fingerprint_event_same_fields (a b : Event F) (cfg : FingerprintConfig F) :
  include_graph cfg = false ->
  same_event_fields a b ->
  Forall2 same_key_fields (particles a) (particles b) ->
  fingerprint_event a cfg = fingerprint_event b cfg.
Proof.
  intros Hg [Hw Hp] Hps. unfold fingerprint_event, fingerprint_payload.
  rewrite (collect_parts_same_fields cfg _ _ Hps), Hg, Hw, Hp. reflexivity.
Qed.

Lemma same_key_fields_refl (p : Particle F) : same_key_fields p p.
Proof. repeat split. Qed.

Lemma same_key_fields_trans (p q r : Particle F) :
  same_key_fields p q -> same_key_fields q r -> same_key_fields p r.
Proof.
  intros (A1 & A2 & A3 & A4 & A5 & A6) (B1 & B2 & B3 & B4 & B5 & B6).
  repeat split; congruence.
Qed.

Lemma Forall2_same_refl (ps : list (Particle F)) :
  Forall2 same_key_fields ps ps.
Proof. induction ps; constructor; auto using same_key_fields_refl. Qed.

Lemma Forall2_same_trans (ps qs rs : list (Particle F)) :
  Forall2 same_key_fields ps qs -> Forall2 same_key_fields qs rs ->
  Forall2 same_key_fields ps rs.
Proof.
  intros H; revert rs; induction H; intros rs H'; inversion H'; subst;
    constructor; eauto using same_key_fields_trans.
Qed.

Lemma assign_barcodes_same (ps : list (Particle F)) :
  Forall2 same_key_fields ps (hepmc3.assign_barcodes ps).
Proof.
  unfold hepmc3.assign_barcodes. generalize 1.
  induction ps as [|p ps IH]; intros i; simpl; constructor; [|apply IH].
  destruct (barcode p =? 0); repeat split.
Qed.

Lemma mark_incoming_same (b : hepmc3.builder) (i : Z) (ps : list (Particle F)) :
  Forall2 same_key_fields ps
          (snd (hepmc3.mark_incoming b (hepmc3.enumerate1 i ps))).
Proof.
  revert b i; induction ps as [|p ps IH]; intros b i; simpl; [constructor|].
  destruct (status p =? -1).
  - specialize (IH (hepmc3.set_prod_vtx b i 0) (i + 1)).
    destruct (hepmc3.mark_incoming _ _). simpl in *.
    constructor; [repeat split|exact IH].
  - specialize (IH b (i + 1)).
    destruct (hepmc3.mark_incoming _ _). simpl in *.
    constructor; [repeat split|exact IH].
Qed.

Lemma create_vertices_same (b : hepmc3.builder) (i : Z) (ps : list (Particle F)) :
  Forall2 same_key_fields ps
          (snd (hepmc3.create_vertices b (hepmc3.enumerate1 i ps))).
Proof.
  revert b i; induction ps as [|p ps IH]; intros b i; simpl; [constructor|].
  destruct (status p =? -1).
  - specialize (IH b (i + 1)).
    destruct (hepmc3.create_vertices _ _). simpl in *.
    constructor; [repeat split|exact IH].
  - destruct (if (mother1 p =? 0) && (mother2 p =? 0)
              then hepmc3._vtx_for b 0 0
              else hepmc3._vtx_for b (mother1 p) (mother2 p)) as [b1 v].
    specialize (IH (hepmc3.set_prod_vtx b1 i v) (i + 1)).
    destruct (hepmc3.create_vertices _ _). simpl in *.
    constructor; [repeat split|exact IH].
Qed.

Lemma map_same (f : Particle F -> Particle F) (ps : list (Particle F)) :
  (forall p, same_key_fields p (f p)) ->
  Forall2 same_key_fields ps (map f ps).
Proof. intros Hf; induction ps; simpl; constructor; auto. Qed.

Lemma hepmc3_build_same (ev : Event F) :
  same_event_fields ev (hepmc3._build_vertices_from_mothers ev) /\
  Forall2 same_key_fields (particles ev)
          (particles (hepmc3._build_vertices_from_mothers ev)).
Proof.
  unfold hepmc3._build_vertices_from_mothers.
  destruct (truthy (vertices ev)).
  - split; [split; reflexivity|apply Forall2_same_refl].
  - pose proof (assign_barcodes_same (particles ev)) as H1.
    pose proof (mark_incoming_same hepmc3.empty_builder 1
                  (hepmc3.assign_barcodes (particles ev))) as H2.
    destruct (hepmc3.mark_incoming _ _) as [b2 ps2]. simpl in H2.
    pose proof (create_vertices_same b2 1 ps2) as H3.
    destruct (hepmc3.create_vertices _ _) as [b3 ps3]. simpl in H3.
    simpl. split; [split; reflexivity|].
    eapply Forall2_same_trans; [exact H1|].
    eapply Forall2_same_trans; [exact H2|].
    eapply Forall2_same_trans; [exact H3|].
    apply map_same. intros p. repeat split.
Qed.

(** Reconstructing the vertex graph as the HepMC3 writer does leaves the
    graph-free fingerprint of the event unchanged. *)
Theorem hepmc3_build_preserves_fingerprint (ev : Event F)
        (cfg : FingerprintConfig F) :
  include_graph cfg = false ->
  fingerprint_event (hepmc3._build_vertices_from_mothers ev) cfg
  = fingerprint_event ev cfg.
Proof.
  intros Hg. symmetry.
  destruct (hepmc3_build_same ev) as [He Hp].
  apply fingerprint_event_same_fields; assumption.
Qed.

Lemma assign_vertices_same (b : parquet.builder) (ps : list (Particle F)) :
  Forall2 same_key_fields ps (snd (parquet.assign_vertices b ps)).
Proof.
  revert b; induction ps as [|p ps IH]; intros b; simpl; [constructor|].
  destruct (parquet._vtx_for b (mother1 p) (mother2 p)) as [b1 vtx].
  match goal with
  | |- context [parquet.assign_vertices ?b' ps] =>
      specialize (IH b'); destruct (parquet.assign_vertices b' ps)
  end.
  simpl in *. constructor; [repeat split|exact IH].
Qed.

Lemma update_nth_same (i : nat) (f : Particle F -> Particle F)
      (ps : list (Particle F)) :
  (forall p, same_key_fields p (f p)) ->
  Forall2 same_key_fields ps (update_nth i f ps).
Proof.
  intros Hf. revert i; induction ps as [|p ps IH]; intros [|i]; simpl;
    constructor; auto using same_key_fields_refl, Forall2_same_refl.
Qed.

Lemma link_mother_same (vtx midx : Z)
      (st : list (Z * Vertex F) * list (Particle F)) :
  Forall2 same_key_fields (snd st) (snd (parquet.link_mother vtx st midx)).
Proof.
  destruct st as [vs all]. unfold parquet.link_mother.
  destruct (negb (midx =? 0) && (1 <=? midx)
            && (midx <=? Z.of_nat (List.length all)));
    [|apply Forall2_same_refl].
  destruct (nth_error all (Z.to_nat (midx - 1))); [|apply Forall2_same_refl].
  simpl. apply update_nth_same. intros q. repeat split.
Qed.

Lemma link_mothers_same (n i : nat)
      (st : list (Z * Vertex F) * list (Particle F)) :
  Forall2 same_key_fields (snd st) (snd (parquet.link_mothers n i st)).
Proof.
  revert i st; induction n as [|n IH]; intros i st; simpl;
    [apply Forall2_same_refl|].
  destruct (nth_error (snd st) i) as [p|]; [|apply Forall2_same_refl].
  destruct (vertex_barcode p =? 0); [apply IH|].
  eapply Forall2_same_trans; [|apply IH].
  simpl.
  eapply Forall2_same_trans; apply link_mother_same.
Qed.

Lemma parquet_build_same (ev : Event F) :
  same_event_fields ev (parquet._build_vertices_from_mothers ev) /\
  Forall2 same_key_fields (particles ev)
          (particles (parquet._build_vertices_from_mothers ev)).
Proof.
  unfold parquet._build_vertices_from_mothers.
  destruct (truthy (vertices ev)).
  - split; [split; reflexivity|apply Forall2_same_refl].
  - pose proof (assign_barcodes_same (particles ev)) as H1.
    pose proof (assign_vertices_same parquet.empty_builder
                  (hepmc3.assign_barcodes (particles ev))) as H2.
    destruct (parquet.assign_vertices _ _) as [b2 ps2]. simpl in H2.
    pose proof (link_mothers_same (List.length ps2) 0
                  (parquet.vertices_by_id b2, ps2)) as H3.
    destruct (parquet.link_mothers _ _ _) as [vs3 ps3]. simpl in H3.
    simpl. split; [split; reflexivity|].
    eapply Forall2_same_trans; [exact H1|].
    eapply Forall2_same_trans; [exact H2|exact H3].
Qed.

(** The same for the reconstruction of the Parquet reader and writer. *)
Theorem parquet_build_preserves_fingerprint (ev : Event F)
        (cfg : FingerprintConfig F) :
  include_graph cfg = false ->
  fingerprint_event (parquet._build_vertices_from_mothers ev) cfg
  = fingerprint_event ev cfg.
Proof.
  intros Hg. symmetry.
  destruct (parquet_build_same ev) as [He Hp].
  apply fingerprint_event_same_fields; assumption.
Qed.

Lemma quantize_bad_tolerance (x tol : F) :
  fleb tol (flit 0) = true ->
  _quantize x tol = Raise (ValueError "abs_tol must be > 0").
Proof. intros H. unfold _quantize. rewrite H. reflexivity. Qed.

Lemma collect_parts_bad_tolerance (cfg : FingerprintConfig F)
      (ps : list (Particle F)) :
  fleb (abs_tol cfg) (flit 0) = true ->
  (exists p, In p ps /\ survives cfg p = true) ->
  collect_parts cfg ps = Raise (ValueError "abs_tol must be > 0").
Proof.
  intros Htol. induction ps as [|q ps IH]; intros [p [Hin Hs]];
    [contradiction|].
  simpl.
  destruct (status q =? 3) eqn:H3.
  { apply IH. destruct Hin as [->|Hin]; [|eauto].
    unfold survives in Hs. rewrite H3 in Hs. discriminate. }
  destruct (is_incoming q && negb (include_incoming cfg)) eqn:Hi.
  { apply IH. destruct Hin as [->|Hin]; [|eauto].
    unfold survives in Hs. rewrite H3, Hi in Hs. discriminate. }
  destruct (is_intermediate q && negb (include_intermediate cfg)) eqn:Hm.
  { apply IH. destruct Hin as [->|Hin]; [|eauto].
    unfold survives in Hs. rewrite H3, Hi, Hm in Hs. discriminate. }
  unfold _particle_key. rewrite (quantize_bad_tolerance _ _ Htol). reflexivity.
Qed.

(** A tolerance that is not positive is refused as soon as one particle
    reaches quantisation: [fingerprint_event] raises
    [ValueError("abs_tol must be > 0")]. *)
Theorem fingerprint_event_bad_tolerance (ev : Event F)
        (cfg : FingerprintConfig F) :
  fleb (abs_tol cfg) (flit 0) = true ->
  (exists p, In p (particles ev) /\ survives cfg p = true) ->
  fingerprint_event ev cfg = Raise (ValueError "abs_tol must be > 0").
Proof.
  intros Htol Hex. unfold fingerprint_event, fingerprint_payload.
  rewrite (collect_parts_bad_tolerance cfg _ Htol Hex). reflexivity.
Qed.

End FingerprintMore.

(** Witnesses of the three statements above. *)
Lemma hepmc3_build_preserves_fingerprint_witness :
  fingerprint.fingerprint_event
    (hepmc3._build_vertices_from_mothers reader_fixtures.w_event)
    fingerprint.default_config
  = fingerprint.fingerprint_event reader_fixtures.w_event
      fingerprint.default_config.
Proof.
  apply (hepmc3_build_preserves_fingerprint reader_fixtures.w_event
           fingerprint.default_config).
  reflexivity.
Defined.

Lemma parquet_build_preserves_fingerprint_witness :
  fingerprint.fingerprint_event
    (parquet._build_vertices_from_mothers reader_fixtures.w_event)
    fingerprint.default_config
  = fingerprint.fingerprint_event reader_fixtures.w_event
      fingerprint.default_config.
Proof.
  apply (parquet_build_preserves_fingerprint reader_fixtures.w_event
           fingerprint.default_config).
  reflexivity.
Defined.

Lemma fingerprint_event_bad_tolerance_witness :
  fingerprint.fingerprint_event fixtures.two_photons
    fixtures.zero_tolerance_config
  = Raise (ValueError "abs_tol must be > 0").
Proof.
  apply (fingerprint_event_bad_tolerance fixtures.two_photons
           fixtures.zero_tolerance_config).
  - reflexivity.
  - exists fixtures.photon_a. split; [left; reflexivity|reflexivity].
Defined.

(** ** The deterministic JSON encoding *)

Section JsonOrder.

Lemma ascii_compare_trans_lt (a b c : ascii) :
  Ascii.compare a b = Lt -> Ascii.compare b c = Lt -> Ascii.compare a c = Lt.
Proof.
  unfold Ascii.compare. rewrite !N.compare_lt_iff. apply N.lt_trans.
Qed.

Lemma string_compare_trans_lt (s1 s2 s3 : string) :
  String.compare s1 s2 = Lt -> String.compare s2 s3 = Lt ->
  String.compare s1 s3 = Lt.
Proof.
  revert s2 s3; induction s1 as [|a s1 IH]; intros [|b s2] [|c s3]; simpl;
    try discriminate; try reflexivity.
  destruct (Ascii.compare a b) eqn:Hab; try discriminate;
    destruct (Ascii.compare b c) eqn:Hbc; try discriminate; intros H1 H2.
  - apply Ascii.compare_eq_iff in Hab, Hbc. subst.
    assert (Hcc : Ascii.compare c c = Eq)
      by (unfold Ascii.compare; apply N.compare_refl).
    rewrite Hcc. eapply IH; eauto.
  - apply Ascii.compare_eq_iff in Hab. subst. rewrite Hbc. reflexivity.
  - apply Ascii.compare_eq_iff in Hbc. subst. rewrite Hab. reflexivity.
  - rewrite (ascii_compare_trans_lt a b c Hab Hbc). reflexivity.
Qed.

Lemma string_compare_refl (s : string) : String.compare s s = Eq.
Proof.
  induction s as [|a s IH]; simpl; [reflexivity|].
  assert (Haa : Ascii.compare a a = Eq)
    by (unfold Ascii.compare; apply N.compare_refl).
  rewrite Haa. exact IH.
Qed.

Lemma string_leb_trans (s1 s2 s3 : string) :
  String.leb s1 s2 = true -> String.leb s2 s3 = true ->
  String.leb s1 s3 = true.
Proof.
  unfold String.leb.
  destruct (String.compare s1 s2) eqn:H12; try discriminate;
    destruct (String.compare s2 s3) eqn:H23; try discriminate; intros _ _.
  - apply String.compare_eq_iff in H12, H23. subst.
    now rewrite string_compare_refl.
  - apply String.compare_eq_iff in H12. subst. now rewrite H23.
  - apply String.compare_eq_iff in H23. subst. now rewrite H12.
  - now rewrite (string_compare_trans_lt s1 s2 s3 H12 H23).
Qed.

Lemma string_leb_false (s1 s2 : string) :
  String.leb s1 s2 = false -> String.leb s2 s1 = true.
Proof.
  intros H. destruct (String.leb_total s1 s2) as [H'|H']; congruence.
Qed.

Lemma string_leb_strict (s1 s2 : string) :
  s1 <> s2 -> String.leb s1 s2 = true -> String.leb s2 s1 = false.
Proof.
  intros Hne H. destruct (String.leb s2 s1) eqn:H'; [|reflexivity].
  exfalso. apply Hne. now apply String.leb_antisym.
Qed.

(** Items with different keys can be inserted in either order. *)
Lemma insert_item_comm (a b : string * string) (l : list (string * string)) :
  fst a <> fst b ->
  json.insert_item a (json.insert_item b l)
  = json.insert_item b (json.insert_item a l).
Proof.
  intros Hne.
  induction l as [|u l IH]; simpl.
  - destruct (String.leb (fst a) (fst b)) eqn:H1.
    + rewrite (string_leb_strict _ _ Hne H1). reflexivity.
    + rewrite (string_leb_false _ _ H1). reflexivity.
  - destruct (String.leb (fst b) (fst u)) eqn:Hbu;
      destruct (String.leb (fst a) (fst u)) eqn:Hau; simpl.
    + destruct (String.leb (fst a) (fst b)) eqn:H1.
      * rewrite (string_leb_strict _ _ Hne H1), ?Hau, ?Hbu. reflexivity.
      * rewrite (string_leb_false _ _ H1), ?Hau, ?Hbu. reflexivity.
    + destruct (String.leb (fst a) (fst b)) eqn:H1.
      * rewrite (string_leb_trans _ _ _ H1 Hbu) in Hau. discriminate.
      * rewrite Hau, Hbu. reflexivity.
    + rewrite Hbu. destruct (String.leb (fst b) (fst a)) eqn:H1.
      * rewrite (string_leb_trans _ _ _ H1 Hau) in Hbu. discriminate.
      * rewrite Hau. reflexivity.
    + rewrite Hau, Hbu, IH. reflexivity.
Qed.

Lemma sort_items_permutation (l l' : list (string * string)) :
  Permutation l l' -> NoDup (map fst l) ->
  json.sort_items l = json.sort_items l'.
Proof.
  unfold json.sort_items. induction 1 as [|x l l' Hp IH|x y l|l l' l'' H1 IH1 H2 IH2];
    intros Hnd; simpl.
  - reflexivity.
  - inversion Hnd; subst. now rewrite IH.
  - apply insert_item_comm.
    simpl in Hnd. inversion Hnd as [|? ? Hnot _]; subst.
    intros Heq. apply Hnot. left. symmetry. exact Heq.
  - rewrite IH1 by exact Hnd. apply IH2.
    eapply Permutation_NoDup; [|exact Hnd].
    apply Permutation_map. exact H1.
Qed.

Lemma dumps_dict_ext (items items' : list (string * json.value)) :
  json.sort_items (map (fun kv => (fst kv, json.dumps (snd kv))) items)
  = json.sort_items (map (fun kv => (fst kv, json.dumps (snd kv))) items') ->
  json.dumps (json.JDict items) = json.dumps (json.JDict items').
Proof. intros H. simpl. rewrite H. reflexivity. Qed.

Lemma dumps_dict_permutation (items items' : list (string * json.value)) :
  Permutation items items' ->
  NoDup (map fst items) ->
  json.dumps (json.JDict items) = json.dumps (json.JDict items').
Proof.
  intros Hp Hnd. apply dumps_dict_ext. apply sort_items_permutation.
  - apply Permutation_map. exact Hp.
  - rewrite map_map. simpl. exact Hnd.
Qed.

(** [stable_json_dumps] of a dictionary does not depend on the order in
    which its keys were inserted. *)
Theorem stable_json_dumps_key_order (items items' : list (string * json.value)) :
  Permutation items items' ->
  NoDup (map fst items) ->
  stable_json_dumps (json.JDict items) = stable_json_dumps (json.JDict items').
Proof. exact (dumps_dict_permutation items items'). Qed.

End JsonOrder.

Lemma stable_json_dumps_key_order_witness :
  stable_json_dumps
    (json.JDict [("b", json.JInt 2); ("a", json.JList [json.JNull])])
  = stable_json_dumps
      (json.JDict [("a", json.JList [json.JNull]); ("b", json.JInt 2)]).
Proof.
  apply (stable_json_dumps_key_order
           [("b", json.JInt 2); ("a", json.JList [json.JNull])]
           [("a", json.JList [json.JNull]); ("b", json.JInt 2)]).
  - apply perm_swap.
  - simpl. constructor.
    + simpl. intros [H|[]]. discriminate H.
    + constructor; [simpl; tauto|constructor].
Defined.

(** ** The loss plan and the loss counter *)

Section AuditFacts.
Context {F : Type} {FM : FloatModel F}.
Import models audit.

Lemma dumps_counts_permutation (d d' : list (string * Z)) :
  Permutation d d' -> NoDup (map fst d) ->
  json.dumps (counts_value d) = json.dumps (counts_value d').
Proof.
  intros Hp Hnd. unfold counts_value. apply dumps_dict_permutation.
  - apply Permutation_map. exact Hp.
  - rewrite map_map. simpl. exact Hnd.
Qed.

Lemma dumps_examples_permutation (d d' : list (string * list json.value)) :
  Permutation d d' -> NoDup (map fst d) ->
  json.dumps (examples_value d) = json.dumps (examples_value d').
Proof.
  intros Hp Hnd. unfold examples_value. apply dumps_dict_permutation.
  - apply Permutation_map. exact Hp.
  - rewrite map_map. simpl. exact Hnd.
Qed.

(** The loss hash does not depend on the order in which the keys
    entered the dictionaries of the counter (the order in which the
    observer walks its sets of dropped fields). *)
Theorem loss_hash_key_order (p : plan) (c c' : LossCounter) :
  Permutation (dropped_fields c) (dropped_fields c') ->
  NoDup (map fst (dropped_fields c)) ->
  Permutation (dropped_runinfo_keys c) (dropped_runinfo_keys c') ->
  NoDup (map fst (dropped_runinfo_keys c)) ->
  Permutation (loss_examples c) (loss_examples c') ->
  NoDup (map fst (loss_examples c)) ->
  dropped_weights c = dropped_weights c' ->
  loss_hash p c = loss_hash p c'.
Proof.
  intros P1 N1 P2 N2 P3 N3 Hw. unfold loss_hash, stable_json_dumps, loss_payload.
  f_equal. apply dumps_dict_ext. cbn [map fst snd]. do 2 f_equal.
  f_equal. f_equal.
  apply dumps_dict_ext. cbn [map fst snd].
  rewrite (dumps_counts_permutation _ _ P1 N1),
    (dumps_counts_permutation _ _ P2 N2),
    (dumps_examples_permutation _ _ P3 N3), Hw.
  reflexivity.
Qed.

Lemma insert_string_in (s x : string) (l : list string) :
  In x (insert_string s l) <-> x = s \/ In x l.
Proof.
  induction l as [|t l IH]; simpl; [intuition|].
  destruct (String.ltb s t); [simpl; intuition|].
  destruct (String.eqb s t) eqn:He.
  - apply String.eqb_eq in He. subst. simpl. intuition.
  - simpl. rewrite IH. intuition.
Qed.

Lemma mem_string_in (s : string) (l : list string) :
  mem_string s l = true <-> In s l.
Proof.
  unfold mem_string. rewrite existsb_exists. split.
  - intros [x [Hx He]]. apply String.eqb_eq in He. now subst.
  - intros H. exists s. split; [exact H|apply String.eqb_refl].
Qed.

Lemma sorted_difference_in (a b : list string) (x : string) :
  In x (sorted_difference a b) <-> In x a /\ ~ In x b.
Proof.
  unfold sorted_difference.
  induction a as [|s a IH]; simpl; [intuition|].
  destruct (mem_string s b) eqn:Hm; simpl.
  - apply mem_string_in in Hm. rewrite IH. split.
    + intuition.
    + intros [[->|Ha] Hb]; [contradiction|auto].
  - assert (Hs : ~ In s b).
    { intros H. apply mem_string_in in H. congruence. }
    rewrite insert_string_in, IH. split.
    + intros [->|[Ha Hb]]; auto.
    + intros [[->|Ha] Hb]; auto.
Qed.

(** A field is planned as dropped exactly when the source format has
    it and the target format has not, for each of the three groups. *)
Theorem loss_plan_dropped (input_format output_format field : string) :
  let ic := format_capabilities input_format in
  let oc := format_capabilities output_format in
  let p := loss_plan input_format output_format in
  (In field (dropped_particle_fields p) <->
   In field (particle_fields ic) /\ ~ In field (particle_fields oc)) /\
  (In field (dropped_event_fields p) <->
   In field (event_fields ic) /\ ~ In field (event_fields oc)) /\
  (In field (dropped_run_fields p) <->
   In field (run_fields ic) /\ ~ In field (run_fields oc)).
Proof.
  cbv zeta. unfold loss_plan. simpl.
  split; [|split]; apply sorted_difference_in.
Qed.

Lemma string_ltb_flip (s t : string) :
  String.ltb s t = false -> String.eqb s t = false -> String.ltb t s = true.
Proof.
  unfold String.ltb. rewrite (String.compare_antisym t s).
  destruct (String.compare s t) eqn:Hc; simpl; try discriminate; try reflexivity.
  apply String.compare_eq_iff in Hc. subst. rewrite String.eqb_refl. discriminate.
Qed.

Lemma insert_string_sorted (s : string) (l : list string) :
  Sorted string_lt l -> Sorted string_lt (insert_string s l).
Proof.
  induction 1 as [|t l Hl IH Hhd]; simpl.
  - constructor; constructor.
  - destruct (String.ltb s t) eqn:Hlt.
    + constructor; [constructor; assumption|constructor; exact Hlt].
    + destruct (String.eqb s t) eqn:He; [constructor; assumption|].
      constructor; [exact IH|].
      pose proof (string_ltb_flip s t Hlt He) as Hts.
      destruct l as [|u l]; simpl.
      * constructor. exact Hts.
      * inversion Hhd; subst.
        destruct (String.ltb s u); [constructor; exact Hts|].
        destruct (String.eqb s u); constructor; assumption.
Qed.

(** The three lists of a plan are in strictly increasing order, so a
    plan has one representation. *)
Theorem loss_plan_sorted (input_format output_format : string) :
  let p := loss_plan input_format output_format in
  Sorted string_lt (dropped_particle_fields p) /\
  Sorted string_lt (dropped_event_fields p) /\
  Sorted string_lt (dropped_run_fields p).
Proof.
  assert (H : forall a b, Sorted string_lt (sorted_difference a b)).
  { intros a b. unfold sorted_difference.
    induction (filter (fun s => negb (mem_string s b)) a); simpl;
      [constructor|now apply insert_string_sorted]. }
  cbv zeta. unfold loss_plan. simpl. split; [|split]; apply H.
Qed.

Lemma sorted_difference_self (a : list string) : sorted_difference a a = [].
Proof.
  destruct (sorted_difference a a) as [|x l] eqn:E; [reflexivity|].
  assert (Hx : In x (sorted_difference a a)) by (rewrite E; now left).
  apply sorted_difference_in in Hx. tauto.
Qed.

Lemma observe_event_nothing_dropped (p : plan) (c : LossCounter) (ev : Event F) :
  dropped_particle_fields p = [] ->
  dropped_event_fields p = [] ->
  observe_event p c ev = c.
Proof.
  intros Hp He. unfold observe_event. rewrite Hp, He. simpl.
  induction (particles ev) as [|q qs IH]; simpl; [reflexivity|exact IH].
Qed.

Lemma observe_all_nothing_dropped (p : plan) (c : LossCounter)
      (evs : list (Event F)) :
  dropped_particle_fields p = [] ->
  dropped_event_fields p = [] ->
  observe_all p c evs = c.
Proof.
  intros Hp He. unfold observe_all.
  induction evs as [|ev evs IH]; simpl; [reflexivity|].
  rewrite (observe_event_nothing_dropped p c ev Hp He). exact IH.
Qed.

(** When the plan drops no particle field and no event field, the
    report of [convert] carries the hash of its own plan and observed
    counts. *)
Theorem convert_loss_hash_consistent (input_format output_format : string)
        (events : list (Event F)) (build_provenance : string -> json.value) :
  dropped_particle_fields (loss_plan input_format output_format) = [] ->
  dropped_event_fields (loss_plan input_format output_format) = [] ->
  convert.report_loss_hash
    (convert.report
       (convert.convert input_format output_format events build_provenance))
  = convert.spec_loss_hash
      (convert.convert input_format output_format events build_provenance).
Proof.
  intros Hp He. apply convert_loss_hash_nothing_observed.
  apply observe_all_nothing_dropped; assumption.
Qed.

(** In particular for a conversion from a format to itself, known or
    not. *)
Theorem convert_same_format_consistent (fmt : string)
        (events : list (Event F)) (build_provenance : string -> json.value) :
  convert.report_loss_hash
    (convert.report (convert.convert fmt fmt events build_provenance))
  = convert.spec_loss_hash (convert.convert fmt fmt events build_provenance).
Proof.
  apply convert_loss_hash_nothing_observed.
  apply observe_all_nothing_dropped; unfold loss_plan; simpl;
    apply sorted_difference_self.
Qed.

End AuditFacts.

Section CounterFacts.
Context {F : Type} {FM : FloatModel F}.
Import models audit audit_notions.

Lemma string_get_set_same {V : Type} (d : list (string * V)) (k : string) (v : V) :
  dict.get String.eqb (dict.set String.eqb d k v) k = Some v.
Proof.
  induction d as [|[k' v'] d IH]; simpl.
  - now rewrite String.eqb_refl.
  - destruct (String.eqb k' k) eqn:He; simpl; rewrite He; [reflexivity|exact IH].
Qed.

Lemma string_get_set_other {V : Type} (d : list (string * V)) (k k' : string)
      (v : V) :
  k <> k' ->
  dict.get String.eqb (dict.set String.eqb d k v) k'
  = dict.get String.eqb d k'.
Proof.
  intros Hne. induction d as [|[k0 v0] d IH]; simpl.
  - destruct (String.eqb k k') eqn:He; [|reflexivity].
    apply String.eqb_eq in He. contradiction.
  - destruct (String.eqb k0 k) eqn:He; simpl.
    + apply String.eqb_eq in He. subst k0.
      destruct (String.eqb k k') eqn:He'; [|reflexivity].
      apply String.eqb_eq in He'. contradiction.
    + destruct (String.eqb k0 k'); [reflexivity|exact IH].
Qed.

(** One counted occurrence with its example keeps counts and examples
    in agreement. *)
Lemma count_and_record_agrees (c : LossCounter) (k : string) (ex : json.value) :
  counter_agrees c ->
  counter_agrees (_record_example (count_field c k) k ex).
Proof.
  intros Hc k'. unfold _record_example, count_field. cbn [dropped_fields loss_examples].
  destruct (String.eqb k k') eqn:He.
  - apply String.eqb_eq in He. subst k'.
    rewrite !string_get_set_same. specialize (Hc k).
    unfold examples_agree in *.
    destruct (dict.get String.eqb (dropped_fields c) k) as [n|];
      destruct (dict.get String.eqb (loss_examples c) k) as [l|];
      try contradiction.
    + destruct Hc as [Hn Hl].
      destruct (List.length l <? 5)%nat eqn:H5.
      * apply Nat.ltb_lt in H5. rewrite length_app. simpl. lia.
      * apply Nat.ltb_ge in H5. lia.
    + simpl. lia.
  - assert (Hne : k <> k').
    { intros ->. rewrite String.eqb_refl in He. discriminate. }
    rewrite !string_get_set_other by exact Hne. apply Hc.
Qed.

Lemma fold_left_agrees {A : Type} (step : LossCounter -> A -> LossCounter)
      (xs : list A) (c : LossCounter) :
  (forall c0 x, counter_agrees c0 -> counter_agrees (step c0 x)) ->
  counter_agrees c -> counter_agrees (fold_left step xs c).
Proof.
  intros Hs. revert c; induction xs as [|x xs IH]; intros c Hc; simpl;
    [exact Hc|]. apply IH. now apply Hs.
Qed.

Lemma observe_event_agrees (p : plan) (c : LossCounter) (ev : Event F) :
  counter_agrees c -> counter_agrees (observe_event p c ev).
Proof.
  intros Hc. unfold observe_event.
  apply fold_left_agrees.
  { intros c0 pt H0. apply fold_left_agrees; [|exact H0].
    intros c1 pf H1.
    destruct (has_non_default (particle_getattr pt pf)); [|exact H1].
    now apply count_and_record_agrees. }
  apply fold_left_agrees.
  { intros c0 f H0.
    destruct (String.eqb f "weights"); [exact H0|].
    destruct (has_non_default (event_getattr ev f)); [|exact H0].
    now apply count_and_record_agrees. }
  match goal with
  | |- counter_agrees (if ?b then _ else _) => destruct b
  end; exact Hc.
Qed.

Lemma observe_all_agrees (p : plan) (c : LossCounter) (evs : list (Event F)) :
  counter_agrees c -> counter_agrees (observe_all p c evs).
Proof.
  unfold observe_all. revert c.
  induction evs as [|ev evs IH]; intros c Hc; simpl; [exact Hc|].
  apply IH. now apply observe_event_agrees.
Qed.

(** After any stream, every counted key has a count of at least one
    and exactly [min(count, 5)] stored examples. *)
Theorem observe_losses_examples (p : plan) (evs : list (Event F))
        (k : string) (n : Z) :
  dict.get String.eqb (dropped_fields (observe_all p new_counter evs)) k
  = Some n ->
  1 <= n /\
  exists l,
    dict.get String.eqb (loss_examples (observe_all p new_counter evs)) k
    = Some l /\
    Z.of_nat (List.length l) = Z.min n 5.
Proof.
  intros Hn.
  assert (H0 : counter_agrees new_counter) by (intros k'; exact I).
  pose proof (observe_all_agrees p new_counter evs H0 k) as H.
  rewrite Hn in H. unfold examples_agree in H.
  destruct (dict.get String.eqb (loss_examples (observe_all p new_counter evs)) k)
    as [l|]; [|contradiction].
  destruct H as [H1 H2]. split; [exact H1|]. exists l. split; [reflexivity|exact H2].
Qed.

Lemma fold_left_dropped_weights {A : Type} (step : LossCounter -> A -> LossCounter)
      (xs : list A) (c : LossCounter) :
  (forall c0 x, dropped_weights (step c0 x) = dropped_weights c0) ->
  dropped_weights (fold_left step xs c) = dropped_weights c.
Proof.
  intros Hs. revert c; induction xs as [|x xs IH]; intros c; simpl;
    [reflexivity|]. rewrite IH. apply Hs.
Qed.

Lemma observe_event_dropped_weights (p : plan) (c : LossCounter) (ev : Event F) :
  dropped_weights (observe_event p c ev)
  = dropped_weights c
    + (if mem_string "weights" (dropped_event_fields p)
          && (1 <? List.length (weights ev))%nat
       then 1 else 0).
Proof.
  unfold observe_event.
  rewrite fold_left_dropped_weights.
  2:{ intros c0 pt. apply fold_left_dropped_weights.
      intros c1 pf. destruct (has_non_default _); reflexivity. }
  rewrite fold_left_dropped_weights.
  2:{ intros c0 f. destruct (String.eqb f "weights"); [reflexivity|].
      destruct (has_non_default _); reflexivity. }
  destruct (mem_string "weights" (dropped_event_fields p)); simpl; [|lia].
  destruct (weights ev) as [|w [|w' ws]]; simpl; lia.
Qed.

(** [dropped_weights] counts the events with more than one weight when
    the plan drops the weights, and stays 0 otherwise. *)
Theorem observe_losses_dropped_weights (p : plan) (evs : list (Event F)) :
  dropped_weights (observe_all p new_counter evs)
  = if mem_string "weights" (dropped_event_fields p)
    then Z.of_nat
           (List.length
              (filter (fun ev => (1 <? List.length (weights ev))%nat) evs))
    else 0.
Proof.
  assert (H : forall c,
             dropped_weights (observe_all p c evs)
             = dropped_weights c
               + if mem_string "weights" (dropped_event_fields p)
                 then Z.of_nat
                        (List.length
                           (filter (fun ev => (1 <? List.length (weights ev))%nat)
                                   evs))
                 else 0).
  { unfold observe_all. induction evs as [|ev evs IH]; intros c; simpl.
    - destruct (mem_string _ _); lia.
    - rewrite IH, observe_event_dropped_weights.
      destruct (mem_string "weights" (dropped_event_fields p)); simpl; [|lia].
      destruct (1 <? List.length (weights ev))%nat; simpl; lia. }
  rewrite H. simpl. reflexivity.
Qed.

End CounterFacts.

Lemma loss_hash_key_order_witness :
  audit.loss_hash (audit.loss_plan "lhe" "hepmc3")
    {| audit.dropped_fields := [("event.scale", 1); ("event.process_id", 2)];
       audit.dropped_weights := 0;
       audit.dropped_runinfo_keys := [];
       audit.loss_examples := [] |}
  = audit.loss_hash (audit.loss_plan "lhe" "hepmc3")
      {| audit.dropped_fields := [("event.process_id", 2); ("event.scale", 1)];
         audit.dropped_weights := 0;
         audit.dropped_runinfo_keys := [];
         audit.loss_examples := [] |}.
Proof.
  apply (loss_hash_key_order (audit.loss_plan "lhe" "hepmc3")
           {| audit.dropped_fields := [("event.scale", 1); ("event.process_id", 2)];
              audit.dropped_weights := 0;
              audit.dropped_runinfo_keys := [];
              audit.loss_examples := [] |}
           {| audit.dropped_fields := [("event.process_id", 2); ("event.scale", 1)];
              audit.dropped_weights := 0;
              audit.dropped_runinfo_keys := [];
              audit.loss_examples := [] |}); simpl.
  - apply perm_swap.
  - constructor; [simpl; intros [H|[]]; discriminate H|].
    constructor; [simpl; tauto|constructor].
  - constructor.
  - constructor.
  - constructor.
  - constructor.
  - reflexivity.
Defined.

Lemma convert_loss_hash_consistent_witness :
  convert.report_loss_hash
    (convert.report
       (convert.convert (F := Q) "lhe" "parquet" [reader_fixtures.w_event]
          convert_fixtures.provenance_of))
  = convert.spec_loss_hash
      (convert.convert (F := Q) "lhe" "parquet" [reader_fixtures.w_event]
         convert_fixtures.provenance_of).
Proof.
  apply (convert_loss_hash_consistent "lhe" "parquet" [reader_fixtures.w_event]
           convert_fixtures.provenance_of); reflexivity.
Defined.

Lemma observe_losses_examples_witness :
  1 <= 3 /\
  exists l,
    dict.get String.eqb
      (audit.loss_examples
         (audit.observe_all (audit.loss_plan "lhe" "hepmc3") audit.new_counter
            [reader_fixtures.w_event]))
      "particle.mother1"
    = Some l /\
    Z.of_nat (List.length l) = Z.min 3 5.
Proof.
  apply (observe_losses_examples (audit.loss_plan "lhe" "hepmc3")
           [reader_fixtures.w_event] "particle.mother1" 3).
  vm_compute. reflexivity.
Defined.

(** ** More on the validator *)

Section ValidationMore.
Context {F : Type} {FM : FloatModel F}.
Import models validation validation_file.
Variable is_valid_pdg_id : Z -> bool.
Variable computed_mass : Particle F -> result F.

Lemma enumerate_from_in {A : Type} (k i : Z) (x : A) (xs : list A) :
  In (i, x) (enumerate_from k xs) <->
  k <= i /\ nth_error xs (Z.to_nat (i - k)) = Some x.
Proof.
  revert k; induction xs as [|y xs IH]; intros k; simpl.
  - split; [contradiction|]. intros [_ H].
    destruct (Z.to_nat (i - k)); discriminate.
  - rewrite IH. split.
    + intros [H|[Hk Hn]].
      * injection H as <- <-. split; [lia|]. rewrite Z.sub_diag. reflexivity.
      * split; [lia|].
        replace (Z.to_nat (i - k)) with (S (Z.to_nat (i - (k + 1)))) by lia.
        exact Hn.
    + intros [Hk Hn].
      destruct (Z.eq_dec i k) as [->|Hne].
      * left. replace (k - k) with 0 in Hn by lia. simpl in Hn.
        injection Hn as ->. reflexivity.
      * right. split; [lia|].
        replace (Z.to_nat (i - k)) with (S (Z.to_nat (i - (k + 1)))) in Hn by lia.
        exact Hn.
Qed.

Lemma energy_issues_exact (evt i : Z) (e : F) (ps : list (Particle F)) :
  reports_negative_energy (energy_issues evt ps) evt i e <->
  0 <= i /\
  exists p, nth_error ps (Z.to_nat i) = Some p /\ energy p = e /\
            fltb e (flit 0) = true.
Proof.
  unfold reports_negative_energy, energy_issues, enumerate.
  rewrite in_flat_map. split.
  - intros [[j p] [Hin Hi]].
    apply enumerate_from_in in Hin. destruct Hin as [Hj Hn].
    destruct (fltb (energy p) (flit 0)) eqn:Hneg; [|contradiction].
    destruct Hi as [[= <- <-]|[]].
    rewrite Z.sub_0_r in Hn. split; [exact Hj|]. exists p. auto.
  - intros [Hi [p [Hn [<- Hneg]]]].
    exists (i, p). split.
    + apply enumerate_from_in. rewrite Z.sub_0_r. auto.
    + rewrite Hneg. left. reflexivity.
Qed.

(** With the energy check enabled, [validate_event] either raises,
    which it does only when the mass check is enabled and
    [computed_mass] raised on a particle, or returns issues that report
    a negative energy [e] at index [i] exactly when the particle at
    index [i] has the energy [e] and [e < 0]. *)
Theorem validate_event_negative_energy (ev : Event F) (i : Z) (e : F)
        (check_momentum check_pdg check_mass : bool)
        (momentum_tolerance mass_tolerance : F) :
  match validate_event is_valid_pdg_id computed_mass ev check_momentum
                       check_pdg true check_mass momentum_tolerance
                       mass_tolerance with
  | Ok found =>
      reports_negative_energy found (event_number ev) i e
      <-> 0 <= i /\
          exists p, nth_error (particles ev) (Z.to_nat i) = Some p /\
                    energy p = e /\ fltb e (flit 0) = true
  | Raise x => mass_check_raises computed_mass ev check_mass x
  end.
Proof.
  destruct (validate_event _ _ ev _ _ true _ _ _) as [found|x] eqn:Hv;
    [|now apply validate_event_raised in Hv].
  destruct (particles ev) as [|p0 ps] eqn:Hps.
  - rewrite validate_event_empty in Hv by exact Hps. injection Hv as <-.
    unfold reports_negative_energy. split.
    + intros [H|[]]; discriminate H.
    + intros [_ [p [Hn _]]]. destruct (Z.to_nat i); discriminate Hn.
  - assert (Hne : particles ev <> []) by (rewrite Hps; discriminate).
    destruct (validate_event_returned _ _ _ _ _ _ _ _ _ _ Hne Hv)
      as [fm [Hm ->]].
    rewrite Hps in *. rewrite <- energy_issues_exact.
    unfold reports_negative_energy. rewrite !in_app_iff. split.
    + intros [H|[H|[H|H]]].
      * destruct check_pdg; [|contradiction].
        unfold pdg_issues in H. apply in_flat_map in H.
        destruct H as [[j q] [_ H]].
        destruct (negb (is_valid_pdg_id (pdg_id q))); [|contradiction].
        destruct H as [H|[]]; discriminate H.
      * exact H.
      * destruct check_mass; [|injection Hm as <-; contradiction].
        destruct (mass_loop_found _ _ _ _ _ _ Hm H) as (j & a & b & c & E).
        discriminate E.
      * destruct check_momentum; [|contradiction].
        unfold momentum_issues in H.
        match type of H with
        | In _ (if ?t then _ else _) => destruct t
        end; [|contradiction].
        apply in_flat_map in H. destruct H as [j [_ H]].
        match type of H with
        | In _ (if ?t then _ else _) => destruct t
        end; [|contradiction].
        destruct H as [H|[]]; discriminate H.
    + intros H. right. left. exact H.
Qed.

Lemma validate_event_levels (ev : Event F)
      (cm cp ce cs : bool) (mt st : F) (found : list ValidationIssue)
      (i : ValidationIssue) :
  validate_event is_valid_pdg_id computed_mass ev cm cp ce cs mt st = Ok found ->
  In i found ->
  level i = "error" \/ level i = "warning".
Proof.
  intros Hv.
  destruct (particles ev) as [|p0 ps] eqn:Hps.
  - rewrite validate_event_empty in Hv by exact Hps. injection Hv as <-.
    intros [<-|[]]. now right.
  - assert (Hne : particles ev <> []) by (rewrite Hps; discriminate).
    destruct (validate_event_returned _ _ _ _ _ _ _ _ _ _ Hne Hv)
      as [fm [Hm ->]].
    rewrite !in_app_iff. intros [H|[H|[H|H]]].
    + destruct cp; [|contradiction].
      unfold pdg_issues in H. apply in_flat_map in H.
      destruct H as [[j q] [_ H]].
      destruct (negb (is_valid_pdg_id (pdg_id q))); [|contradiction].
      destruct H as [<-|[]]. now right.
    + destruct ce; [|contradiction].
      unfold energy_issues in H. apply in_flat_map in H.
      destruct H as [[j q] [_ H]].
      destruct (fltb (energy q) (flit 0)); [|contradiction].
      destruct H as [<-|[]]. now left.
    + destruct cs; [|injection Hm as <-; contradiction].
      destruct (mass_loop_found _ _ _ _ _ _ Hm H) as (j & a & b & c & ->).
      now right.
    + destruct cm; [|contradiction].
      unfold momentum_issues in H.
      match type of H with
      | In _ (if ?t then _ else _) => destruct t
      end; [|contradiction].
      apply in_flat_map in H. destruct H as [j [_ H]].
      match type of H with
      | In _ (if ?t then _ else _) => destruct t
      end; [|contradiction].
      destruct H as [<-|[]]. now left.
Qed.

Lemma count_levels (l : list (ValidationIssue (F := F))) :
  (forall i, In i l -> level i = "error" \/ level i = "warning") ->
  (List.length (filter (fun i => String.eqb (level i) "error") l)
   + List.length (filter (fun i => String.eqb (level i) "warning") l)
   = List.length l)%nat.
Proof.
  induction l as [|x l IH]; intros H; simpl; [reflexivity|].
  assert (IH' := IH (fun i Hi => H i (or_intror Hi))).
  destruct (H x (or_introl eq_refl)) as [-> | ->]; simpl; lia.
Qed.

Lemma validate_from_levels (cm cp ce cs : bool) (mt st : F) (max_events : Z)
      (k : Z) (evs : list (Event F)) (found : list ValidationIssue)
      (i : ValidationIssue) :
  validate_from is_valid_pdg_id computed_mass cm cp ce cs mt st
                max_events k evs = Ok found ->
  In i found ->
  level i = "error" \/ level i = "warning".
Proof.
  revert k found; induction evs as [|ev evs IH]; intros k found;
    cbn [validate_from].
  - intros [= <-] [].
  - destruct (past_limit max_events k); [intros [= <-] []|].
    unfold check.
    destruct (validate_event _ _ ev _ _ _ _ _ _) as [f|] eqn:Hv;
      cbn [bind]; [|discriminate].
    destruct (validate_from _ _ _ _ _ _ _ _ _ (k + 1) evs) as [more|] eqn:Hm;
      cbn [bind]; [|discriminate].
    intros [= <-] Hin. apply in_app_or in Hin. destruct Hin as [Hin|Hin].
    + eapply validate_event_levels; eauto.
    + eapply IH; eauto.
Qed.

(** Every issue of a report that [validate] returns is an error or a
    warning, so the two counts of the report add up to the number of
    its issues. *)
Theorem validate_counts (cm cp ce cs : bool) (mt st : F) (max_events : Z)
        (evs : list (Event F)) (r : ValidationReport) :
  validate is_valid_pdg_id computed_mass cm cp ce cs mt st max_events evs
  = Ok r ->
  (n_errors r + n_warnings r = List.length (issues r))%nat.
Proof.
  unfold validate.
  destruct (validate_from _ _ _ _ _ _ _ _ _ 0 evs) as [found|] eqn:Hv;
    cbn [bind]; [|discriminate].
  intros [= <-]. unfold n_errors, n_warnings. cbn [issues].
  apply count_levels. intros i Hi.
  eapply validate_from_levels; eauto.
Qed.

End ValidationMore.

Section StreamFacts.
Context {F : Type} {FM : FloatModel F}.
Import models validation validation_file.
Variable is_valid_pdg_id : Z -> bool.
Variable computed_mass : Particle F -> result F.
Variable render : ValidationIssue (F := F) -> string.
Variables cm cp ce cs : bool.
Variables mt st : F.
Variable max_events : Z.

Local Abbreviation check' :=
  (check is_valid_pdg_id computed_mass cm cp ce cs mt st).
Local Abbreviation stream_from :=
  (validate_stream_from is_valid_pdg_id computed_mass render cm cp ce cs mt st
                        max_events).
Local Abbreviation issues_from :=
  (validate_from is_valid_pdg_id computed_mass cm cp ce cs mt st max_events).

(** The events the limit lets through from index [k] on. *)
Let limit_from (k : Z) (evs : list (Event F)) : list (Event F) :=
  if max_events <? 0 then evs else firstn (Z.to_nat (max_events - k)) evs.

(** An event with the issues found on it, as yielded. *)
Let yielded (c : Event F * list (ValidationIssue (F := F))) : Event F :=
  annotate render (fst c) (snd c).

Lemma past_limit_false (k : Z) :
  0 <= k -> max_events < 0 \/ k < max_events -> past_limit max_events k = false.
Proof.
  intros Hk H. unfold past_limit.
  destruct (Z.leb_spec 0 max_events); simpl; [|reflexivity].
  apply Z.leb_gt. lia.
Qed.

Lemma limit_from_nil (k : Z) : limit_from k [] = [].
Proof.
  unfold limit_from. destruct (max_events <? 0); [reflexivity|].
  apply firstn_nil.
Qed.

Lemma limit_from_cons (k : Z) (ev : Event F) (evs : list (Event F)) :
  0 <= k -> max_events < 0 \/ k < max_events ->
  limit_from k (ev :: evs) = ev :: limit_from (k + 1) evs.
Proof.
  intros Hk H. unfold limit_from.
  destruct (max_events <? 0) eqn:Hm; [reflexivity|].
  apply Z.ltb_ge in Hm.
  replace (Z.to_nat (max_events - k))
    with (S (Z.to_nat (max_events - (k + 1)))) by lia.
  reflexivity.
Qed.

Lemma limit_from_stop (k : Z) (evs : list (Event F)) :
  past_limit max_events k = true -> limit_from k evs = [].
Proof.
  unfold past_limit, limit_from. intros H.
  apply andb_true_iff in H. destruct H as [H1 H2].
  apply Z.leb_le in H1, H2.
  replace (max_events <? 0) with false by (symmetry; apply Z.ltb_ge; lia).
  replace (max_events - k) with (- (k - max_events)) by lia.
  destruct (k - max_events) eqn:E; try lia; reflexivity.
Qed.

Lemma past_limit_cases (k : Z) :
  0 <= k ->
  past_limit max_events k = true \/ (max_events < 0 \/ k < max_events).
Proof.
  intros Hk. unfold past_limit.
  destruct (Z.leb_spec 0 max_events); simpl; [|right; left; lia].
  destruct (Z.leb_spec max_events k); [now left|right; right; lia].
Qed.

Lemma limit_from_0 (evs : list (Event F)) :
  limit_from 0 evs = within_limit max_events evs.
Proof. unfold limit_from, within_limit. now rewrite Z.sub_0_r. Qed.

Lemma validate_from_limit (k : Z) (evs : list (Event F))
      (found : list (ValidationIssue (F := F))) :
  0 <= k ->
  issues_from k evs = Ok found
  <-> exists per_event,
        Forall2 (fun ev f => check' ev = Ok f) (limit_from k evs) per_event /\
        found = List.concat per_event.
Proof.
  revert k found; induction evs as [|ev evs IH]; intros k found Hk.
  - cbn [validate_from]. rewrite limit_from_nil. split.
    + intros [= <-]. exists []. split; [constructor|reflexivity].
    + intros [per [H ->]]. inversion H. reflexivity.
  - cbn [validate_from].
    destruct (past_limit_cases k Hk) as [Hstop|Hgo].
    + rewrite Hstop, (limit_from_stop k _ Hstop). split.
      * intros [= <-]. exists []. split; [constructor|reflexivity].
      * intros [per [H ->]]. inversion H. reflexivity.
    + rewrite (past_limit_false k Hk Hgo), (limit_from_cons k ev evs Hk Hgo).
      split.
      * destruct (check' ev) as [f|] eqn:Hc; cbn [bind]; [|discriminate].
        destruct (issues_from (k + 1) evs) as [more|] eqn:Hm; cbn [bind];
          [|discriminate].
        intros [= <-].
        destruct (proj1 (IH (k + 1) more ltac:(lia)) Hm) as [per [Hper ->]].
        exists (f :: per). split; [now constructor|reflexivity].
      * intros [per [H ->]].
        inversion H as [|? f ? per' Hf Hrest]; subst.
        rewrite Hf. cbn [bind].
        rewrite (proj2 (IH (k + 1) (List.concat per') ltac:(lia)))
          by (exists per'; now split).
        reflexivity.
Qed.

(** [validate] returns a report exactly when [validate_event] returns
    on each of the first [max_events] events (on all events when
    [max_events] is negative); the report then holds their issues, in
    the order of the events. *)
Theorem validate_within_limit (evs : list (Event F)) (r : ValidationReport) :
  validate is_valid_pdg_id computed_mass cm cp ce cs mt st max_events evs
  = Ok r
  <-> exists per_event,
        Forall2 (fun ev found => check' ev = Ok found)
                (within_limit max_events evs) per_event /\
        issues r = List.concat per_event.
Proof.
  unfold validate. rewrite <- limit_from_0. split.
  - destruct (issues_from 0 evs) as [found|] eqn:Hv; cbn [bind];
      [|discriminate].
    intros [= <-]. cbn [issues].
    now apply (validate_from_limit 0 evs found).
  - intros [per [Hper Hr]].
    rewrite (proj2 (validate_from_limit 0 evs (List.concat per) ltac:(lia)))
      by (exists per; now split).
    cbn [bind]. destruct r as [found]. cbn [issues] in Hr. now subst.
Qed.



Lemma stream_strict_from (k : Z) (evs : list (Event F)) :
  0 <= k ->
  exists checked,
    fst (stream_from true k evs) = map yielded checked /\
    Forall (fun c => check' (fst c) = Ok (snd c) /\ errors_of (snd c) = [])
           checked /\
    match snd (stream_from true k evs) with
    | None => map fst checked = limit_from k evs
    | Some e =>
        exists ev rest,
          limit_from k evs = (map fst checked ++ ev :: rest)%list /\
          match check' ev with
          | Ok found =>
              exists first others,
                errors_of found = first :: others /\
                e = ValueError (render first)
          | Raise x => e = x
          end
    end.
Proof.
  revert k; induction evs as [|ev evs IH]; intros k Hk.
  - exists []. cbn. rewrite limit_from_nil. repeat split. constructor.
  - cbn [validate_stream_from].
    destruct (past_limit_cases k Hk) as [Hstop|Hgo].
    + rewrite Hstop, (limit_from_stop k _ Hstop).
      exists []. cbn. repeat split. constructor.
    + rewrite (past_limit_false k Hk Hgo), (limit_from_cons k ev evs Hk Hgo).
      destruct (check' ev) as [found|e] eqn:Hc.
      * destruct (errors_of found) as [|first others] eqn:He.
        -- destruct (IH (k + 1) ltac:(lia)) as (checked & H1 & H2 & H3).
           exists ((ev, found) :: checked).
           destruct (stream_from true (k + 1) evs) as [ys e].
           cbn [fst snd map] in *.
           split; [now rewrite H1|]. split; [now constructor|].
           destruct e as [e|].
           ++ destruct H3 as (ev' & rest & Hl & Hr).
              exists ev', rest. split; [|exact Hr].
              rewrite Hl. reflexivity.
           ++ now rewrite H3.
        -- exists []. cbn. split; [reflexivity|]. split; [constructor|].
           exists ev, (limit_from (k + 1) evs). split; [reflexivity|].
           rewrite Hc. exists first, others. now split.
      * exists []. cbn. split; [reflexivity|]. split; [constructor|].
        exists ev, (limit_from (k + 1) evs). split; [reflexivity|].
        now rewrite Hc.
Qed.

(** With [strict], the stream yields, annotated, the events within the
    limit that come before the first one on which [validate_event]
    raises or finds an error; it ends without an exception when there is
    none, and otherwise with the exception of [validate_event] or with
    the [ValueError] that carries the first error of that event. *)
Theorem validate_stream_strict (evs : list (Event F)) :
  let out := validate_stream is_valid_pdg_id computed_mass render cm cp ce cs
                             mt st max_events true evs in
  exists checked,
    fst out = map (fun c => annotate render (fst c) (snd c)) checked /\
    Forall (fun c => check' (fst c) = Ok (snd c) /\ errors_of (snd c) = [])
           checked /\
    match snd out with
    | None => map fst checked = within_limit max_events evs
    | Some e =>
        exists ev rest,
          within_limit max_events evs = (map fst checked ++ ev :: rest)%list /\
          match check' ev with
          | Ok found =>
              exists first others,
                errors_of found = first :: others /\
                e = ValueError (render first)
          | Raise x => e = x
          end
    end.
Proof.
  cbv zeta. unfold validate_stream. rewrite <- limit_from_0.
  exact (stream_strict_from 0 evs ltac:(lia)).
Qed.

End StreamFacts.

(** ** Balanced events (double precision) *)

Section BalancedFacts.
Import models validation.

(** The difference of two doubles that compare equal is a zero or, for
    two infinities, not a number. *)
Lemma SFsub_equal (a b : spec_float) :
  SFeqb a b = true ->
  SFabs (SFsub prec emax a b) = S754_zero false \/
  SFabs (SFsub prec emax a b) = S754_nan.
Proof.
  unfold SFeqb.
  destruct a as [sa|sa| |sa ma ea], b as [sb|sb| |sb mb eb];
    cbn [SFcompare];
    try discriminate;
    try (destruct sa; discriminate);
    try (destruct sb; discriminate).
  - intros _. left. destruct sa, sb; reflexivity.
  - destruct sa, sb; try discriminate; intros _; right; reflexivity.
  - intros H. left.
    assert (E : sa = sb /\ ea = eb /\ ma = mb).
    { destruct sa, sb; try discriminate;
        destruct (Z.compare_spec ea eb) as [He|He|He]; try discriminate;
        change (PosDef.Pos.compare_cont Eq ma mb) with (Pos.compare ma mb) in H;
        destruct (Pos.compare_spec ma mb) as [Hm|Hm|Hm]; try discriminate;
        now repeat split. }
    destruct E as (-> & -> & ->).
    unfold SFsub. cbv zeta. rewrite Z.sub_diag. reflexivity.
Qed.

Lemma no_violation_when_balanced (a b t tol : float) :
  PrimFloat.eqb a b = true ->
  PrimFloat.leb (Binary64.lit 0) tol = true ->
  fgtb (fdiv (fabs (fsub a b)) t) tol = false.
Proof.
  intros Hab Htol. unfold fgtb.
  cbn [fltb fdiv fabs fsub Binary64Model].
  rewrite FloatAxioms.eqb_spec in Hab.
  rewrite FloatAxioms.leb_spec in Htol.
  rewrite FloatAxioms.ltb_spec, FloatAxioms.div_spec, FloatAxioms.abs_spec,
    FloatAxioms.sub_spec.
  change (Prim2SF (Binary64.lit 0)) with (S754_zero false) in Htol.
  unfold SF64div, SF64sub.
  unfold SFleb in Htol. unfold SFltb.
  destruct (SFsub_equal _ _ Hab) as [-> | ->].
  - destruct (Prim2SF t) as [s|s| |s m e],
             (Prim2SF tol) as [s'|s'| |s' m' e'];
      cbn [SFdiv SFcompare xorb] in *; try reflexivity; try discriminate;
      destruct s'; try reflexivity; discriminate.
  - destruct (Prim2SF tol); reflexivity.
Qed.

(** In double precision, an event whose incoming and outgoing sums, as
    the validator computes them, compare equal in every component gets
    no momentum error, for every tolerance that is not negative. *)
Theorem validate_event_balanced (is_valid_pdg_id : Z -> bool)
        (computed_mass : Particle float -> result float) (ev : Event float)
        (k : component)
        (check_momentum check_pdg check_energy check_mass : bool)
        (momentum_tolerance mass_tolerance : float)
        (found : list ValidationIssue) :
  fleb (flit 0) momentum_tolerance = true ->
  (forall c, feqb (sum_component c (incoming_particles ev))
                  (sum_component c (final_particles ev)) = true) ->
  validate_event is_valid_pdg_id computed_mass ev check_momentum check_pdg
                 check_energy check_mass momentum_tolerance mass_tolerance
  = Ok found ->
  ~ momentum_error_for k found.
Proof.
  intros Htol Hbal Hv [i [Hin (Hl & Hp & a & b & d & r & Hm)]].
  assert (Hmom : is_momentum_error k i).
  { split; [exact Hl|split; [exact Hp|]]. exists a, b, d, r. exact Hm. }
  destruct (particles ev) as [|p0 ps] eqn:Hps.
  { rewrite validate_event_empty in Hv by exact Hps. injection Hv as <-.
    destruct Hin as [<-|[]]. discriminate Hm. }
  assert (Hne : particles ev <> []) by (rewrite Hps; discriminate).
  destruct (validate_event_returned _ _ _ _ _ _ _ _ _ _ Hne Hv)
    as [fm [Hfm ->]].
  apply in_app_or in Hin. destruct Hin as [Hin|Hin].
  { destruct check_pdg; [|contradiction].
    exact (pdg_issues_no_momentum is_valid_pdg_id k _ _ _ Hin Hmom). }
  apply in_app_or in Hin. destruct Hin as [Hin|Hin].
  { destruct check_energy; [|contradiction].
    exact (energy_issues_no_momentum k _ _ _ Hin Hmom). }
  apply in_app_or in Hin. destruct Hin as [Hin|Hin].
  { destruct check_mass; [|injection Hfm as <-; contradiction].
    exact (mass_issues_no_momentum computed_mass k _ _ _ _ _ Hfm Hin Hmom). }
  destruct check_momentum; [|contradiction].
  unfold momentum_issues in Hin.
  change (fun p : Particle float => (status p =? -1)%Z)
    with (@is_incoming float) in Hin.
  change (fun p : Particle float => (status p =? 1)%Z)
    with (@is_final float) in Hin.
  fold (incoming_particles ev) (final_particles ev) in Hin.
  destruct (truthy (incoming_particles ev) && truthy (final_particles ev));
    [|contradiction].
  apply in_flat_map in Hin. destruct Hin as [j [_ Hin]].
  rewrite (no_violation_when_balanced _ _ _ _ (Hbal j) Htol) in Hin.
  contradiction.
Qed.

End BalancedFacts.

Lemma validate_counts_witness :
  exists r,
    validation_file.validate fixtures.pdg_always_valid
      fixtures.no_computed_mass true true true true (1 # 10000)%Q (1 # 100)%Q
      (-1) [fixtures.unbalanced_event; reader_fixtures.w_event] = Ok r /\
    (validation_file.n_errors r + validation_file.n_warnings r
     = List.length (validation_file.issues r))%nat.
Proof.
  eexists. split; [vm_compute; reflexivity|].
  apply (validate_counts fixtures.pdg_always_valid fixtures.no_computed_mass
           true true true true (1 # 10000)%Q (1 # 100)%Q (-1)
           [fixtures.unbalanced_event; reader_fixtures.w_event]).
  vm_compute. reflexivity.
Defined.

Lemma validate_event_balanced_witness :
  exists found,
    validation.validate_event fixtures.pdg_always_valid
      (fun _ => Ok (flit 0)) fixtures.balanced_event64 true true true true
      (flit (1 # 10000)) (flit (1 # 100)) = Ok found /\
    ~ validation.momentum_error_for models.Pz found.
Proof.
  eexists. split; [vm_compute; reflexivity|].
  apply (validate_event_balanced fixtures.pdg_always_valid
           (fun _ => Ok (flit 0)) fixtures.balanced_event64 models.Pz
           true true true true (flit (1 # 10000)) (flit (1 # 100))).
  - vm_compute. reflexivity.
  - intros c. destruct c; vm_compute; reflexivity.
  - vm_compute. reflexivity.
Defined.

(** The mass check on components whose square is out of range: the
    exception of [computed_mass] comes out of the validator, of the file
    validation and of the stream, strict or not. *)
Example validate_event_overflow :
  validation.validate_event fixtures.pdg_always_valid
    fixtures.overflowing_mass reader_fixtures.w_event true true true true
    (1 # 10000)%Q (1 # 100)%Q
  = Raise (OverflowError "(34, 'Numerical result out of range')") /\
  validation_file.validate fixtures.pdg_always_valid
    fixtures.overflowing_mass true true true true (1 # 10000)%Q (1 # 100)%Q
    (-1) [fixtures.two_photons; reader_fixtures.w_event]
  = Raise (OverflowError "(34, 'Numerical result out of range')") /\
  validation_file.validate_stream fixtures.pdg_always_valid
    fixtures.overflowing_mass (fun _ => "issue") true true true true
    (1 # 10000)%Q (1 # 100)%Q (-1) false
    [fixtures.two_photons; reader_fixtures.w_event]
  = ([fixtures.two_photons],
     Some (OverflowError "(34, 'Numerical result out of range')")).
Proof. repeat split; vm_compute; reflexivity. Qed.

(** ** The filter validator: what an accepted filter is made of *)

Section FilteringMore.
Import ast filtering.

Lemma descendant_trans (a b c : node) :
  descendant a b -> descendant b c -> descendant a c.
Proof.
  induction 1 as [n|n ch m Hch _ IH]; intros Hc; [exact Hc|].
  eapply desc_child; [exact Hch|]. now apply IH.
Qed.

Lemma descendant_child (n c : node) :
  List.In c (iter_child_nodes n) -> descendant n c.
Proof. intros H. eapply desc_child; [exact H|apply desc_self]. Qed.

(** The walk yields nodes of the tree only. *)
Lemma walk_queue_sound (fuel : nat) :
  forall (todo : list node) (m : node),
    List.In m (walk_queue fuel todo) ->
    exists n, List.In n todo /\ descendant n m.
Proof.
  induction fuel as [|fuel IH]; intros todo m Hin; [contradiction|].
  destruct todo as [|x rest]; [contradiction|].
  simpl in Hin. destruct Hin as [<-|Hin].
  - exists x. split; [now left|apply desc_self].
  - destruct (IH _ _ Hin) as [n [Hn Hd]].
    apply in_app_or in Hn. destruct Hn as [Hn|Hn].
    + exists n. split; [now right|exact Hd].
    + exists x. split; [now left|]. eapply desc_child; eauto.
Qed.

Lemma walk_sound (tree m : node) :
  List.In m (walk tree) -> descendant tree m.
Proof.
  intros Hin. destruct (walk_queue_sound _ _ _ Hin) as [n [[<-|[]] Hd]].
  exact Hd.
Qed.

Lemma check_nodes_ok (ns : list node) :
  check_nodes ns = Ok tt <-> forall m, List.In m ns -> check_node m = Ok tt.
Proof.
  induction ns as [|n ns IH]; simpl.
  - split; [intros _ m []|reflexivity].
  - destruct (check_node n) as [[]|e] eqn:Hn; simpl.
    + rewrite IH. split.
      * intros H m [<-|Hm]; [exact Hn|now apply H].
      * intros H m Hm. apply H. now right.
    + split; [discriminate|].
      intros H. specialize (H n (or_introl eq_refl)). congruence.
Qed.

Lemma validate_ast_ok (tree : node) :
  _validate_ast tree = Ok tt
  <-> forall m, descendant tree m -> check_node m = Ok tt.
Proof.
  unfold _validate_ast. rewrite check_nodes_ok. split.
  - intros H m Hd. apply H. now apply walk_complete.
  - intros H m Hin. apply H. now apply walk_sound.
Qed.

(** [compile_filter] accepts a text exactly when the text parses and
    every node of its tree passes the three checks of the validator's
    loop; the compiled filter then holds the text and the parsed tree. *)
Theorem compile_filter_accepts_iff (parse : string -> parse_outcome)
        (src : string) (cf : CompiledFilter) :
  compile_filter parse src = Ok cf
  <-> exists body,
        parse src = Tree body /\ cf = mkCompiledFilter src body /\
        forall m, descendant (NExpression body) m -> check_node m = Ok tt.
Proof.
  unfold compile_filter. destruct (parse src) as [msg|body|ex].
  - split; [discriminate|]. intros [b [Hb _]]. discriminate.
  - destruct (_validate_ast (NExpression body)) as [[]|e] eqn:Hv; simpl.
    + split.
      * intros [= <-]. exists body. repeat split.
        now apply validate_ast_ok.
      * intros [b [[= <-] [-> _]]]. reflexivity.
    + split; [discriminate|].
      intros [b [[= <-] [_ H]]]. apply validate_ast_ok in H. congruence.
  - split; [discriminate|]. intros [b [Hb _]]. discriminate.
Qed.

Lemma allowed_of_ok (n : node) :
  check_node n = Ok tt -> allowed_node n = true.
Proof.
  unfold check_node. destruct (allowed_node n); [reflexivity|discriminate].
Qed.

Import filtering_notions.

Lemma in_string_list (s : string) (l : list string) :
  mem_string s l = true -> List.In s l.
Proof.
  unfold mem_string. rewrite existsb_exists.
  intros [x [Hx He]]. apply String.eqb_eq in He. now subst.
Qed.

Lemma ok_expr_plain (body e : ast.expr) :
  (forall m, descendant (NExpression body) m -> check_node m = Ok tt) ->
  contains body e -> plain e.
Proof.
  intros Hall Hc. unfold contains in Hc.
  assert (Hsub : forall m, descendant (NExpr e) m -> check_node m = Ok tt).
  { intros m Hm. apply Hall. eapply descendant_trans; eauto. }
  assert (Hch : forall c, List.In c (iter_child_nodes (NExpr e)) ->
                          allowed_node c = true).
  { intros c Hin. apply allowed_of_ok, Hsub. now apply descendant_child. }
  pose proof (Hsub _ (desc_self _)) as He.
  pose proof (allowed_of_ok _ He) as Ha.
  destruct e; try discriminate Ha; simpl.
  - exact I.
  - specialize (Hch (NOperator op)). simpl in Hch.
    specialize (Hch (or_intror (or_introl eq_refl))).
    destruct op; try discriminate Hch; simpl; tauto.
  - specialize (Hch (NUnaryop op) (or_introl eq_refl)).
    destruct op; try discriminate Hch; simpl; tauto.
  - apply Forall_forall. intros o Ho.
    assert (Hin : List.In (NCmpop o) (iter_child_nodes (NExpr (Compare e ops comparators)))).
    { simpl. right. apply in_or_app. left. now apply in_map. }
    specialize (Hch _ Hin).
    destruct o; try discriminate Hch; simpl; tauto.
  - split.
    + destruct keywords as [|kw kws]; [reflexivity|].
      assert (Hin : List.In (NKeyword (fst kw) (snd kw))
                      (iter_child_nodes (NExpr (Call e args (kw :: kws))))).
      { simpl. right. apply in_or_app. right. now left. }
      specialize (Hch _ Hin). discriminate Hch.
    + unfold check_node in He; cbn [allowed_node negb] in He.
      destruct e; try discriminate He.
      destruct (mem_string id ALLOWED_FUNCS) eqn:Hid; [|discriminate He].
      exists id. split; [|exact (in_string_list _ _ Hid)].
      assert (Hctx : check_node (NContext ctx) = Ok tt).
      { apply Hsub. eapply desc_child; [now left|].
        apply descendant_child. now left. }
      apply allowed_of_ok in Hctx. destruct ctx; try discriminate Hctx.
      reflexivity.
  - exact I.
  - split.
    + specialize (Hch (NContext ctx) (or_introl eq_refl)).
      destruct ctx; try discriminate Hch. reflexivity.
    + unfold check_node in He; cbn [allowed_node negb] in He.
      destruct (Py.startswith id "__"); [discriminate He|reflexivity].
Qed.

(** In a filter that [compile_filter] accepts, every expression node is
    a boolean, arithmetic or comparison operation with one of the listed
    operators, a constant, a name in load position that does not begin
    with two underscores, or a call without keyword arguments of one of
    the seven listed functions by its bare name. *)
Theorem compile_filter_accepted_plain (parse : string -> parse_outcome)
        (src : string) (cf : CompiledFilter) (e : ast.expr) :
  compile_filter parse src = Ok cf ->
  contains (tree cf) e ->
  plain e.
Proof.
  intros Hc He.
  assert (Hx : exists body,
             parse src = Tree body /\ cf = mkCompiledFilter src body /\
             forall m, descendant (NExpression body) m -> check_node m = Ok tt).
  { unfold compile_filter in Hc. destruct (parse src) as [msg|body|ex];
      [discriminate| |discriminate].
    destruct (_validate_ast (NExpression body)) as [[]|x] eqn:Hv;
      [|discriminate].
    simpl in Hc. injection Hc as <-. exists body. repeat split.
    now apply validate_ast_ok. }
  destruct Hx as [body [_ [-> Hall]]]. simpl in He.
  eapply ok_expr_plain; eauto.
Qed.

End FilteringMore.

Lemma compile_filter_accepted_plain_witness :
  filtering_notions.plain (ast.Name "ht" ast.Load).
Proof.
  apply (compile_filter_accepted_plain filter_fixtures.parse
           filter_fixtures.leptons_text
           (filtering.mkCompiledFilter filter_fixtures.leptons_text
              filter_fixtures.leptons_tree)).
  - reflexivity.
  - unfold filtering.contains. simpl.
    eapply filtering.desc_child; [left; reflexivity|].
    eapply filtering.desc_child; [right; right; left; reflexivity|].
    eapply filtering.desc_child; [left; reflexivity|].
    apply filtering.desc_self.
Defined.

(** ** Strings: tokens, [split], [strip], [int] and [str] *)

Section PyFacts.
Import textio.

Lemma append_nil_r (s : string) : s ++ EmptyString = s.
Proof. induction s; simpl; [reflexivity|now rewrite IHs]. Qed.

Lemma append_assoc (a b c : string) : (a ++ b) ++ c = a ++ b ++ c.
Proof. induction a; simpl; [reflexivity|now rewrite IHa]. Qed.

Lemma rev_string_app (a b acc : string) :
  Py.rev_string (a ++ b) acc = Py.rev_string b (Py.rev_string a acc).
Proof. revert acc; induction a; intros acc; simpl; [reflexivity|apply IHa]. Qed.

Lemma rev_string_rev (s a b : string) :
  Py.rev_string (Py.rev_string s a) b = Py.rev_string a (s ++ b).
Proof.
  revert a; induction s as [|c s IH]; intros a; simpl; [reflexivity|].
  rewrite IH. reflexivity.
Qed.

Lemma rev_string_involutive (s : string) :
  Py.rev_string (Py.rev_string s EmptyString) EmptyString = s.
Proof. rewrite rev_string_rev. simpl. apply append_nil_r. Qed.

Lemma rev_string_nonempty (s acc : string) :
  Py.is_empty acc = false -> Py.is_empty (Py.rev_string s acc) = false.
Proof.
  revert acc; induction s as [|c s IH]; intros acc H; simpl; [exact H|].
  now apply IH.
Qed.

Lemma all_chars_app (f : ascii -> bool) (a b : string) :
  all_chars f (a ++ b) = all_chars f a && all_chars f b.
Proof.
  induction a as [|c a IH]; simpl; [reflexivity|].
  rewrite IH. now rewrite andb_assoc.
Qed.

Lemma all_chars_weaken (f g : ascii -> bool) (s : string) :
  (forall c, f c = true -> g c = true) ->
  all_chars f s = true -> all_chars g s = true.
Proof.
  intros Hfg. induction s as [|c s IH]; simpl; [reflexivity|].
  intros H. apply andb_true_iff in H. destruct H as [H1 H2].
  rewrite (Hfg _ H1). now apply IH.
Qed.

Lemma is_token_inv (s : string) :
  is_token s = true ->
  Py.is_empty s = false /\
  all_chars (fun c => negb (Py.is_space c)) s = true.
Proof.
  unfold is_token. intros H. apply andb_true_iff in H. destruct H as [H1 H2].
  split; [|exact H2]. now destruct (Py.is_empty s).
Qed.

(** *** [split] *)

Lemma split_aux_solid (t rest cur : string) :
  all_chars (fun c => negb (Py.is_space c)) t = true ->
  Py.split_aux (t ++ rest) cur = Py.split_aux rest (Py.rev_string t cur).
Proof.
  revert cur; induction t as [|c t IH]; intros cur H; simpl; [reflexivity|].
  simpl in H. apply andb_true_iff in H. destruct H as [Hc Ht].
  destruct (Py.is_space c); [discriminate|]. now apply IH.
Qed.

Lemma split_aux_token (t rest : string) :
  is_token t = true ->
  Py.split_aux (t ++ String " "%char rest) EmptyString
  = t :: Py.split_aux rest EmptyString.
Proof.
  intros H. apply is_token_inv in H. destruct H as [Hne Hs].
  rewrite split_aux_solid by exact Hs. simpl.
  destruct t as [|c t]; [discriminate|]. simpl.
  pose proof (rev_string_nonempty t (String c EmptyString) eq_refl) as Hn.
  pose proof (rev_string_rev t (String c EmptyString) EmptyString) as Hr.
  destruct (Py.rev_string t (String c EmptyString)); [discriminate|].
  rewrite Hr. simpl. now rewrite append_nil_r.
Qed.

Lemma split_aux_last (t : string) (ws : string) :
  is_token t = true ->
  all_chars Py.is_space ws = true ->
  Py.split_aux (t ++ ws) EmptyString = [t].
Proof.
  intros H Hws. apply is_token_inv in H. destruct H as [Hne Hs].
  rewrite split_aux_solid by exact Hs.
  destruct t as [|c t]; [discriminate|]. simpl.
  pose proof (rev_string_nonempty t (String c EmptyString) eq_refl) as Hn.
  pose proof (rev_string_rev t (String c EmptyString) EmptyString) as Hr.
  simpl in Hr. rewrite append_nil_r in Hr.
  induction ws as [|w ws IH]; simpl.
  - destruct (Py.rev_string t (String c EmptyString)); [discriminate|].
    now rewrite Hr.
  - simpl in Hws. apply andb_true_iff in Hws. destruct Hws as [Hw Hws].
    rewrite Hw.
    destruct (Py.rev_string t (String c EmptyString)) eqn:E; [discriminate|].
    rewrite Hr. f_equal.
    clear - Hws. induction ws as [|w' ws IH]; simpl; [reflexivity|].
    simpl in Hws. apply andb_true_iff in Hws. destruct Hws as [Hw Hws].
    rewrite Hw. now apply IH.
Qed.

(** Splitting the tokens joined by single blanks gives the tokens back. *)
Lemma split_join (toks : list string) :
  forallb is_token toks = true ->
  Py.split (Py.join " " toks) = toks.
Proof.
  unfold Py.split, Py.join.
  induction toks as [|t ts IH]; intros H; [reflexivity|].
  simpl in H. apply andb_true_iff in H. destruct H as [Ht Hts].
  destruct ts as [|t' ts].
  - simpl. rewrite <- (append_nil_r t) at 1.
    now apply split_aux_last.
  - change (String.concat " " (t :: t' :: ts))
      with (t ++ String " "%char (String.concat " " (t' :: ts))).
    rewrite split_aux_token by exact Ht. f_equal. now apply IH.
Qed.

(** *** [strip] *)

Lemma lstrip_solid (s : string) :
  match s with
  | EmptyString => True
  | String c _ => Py.is_space c = false
  end ->
  Py.lstrip s = s.
Proof. destruct s as [|c s]; simpl; [reflexivity|]. now intros ->. Qed.

Lemma ends_solid_token (t : string) : is_token t = true -> ends_solid t.
Proof.
  intros H. apply is_token_inv in H. destruct H as [Hne Hs].
  destruct t as [|c t]; [discriminate|]. clear Hne.
  revert c Hs; induction t as [|d t IH]; intros c Hs.
  - exists EmptyString, c. split; [reflexivity|].
    simpl in Hs. now destruct (Py.is_space c).
  - simpl in Hs. apply andb_true_iff in Hs. destruct Hs as [_ Hs].
    destruct (IH d Hs) as [s' [e [He Hsp]]].
    exists (String c s'), e. split; [|exact Hsp]. simpl. now rewrite He.
Qed.

Lemma ends_solid_app (a b : string) : ends_solid b -> ends_solid (a ++ b).
Proof.
  intros [s' [c [-> H]]]. exists (a ++ s'), c.
  split; [|exact H]. now rewrite append_assoc.
Qed.

Lemma rstrip_solid (s ws : string) :
  ends_solid s -> all_chars Py.is_space ws = true ->
  Py.rstrip (s ++ ws) = s.
Proof.
  intros [s' [c [-> Hc]]] Hws. unfold Py.rstrip.
  rewrite !rev_string_app. simpl.
  assert (G : forall pre acc,
             all_chars Py.is_space pre = true ->
             Py.lstrip (Py.rev_string ws (pre ++ String c acc))
             = String c acc).
  { induction ws as [|w ws IH]; intros pre acc Hpre; simpl.
    - induction pre as [|p pre IHp]; simpl; [now rewrite Hc|].
      simpl in Hpre. apply andb_true_iff in Hpre. destruct Hpre as [Hp Hpre].
      rewrite Hp. now apply IHp.
    - simpl in Hws. apply andb_true_iff in Hws. destruct Hws as [Hw Hws].
      apply (IH Hws (String w pre) acc). simpl. now rewrite Hw. }
  pose proof (G EmptyString (Py.rev_string s' EmptyString) eq_refl) as Hl.
  simpl in Hl. rewrite Hl.
  change (String c (Py.rev_string s' EmptyString))
    with (Py.rev_string (String c EmptyString) (Py.rev_string s' EmptyString)).
  rewrite <- rev_string_app. apply rev_string_involutive.
Qed.

(** Stripping a record that begins and ends with a token and is
    followed by blanks gives the record. *)
Lemma strip_record (s ws : string) :
  match s with
  | EmptyString => True
  | String c _ => Py.is_space c = false
  end ->
  ends_solid s -> all_chars Py.is_space ws = true ->
  Py.strip (s ++ ws) = s.
Proof.
  intros Hf He Hws. unfold Py.strip.
  rewrite lstrip_solid.
  - now apply rstrip_solid.
  - destruct s as [|c s]; simpl; [|exact Hf].
    destruct He as [s' [c [E _]]]. destruct s'; discriminate E.
Qed.

End PyFacts.

(** *** [int(str(n))] *)

Section IntText.
Import textio decimal.

Lemma int_digits_uint (d : Decimal.uint) (acc : Z) :
  Py.int_digits (NilEmpty.string_of_uint d) acc true
  = Some (uint_value d acc).
Proof.
  revert acc; induction d; intros acc; simpl; try reflexivity;
    rewrite <- IHd; reflexivity.
Qed.

Lemma int_digits_uint_start (d : Decimal.uint) (acc : Z) :
  d <> Decimal.Nil ->
  Py.int_digits (NilEmpty.string_of_uint d) acc false
  = Some (uint_value d acc).
Proof.
  destruct d; intros H; [contradiction| | | | | | | | | |];
    simpl; rewrite <- int_digits_uint; reflexivity.
Qed.

Lemma of_uint_acc_value (d : Decimal.uint) (acc : positive) :
  Z.pos (Pos.of_uint_acc d acc) = uint_value d (Z.pos acc).
Proof.
  revert acc; induction d; intros acc;
    cbn [Pos.of_uint_acc uint_value]; try reflexivity;
    rewrite IHd; f_equal; lia.
Qed.

Lemma of_uint_value (d : Decimal.uint) :
  Z.of_uint d = uint_value d 0.
Proof.
  unfold Z.of_uint.
  induction d; simpl; try reflexivity; try exact IHd;
    apply of_uint_acc_value.
Qed.

Lemma uint_chars (d : Decimal.uint) :
  all_chars Py.is_digit (NilEmpty.string_of_uint d) = true.
Proof. induction d; simpl; try reflexivity; exact IHd. Qed.

Lemma digit_int_char (c : ascii) : Py.is_digit c = true -> int_char c = true.
Proof. unfold int_char. now intros ->. Qed.

Lemma int_char_solid (c : ascii) :
  int_char c = true -> negb (Py.is_space c) = true.
Proof.
  destruct c as [[] [] [] [] [] [] [] []]; vm_compute; congruence.
Qed.

Lemma int_char_no_angle (c : ascii) :
  int_char c = true -> negb (Ascii.eqb c "<"%char) = true.
Proof.
  destruct c as [[] [] [] [] [] [] [] []]; vm_compute; congruence.
Qed.

(** [str(n)] is made of digits and at most a leading minus sign, and
    is not empty. *)
Lemma str_of_int_chars (n : Z) :
  all_chars int_char (Py.str_of_int n) = true /\
  Py.is_empty (Py.str_of_int n) = false.
Proof.
  unfold Py.str_of_int.
  assert (Hu : forall d, d <> Decimal.Nil ->
             all_chars int_char (NilZero.string_of_uint d) = true /\
             Py.is_empty (NilZero.string_of_uint d) = false).
  { intros d Hd. split.
    - apply (all_chars_weaken Py.is_digit); [apply digit_int_char|].
      destruct d; try contradiction; apply (uint_chars _).
    - destruct d; try contradiction; reflexivity. }
  assert (Hp : forall p, Pos.to_uint p <> Decimal.Nil)
    by apply DecimalPos.Unsigned.to_uint_nonnil.
  destruct n as [|p|p]; simpl.
  - split; reflexivity.
  - apply Hu, Hp.
  - destruct (Hu _ (Hp p)) as [H1 H2]. split; [|reflexivity].
    simpl. exact H1.
Qed.

Lemma str_of_int_token (n : Z) : is_token (Py.str_of_int n) = true.
Proof.
  destruct (str_of_int_chars n) as [H1 H2]. unfold is_token.
  rewrite H2. simpl.
  apply (all_chars_weaken int_char); [apply int_char_solid|exact H1].
Qed.

Lemma str_of_int_no_angle (n : Z) : no_angle (Py.str_of_int n) = true.
Proof.
  destruct (str_of_int_chars n) as [H1 _].
  apply (all_chars_weaken int_char); [apply int_char_no_angle|exact H1].
Qed.

Lemma strip_token (t : string) : is_token t = true -> Py.strip t = t.
Proof.
  intros H. rewrite <- (append_nil_r t) at 1.
  apply strip_record; [|now apply ends_solid_token|reflexivity].
  apply is_token_inv in H. destruct H as [_ H].
  destruct t as [|c t]; [exact I|]. simpl in H.
  now destruct (Py.is_space c).
Qed.

Lemma int_of_str_digits (s : string) :
  all_chars Py.is_digit s = true -> Py.is_empty s = false ->
  Py.int_of_str s
  = match Py.int_digits s 0 false with
    | Some n => Ok n
    | None =>
        Raise (ValueError
                 ("invalid literal for int() with base 10: '" ++ s ++ "'"))
    end.
Proof.
  intros Hd Hne. unfold Py.int_of_str.
  assert (Ht : is_token s = true).
  { unfold is_token. rewrite Hne. simpl.
    apply (all_chars_weaken Py.is_digit); [|exact Hd].
    intros c Hc. apply int_char_solid, digit_int_char, Hc. }
  rewrite (strip_token _ Ht).
  destruct s as [|c s]; [discriminate|].
  simpl in Hd. apply andb_true_iff in Hd. destruct Hd as [Hc _].
  destruct c as [[] [] [] [] [] [] [] []];
    vm_compute in Hc; try discriminate Hc; reflexivity.
Qed.

(** [int(str(n))] is [n]. *)
Lemma int_of_str_of_int (n : Z) : Py.int_of_str (Py.str_of_int n) = Ok n.
Proof.
  pose proof (DecimalZ.of_to n) as Hn.
  destruct n as [|p|p]; [reflexivity| |].
  - unfold Py.str_of_int. simpl in *.
    pose proof (DecimalPos.Unsigned.to_uint_nonnil p) as Hne.
    assert (Hs : NilZero.string_of_uint (Pos.to_uint p)
                 = NilEmpty.string_of_uint (Pos.to_uint p))
      by (destruct (Pos.to_uint p); [contradiction|reflexivity..]).
    rewrite Hs, int_of_str_digits.
    + rewrite (int_digits_uint_start _ 0 Hne), <- of_uint_value.
      now rewrite Hn.
    + apply uint_chars.
    + destruct (Pos.to_uint p); [contradiction|reflexivity..].
  - unfold Py.int_of_str.
    rewrite (strip_token _ (str_of_int_token (Z.neg p))).
    unfold Py.str_of_int. simpl in *.
    pose proof (DecimalPos.Unsigned.to_uint_nonnil p) as Hne.
    assert (Hs : NilZero.string_of_uint (Pos.to_uint p)
                 = NilEmpty.string_of_uint (Pos.to_uint p))
      by (destruct (Pos.to_uint p); [contradiction|reflexivity..]).
    rewrite Hs, (int_digits_uint_start _ 0 Hne).
    rewrite <- of_uint_value. f_equal. lia.
Qed.

End IntText.

(** ** Records: tokens joined by blanks and ended by a line feed *)

Section RecordFacts.
Import textio decimal.

Lemma join_cons (t : string) (ts : list string) :
  Py.join " " (t :: ts)
  = match ts with
    | [] => t
    | _ => t ++ String " "%char (Py.join " " ts)
    end.
Proof. destruct ts; reflexivity. Qed.

Lemma join_head (t : string) (ts : list string) :
  exists r, Py.join " " (t :: ts) = t ++ r.
Proof.
  rewrite join_cons. destruct ts.
  - exists EmptyString. now rewrite append_nil_r.
  - eexists; reflexivity.
Qed.

Lemma ends_solid_join (toks : list string) :
  forallb is_token toks = true -> toks <> [] ->
  ends_solid (Py.join " " toks).
Proof.
  induction toks as [|t ts IH]; intros H Hne; [contradiction|].
  simpl in H. apply andb_true_iff in H. destruct H as [Ht Hts].
  rewrite join_cons. destruct ts as [|t' ts].
  - now apply ends_solid_token.
  - apply ends_solid_app.
    apply (ends_solid_app (String " "%char EmptyString)).
    apply IH; [exact Hts|discriminate].
Qed.

Lemma strip_join_nl (toks : list string) :
  forallb is_token toks = true -> toks <> [] ->
  Py.strip (Py.join " " toks ++ nl) = Py.join " " toks.
Proof.
  intros H Hne. apply strip_record; [|now apply ends_solid_join|reflexivity].
  destruct toks as [|t ts]; [contradiction|].
  simpl in H. apply andb_true_iff in H. destruct H as [Ht _].
  destruct (join_head t ts) as [r ->].
  apply is_token_inv in Ht. destruct Ht as [Hne' Hs].
  destruct t as [|c t]; [discriminate|]. simpl in *.
  now destruct (Py.is_space c).
Qed.

Lemma all_chars_join (f : ascii -> bool) (toks : list string) :
  f " "%char = true ->
  forallb (all_chars f) toks = true ->
  all_chars f (Py.join " " toks) = true.
Proof.
  intros Hsp. induction toks as [|t ts IH]; intros H; [reflexivity|].
  simpl in H. apply andb_true_iff in H. destruct H as [Ht Hts].
  rewrite join_cons. destruct ts as [|t' ts]; [exact Ht|].
  rewrite all_chars_app, Ht. simpl. rewrite Hsp. now apply IH.
Qed.

Lemma forallb_weaken {A : Type} (f g : A -> bool) (l : list A) :
  (forall x, f x = true -> g x = true) ->
  forallb f l = true -> forallb g l = true.
Proof.
  intros Hfg. induction l as [|x l IH]; simpl; [reflexivity|].
  intros H. apply andb_true_iff in H. destruct H as [H1 H2].
  now rewrite (Hfg _ H1), IH.
Qed.

(** *** Lines of a text *)

Lemma solid_line_char (c : ascii) :
  negb (Py.is_space c) = true -> line_char c = true.
Proof.
  destruct c as [[] [] [] [] [] [] [] []]; vm_compute; congruence.
Qed.

Lemma lines_plain (body rest cur : string) :
  all_chars line_char body = true ->
  lines_from (body ++ String LF rest) cur false
  = Py.rev_string (String LF (Py.rev_string body cur)) EmptyString
      :: lines_from rest EmptyString false.
Proof.
  revert cur; induction body as [|c body IH]; intros cur H.
  - reflexivity.
  - simpl in H. apply andb_true_iff in H. destruct H as [Hc Hb].
    unfold line_char in Hc. apply andb_true_iff in Hc.
    destruct Hc as [H1 H2].
    cbn [append lines_from Py.rev_string].
    destruct (Ascii.eqb c LF); [discriminate|].
    destruct (Ascii.eqb c CR); [discriminate|].
    now apply IH.
Qed.

Lemma lines_record (toks : list string) (rest : string) :
  forallb is_token toks = true ->
  lines_from ((Py.join " " toks ++ nl) ++ rest) EmptyString false
  = (Py.join " " toks ++ nl) :: lines_from rest EmptyString false.
Proof.
  intros H. rewrite append_assoc. unfold nl at 1.
  cbn [append]. rewrite lines_plain.
  - f_equal.
    change (String LF (Py.rev_string (Py.join " " toks) EmptyString))
      with (Py.rev_string nl (Py.rev_string (Py.join " " toks) EmptyString)).
    rewrite <- rev_string_app. apply rev_string_involutive.
  - apply all_chars_join; [reflexivity|].
    apply (forallb_weaken is_token); [|exact H].
    intros t Ht. apply is_token_inv in Ht. destruct Ht as [_ Ht].
    apply (all_chars_weaken (fun c => negb (Py.is_space c)));
      [apply solid_line_char|exact Ht].
Qed.

Lemma lines_app (a b cur : string) (after_cr : bool) :
  (after_cr = true -> cur = EmptyString) ->
  lines_from (a ++ String LF b) cur after_cr
  = (lines_from (a ++ nl) cur after_cr
     ++ lines_from b EmptyString false)%list.
Proof.
  revert cur after_cr; induction a as [|c a IH]; intros cur f Hf.
  - cbn [append nl lines_from].
    replace (Ascii.eqb LF LF) with true by reflexivity.
    destruct f; [|reflexivity].
    rewrite (Hf eq_refl). reflexivity.
  - cbn [append lines_from].
    destruct (Ascii.eqb c LF).
    + destruct f.
      * apply IH. intros; discriminate.
      * cbn [app]. f_equal. apply IH. intros; discriminate.
    + destruct (Ascii.eqb c CR).
      * cbn [app]. f_equal. apply IH. reflexivity.
      * apply IH. intros; discriminate.
Qed.

(** *** The event tags *)

Lemma search_no_angle (tail s : string) :
  no_angle s = true -> lhe.search (String "<"%char tail) s = false.
Proof.
  induction s as [|c s IH]; intros H.
  - reflexivity.
  - simpl in H. apply andb_true_iff in H. destruct H as [Hc Hs].
    cbn [lhe.search lhe.after_prefix].
    rewrite Ascii.eqb_sym. destruct (Ascii.eqb c "<"); [discriminate|].
    simpl. now apply IH.
Qed.

Lemma no_angle_record (toks : list string) :
  forallb no_angle toks = true ->
  lhe._TAG_EVENT_CLOSE (Py.join " " toks ++ nl) = false.
Proof.
  intros H. apply search_no_angle. unfold no_angle.
  rewrite all_chars_app. rewrite all_chars_join; [reflexivity|reflexivity|].
  exact H.
Qed.

Lemma skipped_int (n : Z) (r : string) :
  lhe.skipped (Py.str_of_int n ++ r) = false.
Proof.
  destruct (str_of_int_chars n) as [H1 H2].
  destruct (Py.str_of_int n) as [|c s]; [discriminate|].
  simpl in H1. apply andb_true_iff in H1. destruct H1 as [Hc _].
  unfold lhe.skipped. cbn [append Py.is_empty orb Py.startswith String.prefix].
  destruct c as [[] [] [] [] [] [] [] []];
    vm_compute in Hc; try discriminate Hc; reflexivity.
Qed.

End RecordFacts.

(** ** Writing an LHE file and reading it back *)

Section LHERoundTrip.
Context {F : Type} {FM : FloatModel F}.
Import models textio lhe lhe_writer lhe_notions.
Variable format_g : nat -> F -> string.

Local Abbreviation survives' := (survives format_g).

Lemma particle_line_columns (p : Particle F) :
  particle_line format_g p = Py.join " " (particle_columns format_g p) ++ nl.
Proof.
  unfold particle_line, particle_columns, Py.join.
  cbn [String.concat]. repeat rewrite append_assoc. reflexivity.
Qed.

Lemma header_line_columns (ev : Event F) (w : F) :
  header_line format_g ev w = Py.join " " (header_columns format_g ev w) ++ nl.
Proof.
  unfold header_line, header_columns, Py.join.
  cbn [String.concat]. repeat rewrite append_assoc. reflexivity.
Qed.

Lemma particle_columns_tokens (p : Particle F) :
  particle_survives format_g p ->
  forallb is_token (particle_columns format_g p) = true /\
  forallb no_angle (particle_columns format_g p) = true.
Proof.
  intros (Hx & Hy & Hz & He & Hm & Hs).
  destruct Hx as (Hx1 & Hx2 & _), Hy as (Hy1 & Hy2 & _),
    Hz as (Hz1 & Hz2 & _), He as (He1 & He2 & _), Hm as (Hm1 & Hm2 & _),
    Hs as (Hs1 & Hs2 & _).
  unfold particle_columns. cbn [forallb].
  rewrite !str_of_int_token, !str_of_int_no_angle.
  rewrite Hx1, Hx2, Hy1, Hy2, Hz1, Hz2, He1, He2, Hm1, Hm2, Hs1, Hs2.
  split; reflexivity.
Qed.

Lemma header_columns_tokens (ev : Event F) :
  event_survives format_g ev ->
  forallb is_token (header_columns format_g ev (main_weight ev)) = true /\
  forallb no_angle (header_columns format_g ev (main_weight ev)) = true.
Proof.
  intros (Hw & Hs & Hq & Hc & _).
  destruct Hw as (Hw1 & Hw2 & _), Hs as (Hs1 & Hs2 & _),
    Hq as (Hq1 & Hq2 & _), Hc as (Hc1 & Hc2 & _).
  unfold header_columns. cbn [forallb].
  rewrite !str_of_int_token, !str_of_int_no_angle.
  rewrite Hw1, Hw2, Hs1, Hs2, Hq1, Hq2, Hc1, Hc2.
  split; reflexivity.
Qed.

(** Reading one written particle line. *)
Lemma parse_row_particle_line (p : Particle F) :
  particle_survives format_g p ->
  parse_row (Py.strip (particle_line format_g p)) = Ok (kept_particle p).
Proof.
  intros Hp. destruct (particle_columns_tokens p Hp) as [Ht _].
  rewrite particle_line_columns, strip_join_nl by (exact Ht || discriminate).
  unfold parse_row. rewrite (split_join _ Ht).
  destruct Hp as (Hx & Hy & Hz & He & Hm & Hs).
  destruct Hx as (_ & _ & Hx), Hy as (_ & _ & Hy), Hz as (_ & _ & Hz),
    He as (_ & _ & He), Hm as (_ & _ & Hm), Hs as (_ & _ & Hs).
  unfold particle_columns, int_col, float_col, Py.getitem.
  cbn [nth_error bind List.length Nat.ltb Nat.leb].
  rewrite !int_of_str_of_int. cbn [bind].
  rewrite Hx, Hy, Hz, He, Hm, Hs. reflexivity.
Qed.

Lemma skipped_particle_line (p : Particle F) :
  particle_survives format_g p ->
  skipped (Py.strip (particle_line format_g p)) = false.
Proof.
  intros Hp. destruct (particle_columns_tokens p Hp) as [Ht _].
  rewrite particle_line_columns, strip_join_nl by (exact Ht || discriminate).
  unfold particle_columns.
  match goal with
  | |- skipped (Py.join " " (?t :: ?ts)) = false =>
      destruct (join_head t ts) as [r ->]
  end.
  apply skipped_int.
Qed.

Lemma parse_particles_lines (ps : list (Particle F)) :
  Forall (particle_survives format_g) ps ->
  parse_particles (List.length ps) (map (particle_line format_g) ps)
  = Ok (map kept_particle ps).
Proof.
  induction 1 as [|p ps Hp _ IH]; [reflexivity|].
  cbn [List.length map parse_particles].
  rewrite (skipped_particle_line p Hp), (parse_row_particle_line p Hp).
  cbn [bind]. rewrite IH. reflexivity.
Qed.

(** Reading the lines written for one event. *)
Lemma parse_event_block_lines (ev : Event F) (n : Z) :
  event_survives format_g ev ->
  _parse_event_block
    (header_line format_g ev (main_weight ev)
       :: map (particle_line format_g) (particles ev)) n
  = Ok (kept_event n ev).
Proof.
  intros Hev. destruct (header_columns_tokens ev Hev) as [Ht _].
  unfold _parse_event_block. cbn [find_header].
  rewrite header_line_columns, strip_join_nl by (exact Ht || discriminate).
  assert (Hsk : skipped (Py.join " " (header_columns format_g ev (main_weight ev)))
                = false).
  { unfold header_columns.
    match goal with
    | |- skipped (Py.join " " (?t :: ?ts)) = false =>
        destruct (join_head t ts) as [r ->]
    end.
    apply skipped_int. }
  rewrite Hsk, (split_join _ Ht).
  destruct Hev as (Hw & Hs & Hq & Hc & Hps).
  destruct Hw as (_ & _ & Hw), Hs as (_ & _ & Hs), Hq as (_ & _ & Hq),
    Hc as (_ & _ & Hc).
  unfold header_columns, int_col, float_col, Py.getitem.
  cbn [nth_error bind List.length Nat.ltb Nat.leb].
  rewrite !int_of_str_of_int. cbn [bind].
  rewrite Hw, Hs, Hq, Hc. cbn [bind].
  rewrite Nat2Z.id, (parse_particles_lines _ Hps). reflexivity.
Qed.

(** *** The loop over the lines of the file *)

Lemma iter_lhe_skip (ls rest buf : list string) (n : Z) :
  Forall (fun l => _TAG_EVENT_OPEN l = false) ls ->
  iter_lhe_from (F := F) (ls ++ rest) false buf n
  = iter_lhe_from rest false buf n.
Proof.
  induction 1 as [|l ls Hl _ IH]; [reflexivity|].
  cbn [app iter_lhe_from negb]. now rewrite Hl.
Qed.

Lemma iter_lhe_collect (ls rest buf : list string) (n : Z) :
  Forall (fun l => _TAG_EVENT_CLOSE l = false) ls ->
  iter_lhe_from (F := F) (ls ++ rest) true buf n
  = iter_lhe_from rest true (rev ls ++ buf)%list n.
Proof.
  intros H. revert buf. induction H as [|l ls Hl _ IH]; intros buf;
    [reflexivity|].
  cbn [app iter_lhe_from negb]. rewrite Hl, IH.
  cbn [rev]. now rewrite <- app_assoc.
Qed.

Lemma iter_lhe_event (ls rest buf : list string) (n : Z) :
  Forall (fun l => _TAG_EVENT_CLOSE l = false) ls ->
  iter_lhe_from (F := F)
    (("<event>" ++ nl) :: (ls ++ (("</event>" ++ nl)%string :: rest))%list)
    false buf n
  = (ev <- _parse_event_block ls (n + 1) ;;
     evs <- iter_lhe_from rest false [] (n + 1) ;;
     Ok (ev :: evs)).
Proof.
  intros H. cbn [iter_lhe_from negb].
  replace (_TAG_EVENT_OPEN ("<event>" ++ nl)) with true by reflexivity.
  rewrite (iter_lhe_collect _ _ _ _ H).
  cbn [iter_lhe_from negb].
  replace (_TAG_EVENT_CLOSE ("</event>" ++ nl)) with true by reflexivity.
  now rewrite app_nil_r, rev_involutive.
Qed.

(** *** The lines of the written text *)

Lemma lines_fixed (body rest : string) :
  all_chars line_char body = true ->
  lines_from ((body ++ nl) ++ rest) EmptyString false
  = (body ++ nl) :: lines_from rest EmptyString false.
Proof.
  intros H. rewrite append_assoc. cbn [nl append].
  rewrite lines_plain by exact H. f_equal.
  change (String LF (Py.rev_string body EmptyString))
    with (Py.rev_string nl (Py.rev_string body EmptyString)).
  rewrite <- rev_string_app. apply rev_string_involutive.
Qed.

Lemma lines_particle_lines (ps : list (Particle F)) (rest : string) :
  Forall (particle_survives format_g) ps ->
  lines_from (written (map (particle_line format_g) ps) ++ rest)
             EmptyString false
  = (map (particle_line format_g) ps
     ++ lines_from rest EmptyString false)%list.
Proof.
  induction 1 as [|p ps Hp _ IH]; [reflexivity|].
  cbn [map written app]. rewrite append_assoc.
  destruct (particle_columns_tokens p Hp) as [Ht _].
  rewrite particle_line_columns at 1.
  rewrite lines_record by exact Ht.
  rewrite <- particle_line_columns. now rewrite IH.
Qed.

Lemma particle_lines_calm (ps : list (Particle F)) :
  Forall (particle_survives format_g) ps ->
  Forall (fun l => _TAG_EVENT_CLOSE l = false)
         (map (particle_line format_g) ps).
Proof.
  induction 1 as [|p ps Hp _ IH]; constructor; [|exact IH].
  destruct (particle_columns_tokens p Hp) as [_ Ha].
  rewrite particle_line_columns. now apply no_angle_record.
Qed.

(** Reading the block written for one event, whatever follows it. *)
Lemma event_block_read (ev : Event F) (rest : string) (n : Z) :
  event_survives format_g ev ->
  exists b,
    event_block format_g ev = Ok b /\
    iter_lhe_from (lines_from (b ++ rest) EmptyString false) false [] n
    = (evs <- iter_lhe_from (lines_from rest EmptyString false) false []
                            (n + 1) ;;
       Ok (kept_event (n + 1) ev :: evs)).
Proof.
  intros Hev. unfold event_block.
  assert (Hw : weight ev = Ok (main_weight ev)).
  { unfold weight, main_weight, Py.getitem. destruct (weights ev); reflexivity. }
  rewrite Hw. cbn [bind]. eexists; split; [reflexivity|].
  destruct (header_columns_tokens ev Hev) as [Ht Ha].
  pose proof Hev as (_ & _ & _ & _ & Hps).
  rewrite !append_assoc.
  rewrite <- (append_assoc "<event>" nl).
  rewrite (lines_fixed "<event>") by reflexivity.
  rewrite header_line_columns at 1.
  rewrite lines_record by exact Ht.
  rewrite <- header_line_columns.
  rewrite (lines_particle_lines _ _ Hps).
  rewrite <- (append_assoc "</event>" nl).
  rewrite (lines_fixed "</event>") by reflexivity.
  change (?h :: ?ps ++ ?c :: ?r)%list with ((h :: ps) ++ c :: r)%list.
  rewrite iter_lhe_event.
  - rewrite (parse_event_block_lines ev (n + 1) Hev). reflexivity.
  - constructor; [|now apply particle_lines_calm].
    rewrite header_line_columns. now apply no_angle_record.
Qed.

Lemma event_blocks_read (evs : list (Event F)) (rest : string) :
  Forall (event_survives format_g) evs ->
  forall n,
  exists body,
    event_blocks format_g evs = Ok body /\
    iter_lhe_from (lines_from (body ++ rest) EmptyString false) false [] n
    = (tail <- iter_lhe_from (lines_from rest EmptyString false) false []
                             (n + Z.of_nat (List.length evs)) ;;
       Ok (kept_events (n + 1) evs ++ tail)%list).
Proof.
  induction 1 as [|ev evs Hev _ IH]; intros n.
  - exists EmptyString. split; [reflexivity|].
    cbn [append List.length Z.of_nat kept_events app]. rewrite Z.add_0_r.
    destruct (iter_lhe_from _ false [] n); reflexivity.
  - destruct (IH (n + 1)) as [body [Hb Hr]].
    destruct (event_block_read ev (body ++ rest) n Hev) as [b [Hb1 Hr1]].
    exists (b ++ body). split.
    + cbn [event_blocks]. rewrite Hb1, Hb. reflexivity.
    + rewrite append_assoc, Hr1, Hr.
      replace (n + Z.of_nat (List.length (ev :: evs)))
        with (n + 1 + Z.of_nat (List.length evs))
        by (cbn [List.length]; lia).
      destruct (iter_lhe_from (lines_from rest EmptyString false) false []
                              (n + 1 + Z.of_nat (List.length evs)));
        reflexivity.
Qed.

Lemma preamble_ends (run : runinfo.RunInfo F) :
  exists a, preamble format_g run = a ++ String LF EmptyString.
Proof.
  unfold preamble, generator_line, init_block.
  destruct (negb (Py.is_empty (runinfo.generator_name run))).
  - eexists. repeat rewrite <- append_assoc. reflexivity.
  - rewrite append_nil_r. eexists. repeat rewrite <- append_assoc.
    reflexivity.
Qed.

Lemma written_events_read (evs : list (Event F))
        (run_info : option (runinfo.RunInfo F)) :
  opens_no_event
    (preamble format_g
       (match run_info with
        | Some r => r
        | None => runinfo.default_run_info
        end)) ->
  Forall (event_survives format_g) evs ->
  exists text,
    write format_g evs run_info = Ok text /\
    iter_lhe (readlines text) = Ok (kept_events 1 evs).
Proof.
  intros Hpre Hevs. unfold write.
  set (run := match run_info with Some r => r | None => _ end) in *.
  destruct (event_blocks_read evs ("</LesHouchesEvents>" ++ nl) Hevs 0)
    as [body [Hb Hr]].
  rewrite Hb. cbn [bind]. eexists; split; [reflexivity|].
  unfold iter_lhe, readlines.
  destruct (preamble_ends run) as [a Ha].
  unfold opens_no_event, readlines in Hpre.
  rewrite Ha in *. rewrite append_assoc.
  match goal with
  | |- context [a ++ String LF EmptyString ++ ?b] =>
      change (a ++ String LF EmptyString ++ b) with (a ++ String LF b)
  end.
  rewrite lines_app by (intros; discriminate).
  rewrite iter_lhe_skip by exact Hpre.
  rewrite Hr.
  replace (lines_from ("</LesHouchesEvents>" ++ nl) EmptyString false)
    with ["</LesHouchesEvents>" ++ nl] by reflexivity.
  cbn [iter_lhe_from negb].
  replace (_TAG_EVENT_OPEN ("</LesHouchesEvents>" ++ nl)) with false
    by reflexivity.
  cbn [bind]. now rewrite app_nil_r.
Qed.


Lemma kept_particle_declared (p : Particle F) (f : string) :
  List.In f (audit.particle_fields (audit.format_capabilities "lhe")) ->
  audit.particle_getattr (kept_particle p) f = audit.particle_getattr p f.
Proof.
  intros H. cbn in H.
  repeat (destruct H as [<-|H]; [reflexivity|]). contradiction.
Qed.

Lemma kept_events_declared (evs : list (Event F)) (n : Z) :
  Forall2
    (fun ev ev' =>
       Forall2
         (fun p p' =>
            forall f,
              List.In f (audit.particle_fields (audit.format_capabilities "lhe")) ->
              audit.particle_getattr p' f = audit.particle_getattr p f)
         (particles ev) (particles ev'))
    evs (kept_events n evs).
Proof.
  revert n; induction evs as [|ev evs IH]; intros n; constructor; [|apply IH].
  cbn [kept_event particles].
  induction (particles ev) as [|p ps IHp]; constructor; [|exact IHp].
  apply kept_particle_declared.
Qed.

(** Every particle field that the capability table declares for the LHE
    format has the same value after writing and reading as before. *)
Theorem lhe_declared_particle_fields_kept (evs : list (Event F))
        (run_info : option (runinfo.RunInfo F)) :
  opens_no_event
    (preamble format_g
       (match run_info with
        | Some r => r
        | None => runinfo.default_run_info
        end)) ->
  Forall (event_survives format_g) evs ->
  exists text evs',
    write format_g evs run_info = Ok text /\
    iter_lhe (readlines text) = Ok evs' /\
    Forall2
      (fun ev ev' =>
         Forall2
           (fun p p' =>
              forall f,
                List.In f (audit.particle_fields
                             (audit.format_capabilities "lhe")) ->
                audit.particle_getattr p' f = audit.particle_getattr p f)
           (particles ev) (particles ev'))
      evs evs'.
Proof.
  intros Hpre Hevs.
  destruct (written_events_read evs run_info Hpre Hevs) as [text [Hw Hr]].
  exists text, (kept_events 1 evs). repeat split; try assumption.
  apply kept_events_declared.
Qed.

End LHERoundTrip.


(** The file written for that event. *)
Example lhe_write_w_event :
  option_map textio.readlines
    (match lhe_writer.write format_fixtures.format_integral
             [reader_fixtures.w_event] None with
     | Ok t => Some t
     | Raise _ => None
     end)
  = Some
      (map (fun l => l ++ textio.nl)
         [ "<LesHouchesEvents version=" ++ lhe_fixtures.dq ++ "3.0"
             ++ lhe_fixtures.dq ++ ">";
           "<init>";
           "0 0 0 0 0 0 0 0 0 0";
           "</init>";
           "<event>";
           "5 1 1 100 0 0";
           "2 -1 0 0 0 0 0 0 50 50 0 0 9";
           "-1 -1 0 0 0 0 0 0 -50 50 0 0 9";
           "24 2 1 2 0 0 0 0 0 100 100 0 9";
           "-11 1 3 3 0 0 0 0 50 50 0 0 9";
           "12 1 3 3 0 0 0 0 -50 50 0 0 9";
           "</event>";
           "</LesHouchesEvents>" ]).
Proof. vm_compute. reflexivity. Qed.

(** ** The init block of an LHE file, written and read back *)

Section LHEInit.
Context {F : Type} {FM : FloatModel F}.
Import textio lhe_writer lhe_notions lhe_run.
Variable format_g : nat -> F -> string.

Lemma beam_line_columns (run : runinfo.RunInfo F) :
  beam_line format_g run = Py.join " " (beam_columns format_g run) ++ nl.
Proof.
  unfold beam_line, beam_columns, Py.join.
  cbn [String.concat]. repeat rewrite append_assoc. reflexivity.
Qed.

Lemma process_line_columns (proc : runinfo.ProcessInfo F) :
  process_line format_g proc
  = Py.join " " (process_columns format_g proc) ++ nl.
Proof.
  unfold process_line, process_columns, Py.join.
  cbn [String.concat]. repeat rewrite append_assoc. reflexivity.
Qed.

Lemma beam_columns_tokens (run : runinfo.RunInfo F) :
  run_survives format_g run ->
  forallb is_token (beam_columns format_g run) = true /\
  forallb no_angle (beam_columns format_g run) = true.
Proof.
  intros ((H1 & H2 & _) & (H3 & H4 & _) & _).
  unfold beam_columns. cbn [forallb].
  rewrite !str_of_int_token, !str_of_int_no_angle, H1, H2, H3, H4.
  split; reflexivity.
Qed.

Lemma process_columns_tokens (proc : runinfo.ProcessInfo F) :
  process_survives format_g proc ->
  forallb is_token (process_columns format_g proc) = true /\
  forallb no_angle (process_columns format_g proc) = true.
Proof.
  intros ((H1 & H2 & _) & (H3 & H4 & _) & (H5 & H6 & _) & _).
  unfold process_columns. cbn [forallb].
  rewrite !str_of_int_token, !str_of_int_no_angle, H1, H2, H3, H4, H5, H6.
  split; reflexivity.
Qed.

Lemma startswith_app (t r : string) (c : ascii) :
  Py.is_empty t = false ->
  Py.startswith (t ++ r) (String c EmptyString)
  = Py.startswith t (String c EmptyString).
Proof.
  destruct t as [|d t]; [discriminate|]. intros _.
  unfold Py.startswith. cbn [append String.prefix].
  destruct (Ascii.ascii_dec c d) as [->|Hn]; [|reflexivity].
  destruct (t ++ r), t; reflexivity.
Qed.

Lemma skipped_process_line (proc : runinfo.ProcessInfo F) :
  process_survives format_g proc ->
  lhe.skipped (Py.join " " (process_columns format_g proc)) = false.
Proof.
  intros ((H1 & _) & _ & _ & Hh). unfold process_columns.
  match goal with
  | |- lhe.skipped (Py.join " " (?t :: ?ts)) = false =>
      destruct (join_head t ts) as [r ->]
  end.
  apply is_token_inv in H1. destruct H1 as [Hne _].
  unfold lhe.skipped. rewrite startswith_app by exact Hne. rewrite Hh.
  destruct (format_g 8 (runinfo.cross_section proc)); [discriminate|].
  reflexivity.
Qed.

Lemma find_beams_written (run : runinfo.RunInfo F) (rest : list string) :
  run_survives format_g run ->
  find_beams (beam_line format_g run :: rest)
  = (runinfo.beam_pdg_id run, runinfo.beam_energy run).
Proof.
  intros Hrun. destruct (beam_columns_tokens run Hrun) as [Ht _].
  cbn [find_beams].
  rewrite beam_line_columns, strip_join_nl by (exact Ht || discriminate).
  assert (Hsk : lhe.skipped (Py.join " " (beam_columns format_g run)) = false).
  { unfold beam_columns.
    match goal with
    | |- lhe.skipped (Py.join " " (?t :: ?ts)) = false =>
        destruct (join_head t ts) as [r ->]
    end.
    apply skipped_int. }
  rewrite Hsk, (split_join _ Ht).
  destruct Hrun as ((_ & _ & H1) & (_ & _ & H2) & _).
  unfold beam_columns, lhe.int_col, lhe.float_col, Py.getitem.
  cbn [nth_error bind List.length Nat.leb].
  rewrite !int_of_str_of_int. cbn [bind]. rewrite H1, H2. cbn [bind].
  destruct (runinfo.beam_pdg_id run), (runinfo.beam_energy run); reflexivity.
Qed.

Lemma find_processes_written (run : runinfo.RunInfo F)
      (procs : list (runinfo.ProcessInfo F)) :
  Forall (process_survives format_g) procs ->
  find_processes (runinfo.beam_pdg_id run) (map (process_line format_g) procs)
  = filter (fun proc => negb (named_as_beam run proc)) procs.
Proof.
  induction 1 as [|proc procs Hp _ IH]; [reflexivity|].
  destruct (process_columns_tokens proc Hp) as [Ht _].
  cbn [map find_processes filter].
  rewrite process_line_columns, strip_join_nl by (exact Ht || discriminate).
  rewrite (skipped_process_line proc Hp), (split_join _ Ht).
  destruct Hp as ((_ & _ & H1) & (_ & _ & H2) & (_ & _ & H3) & _).
  unfold process_columns, lhe.int_col, lhe.float_col, Py.getitem.
  cbn [nth_error bind List.length Nat.eqb].
  rewrite H1, H2, H3, int_of_str_of_int. cbn [bind].
  unfold named_as_beam. rewrite IH.
  destruct (negb _); [|reflexivity].
  destruct proc; reflexivity.
Qed.

Lemma find_processes_beam_line (run : runinfo.RunInfo F) (bp : Z * Z)
      (rest : list string) :
  run_survives format_g run ->
  find_processes bp (beam_line format_g run :: rest)
  = find_processes bp rest.
Proof.
  intros Hrun. destruct (beam_columns_tokens run Hrun) as [Ht _].
  cbn [find_processes].
  rewrite beam_line_columns, strip_join_nl by (exact Ht || discriminate).
  rewrite (split_join _ Ht).
  destruct (lhe.skipped _); reflexivity.
Qed.

(** Reading the lines the writer puts into the init block. *)
Lemma parse_init_written (run : runinfo.RunInfo F) :
  run_survives format_g run ->
  _parse_init (beam_line format_g run
                 :: map (process_line format_g) (runinfo.processes run))
  = kept_run run.
Proof.
  intros Hrun. unfold _parse_init.
  rewrite (find_beams_written run _ Hrun).
  rewrite (find_processes_beam_line run _ _ Hrun).
  destruct Hrun as (_ & _ & Hps).
  rewrite (find_processes_written run _ Hps). reflexivity.
Qed.

Lemma collect_init_more (ls rest buf : list string) :
  Forall (fun l => _TAG_INIT_CLOSE l = false) ls ->
  collect_init_lines (ls ++ rest) true buf
  = collect_init_lines rest true (rev ls ++ buf)%list.
Proof.
  intros H. revert buf. induction H as [|l ls Hl _ IH]; intros buf;
    [reflexivity|].
  cbn [app collect_init_lines negb]. rewrite Hl, IH.
  cbn [rev]. now rewrite <- app_assoc.
Qed.

Lemma lines_process_lines (procs : list (runinfo.ProcessInfo F))
      (rest : string) :
  Forall (process_survives format_g) procs ->
  lines_from (written (map (process_line format_g) procs) ++ rest)
             EmptyString false
  = (map (process_line format_g) procs
     ++ lines_from rest EmptyString false)%list.
Proof.
  induction 1 as [|proc procs Hp _ IH]; [reflexivity|].
  cbn [map written app]. rewrite append_assoc.
  destruct (process_columns_tokens proc Hp) as [Ht _].
  rewrite process_line_columns at 1.
  rewrite lines_record by exact Ht.
  rewrite <- process_line_columns. now rewrite IH.
Qed.

Lemma process_lines_calm (procs : list (runinfo.ProcessInfo F)) :
  Forall (process_survives format_g) procs ->
  Forall (fun l => _TAG_INIT_CLOSE l = false)
         (map (process_line format_g) procs).
Proof.
  induction 1 as [|proc procs Hp _ IH]; constructor; [|exact IH].
  destruct (process_columns_tokens proc Hp) as [_ Ha].
  rewrite process_line_columns. apply search_no_angle.
  unfold no_angle. rewrite all_chars_app.
  rewrite all_chars_join; [reflexivity|reflexivity|exact Ha].
Qed.

(** The init block of a file that begins with the writer's preamble. *)
Lemma collect_init_written (run : runinfo.RunInfo F) (rest : string) :
  run_survives format_g run ->
  collect_init_lines (readlines (preamble format_g run ++ rest)) false []
  = beam_line format_g run
      :: map (process_line format_g) (runinfo.processes run).
Proof.
  intros Hrun. destruct (beam_columns_tokens run Hrun) as [Ht Ha].
  pose proof Hrun as (_ & _ & Hps).
  unfold readlines, preamble, init_block.
  rewrite !append_assoc.
  set (first := "<LesHouchesEvents version=" ++ lhe_fixtures.dq ++ "3.0"
                ++ lhe_fixtures.dq ++ ">").
  assert (E : forall x,
             "<LesHouchesEvents version=" ++ lhe_fixtures.dq ++ "3.0"
             ++ lhe_fixtures.dq ++ ">" ++ nl ++ x
             = (first ++ nl) ++ x).
  { intros x. unfold first. now rewrite !append_assoc. }
  rewrite E.
  rewrite (lines_fixed first) by reflexivity.
  rewrite <- (append_assoc "<init>" nl).
  rewrite (lines_fixed "<init>") by reflexivity.
  rewrite beam_line_columns at 1.
  rewrite lines_record by exact Ht.
  rewrite <- beam_line_columns.
  rewrite (lines_process_lines _ _ Hps).
  rewrite <- (append_assoc "</init>" nl).
  rewrite (lines_fixed "</init>") by reflexivity.
  cbn [collect_init_lines negb].
  replace (_TAG_INIT_OPEN (first ++ nl)) with false by reflexivity.
  replace (_TAG_INIT_OPEN ("<init>" ++ nl)) with true by reflexivity.
  assert (Hb : _TAG_INIT_CLOSE (beam_line format_g run) = false).
  { rewrite beam_line_columns. apply search_no_angle.
    unfold no_angle. rewrite all_chars_app.
    rewrite all_chars_join; [reflexivity|reflexivity|exact Ha]. }
  rewrite Hb.
  rewrite (collect_init_more _ _ _ (process_lines_calm _ Hps)).
  cbn [collect_init_lines negb].
  replace (_TAG_INIT_CLOSE ("</init>" ++ nl)) with true by reflexivity.
  rewrite rev_app_distr, rev_involutive. reflexivity.
Qed.

Lemma event_blocks_total (evs : list (models.Event F)) :
  exists body, event_blocks format_g evs = Ok body.
Proof.
  induction evs as [|ev evs [body IH]]; [now exists EmptyString|].
  cbn [event_blocks]. unfold event_block, models.weight, Py.getitem.
  rewrite IH. destruct (models.weights ev); cbn; eexists; reflexivity.
Qed.

(** The run information read from a file written by [LHEWriter.write]:
    the beams are kept; the processes are kept in order, except those
    whose identifier is the identifier of a beam; nothing else is. *)
Theorem lhe_init_write_read (evs : list (models.Event F))
        (run : runinfo.RunInfo F) :
  run_survives format_g run ->
  exists text,
    write format_g evs (Some run) = Ok text /\
    _parse_init (collect_init_lines (readlines text) false []) = kept_run run.
Proof.
  intros Hrun. unfold write.
  destruct (event_blocks_total evs) as [body ->].
  cbn [bind]. eexists; split; [reflexivity|].
  rewrite (collect_init_written run _ Hrun).
  now apply parse_init_written.
Qed.

End LHEInit.

Lemma lhe_declared_particle_fields_kept_witness :
  exists text evs',
    lhe_writer.write format_fixtures.format_integral
      [reader_fixtures.w_event] None = Ok text /\
    lhe.iter_lhe (textio.readlines text) = Ok evs' /\
    Forall2
      (fun ev ev' =>
         Forall2
           (fun p p' =>
              forall f,
                List.In f (audit.particle_fields
                             (audit.format_capabilities "lhe")) ->
                audit.particle_getattr p' f = audit.particle_getattr p f)
           (models.particles ev) (models.particles ev'))
      [reader_fixtures.w_event] evs'.
Proof.
  apply (lhe_declared_particle_fields_kept format_fixtures.format_integral
           [reader_fixtures.w_event] None).
  - unfold lhe_notions.opens_no_event. vm_compute. repeat constructor.
  - repeat constructor.
Defined.

Lemma lhe_init_write_read_witness :
  exists text,
    lhe_writer.write format_fixtures.format_integral
      [reader_fixtures.w_event] (Some run_fixtures.lhc_run) = Ok text /\
    lhe_run._parse_init
      (lhe_run.collect_init_lines (textio.readlines text) false [])
    = lhe_notions.kept_run run_fixtures.lhc_run.
Proof.
  apply (lhe_init_write_read format_fixtures.format_integral
           [reader_fixtures.w_event] run_fixtures.lhc_run).
  repeat constructor.
Defined.

(** The process that carries the identifier of the beams is not read
    back. *)
Example kept_run_lhc :
  map runinfo.process_id
      (runinfo.processes (lhe_notions.kept_run run_fixtures.lhc_run))
  = [1].
Proof. reflexivity. Qed.

(** ** [split] does not see the blanks around or between the tokens *)

Section SplitFacts.
Import textio.

Lemma split_aux_blanks (ws : string) :
  all_chars Py.is_space ws = true -> Py.split_aux ws EmptyString = [].
Proof.
  induction ws as [|w ws IH]; intros H; [reflexivity|].
  simpl in H. apply andb_true_iff in H. destruct H as [Hw Hws].
  simpl. rewrite Hw. now apply IH.
Qed.

Lemma split_aux_blank_tail (a ws cur : string) :
  all_chars Py.is_space ws = true ->
  Py.split_aux (a ++ ws) cur = Py.split_aux a cur.
Proof.
  intros Hws. revert cur; induction a as [|c a IH]; intros cur.
  - cbn [append Py.split_aux].
    destruct ws as [|w ws]; [reflexivity|].
    simpl in Hws. apply andb_true_iff in Hws. destruct Hws as [Hw Hws].
    cbn [Py.split_aux]. rewrite Hw, (split_aux_blanks _ Hws).
    destruct cur; reflexivity.
  - cbn [append Py.split_aux].
    destruct (Py.is_space c); [destruct cur|]; now rewrite ?IH.
Qed.

Lemma split_lstrip (s : string) : Py.split (Py.lstrip s) = Py.split s.
Proof.
  unfold Py.split. induction s as [|c s IH]; [reflexivity|].
  simpl. destruct (Py.is_space c) eqn:Hc; [exact IH|].
  simpl. now rewrite Hc.
Qed.

Lemma lstrip_decompose (s : string) :
  exists ws, all_chars Py.is_space ws = true /\ s = ws ++ Py.lstrip s.
Proof.
  induction s as [|c s [ws [Hws IH]]].
  - now exists EmptyString.
  - simpl. destruct (Py.is_space c) eqn:Hc.
    + exists (String c ws). simpl. rewrite Hc, Hws. split; [reflexivity|].
      now rewrite <- IH.
    + now exists EmptyString.
Qed.

Lemma rev_string_acc (s acc : string) :
  Py.rev_string s acc = Py.rev_string s EmptyString ++ acc.
Proof.
  revert acc; induction s as [|c s IH]; intros acc; [reflexivity|].
  simpl. rewrite IH, (IH (String c EmptyString)), append_assoc. reflexivity.
Qed.

Lemma all_chars_rev (f : ascii -> bool) (s : string) :
  all_chars f (Py.rev_string s EmptyString) = all_chars f s.
Proof.
  induction s as [|c s IH]; [reflexivity|].
  simpl. rewrite rev_string_acc, all_chars_app, IH. simpl.
  rewrite andb_true_r. apply andb_comm.
Qed.

Lemma rstrip_decompose (s : string) :
  exists ws, all_chars Py.is_space ws = true /\ s = Py.rstrip s ++ ws.
Proof.
  unfold Py.rstrip.
  destruct (lstrip_decompose (Py.rev_string s EmptyString)) as [ws [Hws E]].
  exists (Py.rev_string ws EmptyString). split.
  - now rewrite all_chars_rev.
  - rewrite <- (rev_string_involutive s) at 1.
    rewrite E at 1. rewrite rev_string_app. apply rev_string_acc.
Qed.

(** [s.strip().split()] is [s.split()]. *)
Lemma split_strip (s : string) : Py.split (Py.strip s) = Py.split s.
Proof.
  unfold Py.strip. rewrite <- (split_lstrip s).
  destruct (rstrip_decompose (Py.lstrip s)) as [ws [Hws E]].
  rewrite E at 2. unfold Py.split. now rewrite split_aux_blank_tail.
Qed.

Lemma split_aux_token_blank (t rest : string) (c : ascii) :
  is_token t = true -> Py.is_space c = true ->
  Py.split_aux (t ++ String c rest) EmptyString
  = t :: Py.split_aux rest EmptyString.
Proof.
  intros H Hc. apply is_token_inv in H. destruct H as [Hne Hs].
  rewrite split_aux_solid by exact Hs. cbn [Py.split_aux]. rewrite Hc.
  destruct t as [|d t]; [discriminate|]. simpl.
  pose proof (rev_string_nonempty t (String d EmptyString) eq_refl) as Hn.
  pose proof (rev_string_rev t (String d EmptyString) EmptyString) as Hr.
  destruct (Py.rev_string t (String d EmptyString)); [discriminate|].
  rewrite Hr. simpl. now rewrite append_nil_r.
Qed.

(** Tokens joined by single blanks, none or more of them, followed by
    a blank. *)
Lemma split_aux_join_blank (toks : list string) (rest : string) (c : ascii) :
  forallb is_token toks = true -> Py.is_space c = true ->
  Py.split_aux (Py.join " " toks ++ String c rest) EmptyString
  = (toks ++ Py.split_aux rest EmptyString)%list.
Proof.
  intros H Hc. induction toks as [|t ts IH].
  - cbn [Py.join String.concat append Py.split_aux app]. now rewrite Hc.
  - simpl in H. apply andb_true_iff in H. destruct H as [Ht Hts].
    rewrite join_cons. destruct ts as [|t' ts].
    + now rewrite split_aux_token_blank.
    + rewrite append_assoc. cbn [append].
      rewrite split_aux_token_blank by (exact Ht || reflexivity).
      cbn [app]. f_equal. now apply IH.
Qed.

End SplitFacts.

(** ** Writing a HepMC3 file and reading it back *)

Section HepMC3Records.
Context {F : Type} {FM : FloatModel F}.
Import models textio hepmc3 hepmc3_reader hepmc3_writer hepmc3_notions.
Variable format_g : nat -> F -> string.

Lemma split_aux_spaced (toks : list string) (last : string) :
  forallb is_token toks = true ->
  Py.split_aux (spaced toks last) EmptyString
  = (toks ++ Py.split_aux last EmptyString)%list.
Proof.
  induction toks as [|t ts IH]; intros H; [reflexivity|].
  simpl in H. apply andb_true_iff in H. destruct H as [Ht Hts].
  cbn [spaced fold_right].
  rewrite split_aux_token_blank by (exact Ht || reflexivity).
  cbn [app]. f_equal. now apply IH.
Qed.

Lemma all_chars_spaced (f : ascii -> bool) (toks : list string)
      (last : string) :
  f " "%char = true ->
  forallb (all_chars f) toks = true -> all_chars f last = true ->
  all_chars f (spaced toks last) = true.
Proof.
  intros Hsp H Hl. induction toks as [|t ts IH]; [exact Hl|].
  simpl in H. apply andb_true_iff in H. destruct H as [Ht Hts].
  cbn [spaced fold_right]. rewrite all_chars_app, Ht. simpl.
  rewrite Hsp. now apply IH.
Qed.

Lemma token_line_chars (t : string) :
  is_token t = true -> all_chars line_char t = true.
Proof.
  intros H. apply is_token_inv in H. destruct H as [_ H].
  apply (all_chars_weaken (fun c => negb (Py.is_space c)));
    [apply solid_line_char|exact H].
Qed.

(** The first character of a line survives [strip] when it is not a
    blank. *)
Lemma strip_head (c : ascii) (r : string) :
  Py.is_space c = false -> exists r', Py.strip (String c r) = String c r'.
Proof.
  intros Hc. unfold Py.strip.
  rewrite (lstrip_solid (String c r)) by exact Hc.
  destruct (rstrip_decompose (String c r)) as [ws [Hws E]].
  destruct (Py.rstrip (String c r)) as [|d r'].
  - simpl in E. subst ws. simpl in Hws. now rewrite Hc in Hws.
  - simpl in E. injection E as <- _. now exists r'.
Qed.

(** A line that begins with a capital letter other than [H] is neither
    skipped nor taken for a header. *)
Lemma events_from_record (c : ascii) (r : string) (rest : list string)
      (current : option (Event F)) (vertices : list (Z * Vertex F)) :
  Py.is_space c = false ->
  Ascii.eqb c "#"%char = false -> Ascii.eqb c "H"%char = false ->
  events_from (String c r :: rest) current vertices
  = match Py.split (String c r) with
    | [] => events_from rest current vertices
    | tag :: _ =>
        if run_tag tag then events_from rest current vertices
        else if String.eqb tag "E" then
          (finished current vertices
           ++ events_from rest (Some (E_branch (Py.strip (String c r)))) [])%list
        else
          match current with
          | None => events_from rest current vertices
          | Some ev =>
              if String.eqb tag "W" then
                match W_branch (String c r) with
                | [] => events_from rest current vertices
                | ws => events_from rest (Some (set_weights ws ev)) vertices
                end
              else if String.eqb tag "V" then
                match V_branch (String c r) with
                | None => events_from rest current vertices
                | Some v =>
                    events_from rest current
                      (dict.set Z.eqb vertices (v_barcode v) v)
                end
              else if String.eqb tag "P" then
                match P_branch (String c r) with
                | None => events_from rest current vertices
                | Some p =>
                    events_from rest
                      (Some (with_particles ev (particles ev ++ [p])%list))
                      vertices
                end
              else
                events_from rest
                  (Some (keep_unknown (Py.strip (String c r)) ev)) vertices
          end
    end.
Proof.
  intros Hc Hh HH. cbn [events_from].
  destruct (strip_head c r Hc) as [r' E].
  assert (Hw : W_branch (Py.strip (String c r)) = W_branch (F := F) (String c r))
    by (unfold W_branch; now rewrite split_strip).
  assert (Hv : V_branch (Py.strip (String c r)) = V_branch (F := F) (String c r))
    by (unfold V_branch; now rewrite split_strip).
  assert (Hp : P_branch (Py.strip (String c r)) = P_branch (F := F) (String c r))
    by (unfold P_branch; now rewrite split_strip).
  rewrite Hw, Hv, Hp, split_strip.
  rewrite E.
  unfold Py.startswith. cbn [Py.is_empty String.prefix orb].
  rewrite Ascii.eqb_sym in Hh, HH.
  destruct (Ascii.ascii_dec "#" c) as [<-|_]; [discriminate|].
  destruct (Ascii.ascii_dec "H" c) as [<-|_]; [discriminate|].
  reflexivity.
Qed.

(** *** The [P] record *)

Lemma P_branch_written (i : Z) (p : Particle F) :
  particle_survives format_g p ->
  P_branch (P_line format_g i p) = Some (kept_particle i p).
Proof.
  intros ((Hx1 & Hx) & (Hy1 & Hy) & (Hz1 & Hz) & (He1 & He) & (Hm1 & Hm) & Hst).
  unfold kept_particle.
  unfold status_code in *.
  destruct (out_status p) as [| |st| | |] eqn:Ho; try contradiction.
  clear Hst.
  set (bc := if barcode p =? 0 then i else barcode p).
  assert (Hs : Py.split (P_line format_g i p)
               = [ "P"; Py.str_of_int bc; Py.str_of_int (pdg_id p);
                   Py.str_of_int st; format_g 17 (px p); format_g 17 (py p);
                   format_g 17 (pz p); format_g 17 (energy p);
                   format_g 17 (mass p); Py.str_of_int (vertex_barcode p);
                   Py.str_of_int (end_vertex_barcode p) ]).
  { unfold Py.split, P_line. rewrite Ho. fold bc. cbn [status_text].
    change ("P " ++ ?x) with ("P" ++ String " "%char x).
    match goal with
    | |- Py.split_aux ?s _ = ?l =>
        change s with (spaced (removelast l)
                         (Py.str_of_int (end_vertex_barcode p) ++ nl))
    end.
    rewrite split_aux_spaced.
    - cbn [removelast app]. repeat f_equal.
      apply (split_aux_last _ nl); [apply str_of_int_token|reflexivity].
    - cbn [removelast forallb].
      rewrite !str_of_int_token, Hx1, Hy1, Hz1, He1, Hm1. reflexivity. }
  unfold P_branch. rewrite Hs.
  unfold int_at, float_at, Py.getitem.
  cbn [nth_error bind List.length Nat.ltb Nat.leb].
  rewrite !int_of_str_of_int. cbn [bind].
  rewrite Hx, Hy, Hz, He, Hm. cbn [bind try_or].
  destruct (negb (mapped_status st =? st)); reflexivity.
Qed.

(** *** The [V] record *)

Lemma read_ints_written (l : list Z) (rest : list string) :
  read_ints (List.length l) (map Py.str_of_int l ++ rest)%list = (l, rest).
Proof.
  induction l as [|x l IH]; [reflexivity|].
  cbn [List.length map app read_ints]. rewrite IH, int_of_str_of_int.
  reflexivity.
Qed.

Lemma str_of_int_tokens (l : list Z) :
  forallb is_token (map Py.str_of_int l) = true.
Proof.
  induction l as [|x l IH]; [reflexivity|].
  cbn [map forallb]. now rewrite str_of_int_token, IH.
Qed.

Lemma V_branch_written (v : Vertex F) :
  vertex_survives format_g v ->
  V_branch (V_line format_g v) = Some v.
Proof.
  intros ((Hx1 & Hx) & (Hy1 & Hy) & (Hz1 & Hz) & (Ht1 & Ht)).
  assert (Hs : Py.split (V_line format_g v)
               = ([ "V"; Py.str_of_int (v_barcode v); format_g 17 (v_x v);
                    format_g 17 (v_y v); format_g 17 (v_z v);
                    format_g 17 (v_t v);
                    Py.str_of_int (Z.of_nat (List.length (v_incoming v)));
                    Py.str_of_int (Z.of_nat (List.length (v_outgoing v))) ]
                  ++ map Py.str_of_int (v_incoming v)
                  ++ map Py.str_of_int (v_outgoing v))%list).
  { unfold Py.split, V_line.
    change ("V " ++ ?x) with ("V" ++ String " "%char x).
    match goal with
    | |- Py.split_aux ?s _ = (?l ++ _)%list =>
        change s
          with (spaced l
                  (Py.join " " (map Py.str_of_int (v_incoming v))
                   ++ String " "%char
                        (Py.join " " (map Py.str_of_int (v_outgoing v))
                         ++ String LF EmptyString)))
    end.
    rewrite split_aux_spaced.
    - f_equal.
      rewrite split_aux_join_blank
        by (apply str_of_int_tokens || reflexivity).
      f_equal.
      rewrite split_aux_join_blank
        by (apply str_of_int_tokens || reflexivity).
      apply app_nil_r.
    - cbn [forallb]. rewrite !str_of_int_token, Hx1, Hy1, Hz1, Ht1.
      reflexivity. }
  unfold V_branch. rewrite Hs.
  unfold int_at, float_at, Py.getitem.
  cbn [nth_error bind List.length Nat.ltb Nat.leb app skipn].
  rewrite !int_of_str_of_int. cbn [bind].
  rewrite Hx, Hy, Hz, Ht. cbn [bind].
  rewrite !Nat2Z.id, read_ints_written.
  rewrite <- (app_nil_r (map Py.str_of_int (v_outgoing v))).
  rewrite read_ints_written.
  destruct v; reflexivity.
Qed.

(** *** The [W] and [E] records *)

Lemma weight_tokens (ws : list F) :
  Forall (survives format_g) ws ->
  forallb is_token (map (format_g 17) ws) = true.
Proof.
  induction 1 as [|w ws [Hw _] _ IH]; [reflexivity|].
  cbn [map forallb]. now rewrite Hw, IH.
Qed.

Lemma W_branch_written (ev : Event F) :
  Forall (survives format_g) (weights ev) ->
  W_branch (W_line format_g ev) = weights ev.
Proof.
  intros Hws. unfold W_branch, W_line, Py.split.
  change ("W " ++ ?x) with ("W" ++ String " "%char x).
  rewrite split_aux_token_blank by reflexivity.
  change nl with (String LF EmptyString).
  rewrite split_aux_join_blank by (now apply weight_tokens || reflexivity).
  cbn [tl Py.split_aux]. rewrite app_nil_r.
  induction Hws as [|w ws [_ Hw] _ IH]; [reflexivity|].
  cbn [map flat_map]. now rewrite Hw, IH.
Qed.

Lemma E_line_stripped (n : Z) :
  Py.strip ("E " ++ Py.str_of_int n ++ nl) = "E " ++ Py.str_of_int n.
Proof.
  rewrite <- append_assoc.
  apply strip_record; [reflexivity| |reflexivity].
  apply (ends_solid_app "E "), ends_solid_token, str_of_int_token.
Qed.

Lemma E_line_split (n : Z) :
  Py.split ("E " ++ Py.str_of_int n ++ nl) = ["E"; Py.str_of_int n].
Proof.
  unfold Py.split.
  change ("E " ++ ?x) with ("E" ++ String " "%char x).
  rewrite split_aux_token_blank by reflexivity.
  f_equal. apply split_aux_last; [apply str_of_int_token|reflexivity].
Qed.

Lemma E_branch_written (n : Z) :
  E_branch ("E " ++ Py.str_of_int n)
  = set_extra
      [("hepmc3", json.JDict [("E_raw", json.JStr ("E " ++ Py.str_of_int n))])]
      (default_event (F := F) n).
Proof.
  unfold E_branch.
  assert (Hs : Py.split ("E " ++ Py.str_of_int n) = ["E"; Py.str_of_int n]).
  { unfold Py.split.
    change ("E " ++ ?x) with ("E" ++ String " "%char x).
    rewrite split_aux_token_blank by reflexivity.
    f_equal. rewrite <- (append_nil_r (Py.str_of_int n)) at 1.
    apply split_aux_last; [apply str_of_int_token|reflexivity]. }
  rewrite Hs. unfold int_at, Py.getitem.
  cbn [List.length Nat.leb nth_error bind].
  now rewrite int_of_str_of_int.
Qed.

(** *** The loop over the records of one event *)

Lemma events_from_E (n : Z) (rest : list string)
      (current : option (Event F)) (vertices : list (Z * Vertex F)) :
  events_from (("E " ++ Py.str_of_int n ++ nl) :: rest) current vertices
  = (finished current vertices
     ++ events_from rest
          (Some (set_extra
                   [("hepmc3",
                     json.JDict
                       [("E_raw", json.JStr ("E " ++ Py.str_of_int n))])]
                   (default_event n)))
          [])%list.
Proof.
  change ("E " ++ Py.str_of_int n ++ nl)
    with (String "E"%char (" " ++ Py.str_of_int n ++ nl)).
  rewrite events_from_record by reflexivity.
  change (String "E"%char (" " ++ Py.str_of_int n ++ nl))
    with ("E " ++ Py.str_of_int n ++ nl).
  rewrite E_line_split, E_line_stripped, E_branch_written. reflexivity.
Qed.

Lemma events_from_W (ev e : Event F) (rest : list string)
      (vertices : list (Z * Vertex F)) :
  Forall (survives format_g) (weights ev) -> weights ev <> [] ->
  events_from (W_line format_g ev :: rest) (Some e) vertices
  = events_from rest (Some (set_weights (weights ev) e)) vertices.
Proof.
  intros Hws Hne.
  assert (Hs : exists tl, Py.split (W_line format_g ev) = "W" :: tl).
  { unfold W_line, Py.split.
    change ("W " ++ ?x) with ("W" ++ String " "%char x).
    rewrite split_aux_token_blank by reflexivity. eexists; reflexivity. }
  destruct Hs as [tl Hs].
  pose proof (W_branch_written ev Hws) as Hw.
  unfold W_line in *.
  change ("W " ++ ?x) with (String "W"%char (" " ++ x)) in *.
  rewrite events_from_record by reflexivity.
  rewrite Hs, Hw. cbn [run_tag String.eqb Ascii.eqb Bool.eqb orb].
  destruct (weights ev); [contradiction|reflexivity].
Qed.

Lemma events_from_Vs (vs : list (Vertex F)) (e : Event F)
      (rest : list string) (d : list (Z * Vertex F)) :
  Forall (vertex_survives format_g) vs ->
  events_from (map (V_line format_g) vs ++ rest)%list (Some e) d
  = events_from rest (Some e)
      (fold_left (fun d v => dict.set Z.eqb d (v_barcode v) v) vs d).
Proof.
  intros H. revert d. induction H as [|v vs Hv _ IH]; intros d;
    [reflexivity|].
  cbn [map app fold_left].
  assert (Hs : exists tl, Py.split (V_line format_g v) = "V" :: tl).
  { unfold V_line, Py.split.
    change ("V " ++ ?x) with ("V" ++ String " "%char x).
    rewrite split_aux_token_blank by reflexivity. eexists; reflexivity. }
  destruct Hs as [tl Hs].
  pose proof (V_branch_written v Hv) as Hb.
  unfold V_line in *.
  change ("V " ++ ?x) with (String "V"%char (" " ++ x)) in *.
  rewrite events_from_record by reflexivity.
  rewrite Hs, Hb. cbn [run_tag String.eqb Ascii.eqb Bool.eqb orb].
  apply IH.
Qed.

Lemma events_from_Ps (ps : list (Particle F)) (i : Z) (e : Event F)
      (rest : list string) (d : list (Z * Vertex F)) :
  Forall (particle_survives format_g) ps ->
  events_from
    (map (fun ip => P_line format_g (fst ip) (snd ip)) (enumerate1 i ps)
     ++ rest)%list (Some e) d
  = events_from rest
      (Some (with_particles e
               (particles e
                ++ map (fun ip => kept_particle (fst ip) (snd ip))
                       (enumerate1 i ps))%list))
      d.
Proof.
  intros H. revert i e. induction H as [|p ps Hp _ IH]; intros i e.
  - cbn [enumerate1 map app]. rewrite app_nil_r. now destruct e.
  - cbn [enumerate1 map app fst snd].
    assert (Hs : exists tl, Py.split (P_line format_g i p) = "P" :: tl).
    { unfold P_line, Py.split.
      change ("P " ++ ?x) with ("P" ++ String " "%char x).
      rewrite split_aux_token_blank by reflexivity. eexists; reflexivity. }
    destruct Hs as [tl Hs].
    pose proof (P_branch_written i p Hp) as Hb.
    unfold P_line in *.
    change ("P " ++ ?x) with (String "P"%char (" " ++ x)) in *.
    rewrite events_from_record by reflexivity.
    rewrite Hs, Hb. cbn [run_tag String.eqb Ascii.eqb Bool.eqb orb].
    rewrite IH. cbn [with_particles particles].
    now rewrite <- app_assoc.
Qed.

End HepMC3Records.

(** ** Vertices by identifier, in the order of the identifiers *)

Section VertexOrder.
Context {F : Type} {FM : FloatModel F}.
Import models.

Local Abbreviation vdict := (list (Z * Vertex F)).

Lemma zdict_set_new {V : Type} (d : list (Z * V)) (k : Z) (v : V) :
  ~ In k (map fst d) -> dict.set Z.eqb d k v = (d ++ [(k, v)])%list.
Proof.
  induction d as [|[k' v'] d IH]; intros H; [reflexivity|].
  cbn [dict.set app]. cbn [map fst In] in H.
  destruct (Z.eqb_spec k' k) as [->|_]; [exfalso; apply H; now left|].
  rewrite IH; [reflexivity|]. intros Hin. apply H. now right.
Qed.

Lemma zdict_set_keys {V : Type} (d : list (Z * V)) (k : Z) (v : V) :
  In k (map fst d) -> map fst (dict.set Z.eqb d k v) = map fst d.
Proof.
  induction d as [|[k' v'] d IH]; intros H; [contradiction|].
  cbn [dict.set]. destruct (Z.eqb_spec k' k) as [->|Hn]; [reflexivity|].
  cbn [map fst]. f_equal. apply IH.
  destruct H as [H|H]; [contradiction|exact H].
Qed.

Lemma zdict_set_nodup {V : Type} (d : list (Z * V)) (k : Z) (v : V) :
  NoDup (map fst d) -> NoDup (map fst (dict.set Z.eqb d k v)).
Proof.
  intros Hd. destruct (in_dec Z.eq_dec k (map fst d)) as [Hin|Hn].
  - now rewrite zdict_set_keys.
  - rewrite zdict_set_new by exact Hn. rewrite map_app.
    apply NoDup_app; [exact Hd|repeat constructor; intros []|].
    intros x Hx [<-|[]]. contradiction.
Qed.

Lemma zdict_set_in {V : Type} (d : list (Z * V)) (k : Z) (v : V)
      (kv : Z * V) :
  In kv (dict.set Z.eqb d k v) -> kv = (k, v) \/ In kv d.
Proof.
  induction d as [|[k' v'] d IH]; cbn [dict.set].
  - intros [<-|[]]. now left.
  - destruct (Z.eqb_spec k' k) as [->|_].
    + intros [<-|H]; [now left|right; now right].
    + intros [<-|H]; [right; now left|].
      destruct (IH H) as [->|H']; [now left|right; now right].
Qed.

Lemma zdict_get_in {V : Type} (d : list (Z * V)) (k : Z) (v : V) :
  dict.get Z.eqb d k = Some v -> In (k, v) d.
Proof.
  induction d as [|[k' v'] d IH]; cbn [dict.get]; [discriminate|].
  destruct (Z.eqb_spec k' k) as [->|_].
  - intros [= ->]. now left.
  - intros H. right. now apply IH.
Qed.

Lemma zdict_in_get {V : Type} (d : list (Z * V)) (k : Z) (v : V) :
  NoDup (map fst d) -> In (k, v) d -> dict.get Z.eqb d k = Some v.
Proof.
  induction d as [|[k' v'] d IH]; intros Hd Hin; [contradiction|].
  cbn [map fst] in Hd. inversion Hd as [|? ? Hn Hd']; subst.
  cbn [dict.get]. destruct Hin as [[= -> ->]|Hin].
  - now rewrite Z.eqb_refl.
  - destruct (Z.eqb_spec k' k) as [->|_]; [|now apply IH].
    exfalso. apply Hn. apply (in_map fst) in Hin. exact Hin.
Qed.

Lemma zdict_key_get {V : Type} (d : list (Z * V)) (k : Z) :
  In k (map fst d) -> exists v, dict.get Z.eqb d k = Some v.
Proof.
  induction d as [|[k' v'] d IH]; intros H; [contradiction|].
  cbn [dict.get]. destruct (Z.eqb_spec k' k) as [->|Hn]; [eauto|].
  apply IH. destruct H as [H|H]; [contradiction|exact H].
Qed.

(** *** [sorted] *)

Lemma insert_Z_perm (x : Z) (l : list Z) :
  Permutation (dict.insert_Z x l) (x :: l).
Proof.
  induction l as [|y l IH]; cbn [dict.insert_Z]; [reflexivity|].
  destruct (x <=? y); [reflexivity|].
  rewrite IH. apply perm_swap.
Qed.

Lemma sorted_Z_perm (l : list Z) : Permutation (dict.sorted_Z l) l.
Proof.
  induction l as [|x l IH]; [reflexivity|].
  cbn [dict.sorted_Z fold_right]. fold (dict.sorted_Z l).
  rewrite insert_Z_perm. now constructor.
Qed.

Lemma insert_Z_sorted (x : Z) (l : list Z) :
  StronglySorted Z.le l -> StronglySorted Z.le (dict.insert_Z x l).
Proof.
  induction 1 as [|y l Hl IH Hy]; cbn [dict.insert_Z].
  - repeat constructor.
  - destruct (Z.leb_spec x y).
    + constructor; [now constructor|].
      constructor; [assumption|].
      eapply Forall_impl; [|exact Hy]. intros; lia.
    + constructor; [exact IH|].
      rewrite (Forall_forall (Z.le y)). intros z Hz.
      apply (Permutation_in _ (insert_Z_perm x l)) in Hz.
      destruct Hz as [<-|Hz]; [lia|].
      now apply (proj1 (Forall_forall _ _) Hy).
Qed.

Lemma sorted_Z_sorted (l : list Z) : StronglySorted Z.le (dict.sorted_Z l).
Proof.
  induction l as [|x l IH]; [constructor|].
  cbn [dict.sorted_Z fold_right]. now apply insert_Z_sorted.
Qed.

Lemma sorted_nodup_strict (l : list Z) :
  StronglySorted Z.le l -> NoDup l -> StronglySorted Z.lt l.
Proof.
  induction 1 as [|x l Hl IH Hx]; intros Hn; [constructor|].
  inversion Hn as [|? ? Hnx Hn']; subst.
  constructor; [now apply IH|].
  rewrite Forall_forall in *. intros y Hy.
  specialize (Hx y Hy). assert (x <> y) by (intros ->; contradiction). lia.
Qed.

Lemma sorted_Z_fixed (l : list Z) :
  StronglySorted Z.lt l -> dict.sorted_Z l = l.
Proof.
  induction 1 as [|x l Hl IH Hx]; [reflexivity|].
  cbn [dict.sorted_Z fold_right]. fold (dict.sorted_Z l). rewrite IH.
  destruct l as [|y l]; [reflexivity|].
  cbn [dict.insert_Z]. inversion Hx; subst.
  destruct (Z.leb_spec x y); [reflexivity|lia].
Qed.

Lemma strict_nodup (l : list Z) : StronglySorted Z.lt l -> NoDup l.
Proof.
  induction 1 as [|x l Hl IH Hx]; constructor; [|exact IH].
  intros Hin. rewrite Forall_forall in Hx. specialize (Hx x Hin). lia.
Qed.

(** *** The vertices of an event by identifier *)

(** Every vertex is stored under its own identifier. *)
Let keyed (d : vdict) : Prop :=
  Forall (fun kv => v_barcode (snd kv) = fst kv) d.

Lemma vtx_fold_invariant (vs : list (Vertex F)) (d : vdict) :
  keyed d -> NoDup (map fst d) ->
  let d' := fold_left (fun d v => dict.set Z.eqb d (v_barcode v) v) vs d in
  keyed d' /\ NoDup (map fst d') /\
  forall kv, In kv d' -> In kv d \/ In (snd kv) vs.
Proof.
  revert d. induction vs as [|v vs IH]; intros d Hk Hn; cbn [fold_left].
  - repeat split; try assumption. intros kv H. now left.
  - destruct (IH (dict.set Z.eqb d (v_barcode v) v)) as (H1 & H2 & H3).
    + unfold keyed. rewrite Forall_forall. intros kv Hin.
      destruct (zdict_set_in _ _ _ _ Hin) as [->|Hin']; [reflexivity|].
      now apply (proj1 (Forall_forall _ _) Hk).
    + now apply zdict_set_nodup.
    + repeat split; try assumption. intros kv Hin.
      destruct (H3 kv Hin) as [Hin'|Hin']; [|right; now right].
      destruct (zdict_set_in _ _ _ _ Hin') as [->|Hd]; [right; now left|].
      now left.
Qed.

Lemma vertices_sorted_barcodes (d : vdict) :
  keyed d -> NoDup (map fst d) ->
  map v_barcode (hepmc3.vertices_sorted d) = dict.sorted_Z (map fst d).
Proof.
  intros Hk Hn. unfold hepmc3.vertices_sorted.
  assert (Hks : Forall (fun k => In k (map fst d)) (dict.sorted_Z (map fst d))).
  { rewrite Forall_forall. intros k Hin.
    now apply (Permutation_in _ (sorted_Z_perm _)) in Hin. }
  induction Hks as [|k ks Hin _ IH]; [reflexivity|].
  cbn [flat_map]. destruct (zdict_key_get d k Hin) as [v Hv]. rewrite Hv.
  cbn [app map]. f_equal; [|exact IH].
  apply zdict_get_in in Hv.
  exact (proj1 (Forall_forall _ _) Hk _ Hv).
Qed.

Lemma vertices_sorted_in (d : vdict) (v : Vertex F) :
  In v (hepmc3.vertices_sorted d) -> exists k, In (k, v) d.
Proof.
  unfold hepmc3.vertices_sorted. intros H. apply in_flat_map in H.
  destruct H as [k [_ H]].
  destruct (dict.get Z.eqb d k) as [v'|] eqn:E; [|contradiction].
  destruct H as [<-|[]]. exists k. now apply zdict_get_in.
Qed.

Lemma vtx_by_id_strict (vs : list (Vertex F)) (d : vdict) :
  StronglySorted Z.lt (map v_barcode vs) ->
  (forall v, In v vs -> ~ In (v_barcode v) (map fst d)) ->
  fold_left (fun d v => dict.set Z.eqb d (v_barcode v) v) vs d
  = (d ++ map (fun v => (v_barcode v, v)) vs)%list.
Proof.
  revert d. induction vs as [|v vs IH]; intros d Hs Hd; cbn [fold_left map].
  - now rewrite app_nil_r.
  - cbn [map] in Hs. inversion Hs as [|? ? Hs' Hlt]; subst.
    rewrite zdict_set_new by (apply Hd; now left).
    rewrite IH; [now rewrite <- app_assoc|exact Hs'|].
    intros w Hw Hin. rewrite map_app in Hin. apply in_app_or in Hin.
    destruct Hin as [Hin|[Hin|[]]].
    + apply (Hd w); [now right|exact Hin].
    + cbn [fst] in Hin. rewrite Forall_forall in Hlt.
      specialize (Hlt (v_barcode w) (in_map _ _ _ Hw)). lia.
Qed.

(** Vertices in strictly increasing order of their identifiers are what
    comes out of storing them by identifier and listing them in order. *)
Lemma vertices_sorted_strict (vs : list (Vertex F)) :
  StronglySorted Z.lt (map v_barcode vs) ->
  hepmc3.vertices_sorted (hepmc3_writer.vtx_by_id vs) = vs.
Proof.
  intros Hs. unfold hepmc3_writer.vtx_by_id.
  rewrite vtx_by_id_strict by (exact Hs || intros v _ []).
  cbn [app]. unfold hepmc3.vertices_sorted.
  rewrite map_map. cbn [fst]. rewrite sorted_Z_fixed by exact Hs.
  assert (Hn : NoDup (map fst (map (fun v => (v_barcode v, v)) vs))).
  { rewrite map_map. cbn [fst]. now apply strict_nodup. }
  assert (Hsub : Forall (fun v => In v vs) vs)
    by (rewrite Forall_forall; auto).
  revert Hsub. generalize vs at 2 4 5. intros ws Hsub.
  induction Hsub as [|w ws Hw _ IH]; [reflexivity|].
  cbn [map flat_map].
  rewrite (zdict_in_get _ (v_barcode w) w Hn)
    by (apply (in_map (fun v => (v_barcode v, v))); exact Hw).
  cbn [app]. f_equal. exact IH.
Qed.

Lemma vtx_by_id_sorted_strict (vs : list (Vertex F)) :
  StronglySorted Z.lt
    (map v_barcode (hepmc3.vertices_sorted (hepmc3_writer.vtx_by_id vs))).
Proof.
  unfold hepmc3_writer.vtx_by_id.
  destruct (vtx_fold_invariant vs []) as (Hk & Hn & _);
    [constructor|constructor|].
  cbv zeta in Hk, Hn.
  rewrite (vertices_sorted_barcodes _ Hk Hn).
  apply sorted_nodup_strict; [apply sorted_Z_sorted|].
  eapply Permutation_NoDup; [symmetry; apply sorted_Z_perm|exact Hn].
Qed.

(** Listing the stored vertices in order is idempotent. *)
Lemma vertices_sorted_idempotent (vs : list (Vertex F)) :
  hepmc3.vertices_sorted
    (hepmc3_writer.vtx_by_id
       (hepmc3.vertices_sorted (hepmc3_writer.vtx_by_id vs)))
  = hepmc3.vertices_sorted (hepmc3_writer.vtx_by_id vs).
Proof. apply vertices_sorted_strict, vtx_by_id_sorted_strict. Qed.

Lemma vertices_sorted_subset (vs : list (Vertex F)) (v : Vertex F) :
  In v (hepmc3.vertices_sorted (hepmc3_writer.vtx_by_id vs)) -> In v vs.
Proof.
  intros H. destruct (vertices_sorted_in _ _ H) as [k Hk].
  unfold hepmc3_writer.vtx_by_id in Hk.
  destruct (vtx_fold_invariant vs []) as (_ & _ & H3);
    [constructor|constructor|].
  destruct (H3 _ Hk) as [[]|Hin]. exact Hin.
Qed.

End VertexOrder.

(** ** The events of a written HepMC3 file *)

Section HepMC3File.
Context {F : Type} {FM : FloatModel F}.
Import models textio hepmc3 hepmc3_reader hepmc3_writer hepmc3_notions.
Variable format_g : nat -> F -> string.

Lemma spaced_app (toks : list string) (a b : string) :
  spaced toks (a ++ b) = spaced toks a ++ b.
Proof.
  induction toks as [|t ts IH]; [reflexivity|].
  cbn [spaced fold_right]. fold (spaced ts (a ++ b)). fold (spaced ts a).
  rewrite IH, append_assoc. reflexivity.
Qed.

Lemma lines_spaced (toks : list string) (last rest : string) :
  forallb is_token toks = true -> all_chars line_char last = true ->
  lines_from (spaced toks (last ++ nl) ++ rest) EmptyString false
  = spaced toks (last ++ nl) :: lines_from rest EmptyString false.
Proof.
  intros Ht Hl. rewrite spaced_app. apply lines_fixed.
  apply all_chars_spaced; [reflexivity| |exact Hl].
  apply (forallb_weaken is_token); [apply token_line_chars|exact Ht].
Qed.

Lemma join_line_chars (toks : list string) :
  forallb is_token toks = true ->
  all_chars line_char (Py.join " " toks) = true.
Proof.
  intros H. apply all_chars_join; [reflexivity|].
  apply (forallb_weaken is_token); [apply token_line_chars|exact H].
Qed.

Lemma lines_E (n : Z) (rest : string) :
  lines_from ("E " ++ Py.str_of_int n ++ nl ++ rest) EmptyString false
  = ("E " ++ Py.str_of_int n ++ nl) :: lines_from rest EmptyString false.
Proof.
  rewrite <- (append_assoc (Py.str_of_int n) nl rest).
  change ("E " ++ ?x) with (spaced ["E"] x).
  rewrite spaced_app.
  apply lines_spaced; [reflexivity|].
  apply token_line_chars, str_of_int_token.
Qed.

Lemma lines_W (ev : Event F) (rest : string) :
  Forall (survives format_g) (weights ev) ->
  lines_from (W_line format_g ev ++ rest) EmptyString false
  = W_line format_g ev :: lines_from rest EmptyString false.
Proof.
  intros H. unfold W_line.
  change ("W " ++ ?x ++ nl) with (spaced ["W"] (x ++ nl)).
  apply lines_spaced; [reflexivity|].
  apply join_line_chars, weight_tokens, H.
Qed.

Lemma V_line_spaced (v : Vertex F) :
  V_line format_g v
  = spaced [ "V"; Py.str_of_int (v_barcode v); format_g 17 (v_x v);
             format_g 17 (v_y v); format_g 17 (v_z v); format_g 17 (v_t v);
             Py.str_of_int (Z.of_nat (List.length (v_incoming v)));
             Py.str_of_int (Z.of_nat (List.length (v_outgoing v))) ]
           ((Py.join " " (map Py.str_of_int (v_incoming v)) ++ " "
             ++ Py.join " " (map Py.str_of_int (v_outgoing v))) ++ nl).
Proof.
  unfold V_line. rewrite !append_assoc. reflexivity.
Qed.

Lemma lines_Vs (vs : list (Vertex F)) (rest : string) :
  Forall (vertex_survives format_g) vs ->
  lines_from (lhe_writer.written (map (V_line format_g) vs) ++ rest)
             EmptyString false
  = (map (V_line format_g) vs ++ lines_from rest EmptyString false)%list.
Proof.
  induction 1 as [|v vs Hv _ IH]; [reflexivity|].
  cbn [map lhe_writer.written app]. rewrite append_assoc.
  destruct Hv as ((Hx & _) & (Hy & _) & (Hz & _) & (Ht & _)).
  rewrite V_line_spaced at 1. rewrite lines_spaced.
  - rewrite <- V_line_spaced. now rewrite IH.
  - cbn [forallb]. rewrite !str_of_int_token, Hx, Hy, Hz, Ht. reflexivity.
  - rewrite all_chars_app, (join_line_chars _ (str_of_int_tokens _)).
    cbn [append all_chars andb].
    replace (line_char " ") with true by reflexivity.
    apply (join_line_chars _ (str_of_int_tokens _)).
Qed.

Lemma P_line_spaced (i : Z) (p : Particle F) :
  P_line format_g i p
  = spaced [ "P"; Py.str_of_int (if barcode p =? 0 then i else barcode p);
             Py.str_of_int (pdg_id p); status_text (out_status p);
             format_g 17 (px p); format_g 17 (py p); format_g 17 (pz p);
             format_g 17 (energy p); format_g 17 (mass p);
             Py.str_of_int (vertex_barcode p) ]
           (Py.str_of_int (end_vertex_barcode p) ++ nl).
Proof. reflexivity. Qed.

Lemma lines_Ps (ps : list (Particle F)) (i : Z) (rest : string) :
  Forall (particle_survives format_g) ps ->
  lines_from
    (lhe_writer.written
       (map (fun ip => P_line format_g (fst ip) (snd ip)) (enumerate1 i ps))
     ++ rest) EmptyString false
  = (map (fun ip => P_line format_g (fst ip) (snd ip)) (enumerate1 i ps)
     ++ lines_from rest EmptyString false)%list.
Proof.
  intros H. revert i. induction H as [|p ps Hp _ IH]; intros i;
    [reflexivity|].
  cbn [enumerate1 map lhe_writer.written app fst snd].
  rewrite append_assoc.
  destruct Hp as ((Hx & _) & (Hy & _) & (Hz & _) & (He & _) & (Hm & _) & Hst).
  rewrite P_line_spaced at 1. rewrite lines_spaced.
  - rewrite <- P_line_spaced. now rewrite IH.
  - unfold status_code in Hst.
    destruct (out_status p) as [| |st| | |]; try contradiction.
    cbn [forallb status_text].
    rewrite !str_of_int_token, Hx, Hy, Hz, He, Hm. reflexivity.
  - apply token_line_chars, str_of_int_token.
Qed.

Lemma writes_weights_nonempty (ev : Event F) :
  writes_weights ev = true -> weights ev <> [].
Proof. unfold writes_weights. destruct (weights ev); [discriminate|discriminate]. Qed.

(** Reading the records written for one event, whatever follows them:
    the event before is finished, and the event read is the current
    one. *)
Lemma event_text_read (ev0 : Event F) (rest : string)
      (current : option (Event F)) (vertices0 : list (Z * Vertex F)) :
  event_survives format_g (_build_vertices_from_mothers ev0) ->
  exists cur d,
    events_from (lines_from (event_text format_g ev0 ++ rest) EmptyString false)
                current vertices0
    = (finished current vertices0
       ++ events_from (lines_from rest EmptyString false) (Some cur) d)%list /\
    finished (Some cur) d = [kept_event (_build_vertices_from_mothers ev0)].
Proof.
  unfold event_text. set (ev := _build_vertices_from_mothers ev0).
  intros (Hws & Hps & Hvs).
  set (L := vertices_sorted (vtx_by_id (vertices ev))).
  assert (HL : Forall (vertex_survives format_g) L).
  { rewrite Forall_forall. intros v Hv.
    apply vertices_sorted_subset in Hv.
    exact (proj1 (Forall_forall _ _) Hvs v Hv). }
  rewrite !append_assoc.
  rewrite lines_E, events_from_E.
  destruct (writes_weights ev) eqn:Hw.
  - rewrite (lines_W ev _ Hws).
    rewrite (events_from_W format_g ev _ _ _ Hws (writes_weights_nonempty ev Hw)).
    rewrite (lines_Vs L _ HL), (events_from_Vs format_g L _ _ _ HL).
    rewrite (lines_Ps _ 1 _ Hps), (events_from_Ps format_g _ 1 _ _ _ Hps).
    eexists _, _. split; [reflexivity|].
    cbn [finished]. fold (vtx_by_id L). unfold L.
    rewrite vertices_sorted_idempotent.
    unfold kept_event. rewrite Hw. reflexivity.
  - cbn [append].
    rewrite (lines_Vs L _ HL), (events_from_Vs format_g L _ _ _ HL).
    rewrite (lines_Ps _ 1 _ Hps), (events_from_Ps format_g _ 1 _ _ _ Hps).
    eexists _, _. split; [reflexivity|].
    cbn [finished]. fold (vtx_by_id L). unfold L.
    rewrite vertices_sorted_idempotent.
    unfold kept_event. rewrite Hw. reflexivity.
Qed.

Lemma event_texts_read (evs : list (Event F)) :
  Forall (fun ev => event_survives format_g (_build_vertices_from_mothers ev))
         evs ->
  forall current vertices0,
    events_from
      (lines_from (lhe_writer.written (map (event_text format_g) evs))
                  EmptyString false)
      current vertices0
    = (finished current vertices0
       ++ map (fun ev => kept_event (_build_vertices_from_mothers ev)) evs)%list.
Proof.
  induction 1 as [|ev evs Hev _ IH]; intros current vertices0.
  - cbn. now rewrite app_nil_r.
  - cbn [map lhe_writer.written].
    destruct (event_text_read ev
                (lhe_writer.written (map (event_text format_g) evs))
                current vertices0 Hev)
      as [cur [d [Hr Hf]]].
    rewrite Hr, IH, Hf. reflexivity.
Qed.

Lemma written_events (evs : list (Event F)) :
  Forall (fun ev => event_survives format_g (_build_vertices_from_mothers ev))
         evs ->
  iter_hepmc3 (readlines (write format_g evs))
  = map (fun ev => kept_event (_build_vertices_from_mothers ev)) evs.
Proof.
  intros Hevs. unfold iter_hepmc3, readlines, write.
  rewrite <- (append_assoc "HepMC::Version 3.0.0" nl).
  rewrite (lines_fixed "HepMC::Version 3.0.0") by reflexivity.
  rewrite <- (append_assoc "HepMC::Asciiv3" nl).
  rewrite (lines_fixed "HepMC::Asciiv3") by reflexivity.
  rewrite <- (append_assoc "U GEV MM" nl).
  rewrite (lines_fixed "U GEV MM") by reflexivity.
  match goal with
  | |- events_from (_ :: _ :: _ :: ?x) None [] = _ =>
      change (events_from x None []
              = map (fun ev => kept_event (_build_vertices_from_mothers ev))
                    evs)
  end.
  now rewrite event_texts_read.
Qed.

(** Events written by [HepMC3Writer.write] without run information and
    read by [iter_hepmc3] come back with their number, their weights
    (the default when none or the default was written), their vertices
    in the order of the identifiers and their particles as the [P]
    records keep them, when every number written reads back as
    itself. *)
Theorem hepmc3_write_read (evs : list (Event F)) :
  Forall (fun ev => event_survives format_g (_build_vertices_from_mothers ev))
         evs ->
  iter_hepmc3 (readlines (write format_g evs))
  = map (fun ev => kept_event (_build_vertices_from_mothers ev)) evs.
Proof. exact (written_events evs). Qed.

End HepMC3File.

Lemma hepmc3_write_read_witness :
  hepmc3_reader.iter_hepmc3
    (textio.readlines
       (hepmc3_writer.write format_fixtures.format_integral
          [reader_fixtures.w_event]))
  = map (fun ev =>
           hepmc3_notions.kept_event
             (hepmc3._build_vertices_from_mothers ev))
        [reader_fixtures.w_event].
Proof.
  apply (hepmc3_write_read format_fixtures.format_integral
           [reader_fixtures.w_event]).
  repeat constructor; discriminate.
Defined.

(** The file written for that event. *)
Example hepmc3_write_w_event :
  textio.readlines
    (hepmc3_writer.write format_fixtures.format_integral
       [reader_fixtures.w_event])
  = map (fun l => l ++ textio.nl)
      [ "HepMC::Version 3.0.0";
        "HepMC::Asciiv3";
        "U GEV MM";
        "E 1";
        "V -2 0 0 0 0 1 2 3 4 5";
        "V -1 0 0 0 0 2 1 1 2 3";
        "P 1 2 4 0 0 50 50 0 0 -1";
        "P 2 -1 4 0 0 -50 50 0 0 -1";
        "P 3 24 2 0 0 0 100 100 -1 -2";
        "P 4 -11 1 0 0 50 50 0 -2 0";
        "P 5 12 1 0 0 -50 50 0 -2 0" ].
Proof. vm_compute. reflexivity. Qed.

(** ** The status column, from a record read to the record written *)

Section HepMC3Status.
Context {F : Type} {FM : FloatModel F}.
Import models hepmc3.

(** A particle read from a [P] record is written with the status code
    of that record, except that the code -1 is written as 4. *)
Theorem hepmc3_status_read_write (line : string) (p : Particle F) (st : Z) :
  P_branch line = Some p ->
  raw_status line = Ok st ->
  hepmc3_writer.out_status p = json.JInt (if st =? -1 then 4 else st).
Proof.
  intros Hp Hst.
  destruct (P_branch_status line p st Hp Hst) as [Hs Ha].
  unfold hepmc3_writer.out_status. rewrite Hs, Ha. unfold mapped_status.
  destruct (Z.eqb_spec st 4) as [->|H4]; [reflexivity|].
  destruct (Z.eqb_spec st 1) as [->|H1]; [reflexivity|].
  destruct (Z.eqb_spec st 2) as [->|H2]; [reflexivity|].
  destruct (Z.eqb_spec st 3) as [->|H3]; [reflexivity|].
  cbn [orb]. rewrite Z.eqb_refl. cbn [json.dict_get].
  destruct (Z.eqb_spec st (-1)) as [->|Hm]; [reflexivity|].
  destruct (Z.eqb_spec st 1); [contradiction|].
  destruct (Z.eqb_spec st 2); [contradiction|].
  reflexivity.
Qed.

End HepMC3Status.

Lemma hepmc3_status_read_write_witness :
  hepmc3_writer.out_status reader_fixtures.status_11_particle = json.JInt 11.
Proof.
  apply (hepmc3_status_read_write reader_fixtures.status_11_line
           reader_fixtures.status_11_particle 11); reflexivity.
Defined.

(** ** What the vertex reconstruction leaves alone *)

Section BuildRelated.
Context {F : Type} {FM : FloatModel F}.
Import models.
Variable R : Particle F -> Particle F -> Prop.
Hypothesis R_refl : forall p, R p p.
Hypothesis R_trans : forall p q r, R p q -> R q r -> R p r.
Hypothesis R_barcode : forall b p, R p (set_barcode b p).
Hypothesis R_vertex : forall v p, R p (set_vertex_barcode v p).
Hypothesis R_end : forall v p, R p (set_end_vertex_barcode v p).

Lemma Forall2_related_refl (ps : list (Particle F)) : Forall2 R ps ps.
Proof. induction ps; constructor; auto. Qed.

Lemma Forall2_related_trans (ps qs rs : list (Particle F)) :
  Forall2 R ps qs -> Forall2 R qs rs -> Forall2 R ps rs.
Proof.
  intros H; revert rs; induction H; intros rs H'; inversion H'; subst;
    constructor; eauto.
Qed.

Lemma assign_barcodes_related (ps : list (Particle F)) :
  Forall2 R ps (hepmc3.assign_barcodes ps).
Proof.
  unfold hepmc3.assign_barcodes. generalize 1.
  induction ps as [|p ps IH]; intros i; simpl; constructor; [|apply IH].
  destruct (barcode p =? 0); auto.
Qed.

Lemma mark_incoming_related (b : hepmc3.builder) (i : Z)
      (ps : list (Particle F)) :
  Forall2 R ps (snd (hepmc3.mark_incoming b (hepmc3.enumerate1 i ps))).
Proof.
  revert b i; induction ps as [|p ps IH]; intros b i; simpl; [constructor|].
  destruct (status p =? -1).
  - specialize (IH (hepmc3.set_prod_vtx b i 0) (i + 1)).
    destruct (hepmc3.mark_incoming _ _). simpl in *.
    constructor; [apply R_vertex|exact IH].
  - specialize (IH b (i + 1)).
    destruct (hepmc3.mark_incoming _ _). simpl in *.
    constructor; [apply R_refl|exact IH].
Qed.

Lemma create_vertices_related (b : hepmc3.builder) (i : Z)
      (ps : list (Particle F)) :
  Forall2 R ps (snd (hepmc3.create_vertices b (hepmc3.enumerate1 i ps))).
Proof.
  revert b i; induction ps as [|p ps IH]; intros b i; simpl; [constructor|].
  destruct (status p =? -1).
  - specialize (IH b (i + 1)).
    destruct (hepmc3.create_vertices _ _). simpl in *.
    constructor; [apply R_refl|exact IH].
  - destruct (if (mother1 p =? 0) && (mother2 p =? 0)
              then hepmc3._vtx_for b 0 0
              else hepmc3._vtx_for b (mother1 p) (mother2 p)) as [b1 v].
    specialize (IH (hepmc3.set_prod_vtx b1 i v) (i + 1)).
    destruct (hepmc3.create_vertices _ _). simpl in *.
    constructor; [apply R_vertex|exact IH].
Qed.

Lemma map_related (f : Particle F -> Particle F) (ps : list (Particle F)) :
  (forall p, R p (f p)) -> Forall2 R ps (map f ps).
Proof. intros Hf; induction ps; simpl; constructor; auto. Qed.

Lemma hepmc3_build_related (ev : Event F) :
  Forall2 R (particles ev)
          (particles (hepmc3._build_vertices_from_mothers ev)).
Proof.
  unfold hepmc3._build_vertices_from_mothers.
  destruct (truthy (vertices ev)); [apply Forall2_related_refl|].
  pose proof (assign_barcodes_related (particles ev)) as H1.
  pose proof (mark_incoming_related hepmc3.empty_builder 1
                (hepmc3.assign_barcodes (particles ev))) as H2.
  destruct (hepmc3.mark_incoming _ _) as [b2 ps2]. simpl in H2.
  pose proof (create_vertices_related b2 1 ps2) as H3.
  destruct (hepmc3.create_vertices _ _) as [b3 ps3]. simpl in H3.
  simpl.
  eapply Forall2_related_trans; [exact H1|].
  eapply Forall2_related_trans; [exact H2|].
  eapply Forall2_related_trans; [exact H3|].
  apply map_related. intros p. apply R_end.
Qed.

End BuildRelated.

Section BuildFacts.
Context {F : Type} {FM : FloatModel F}.
Import models build_notions.

Lemma same_but_graph_refl (p : Particle F) : same_but_graph p p.
Proof. unfold same_but_graph. destruct p; reflexivity. Qed.

Lemma same_but_graph_trans (p q r : Particle F) :
  same_but_graph p q -> same_but_graph q r -> same_but_graph p r.
Proof.
  unfold same_but_graph. intros Hq Hr. rewrite Hr at 1. rewrite Hq.
  destruct p; reflexivity.
Qed.

(** The vertex reconstruction of the HepMC3 writer changes nothing of
    an event but its vertices and, on its particles, the barcode and
    the barcodes of the production and end vertices. *)
Theorem hepmc3_build_keeps_fields (ev : Event F) :
  same_but_graph_event ev (hepmc3._build_vertices_from_mothers ev) /\
  Forall2 same_but_graph (particles ev)
          (particles (hepmc3._build_vertices_from_mothers ev)).
Proof.
  split.
  - unfold same_but_graph_event, hepmc3._build_vertices_from_mothers.
    destruct (truthy (vertices ev)); [destruct ev; reflexivity|].
    destruct (hepmc3.mark_incoming _ _) as [b2 ps2].
    destruct (hepmc3.create_vertices _ _) as [b3 ps3].
    reflexivity.
  - apply (hepmc3_build_related same_but_graph).
    + apply same_but_graph_refl.
    + apply same_but_graph_trans.
    + intros b p. unfold same_but_graph. destruct p; reflexivity.
    + intros v p. unfold same_but_graph. destruct p; reflexivity.
    + intros v p. unfold same_but_graph. destruct p; reflexivity.
Qed.

End BuildFacts.

(** ** Fingerprints of events written and read back *)

Section RoundTripFingerprint.
Context {F : Type} {FM : FloatModel F}.
Import models fingerprint fingerprint_notions build_notions.
Variable format_g : nat -> F -> string.

(** With the graph and the weights left out, the fingerprint reads six
    fields of each particle and, when asked to, the process id. *)
Lemma fingerprint_event_particles (a b : Event F) (cfg : FingerprintConfig F) :
  include_graph cfg = false -> include_weights cfg = false ->
  (include_process_id cfg = true -> process_id a = process_id b) ->
  Forall2 same_key_fields (particles a) (particles b) ->
  fingerprint_event a cfg = fingerprint_event b cfg.
Proof.
  intros Hg Hw Hp Hps. unfold fingerprint_event, fingerprint_payload.
  rewrite (collect_parts_same_fields cfg _ _ Hps), Hg, Hw.
  destruct (include_process_id cfg); [rewrite (Hp eq_refl)|]; reflexivity.
Qed.

Lemma lhe_kept_fingerprints (cfg : FingerprintConfig F)
      (evs : list (Event F)) (n : Z) :
  include_graph cfg = false -> include_weights cfg = false ->
  map (fun ev => fingerprint_event ev cfg) (lhe_notions.kept_events n evs)
  = map (fun ev => fingerprint_event ev cfg) evs.
Proof.
  intros Hg Hw. revert n; induction evs as [|ev evs IH]; intros n;
    [reflexivity|].
  cbn [lhe_notions.kept_events map]. rewrite IH. f_equal.
  symmetry. apply fingerprint_event_particles; try assumption.
  - reflexivity.
  - cbn [lhe_notions.kept_event particles].
    apply map_same. intros p. repeat split.
Qed.

(** Events written to an LHE file and read back have the fingerprints
    they had, under every configuration that leaves the graph and the
    weights out. *)
Theorem lhe_write_read_fingerprint (evs : list (Event F))
        (run_info : option (runinfo.RunInfo F)) (cfg : FingerprintConfig F) :
  lhe_notions.opens_no_event
    (lhe_writer.preamble format_g
       (match run_info with
        | Some r => r
        | None => runinfo.default_run_info
        end)) ->
  Forall (lhe_notions.event_survives format_g) evs ->
  include_graph cfg = false -> include_weights cfg = false ->
  exists text evs',
    lhe_writer.write format_g evs run_info = Ok text /\
    lhe.iter_lhe (textio.readlines text) = Ok evs' /\
    map (fun ev => fingerprint_event ev cfg) evs'
    = map (fun ev => fingerprint_event ev cfg) evs.
Proof.
  intros Hpre Hevs Hg Hw.
  destruct (written_events_read format_g evs run_info Hpre Hevs)
    as [text [Hwr Hrd]].
  exists text, (lhe_notions.kept_events 1 evs). repeat split; try assumption.
  now apply lhe_kept_fingerprints.
Qed.

(** *** HepMC3 *)

Lemma status_plain_code (p : Particle F) :
  status_plain p ->
  hepmc3_notions.status_code p
  = Some (if status p =? -1 then 4 else status p).
Proof.
  intros (H3 & H4 & Ha).
  unfold hepmc3_notions.status_code, hepmc3_writer.out_status. rewrite Ha.
  cbv beta iota zeta.
  destruct (Z.eqb_spec (status p) (-1)) as [E|Hm]; [reflexivity|].
  destruct (Z.eqb_spec (status p) 1) as [E|H1]; [now rewrite E|].
  destruct (Z.eqb_spec (status p) 2) as [E|H2]; [now rewrite E|reflexivity].
Qed.

Lemma status_plain_kept (i : Z) (p : Particle F) :
  status_plain p -> same_key_fields p (hepmc3_notions.kept_particle i p).
Proof.
  intros Hp. pose proof (status_plain_code p Hp) as Hc.
  destruct Hp as (H3 & H4 & _).
  unfold hepmc3_notions.kept_particle. rewrite Hc.
  repeat split. cbn [status]. unfold hepmc3.mapped_status.
  destruct (Z.eqb_spec (status p) (-1)) as [E|Hm]; [now rewrite E|].
  destruct (Z.eqb_spec (status p) 4); [contradiction|].
  destruct (Z.eqb_spec (status p) 1) as [E|H1]; [now rewrite E|].
  destruct (Z.eqb_spec (status p) 2) as [E|H2]; [now rewrite E|].
  destruct (Z.eqb_spec (status p) 3); [contradiction|reflexivity].
Qed.

Lemma status_plain_graph (p q : Particle F) :
  same_but_graph p q -> status_plain p -> status_plain q.
Proof.
  unfold same_but_graph, status_plain. intros -> H. exact H.
Qed.

Lemma same_but_graph_key (p q : Particle F) :
  same_but_graph p q -> same_key_fields p q.
Proof. unfold same_but_graph. intros ->. repeat split. Qed.

Lemma kept_particles_same (ps : list (Particle F)) (i : Z) :
  Forall status_plain ps ->
  Forall2 same_key_fields ps
    (map (fun ip => hepmc3_notions.kept_particle (fst ip) (snd ip))
         (hepmc3.enumerate1 i ps)).
Proof.
  intros H. revert i. induction H as [|p ps Hp _ IH]; intros i;
    cbn [hepmc3.enumerate1 map]; constructor; [|apply IH].
  now apply status_plain_kept.
Qed.

Lemma hepmc3_kept_fingerprint (ev : Event F) (cfg : FingerprintConfig F) :
  Forall status_plain (particles ev) ->
  include_graph cfg = false -> include_weights cfg = false ->
  include_process_id cfg = false ->
  fingerprint_event
    (hepmc3_notions.kept_event (hepmc3._build_vertices_from_mothers ev)) cfg
  = fingerprint_event ev cfg.
Proof.
  intros Hp Hg Hw Hi. symmetry.
  assert (Hb : Forall2 same_but_graph (particles ev)
                 (particles (hepmc3._build_vertices_from_mothers ev))).
  { apply (hepmc3_build_related same_but_graph).
    - apply same_but_graph_refl.
    - apply same_but_graph_trans.
    - intros b p. unfold same_but_graph. destruct p; reflexivity.
    - intros v p. unfold same_but_graph. destruct p; reflexivity.
    - intros v p. unfold same_but_graph. destruct p; reflexivity. }
  apply fingerprint_event_particles; try assumption.
  - rewrite Hi. discriminate.
  - cbn [hepmc3_notions.kept_event particles].
    eapply Forall2_same_trans.
    + eapply Forall2_impl; [|exact Hb]. apply same_but_graph_key.
    + apply kept_particles_same.
      clear - Hp Hb. induction Hb as [|p q ps qs Hpq _ IH]; [constructor|].
      inversion Hp; subst. constructor; [|now apply IH].
      eapply status_plain_graph; eauto.
Qed.

(** Events written to a HepMC3 file and read back have the fingerprints
    they had, under every configuration that leaves the graph, the
    weights and the process id out, when no particle has the status 3
    or 4 or a preserved raw status. *)
Theorem hepmc3_write_read_fingerprint (evs : list (Event F))
        (cfg : FingerprintConfig F) :
  Forall (fun ev =>
            hepmc3_notions.event_survives format_g
              (hepmc3._build_vertices_from_mothers ev)) evs ->
  Forall (fun ev => Forall status_plain (particles ev)) evs ->
  include_graph cfg = false -> include_weights cfg = false ->
  include_process_id cfg = false ->
  map (fun ev => fingerprint_event ev cfg)
      (hepmc3_reader.iter_hepmc3
         (textio.readlines (hepmc3_writer.write format_g evs)))
  = map (fun ev => fingerprint_event ev cfg) evs.
Proof.
  intros Hevs Hplain Hg Hw Hi.
  rewrite (written_events format_g evs Hevs), map_map.
  clear Hevs. induction Hplain as [|ev evs Hp _ IH]; [reflexivity|].
  cbn [map]. rewrite IH. f_equal.
  now apply hepmc3_kept_fingerprint.
Qed.

End RoundTripFingerprint.

Lemma lhe_write_read_fingerprint_witness :
  exists text (evs' : list (models.Event Q)),
    lhe_writer.write format_fixtures.format_integral
      [reader_fixtures.w_event] None = Ok text /\
    lhe.iter_lhe (textio.readlines text) = Ok evs' /\
    map (fun ev => fingerprint.fingerprint_event ev fingerprint.default_config)
        evs'
    = map (fun ev => fingerprint.fingerprint_event ev fingerprint.default_config)
        [reader_fixtures.w_event].
Proof.
  apply (lhe_write_read_fingerprint (F := Q) format_fixtures.format_integral
           [reader_fixtures.w_event] None fingerprint.default_config).
  - unfold lhe_notions.opens_no_event. vm_compute. repeat constructor.
  - repeat constructor.
  - reflexivity.
  - reflexivity.
Defined.

Lemma hepmc3_write_read_fingerprint_witness :
  map (fun ev => fingerprint.fingerprint_event ev fingerprint.default_config)
      (hepmc3_reader.iter_hepmc3 (F := Q)
         (textio.readlines
            (hepmc3_writer.write format_fixtures.format_integral
               [reader_fixtures.w_event])))
  = map (fun ev => fingerprint.fingerprint_event ev fingerprint.default_config)
      [reader_fixtures.w_event].
Proof.
  apply (hepmc3_write_read_fingerprint (F := Q) format_fixtures.format_integral
           [reader_fixtures.w_event] fingerprint.default_config).
  - repeat constructor; discriminate.
  - repeat constructor; discriminate.
  - reflexivity.
  - reflexivity.
  - reflexivity.
Defined.

(** ** The diff summary by fingerprint *)

Section DiffFacts.
Context {F : Type} {FM : FloatModel F}.
Import models fingerprint diff.

Lemma sum_Z_from (l : list Z) (a : Z) : fold_left Z.add l a = a + sum_Z l.
Proof.
  unfold sum_Z. revert a; induction l as [|x l IH]; intros a; simpl; [lia|].
  rewrite (IH (a + x)), (IH x). lia.
Qed.

Lemma sum_Z_cons (x : Z) (l : list Z) : sum_Z (x :: l) = x + sum_Z l.
Proof. unfold sum_Z at 1. simpl. apply sum_Z_from. Qed.

Lemma sum_Z_add (f g : string -> Z) (ks : list string) :
  sum_Z (map (fun k => f k + g k) ks)
  = sum_Z (map f ks) + sum_Z (map g ks).
Proof.
  induction ks as [|k ks IH]; [reflexivity|].
  cbn [map]. rewrite !sum_Z_cons, IH. lia.
Qed.

Lemma sum_Z_ext (f g : string -> Z) (ks : list string) :
  (forall k, f k = g k) -> sum_Z (map f ks) = sum_Z (map g ks).
Proof.
  intros H. induction ks as [|k ks IH]; [reflexivity|].
  cbn [map]. now rewrite !sum_Z_cons, IH, H.
Qed.

Lemma sum_Z_ext_in (f g : string -> Z) (ks : list string) :
  (forall k, In k ks -> f k = g k) -> sum_Z (map f ks) = sum_Z (map g ks).
Proof.
  intros H. induction ks as [|k ks IH]; [reflexivity|].
  cbn [map]. rewrite !sum_Z_cons.
  rewrite IH by (intros y Hy; apply H; now right).
  rewrite (H k) by now left. reflexivity.
Qed.

Lemma sum_Z_zero (ks : list string) : sum_Z (map (fun _ => 0) ks) = 0.
Proof.
  induction ks as [|k ks IH]; [reflexivity|].
  cbn [map]. rewrite sum_Z_cons, IH. reflexivity.
Qed.

Lemma sum_Z_nonneg (f : string -> Z) (ks : list string) :
  (forall k, 0 <= f k) -> 0 <= sum_Z (map f ks).
Proof.
  intros H. induction ks as [|k ks IH]; [reflexivity|].
  cbn [map]. rewrite sum_Z_cons. specialize (H k). lia.
Qed.

(** *** Counters *)

Lemma sdict_set_keys {V : Type} (d : list (string * V)) (k : string) (v : V) :
  map fst (dict.set String.eqb d k v)
  = if in_dec string_dec k (map fst d) then map fst d
    else (map fst d ++ [k])%list.
Proof.
  induction d as [|[k' v'] d IH]; [reflexivity|].
  cbn [dict.set map fst]. destruct (String.eqb_spec k' k) as [->|Hn].
  - destruct (in_dec string_dec k (k :: map fst d)) as [_|Hn]; [reflexivity|].
    exfalso. apply Hn. now left.
  - cbn [map fst]. rewrite IH.
    destruct (in_dec string_dec k (map fst d)) as [Hi|Hi];
      destruct (in_dec string_dec k (k' :: map fst d)) as [Hj|Hj];
      try reflexivity.
    + exfalso. apply Hj. now right.
    + destruct Hj as [Hj|Hj]; contradiction.
Qed.

Lemma sdict_get_key {V : Type} (d : list (string * V)) (k : string) :
  In k (map fst d) <-> exists v, dict.get String.eqb d k = Some v.
Proof.
  induction d as [|[k' v'] d IH]; cbn [dict.get map fst In].
  - split; [intros []|intros [v H]; discriminate].
  - destruct (String.eqb_spec k' k) as [->|Hn].
    + split; [eauto|now left].
    + rewrite <- IH. split; [intros [H|H]; [contradiction|exact H]|now right].
Qed.

Lemma count_one_get0 (c : list (string * Z)) (k x : string) :
  get0 (count_one c x) k
  = get0 c k + (if string_dec x k then 1 else 0).
Proof.
  unfold get0, count_one. destruct (string_dec x k) as [->|Hn].
  - rewrite string_get_set_same.
    destruct (dict.get String.eqb c k); lia.
  - rewrite string_get_set_other by exact Hn. lia.
Qed.

Lemma counter_from (xs : list string) (c : list (string * Z)) (k : string) :
  get0 (fold_left count_one xs c) k
  = get0 c k + Z.of_nat (count_occ string_dec xs k).
Proof.
  revert c; induction xs as [|x xs IH]; intros c; cbn [fold_left count_occ];
    [lia|].
  rewrite IH, count_one_get0. destruct (string_dec x k); lia.
Qed.

Lemma Counter_get0 (xs : list string) (k : string) :
  get0 (Counter xs) k = Z.of_nat (count_occ string_dec xs k).
Proof. unfold Counter. now rewrite counter_from. Qed.

Lemma counter_keys (xs : list string) (c : list (string * Z)) :
  NoDup (map fst c) ->
  NoDup (map fst (fold_left count_one xs c)) /\
  forall k, In k (map fst (fold_left count_one xs c))
            <-> In k (map fst c) \/ In k xs.
Proof.
  revert c; induction xs as [|x xs IH]; intros c Hc; cbn [fold_left].
  - split; [exact Hc|]. intros k. split; [now left|intros [H|[]]; exact H].
  - assert (Hk : map fst (count_one c x)
                 = if in_dec string_dec x (map fst c) then map fst c
                   else (map fst c ++ [x])%list)
      by apply sdict_set_keys.
    destruct (IH (count_one c x)) as [H1 H2].
    + rewrite Hk. destruct (in_dec _ _ _) as [_|Hn]; [exact Hc|].
      apply NoDup_app; [exact Hc|repeat constructor; intros []|].
      intros y Hy [<-|[]]. contradiction.
    + split; [exact H1|]. intros k. rewrite H2, Hk.
      destruct (in_dec _ _ _) as [Hi|Hn]; cbn [In].
      * split; [intros [H|H]; auto|].
        intros [H|[<-|H]]; auto.
      * rewrite in_app_iff. cbn [In]. tauto.
Qed.

Lemma Counter_keys (xs : list string) :
  NoDup (map fst (Counter xs)) /\
  forall k, In k (map fst (Counter xs)) <-> In k xs.
Proof.
  destruct (counter_keys xs [] (NoDup_nil _)) as [H1 H2].
  split; [exact H1|]. intros k. rewrite (H2 k). cbn [map In]. tauto.
Qed.

Lemma mem_key_in (k : string) (c : list (string * Z)) :
  mem_key k c = true <-> In k (map fst c).
Proof.
  unfold mem_key. rewrite sdict_get_key.
  destruct (dict.get String.eqb c k); split; eauto; try discriminate.
  intros [v H]; discriminate.
Qed.

Lemma union_keys_spec (xs ys : list string) :
  NoDup (union_keys (Counter xs) (Counter ys)) /\
  forall k, In k xs \/ In k ys -> In k (union_keys (Counter xs) (Counter ys)).
Proof.
  destruct (Counter_keys xs) as [Nx Kx], (Counter_keys ys) as [Ny Ky].
  unfold union_keys. split.
  - apply NoDup_app; [exact Nx|now apply NoDup_filter|].
    intros k Hk Hf. apply filter_In in Hf. destruct Hf as [_ Hf].
    apply mem_key_in in Hk. now rewrite Hk in Hf.
  - intros k [H|H]; apply in_or_app.
    + left. now apply Kx.
    + destruct (mem_key k (Counter xs)) eqn:E.
      * left. now apply mem_key_in.
      * right. apply filter_In. split; [now apply Ky|now rewrite E].
Qed.

(** Counting every element under each key of a duplicate-free list
    that holds them all gives the length. *)
Lemma sum_counts (xs ks : list string) :
  NoDup ks -> (forall x, In x xs -> In x ks) ->
  sum_Z (map (fun k => Z.of_nat (count_occ string_dec xs k)) ks)
  = Z.of_nat (List.length xs).
Proof.
  intros Hn. induction xs as [|x xs IH]; intros Hin.
  - cbn [count_occ List.length]. apply sum_Z_zero.
  - rewrite (sum_Z_ext _ (fun k => (if string_dec x k then 1 else 0)
                                   + Z.of_nat (count_occ string_dec xs k))).
    2: { intros k. cbn [count_occ]. destruct (string_dec x k); lia. }
    rewrite sum_Z_add, IH by (intros y Hy; apply Hin; now right).
    assert (H1 : sum_Z (map (fun k => if string_dec x k then 1 else 0) ks) = 1).
    { specialize (Hin x (or_introl eq_refl)). clear IH.
      induction Hn as [|k ks Hk Hn IHn]; [contradiction|].
      cbn [map]. rewrite sum_Z_cons.
      destruct (string_dec x k) as [->|Hne].
      - rewrite (sum_Z_ext_in _ (fun _ => 0)), sum_Z_zero; [reflexivity|].
        intros y Hy. destruct (string_dec k y) as [<-|]; [|reflexivity].
        contradiction.
      - destruct Hin as [->|Hin]; [contradiction|]. now rewrite IHn. }
    rewrite H1. cbn [List.length]. lia.
Qed.

Lemma fingerprints_length (cfg : FingerprintConfig F) (evs : list (Event F))
      (fs : list string) :
  fingerprints cfg evs = Ok fs -> List.length fs = List.length evs.
Proof.
  revert fs; induction evs as [|ev evs IH]; intros fs; cbn [fingerprints].
  - intros [= <-]. reflexivity.
  - destruct (fingerprint_event ev cfg); [|discriminate].
    destruct (fingerprints cfg evs) as [hs|]; [|discriminate].
    cbn [bind]. intros [= <-]. cbn [List.length]. now rewrite (IH hs).
Qed.

(** In the summary by fingerprint the common and the added events make
    up the second file and the common and the removed ones the first;
    no count is negative and no more than five examples are listed. *)
Theorem diff_by_fingerprint_counts (events_a events_b : list (Event F))
        (abs_tol : F) (d : summary) :
  diff_by_fingerprint events_a events_b abs_tol = Ok d ->
  n_a d = Z.of_nat (List.length events_a) /\
  n_b d = Z.of_nat (List.length events_b) /\
  common d + added d = n_b d /\
  common d + removed d = n_a d /\
  0 <= common d /\ 0 <= added d /\ 0 <= removed d /\
  (List.length (example_added d) <= 5)%nat /\
  (List.length (example_removed d) <= 5)%nat.
Proof.
  unfold diff_by_fingerprint.
  destruct (fingerprints _ events_a) as [fa|] eqn:Ea; [|discriminate].
  destruct (fingerprints _ events_b) as [fb|] eqn:Eb; [|discriminate].
  cbn [bind]. intros [= <-].
  cbn [n_a n_b common added removed example_added example_removed].
  destruct (union_keys_spec fa fb) as [Hn Hk].
  set (keys := union_keys (Counter fa) (Counter fb)) in *.
  pose proof (sum_counts fa keys Hn (fun x H => Hk x (or_introl H))) as Sa.
  pose proof (sum_counts fb keys Hn (fun x H => Hk x (or_intror H))) as Sb.
  rewrite (fingerprints_length _ _ _ Ea) in Sa.
  rewrite (fingerprints_length _ _ _ Eb) in Sb.
  repeat split.
  - rewrite <- Sb, <- sum_Z_add. apply sum_Z_ext. intros k.
    rewrite !Counter_get0. lia.
  - rewrite <- Sa, <- sum_Z_add. apply sum_Z_ext. intros k.
    rewrite !Counter_get0. lia.
  - apply sum_Z_nonneg. intros k. rewrite !Counter_get0. lia.
  - apply sum_Z_nonneg. intros k. lia.
  - apply sum_Z_nonneg. intros k. lia.
  - exact (firstn_le_length 5
             (filter (fun k => get0 (Counter fa) k <? get0 (Counter fb) k)
                     (map fst (Counter fb)))).
  - exact (firstn_le_length 5
             (filter (fun k => get0 (Counter fb) k <? get0 (Counter fa) k)
                     (map fst (Counter fa)))).
Qed.




End DiffFacts.

(** ** The diff of events and their LHE round trip *)

Section RoundTripDiff.
Context {F : Type} {FM : FloatModel F}.
Import models fingerprint diff.
Variable format_g : nat -> F -> string.


End RoundTripDiff.


Lemma diff_by_fingerprint_counts_witness :
  exists d,
    diff.diff_by_fingerprint [fixtures.two_photons; fixtures.two_photons]
      [fixtures.two_photons; fixtures.unbalanced_event] (1 # 1000000)%Q
    = Ok d /\
    diff.n_a d = 2 /\ diff.n_b d = 2 /\
    diff.common d + diff.added d = diff.n_b d /\
    diff.common d + diff.removed d = diff.n_a d /\
    0 <= diff.common d /\ 0 <= diff.added d /\ 0 <= diff.removed d /\
    (List.length (diff.example_added d) <= 5)%nat /\
    (List.length (diff.example_removed d) <= 5)%nat.
Proof.
  eexists. split; [vm_compute; reflexivity|].
  apply (diff_by_fingerprint_counts (F := Q)
           [fixtures.two_photons; fixtures.two_photons]
           [fixtures.two_photons; fixtures.unbalanced_event]
           (1 # 1000000)%Q).
  vm_compute. reflexivity.
Defined.

(** One event in common, one added, one removed. *)
Example diff_two_photons :
  match diff.diff_by_fingerprint [fixtures.two_photons; fixtures.two_photons]
          [fixtures.two_photons; fixtures.unbalanced_event] (1 # 1000000)%Q with
  | Ok d => (diff.common d, diff.added d, diff.removed d)
  | Raise _ => (0, 0, 0)
  end = (1, 1, 1).
Proof. vm_compute. reflexivity. Qed.

(** ** The vertex graph the HepMC3 writer reconstructs *)

Section BuildGraph.
Context {F : Type} {FM : FloatModel F}.
Import models hepmc3.

Local Abbreviation vdict := (list (Z * Vertex F)).

Let keys (b : builder (F := F)) : list Z := map fst (vertices_by_id b).

(** Every vertex is stored under its own identifier. *)
Let keyed (d : vdict) : Prop :=
  Forall (fun kv => v_barcode (snd kv) = fst kv) d.

(** The identifiers handed out are negative and name stored vertices. *)
Let wf (b : builder (F := F)) : Prop :=
  next_vtx b < 0 /\ keyed (vertices_by_id b) /\
  Forall (fun kv => snd kv < 0 /\ In (snd kv) (keys b)) (vtx_map b).

(** The vertex stored under [k] lists [x] as outgoing. *)
Let lists_outgoing (d : vdict) (k x : Z) : Prop :=
  exists v, dict.get Z.eqb d k = Some v /\ In x (v_outgoing v).

Lemma zdict_set_has {V : Type} (d : list (Z * V)) (k : Z) (v : V) :
  In k (map fst (dict.set Z.eqb d k v)).
Proof.
  destruct (in_dec Z.eq_dec k (map fst d)) as [Hin|Hn].
  - now rewrite zdict_set_keys.
  - rewrite zdict_set_new by exact Hn. rewrite map_app.
    apply in_or_app. right. now left.
Qed.

Lemma zdict_set_mono {V : Type} (d : list (Z * V)) (k k' : Z) (v : V) :
  In k (map fst d) -> In k (map fst (dict.set Z.eqb d k' v)).
Proof.
  intros H. destruct (in_dec Z.eq_dec k' (map fst d)) as [Hin|Hn].
  - now rewrite zdict_set_keys.
  - rewrite zdict_set_new by exact Hn. rewrite map_app.
    apply in_or_app. now left.
Qed.

Lemma zdict_get_set_other {V : Type} (d : list (Z * V)) (k j : Z) (v : V) :
  j <> k -> dict.get Z.eqb (dict.set Z.eqb d k v) j = dict.get Z.eqb d j.
Proof.
  intros Hn. induction d as [|[k' v'] d IH]; cbn [dict.set dict.get].
  - destruct (Z.eqb_spec k j); [congruence|reflexivity].
  - destruct (Z.eqb_spec k' k) as [->|Hk]; cbn [dict.get].
    + destruct (Z.eqb_spec k j); [congruence|reflexivity].
    + destruct (Z.eqb_spec k' j); [reflexivity|exact IH].
Qed.

Lemma zdict_get_set_same {V : Type} (d : list (Z * V)) (k : Z) (v : V) :
  dict.get Z.eqb (dict.set Z.eqb d k v) k = Some v.
Proof.
  induction d as [|[k' v'] d IH]; cbn [dict.set dict.get].
  - now rewrite Z.eqb_refl.
  - destruct (Z.eqb_spec k' k) as [->|Hk]; cbn [dict.get].
    + now rewrite Z.eqb_refl.
    + destruct (Z.eqb_spec k' k); [contradiction|exact IH].
Qed.

Lemma zdict_update_keys {V : Type} (d : list (Z * V)) (k : Z) (f : V -> V) :
  map fst (dict.update Z.eqb d k f) = map fst d.
Proof.
  induction d as [|[k' v'] d IH]; [reflexivity|].
  cbn [dict.update]. destruct (k' =? k); [reflexivity|].
  cbn [map fst]. now rewrite IH.
Qed.

Lemma zdict_update_get {V : Type} (d : list (Z * V)) (k j : Z) (f : V -> V) :
  dict.get Z.eqb (dict.update Z.eqb d k f) j
  = if j =? k then option_map f (dict.get Z.eqb d k)
    else dict.get Z.eqb d j.
Proof.
  induction d as [|[k' v'] d IH]; cbn [dict.update dict.get].
  - now destruct (j =? k).
  - destruct (Z.eqb_spec k' k) as [->|Hk]; cbn [dict.get].
    + rewrite (Z.eqb_sym j k). now destruct (k =? j).
    + destruct (Z.eqb_spec k' j) as [->|Hj].
      * destruct (Z.eqb_spec j k); [congruence|reflexivity].
      * exact IH.
Qed.

Lemma keyed_update (d : vdict) (k : Z) (f : Vertex F -> Vertex F) :
  (forall v, v_barcode (f v) = v_barcode v) ->
  keyed d -> keyed (dict.update Z.eqb d k f).
Proof.
  intros Hf. induction 1 as [|[k' v'] d Hk Hd IH]; [constructor|].
  cbn [dict.update]. destruct (k' =? k); constructor; try assumption.
  cbn [snd fst] in *. now rewrite Hf.
Qed.

(** *** [_vtx_for] *)

Lemma vtx_for_spec (b : builder) (m1 m2 : Z) :
  wf b ->
  wf (fst (_vtx_for b m1 m2)) /\
  snd (_vtx_for b m1 m2) < 0 /\
  In (snd (_vtx_for b m1 m2)) (keys (fst (_vtx_for b m1 m2))) /\
  prod_vtx (fst (_vtx_for b m1 m2)) = prod_vtx b /\
  (forall k, In k (keys b) -> In k (keys (fst (_vtx_for b m1 m2)))).
Proof.
  intros (Hn & Hk & Hm). unfold _vtx_for.
  set (key := if m1 <=? m2 then (m1, m2) else (m2, m1)).
  destruct (dict.get dict.pair_eqb (vtx_map b) key) as [v|] eqn:Hg;
    cbn [fst snd].
  - destruct (dict_get_Forall dict.pair_eqb
                (fun v => v < 0 /\ In v (keys b)) _ _ _ Hm Hg) as [H1 H2].
    repeat split; auto.
  - unfold wf, keys. cbn [next_vtx vertices_by_id vtx_map prod_vtx].
    repeat split.
    + lia.
    + unfold keyed. rewrite Forall_forall. intros kv Hin.
      destruct (zdict_set_in _ _ _ _ Hin) as [->|Hin']; [reflexivity|].
      exact (proj1 (Forall_forall _ _) Hk kv Hin').
    + apply (dict_set_Forall dict.pair_eqb
               (fun v => v < 0 /\
                         In v (map fst (dict.set Z.eqb (vertices_by_id b)
                                          (next_vtx b)
                                          (new_vertex (next_vtx b)))))).
      * eapply Forall_impl; [|exact Hm].
        intros kv [H1 H2]. split; [exact H1|]. now apply zdict_set_mono.
      * split; [exact Hn|apply zdict_set_has].
    + exact Hn.
    + apply zdict_set_has.
    + intros k Hin. now apply zdict_set_mono.
Qed.

(** *** The third loop *)

Lemma create_vertices_spec (ips : list (Z * Particle F)) :
  NoDup (map fst ips) ->
  forall b, wf b ->
    wf (fst (create_vertices b ips)) /\
    (forall k, In k (keys b) -> In k (keys (fst (create_vertices b ips)))) /\
    (forall j, ~ In j (map fst ips) ->
               dict.get Z.eqb (prod_vtx (fst (create_vertices b ips))) j
               = dict.get Z.eqb (prod_vtx b) j) /\
    Forall2
      (fun ip p' =>
         status p' = status (snd ip) /\ barcode p' = barcode (snd ip) /\
         (status (snd ip) <> -1 ->
          vertex_barcode p' < 0 /\
          In (vertex_barcode p') (keys (fst (create_vertices b ips))) /\
          dict.get Z.eqb (prod_vtx (fst (create_vertices b ips))) (fst ip)
          = Some (vertex_barcode p')))
      ips (snd (create_vertices b ips)).
Proof.
  induction ips as [|[idx p] ips IH]; intros Hnd b Hwf.
  - cbn [create_vertices fst snd].
    split; [exact Hwf|]. split; [auto|]. split; [auto|constructor].
  - cbn [map fst] in Hnd. inversion Hnd as [|? ? Hidx Hnd']; subst.
    cbn [create_vertices].
    destruct (Z.eqb_spec (status p) (-1)) as [Hs|Hs].
    + destruct (IH Hnd' b Hwf) as (H1 & H2 & H3 & H4).
      destruct (create_vertices b ips) as [b' ps']. cbn [fst snd] in *.
      split; [exact H1|]. split; [exact H2|]. split.
      * intros j Hj. apply H3. intros Hin. apply Hj. now right.
      * constructor; [|exact H4]. cbn [snd].
        split; [reflexivity|]. split; [reflexivity|].
        intros Hc. contradiction.
    + set (r := if (mother1 p =? 0) && (mother2 p =? 0)
                then _vtx_for b 0 0
                else _vtx_for b (mother1 p) (mother2 p)).
      assert (Hr : wf (fst r) /\ snd r < 0 /\ In (snd r) (keys (fst r)) /\
                   prod_vtx (fst r) = prod_vtx b /\
                   (forall k, In k (keys b) -> In k (keys (fst r)))).
      { unfold r. destruct ((mother1 p =? 0) && (mother2 p =? 0));
          now apply vtx_for_spec. }
      destruct r as [b1 v]. cbn [fst snd] in Hr.
      destruct Hr as (W1 & V1 & V2 & V3 & V4).
      assert (Wset : wf (set_prod_vtx b1 idx v)) by exact W1.
      destruct (IH Hnd' (set_prod_vtx b1 idx v) Wset) as (H1 & H2 & H3 & H4).
      destruct (create_vertices (set_prod_vtx b1 idx v) ips) as [b' ps'].
      cbn [fst snd] in *.
      split; [exact H1|].
      split; [intros k Hk; apply H2; apply V4; exact Hk|]. split.
      * intros j Hj. rewrite H3 by (intros Hin; apply Hj; now right).
        cbn [set_prod_vtx prod_vtx].
        rewrite zdict_get_set_other; [now rewrite V3|].
        intros ->. apply Hj. now left.
      * constructor; [|exact H4]. cbn [snd fst].
        split; [reflexivity|]. split; [reflexivity|]. intros _.
        cbn [set_vertex_barcode vertex_barcode].
        split; [exact V1|]. split; [apply H2; exact V2|].
        rewrite (H3 idx Hidx). cbn [set_prod_vtx prod_vtx].
        apply zdict_get_set_same.
Qed.

(** *** The fourth loop *)

Lemma lists_outgoing_update (d : vdict) (k k' x : Z)
      (f : Vertex F -> Vertex F) :
  (forall v, In x (v_outgoing v) -> In x (v_outgoing (f v))) ->
  lists_outgoing d k x -> lists_outgoing (dict.update Z.eqb d k' f) k x.
Proof.
  intros Hf [v [Hg Hin]]. unfold lists_outgoing.
  rewrite zdict_update_get. destruct (Z.eqb_spec k k') as [->|Hn].
  - rewrite Hg. cbn [option_map]. eauto.
  - eauto.
Qed.

Lemma append_new_in (x : Z) (l : list Z) : In x (append_new x l).
Proof.
  unfold append_new. destruct (dict.mem_Z x l) eqn:E.
  - unfold dict.mem_Z in E. apply existsb_exists in E.
    destruct E as [y [Hy Hxy]]. apply Z.eqb_eq in Hxy. now subst.
  - apply in_or_app. right. now left.
Qed.

Lemma append_new_mono (x y : Z) (l : list Z) :
  In y l -> In y (append_new x l).
Proof.
  unfold append_new. destruct (dict.mem_Z x l); [auto|].
  intros H. apply in_or_app. now left.
Qed.

Lemma fill_vertices_spec (all : list (Particle F))
      (ips : list (Z * Particle F)) :
  forall b,
    keyed (vertices_by_id b) ->
    keyed (vertices_by_id (fill_vertices all b ips)) /\
    keys (fill_vertices all b ips) = keys b /\
    prod_vtx (fill_vertices all b ips) = prod_vtx b /\
    (forall k x, lists_outgoing (vertices_by_id b) k x ->
                 lists_outgoing (vertices_by_id (fill_vertices all b ips)) k x) /\
    Forall
      (fun ip =>
         forall v, dict.get Z.eqb (prod_vtx b) (fst ip) = Some v ->
                   v <> 0 -> In v (keys b) ->
                   lists_outgoing (vertices_by_id (fill_vertices all b ips))
                                  v (barcode (snd ip)))
      ips.
Proof.
  induction ips as [|[idx p] ips IH]; intros b Hk.
  - cbn. repeat split; auto.
  - cbn [fill_vertices].
    set (v_id := match dict.get Z.eqb (prod_vtx b) idx with
                 | Some v => v
                 | None => 0
                 end).
    destruct (Z.eqb_spec v_id 0) as [Hz|Hz].
    + destruct (IH b Hk) as (H0 & H1 & H2 & H3 & H4).
      repeat split; auto. constructor; [|exact H4].
      cbn [fst snd]. intros v Hv Hv0 _. unfold v_id in Hz.
      rewrite Hv in Hz. contradiction.
    + set (add_mother := fun (vs : vdict) (midx : Z) =>
             if (1 <=? midx) && (midx <=? Z.of_nat (List.length all)) then
               match nth_error all (Z.to_nat (midx - 1)) with
               | Some mother =>
                   dict.update Z.eqb vs v_id
                     (fun v => set_incoming
                                 (append_new (barcode mother) (v_incoming v)) v)
               | None => vs
               end
             else vs).
      set (vs1 := fold_left add_mother (mothers_set (mother1 p) (mother2 p))
                            (vertices_by_id b)).
      set (vs2 := dict.update Z.eqb vs1 v_id
                    (fun v => set_outgoing
                                (append_new (barcode p) (v_outgoing v)) v)).
      assert (Hadd : forall ms vs,
                 keyed vs ->
                 keyed (fold_left add_mother ms vs) /\
                 map fst (fold_left add_mother ms vs) = map fst vs /\
                 forall k x, lists_outgoing vs k x ->
                             lists_outgoing (fold_left add_mother ms vs) k x).
      { induction ms as [|m ms IHm]; intros vs Hvs; [cbn; auto|].
        cbn [fold_left].
        assert (Hstep : keyed (add_mother vs m) /\
                        map fst (add_mother vs m) = map fst vs /\
                        forall k x, lists_outgoing vs k x ->
                                    lists_outgoing (add_mother vs m) k x).
        { unfold add_mother.
          destruct ((1 <=? m) && (m <=? Z.of_nat (List.length all)));
            [|auto].
          destruct (nth_error all (Z.to_nat (m - 1))); [|auto].
          repeat split.
          - apply keyed_update; [reflexivity|exact Hvs].
          - apply zdict_update_keys.
          - intros k x. apply lists_outgoing_update. auto. }
        destruct Hstep as (S1 & S2 & S3).
        destruct (IHm _ S1) as (T1 & T2 & T3).
        repeat split; [exact T1|congruence|auto]. }
      destruct (Hadd (mothers_set (mother1 p) (mother2 p)) _ Hk)
        as (A1 & A2 & A3).
      fold vs1 in A1, A2, A3.
      assert (K2 : keyed vs2) by (apply keyed_update; [reflexivity|exact A1]).
      assert (E2 : map fst vs2 = keys b).
      { unfold vs2. rewrite zdict_update_keys. exact A2. }
      destruct (IH (set_vertices_by_id b vs2) K2) as (H0 & H1 & H2 & H3 & H4).
      cbn [set_vertices_by_id vertices_by_id prod_vtx] in *.
      unfold keys in *. cbn [set_vertices_by_id vertices_by_id] in *.
      split; [exact H0|]. split; [congruence|]. split; [exact H2|]. split.
      * intros k x Hout. apply H3. unfold vs2.
        apply lists_outgoing_update; [|now apply A3].
        intros w Hw. cbn [set_outgoing v_outgoing]. now apply append_new_mono.
      * constructor.
        -- cbn [fst snd]. intros v Hv Hv0 Hin. apply H3.
           assert (v = v_id) by (unfold v_id; now rewrite Hv). subst v.
           unfold lists_outgoing, vs2. rewrite zdict_update_get, Z.eqb_refl.
           rewrite <- A2 in Hin.
           destruct (zdict_key_get vs1 v_id Hin) as [w Hw]. rewrite Hw.
           cbn [option_map]. eexists; split; [reflexivity|].
           cbn [set_outgoing v_outgoing]. apply append_new_in.
        -- eapply Forall_impl; [|exact H4]. cbn beta.
           intros ip H v Hv Hv0 Hin. apply H; [exact Hv|exact Hv0|].
           rewrite E2. exact Hin.
Qed.

(** *** Putting the loops together *)

Lemma enumerate1_from {A : Type} (i : Z) (xs : list A) (j : Z) :
  In j (map fst (enumerate1 i xs)) -> i <= j.
Proof.
  revert i; induction xs as [|x xs IH]; intros i; cbn; [intros []|].
  intros [<-|H]; [lia|]. specialize (IH _ H). lia.
Qed.

Lemma enumerate1_nodup {A : Type} (i : Z) (xs : list A) :
  NoDup (map fst (enumerate1 i xs)).
Proof.
  revert i; induction xs as [|x xs IH]; intros i; cbn; constructor;
    [|apply IH].
  intros H. apply enumerate1_from in H. lia.
Qed.

Lemma Forall2_enumerate1 {A B : Type} (R : Z * A -> B -> Prop)
      (i : Z) (xs : list A) (ys : list B) :
  Forall2 R (enumerate1 i xs) ys ->
  Forall (fun ip => exists x, R (fst ip, x) (snd ip)) (enumerate1 i ys).
Proof.
  revert i ys; induction xs as [|x xs IH]; intros i ys H; cbn in H.
  - inversion H; subst. constructor.
  - inversion H as [|? y ? ys' Hxy Hrest]; subst. cbn [enumerate1].
    constructor; [exists x; exact Hxy|]. now apply IH.
Qed.

Lemma mark_incoming_builder (b : builder) (ips : list (Z * Particle F)) :
  vtx_map (fst (mark_incoming b ips)) = vtx_map b /\
  vertices_by_id (fst (mark_incoming b ips)) = vertices_by_id b /\
  next_vtx (fst (mark_incoming b ips)) = next_vtx b.
Proof.
  revert b; induction ips as [|[idx p] ips IH]; intros b; [cbn; auto|].
  cbn [mark_incoming]. destruct (status p =? -1).
  - specialize (IH (set_prod_vtx b idx 0)).
    destruct (mark_incoming (set_prod_vtx b idx 0) ips). exact IH.
  - specialize (IH b). destruct (mark_incoming b ips). exact IH.
Qed.

Lemma vertices_sorted_get (d : vdict) (k : Z) (v : Vertex F) :
  dict.get Z.eqb d k = Some v -> In v (vertices_sorted d).
Proof.
  intros Hg. unfold vertices_sorted. apply in_flat_map. exists k. split.
  - apply (Permutation_in _ (Permutation_sym (sorted_Z_perm _))).
    apply zdict_get_in in Hg. now apply (in_map fst) in Hg.
  - rewrite Hg. now left.
Qed.

(** In the graph the HepMC3 writer reconstructs for an event without
    vertices, every particle that is not incoming has a negative
    production vertex, and that vertex is a vertex of the event which
    lists the particle's barcode as outgoing. *)
Theorem hepmc3_build_graph (ev : Event F) (p : Particle F) :
  vertices ev = [] ->
  In p (particles (_build_vertices_from_mothers ev)) ->
  status p <> -1 ->
  vertex_barcode p < 0 /\
  exists v,
    In v (vertices (_build_vertices_from_mothers ev)) /\
    v_barcode v = vertex_barcode p /\
    In (barcode p) (v_outgoing v).
Proof.
  intros Hv. unfold _build_vertices_from_mothers. rewrite Hv.
  cbn [truthy].
  set (ps1 := assign_barcodes (particles ev)).
  pose proof (mark_incoming_builder empty_builder (enumerate1 1 ps1))
    as (M1 & M2 & M3).
  destruct (mark_incoming empty_builder (enumerate1 1 ps1)) as [b2 ps2].
  cbn [fst] in M1, M2, M3.
  assert (W2 : wf b2).
  { unfold wf, keys. rewrite M1, M2, M3. cbn.
    repeat split; try constructor; try lia. }
  pose proof (create_vertices_spec (enumerate1 1 ps2)
                (enumerate1_nodup 1 ps2) b2 W2) as (W3 & _ & _ & C4).
  destruct (create_vertices b2 (enumerate1 1 ps2)) as [b3 ps3].
  cbn [fst snd] in W3, C4.
  destruct W3 as (_ & K3 & _).
  pose proof (fill_vertices_spec ps3 (enumerate1 1 ps3) b3 K3)
    as (K4 & _ & _ & _ & F4).
  cbn [with_graph particles vertices].
  intros Hin Hs. apply in_map_iff in Hin. destruct Hin as [q [<- Hq]].
  cbn [set_end_vertex_barcode vertex_barcode barcode status] in *.
  apply Forall2_enumerate1 in C4.
  rewrite <- (map_snd_enumerate1 1 ps3) in Hq.
  apply in_map_iff in Hq. destruct Hq as [[idx q'] [Hq' Hiq]].
  cbn [snd] in Hq'. subst q'.
  destruct (proj1 (Forall_forall _ _) C4 _ Hiq) as [p2 (S1 & _ & S3)].
  cbn [fst snd] in S1, S3.
  destruct (S3 ltac:(congruence)) as (N1 & N2 & N3).
  split; [exact N1|].
  pose proof (proj1 (Forall_forall _ _) F4 _ Hiq (vertex_barcode q) N3
                ltac:(lia) N2) as [v [Gv Ov]].
  exists v. repeat split.
  - now apply vertices_sorted_get with (k := vertex_barcode q).
  - apply zdict_get_in in Gv.
    exact (proj1 (Forall_forall _ _) K4 _ Gv).
  - exact Ov.
Qed.

End BuildGraph.

Lemma hepmc3_build_graph_witness :
  let p :=
    models.set_vertex_barcode (-2)
      (models.set_barcode 4
         (reader_fixtures.lhe_particle (-11) 1 3 3 50%Q 50%Q 0%Q)) in
  models.vertex_barcode p < 0 /\
  exists v,
    In v (models.vertices
            (hepmc3._build_vertices_from_mothers reader_fixtures.w_event)) /\
    models.v_barcode v = models.vertex_barcode p /\
    In (models.barcode p) (models.v_outgoing v).
Proof.
  cbv zeta.
  apply (hepmc3_build_graph reader_fixtures.w_event).
  - reflexivity.
  - vm_compute. do 3 right. left. reflexivity.
  - discriminate.
Defined.
